(* ===== verification/_CoqProject ===== *)
-Q . S2P
Prelude.v
StdMap.v
Order.v
OrderFacts.v
MoneyFacts.v
OrderRepo.v
OrderService.v
ShopRefinement.v
OrderDemo.v
DeviceCommon.v
FsmCommon.v
SimpleFsm.v
HierFsm.v
HierFacts.v
OoFsm.v
DeviceControl.v
OoDevice.v
DeviceFacts.v
EventFsm.v
EventChart.v
EventDevice.v
DeviceModule.v
HierNode.v
NodeFacts.v
NodeReady.v
NodeRecovery.v
NodeReports.v
Plant.v
PlantFacts.v
Pipeline.v
ThreadPool.v
FloatText.v
UaTypes.v
StructParser.v
ParserMemory.v
NodeCache.v
CacheSpec.v
PlcClient.v
PollerMirror.v
PlcDemo.v
OpcuaClient.v
FloatFacts.v
DoubleText.v
Calculator.v
CalcMain.v
HfsmCore.v
HfsmExt.v
TrafficLight.v
HfsmClient.v
TcpConnection.v
OrderProcessor.v
ProtocolStack.v
DeviceManager.v
Threads.v
LockCases.v
CppMemory.v
CppVector.v
CrashCases.v
EventBus.v
Menu.v
Scenarios.v
DataTypeDemo.v
PlcTour.v
LoggerText.v
TypedMachine.v
HfsmTests.v
OrderTests.v
CacheDemo.v
