(* ===== verification/Prelude.v ===== *)
(** * A verification development for the programs of [src/]

    The repository is a set of C++ programs.  Each is modelled as a shallow
    embedding: its data as records and inductive types, its functions as
    executable definitions, its theorems about those definitions.  The files
    under [src/] are named by their path; a definition carries the name of the
    function it translates.

    ** Conventions

    This file holds what the models share.  A call that may throw or have no
    defined behaviour returns an [outcome]; a member function of an object of
    state [S] is a call of the monad [M S], which keeps the state a throwing
    call leaves behind.  [Undef] stands for the behaviour C++ leaves undefined
    (a null or end iterator used, a signed overflow, an uncaught loop).  Fixed
    width integers are [Z] with [uwrap] and [swrap], or [signed] where overflow
    is undefined.  A [std::function] is a call of the monad on the object's
    state and on the variables [W] it captures.  A [std::map] is the sorted list
    of its nodes ([StdMap], class [KeyOrder]) where its order is seen, a [gmap]
    otherwise.  Code outside [src/] (the open62541 services, a clock, the
    iteration order of an unordered map) is a parameter.  Standard output is an
    output list where a demonstration is modelled, and left out elsewhere.

    ** The parts and their files

    - The state-machine library [state_machine/include/hfsm]: [HfsmCore] is the
      engine ([core/machine.hpp], [event.hpp], [state.hpp]), [HfsmExt] the
      guards, actions, regions, history, deferral, statistics, logger and the
      transition builder ([core/], [ext/]), [LoggerText] the clock and the
      formatted messages of a log line; [TrafficLight], [TcpConnection],
      [OrderProcessor], [ProtocolStack] and [DeviceManager] are the machines of
      [examples/01] to [05] on that engine; [TypedMachine] is the machine whose
      states are types; [HfsmTests] runs the library's tests on the model.
      Theorems: the engine refines a control automaton (the current state after
      any events is the run of a pure next-state function); the current state
      stays registered, and what happens to an unregistered destination;
      deferred events are drained in order; [reset]; the identifiers of
      [TypedStateId] collide, so that all the tags of a typed machine are one
      state; history recalls what was recorded; the queue of
      deferred events is processed as a snapshot; the traffic light refines its
      published cycle.
    - The order service [ddd/]: [Order] is the domain, [OrderRepo] the
      repository interface (a class with its laws) and its in-memory instance
      (of fewer than 2^31 orders: the [int] index of a page is unbounded here),
      [OrderService] the use cases over any repository, [OrderDemo] the
      demonstration.  [OrderFacts] and [MoneyFacts] prove the aggregate's
      invariants, the errors of its calls, the exactness of the money format and
      of a discount; [ShopRefinement] that the service refines an
      abstract shop, a finite map of orders.  [OrderTests] runs the checks of
      [tests/order_domain_test.cpp] on the model.
    - The state machines of [state_machine_2/]: [FsmCommon] what they share,
      [SimpleFsm], [HierFsm], [OoFsm] and [EventFsm] the four machines,
      [DeviceCommon], [DeviceControl], [OoDevice] and [EventDevice] the device of
      [examples/device_control.cpp] on each.  [HierFacts] proves that the
      hierarchical machine refines a statechart over an acyclic hierarchy and
      that the common ancestor is the nearest; [EventFsm] that the worker handles
      events in order and drains its queue on [stop]; [EventChart] that under any
      interleaving of clients and worker the machine is its chart, run on one
      linear history of operations; [DeviceFacts] that the flat and the
      object-oriented device agree and that the power follows the state.
      The walks of [HierFsm] have the number of entries of the parent table plus
      one as fuel, enough on an acyclic table, and are [Undef] on a cyclic one.
    - The multi-device plant [ddd_multi_device/]: [DeviceModule] the modules,
      [HierNode] the node hierarchy with its router and store, [Plant] the
      controller and the scenarios.  [NodeFacts] proves that faults escalate
      exactly to the nodes above them whatever commands are sent, every command
      ending, and that a report's signature determines what it says;
      [NodeReports] that the last report the controller has of a top node is
      true; [NodeReady], [NodeRecovery] and [PlantFacts] that a wired plant whose
      plans fit into the hundred rounds of the controller gets ready and works
      once its faults are cleared, whatever commands it had before: a round
      promotes a node that is not ready, and the sum of what is left of the plans
      is the measure.  [DeviceModule] proves when a command is carried
      out and that it follows the documented table; sensors, which should take no
      commands, take all but one.  A walk up or down the tree has the number of nodes
      plus one as fuel, enough as no node is above itself.
    - The thread examples [threads/cancel/]: [Pipeline] and [ThreadPool].  The
      threads are interleaved sequences of atomic steps; stages and tasks are
      programs with loops, which need not end.  The stages run in order, the
      cleanup once, a stop skips the later stages and a blocked [stop] returns when
      the stages end once they see it; a pool's worker takes its tasks in order, a
      shut-down pool whose tasks end drains its queues, but its stop request misses
      the queued tasks, so one that polls for it never ends.  The pool starts as
      its constructor means to leave it: the constructor as written does not
      compile, and starts threads on workers that are not there yet.
    - The OPC UA programs [proto_opcua/]: [UaTypes] the memory and the types of
      the library, [StructParser] the parser and its printers, [NodeCache] the
      cache, [PlcClient] the client and the poller, [PlcDemo] the demos of
      [parse_project/main.cpp] and [PlcTour] its [main]; [OpcuaClient] the client
      of [opcua_client.cpp].  Memory is partial, and reading where nothing is has
      no defined behaviour.  A parsed value can always be printed; members are
      read at their padding; [ParserMemory] for which types the parser stays
      inside a value laid out as the library documents, and two for which it does
      not; the cache stays within its bound and evicts the oldest entry;
      [CacheSpec] that under concurrent writers, callbacks that throw included, it
      refines a bounded finite map; [PollerMirror] that a round of the poller
      leaves in the cache the parser's reading of what the server answers, when
      the parser can read it; [PlcTour] that the tour ends then too; what becomes
      of a variant read and written back; recursive browsing ends, and is the
      preorder when every identifier is numeric.
    - [EventBus] is the bus of [ddd_multi_device/], [Menu] the menu of
      [state_machine_2/main.cpp].  Every publication reaches the subscribers of
      its moment once and in order under any interleaving; the menu runs what is
      chosen and never ends when its input has.
    - [Scenarios] and [DataTypeDemo] are [proto_opcua/scenarios.cpp] and
      [ex/data_type_demo.cpp], scripts over the calls of [OpcuaClient]; what they
      print without a server, the branches that never run, the round trip of a
      batch through the serialized form.
    - The calculator [auto/]: [Calculator] is the class over [spec_float],
      [FloatFacts] which integers binary64 computes exactly, [DoubleText] the
      reading of a number by [std::stod], [CalcMain] the command line and the
      tests.  Integer results within 2^53 are computed exactly from the text of
      the operands; below a million all digits are printed, else six.
    - [CacheDemo] is the program of [ccache/]: its factorial is exact up to 12
      and overflows from 13 on.
    - The crash cases [crash_cases/]: [Threads] gives threads and mutexes,
      [LockCases] the programs 09 and 10 on them; [CppMemory] gives objects,
      pointers and the stack, [CppVector] a vector whose iterators become
      invalid, [CrashCases] the other programs.  Each crash case is undefined, or
      races, or hangs, where it is meant to be, and each repair is right: the
      locked counter is exact on every schedule, the threads that lock together
      are never stuck, the repaired loops keep what [remove_if] keeps.  A search
      of a finite set of states has 300 rounds of fuel, and the set is checked to
      be closed under steps.

    ** Not modelled

    The files a build generates, the protobuf messages of [opcua.pb.cc]
    included, are not the program's own.  The class template [TypedState] of
    [state.hpp] is used nowhere, and its constructor compiles for no struct.
    Of [crash_cases/] the accesses that only read an address of their own are as
    undefined as the standard has them, without what a machine then does.
    A change callback of the cache can throw, but not call the cache, whose mutex
    its caller holds.  Misaligned reads are taken as reads.
    Times, sleeps and the memory order of atomics are left out: an atomic access
    is one step, and a plain access to a shared counter a load and a store. *)
From Stdlib Require Export ZArith Lia.
From stdpp Require Export base tactics option list gmap strings pretty fin_maps relations numbers.
From stdpp Require Export list_basics list_relations list_monad list_misc list_tactics list_numbers list.

Declare Scope prog_scope.
Delimit Scope prog_scope with prog.

Create HintDb pres.
Create HintDb hfsm.
Create HintDb fsm.
Create HintDb rets.
Create Rewrite HintDb monad.

(** ** Outcomes of a C++ call

    A call returns a value, throws a standard exception (or one of the
    program's own, [UserError]), or has no defined behaviour ([Undef]): a null
    dereference, a failed [std::any_cast] that is dereferenced, a signed
    overflow, the erasure of an end iterator. *)
Inductive exn :=
  | LogicError (msg : string)
  | InvalidArgument (msg : string)
  | OutOfRange (msg : string)
  | UserError (code : Z).

Inductive outcome (A : Type) :=
  | Ret (a : A)
  | Throw (e : exn)
  | Undef.
Arguments Ret {A} a.
Arguments Throw {A} e.
Arguments Undef {A}.

#[export] Instance exn_eq_dec : EqDecision exn.
Proof. solve_decision. Defined.
#[export] Instance outcome_eq_dec `{EqDecision A} : EqDecision (outcome A).
Proof. solve_decision. Defined.

#[export] Instance outcome_ret : MRet outcome := @Ret.
#[export] Instance outcome_bind : MBind outcome := λ A B f m,
  match m with Ret a => f a | Throw e => Throw e | Undef => Undef end.

(** A result that is no exception, and is in [P] if there is one; and a result
    there is. *)
Definition unthrown {A} (P : A → Prop) (o : outcome A) : Prop :=
  match o with Ret a => P a | Throw _ => False | Undef => True end.
Definition defined {A} (o : outcome A) : Prop := ∃ a, o = Ret a.
Lemma unthrown_bind {A B} (P : A → Prop) (Q : B → Prop) (m : outcome A) (f : A → outcome B) :
  unthrown P m → (∀ a, P a → unthrown Q (f a)) → unthrown Q (m ≫= f).
Proof. destruct m; simpl; auto. Qed.
Lemma unthrown_mapM {A B} (Q : B → Prop) (f : A → outcome B) l :
  (∀ x, x ∈ l → unthrown Q (f x)) → unthrown (Forall Q) (mapM f l).
Proof.
  induction l as [|x l IH]; intros H; [by constructor|]. cbn [mapM]. apply (unthrown_bind Q); [apply H; by left|]. intros y Hy.
  apply (unthrown_bind (Forall Q)); [apply IH; intros z Hz; apply H; by right|]. intros ys Hys. by constructor.
Qed.
Lemma defined_ret {A} (a : A) : defined (Ret a).
Proof. by exists a. Qed.
Lemma defined_bind {A B} (m : outcome A) (f : A → outcome B) : defined m → (∀ a, defined (f a)) → defined (m ≫= f).
Proof. intros [a ->] Hf. apply Hf. Qed.
Lemma defined_mapM {A B} (f : A → outcome B) l : (∀ x, x ∈ l → defined (f x)) → defined (mapM f l).
Proof.
  induction l as [|x l IH]; intros H; [apply defined_ret|]. cbn [mapM]. apply defined_bind; [apply H; by left|]. intros y.
  apply defined_bind; [apply IH; intros z Hz; apply H; by right|]. intros ys. apply defined_ret.
Qed.
Lemma mapM_same {A B} (f g : A → outcome B) l : (∀ x, x ∈ l → f x = g x) → mapM f l = mapM g l.
Proof.
  induction l as [|x l IH]; intros H; [done|]. cbn [mapM]. rewrite (H x) by left. destruct (g x) as [y|e|]; [|done..]. simpl.
  by rewrite IH by (intros z Hz; apply H; by right).
Qed.
Create HintDb outcomes.
#[export] Hint Resolve defined_ret : outcomes.

(** ** The state and exception monad of the stateful components

    [M S A] is a call on an object of state [S]: the state it leaves behind is
    kept when it throws, as in the source, where a throwing callback leaves the
    members it had already written. *)
Definition M (S A : Type) : Type := S → outcome A * S.

#[export] Instance M_ret {S} : MRet (M S) := λ A a s, (Ret a, s).
#[export] Instance M_bind {S} : MBind (M S) := λ A B f m s,
  match m s with
  | (Ret a, s') => f a s'
  | (Throw e, s') => (Throw e, s')
  | (Undef, s') => (Undef, s')
  end.

Definition get {S} : M S S := λ s, (Ret s, s).
Definition put {S} (s : S) : M S unit := λ _, (Ret tt, s).
Definition modify {S} (f : S → S) : M S unit := λ s, (Ret tt, f s).
Definition throw {S A} (e : exn) : M S A := λ s, (Throw e, s).
Definition undef {S A} : M S A := λ s, (Undef, s).
Definition lift_outcome {S A} (o : outcome A) : M S A := λ s, (o, s).

Definition when {S} (b : bool) (m : M S unit) : M S unit :=
  if b then m else mret tt.

(** [for (x : xs) body(x)], in order. *)
Fixpoint for_each {S A} (body : A → M S unit) (xs : list A) : M S unit :=
  match xs with
  | [] => mret tt
  | x :: xs' => body x ;; for_each body xs'
  end.

Lemma M_bind_ret {S A B} (f : A → M S B) (m : M S A) s a s' :
  m s = (Ret a, s') → (m ≫= f) s = f a s'.
Proof. intros H. unfold mbind, M_bind. by rewrite H. Qed.

Lemma M_ret_bind {S A B} (f : A → M S B) (a : A) s : (mret a ≫= f) s = f a s.
Proof. done. Qed.

Lemma M_bind_get {S B} (f : S → M S B) s : (get ≫= f) s = f s s.
Proof. done. Qed.
Lemma M_bind_modify {S B} (g : S → S) (f : unit → M S B) s : (modify g ≫= f) s = f tt (g s).
Proof. done. Qed.
Lemma M_bind_assoc {S A B C} (m : M S A) (f : A → M S B) (g : B → M S C) s :
  ((m ≫= f) ≫= g) s = (m ≫= (λ a, f a ≫= g)) s.
Proof. unfold mbind, M_bind. by destruct (m s) as [[]?]. Qed.
Lemma for_each_app {S A} (body : A → M S unit) l1 l2 s : for_each body (l1 ++ l2) s = (for_each body l1;; for_each body l2) s.
Proof.
  revert s. induction l1 as [|x l1 IH]; intros s; [done|]. cbn [app for_each]. rewrite M_bind_assoc.
  unfold mbind at 1 2, M_bind at 1 2. destruct (body x s) as [[]?]; [apply IH|done..].
Qed.
#[export] Hint Rewrite @M_ret_bind @M_bind_get @M_bind_modify @M_bind_assoc : monad.

Lemma M_bind_inv {S A B} (f : A → M S B) (m : M S A) s b s'' :
  (m ≫= f) s = (Ret b, s'') → ∃ a s', m s = (Ret a, s') ∧ f a s' = (Ret b, s'').
Proof.
  unfold mbind, M_bind. destruct (m s) as [[a|e|] s'] eqn:E; intros H; simplify_eq/=.
  by exists a, s'.
Qed.

(** ** Preservation of an invariant by a call, however the call ends *)
Definition preserves {S A} (I : S → Prop) (m : M S A) : Prop :=
  ∀ s, I s → I (m s).2.


Section preserves.
Context {S : Type} (I : S → Prop).

Lemma pres_ret {A} (a : A) : preserves I (mret a).
Proof. by intros s Hs. Qed.

Lemma pres_bind {A B} (m : M S A) (f : A → M S B) :
  preserves I m → (∀ a, preserves I (f a)) → preserves I (m ≫= f).
Proof.
  intros Hm Hf s Hs. specialize (Hm s Hs). unfold mbind, M_bind.
  destruct (m s) as [[a|e|] s']; simpl in *; [by apply Hf|done..].
Qed.

Lemma pres_get {B} (f : S → M S B) :
  (∀ s, I s → I (f s s).2) → preserves I (get ≫= f).
Proof. intros Hf s Hs. by apply Hf. Qed.

Lemma pres_get_any {B} (f : S → M S B) :
  (∀ s, preserves I (f s)) → preserves I (get ≫= f).
Proof. intros Hf s Hs. by apply Hf. Qed.

Lemma pres_throw {A} e : preserves I (throw (A:=A) e).
Proof. by intros s Hs. Qed.

Lemma pres_undef {A} : preserves I (undef (A:=A)).
Proof. by intros s Hs. Qed.

Lemma pres_modify f : (∀ s, I s → I (f s)) → preserves I (modify f).
Proof. intros Hf s Hs. by apply Hf. Qed.

Lemma pres_lift {A} (o : outcome A) : preserves I (lift_outcome o).
Proof. by intros s Hs. Qed.

Lemma pres_when b m : preserves I m → preserves I (when b m).
Proof. destruct b; [done|]. intros _. apply pres_ret. Qed.

Lemma pres_for_each {A} (body : A → M S unit) xs :
  (∀ x, x ∈ xs → preserves I (body x)) → preserves I (for_each body xs).
Proof.
  induction xs as [|x xs IH]; intros Hb; simpl; [apply pres_ret|].
  apply pres_bind; [apply Hb; left|]. intros _. apply IH. intros y Hy.
  apply Hb. by right.
Qed.
End preserves.

#[export] Hint Resolve pres_ret pres_bind pres_throw pres_undef pres_modify
  pres_lift pres_when pres_for_each : pres.

(** ** Calls that always return a value *)
Definition always_returns {S A} (m : M S A) : Prop := ∀ s, ∃ a s', m s = (Ret a, s').
Lemma returns_ret {S A} (a : A) : always_returns (S := S) (mret a).
Proof. intros s. by exists a, s. Qed.
Lemma returns_bind {S A B} (m : M S A) (f : A → M S B) :
  always_returns m → (∀ a, always_returns (f a)) → always_returns (m ≫= f).
Proof. intros Hm Hf s. destruct (Hm s) as (a & s' & H). rewrite (M_bind_ret _ _ _ _ _ H). apply Hf. Qed.
Lemma returns_modify {S} (f : S → S) : always_returns (modify f).
Proof. intros s. by exists tt, (f s). Qed.
Lemma returns_lift {S A} (a : A) : always_returns (S := S) (lift_outcome (Ret a)).
Proof. intros s. by exists a, s. Qed.
Lemma returns_for_each {S A} (body : A → M S unit) xs : (∀ x, always_returns (body x)) → always_returns (for_each body xs).
Proof. intros Hb. induction xs as [|x xs IH]; simpl; [apply returns_ret|]. by apply returns_bind. Qed.
#[export] Hint Resolve returns_ret returns_modify returns_lift : rets.
Ltac returns_step :=
  match goal with
  | |- always_returns (_ ≫= _) => apply returns_bind; [|intros ?]
  | |- always_returns (for_each _ _) => apply returns_for_each; intros ?
  | |- always_returns (if ?b then _ else _) => destruct b
  | |- always_returns _ => solve [eauto with rets]
  end.

(** Splits a [preserves] goal along the monadic structure of the call. *)
Ltac pres_step :=
  match goal with
  | |- preserves _ (mret _) => apply pres_ret
  | |- preserves _ (throw _) => apply pres_throw
  | |- preserves _ undef => apply pres_undef
  | |- preserves _ (lift_outcome _) => apply pres_lift
  | |- preserves _ (when _ _) => apply pres_when
  | |- preserves _ (get ≫= _) => apply pres_get; intros ??; simpl
  | |- preserves _ (modify _) => apply pres_modify; intros ??
  | |- preserves _ (_ ≫= _) => apply pres_bind; [|intros ?]
  | |- preserves _ (if ?b then _ else _) => destruct b
  | |- preserves _ (match ?o with _ => _ end) => destruct o
  end.
Ltac pres := repeat pres_step; eauto with pres.

(** ** Machine integers *)

(** A value of an unsigned [w]-bit type, after the wrap-around of the standard. *)
Definition uwrap (w z : Z) : Z := z mod 2 ^ w.
Definition in_unsigned (w z : Z) : bool := (0 <=? z)%Z && (z <? 2 ^ w)%Z.
(** A value of a signed [w]-bit atomic, which wraps around (two's complement). *)
Definition swrap (w z : Z) : Z := ((z + 2 ^ (w - 1)) mod 2 ^ w - 2 ^ (w - 1))%Z.
(** The range of a signed [w]-bit type, and an arithmetic result in it: outside
    the range the standard gives no behaviour. *)
Definition in_signed (w z : Z) : bool := (- 2 ^ (w - 1) <=? z)%Z && (z <? 2 ^ (w - 1))%Z.
Definition signed (w z : Z) : outcome Z := if in_signed w z then Ret z else Undef.


Definition INT32 : Z := 32.
Definition INT64 : Z := 64.

Lemma in_signed_spec w z : in_signed w z = true ↔ (- 2 ^ (w - 1) ≤ z < 2 ^ (w - 1))%Z.
Proof. unfold in_signed. rewrite andb_true_iff, Z.leb_le, Z.ltb_lt. done. Qed.

Lemma in_unsigned_spec w z : in_unsigned w z = true ↔ (0 ≤ z < 2 ^ w)%Z.
Proof. unfold in_unsigned. rewrite andb_true_iff, Z.leb_le, Z.ltb_lt. done. Qed.

Lemma signed_Ret w z : (- 2 ^ (w - 1) ≤ z < 2 ^ (w - 1))%Z → signed w z = Ret z.
Proof. intros H. unfold signed. by rewrite (proj2 (in_signed_spec w z)). Qed.

Lemma signed_inv w z z' : signed w z = Ret z' → z' = z ∧ (- 2 ^ (w - 1) ≤ z < 2 ^ (w - 1))%Z.
Proof.
  unfold signed. destruct (in_signed w z) eqn:E; [|done].
  intros [= <-]. by apply in_signed_spec in E.
Qed.

Lemma uwrap_small w z : (0 ≤ z < 2 ^ w)%Z → uwrap w z = z.
Proof. apply Z.mod_small. Qed.

Lemma swrap_small w z : (0 < w → - 2 ^ (w - 1) ≤ z < 2 ^ (w - 1) → swrap w z = z)%Z.
Proof.
  intros Hw Hz. unfold swrap.
  assert (2 ^ w = 2 * 2 ^ (w - 1))%Z as -> by (rewrite <- Z.pow_succ_r by lia; f_equal; lia).
  rewrite Z.mod_small by lia. lia.
Qed.

Lemma uwrap_range w z : (0 < 2 ^ w)%Z → (0 ≤ uwrap w z < 2 ^ w)%Z.
Proof. apply Z.mod_pos_bound. Qed.

(** [m |> f]: building an object by a sequence of calls on it. *)
Notation "m |> f" := (f m) (at level 61, left associativity, only parsing) : prog_scope.

(** ** The decimal text of a number *)
Lemma string_append_assoc s t u : (s +:+ t) +:+ u = s +:+ (t +:+ u).
Proof. induction s as [|a s IH]; [done|]. change (String a ((s +:+ t) +:+ u) = String a (s +:+ (t +:+ u))). by rewrite IH. Qed.
(** What holds of the ten digits holds of every digit. *)
Lemma digit_cases (P : N → Prop) : Forall P [0; 1; 2; 3; 4; 5; 6; 7; 8; 9]%N → ∀ d, (d < 10)%N → P d.
Proof.
  intros HP d Hd. rewrite Forall_forall in HP. apply HP.
  assert (d = 0 ∨ d = 1 ∨ d = 2 ∨ d = 3 ∨ d = 4 ∨ d = 5 ∨ d = 6 ∨ d = 7 ∨ d = 8 ∨ d = 9)%N as Hc by lia.
  by destruct_or! Hc; subst; repeat constructor.
Qed.
Lemma pretty_go_app (n : N) s : pretty_N_go n s = pretty_N_go n "" +:+ s.
Proof.
  revert s. induction (N.lt_wf_0 n) as [n _ IH]. intros s.
  destruct (decide (n = 0)%N) as [->|Hn]; [by rewrite !pretty_N_go_0|].
  rewrite (pretty_N_go_step n s), (pretty_N_go_step n "") by lia.
  assert (n `div` 10 < n)%N as Hlt by (apply N.div_lt; lia).
  rewrite (IH _ Hlt (String _ s)), (IH _ Hlt (String _ "")). by rewrite string_append_assoc.
Qed.
Lemma pretty_pos_app (p : positive) s : pretty (Zpos p) +:+ s = pretty_N_go (Npos p) s.
Proof.
  change (pretty (Z.pos p)) with (pretty (N.pos p)). unfold pretty, pretty_N. rewrite decide_False by done.
  by rewrite (pretty_go_app _ s).
Qed.
(** The text starts with the first digit, which is not zero. *)
Lemma pretty_go_head (n : N) s : (0 < n)%N → ∃ d t, (d < 10)%N ∧ d ≠ 0%N ∧ pretty_N_go n s = String (pretty_N_char d) t.
Proof.
  revert s. induction (N.lt_wf_0 n) as [n _ IH]. intros s Hn. rewrite pretty_N_go_step by lia.
  destruct (decide (n `div` 10 = 0)%N) as [E|E].
  - rewrite E, pretty_N_go_0. eexists _, _. split; [apply N.mod_lt; lia|]. split; [|done].
    pose proof (N.div_mod n 10 ltac:(done)). lia.
  - apply IH; [apply N.div_lt; lia|by apply N.neq_0_lt_0].
Qed.

(** ** Lists *)
Lemma default_last_cons {A} (d x : A) (l : list A) :
  default d (last (x :: l)) = default x (last l).
Proof. rewrite last_cons. by destruct (last l). Qed.

(** ** Case analysis on everything in sight *)
Ltac case_all :=
  repeat (case_match; simplify_eq/=).

(** Closes a goal that evaluation decides. *)
Ltac by_compute := vm_compute; first [done | repeat split; done].

Lemma rtc_preserves {A} (R : relation A) (P : A → Prop) x y :
  (∀ a b, P a → R a b → P b) → P x → rtc R x y → P y.
Proof. intros Hstep Hx Hrtc. induction Hrtc; eauto. Qed.
