(* ===== verification/StdMap.v ===== *)
(** * [std::map] as the list of its nodes in key order

    Where the source iterates over a [std::map] the order of the keys is
    observable, so the map is the sorted list that the iteration visits.  The
    laws below turn it into a finite map. *)
From Stdlib Require Import Sorting.Sorted.
From S2P Require Import Prelude.

(** The comparison [std::less<K>] of the key type. *)
Class KeyOrder (K : Type) `{EqDecision K} := {
  klt : K → K → bool;
  klt_irrefl k : klt k k = false;
  klt_trans a b c : klt a b = true → klt b c = true → klt a c = true;
  klt_total a b : a ≠ b → klt a b = true ∨ klt b a = true
}.

Section stdmap.
Context {K : Type} `{KeyOrder K} {V : Type}.
Implicit Types (k : K) (v : V) (m : list (K * V)).

(** [find], [insert_or_assign] (and assignment through [operator[]]), [erase]. *)
Fixpoint mfind k m : option V :=
  match m with
  | [] => None
  | (k', v) :: m' => if decide (k = k') then Some v else mfind k m'
  end.
Fixpoint minsert k v m : list (K * V) :=
  match m with
  | [] => [(k, v)]
  | (k', v') :: m' =>
      if klt k k' then (k, v) :: m
      else if klt k' k then (k', v') :: minsert k v m'
      else (k, v) :: m'
  end.
Fixpoint merase k m : list (K * V) :=
  match m with
  | [] => []
  | (k', v') :: m' => if decide (k = k') then m' else (k', v') :: merase k m'
  end.

Definition msorted m : Prop := StronglySorted (λ p q, klt p.1 q.1 = true) m.

Lemma klt_ne a b : klt a b = true → a ≠ b.
Proof. intros Hab ->. by rewrite klt_irrefl in Hab. Qed.
Lemma klt_asym a b : klt a b = true → klt b a = false.
Proof.
  intros Hab. destruct (klt b a) eqn:Hba; [|done].
  by rewrite <- (klt_irrefl a), (klt_trans a b a).
Qed.
Lemma klt_tie a b : klt a b = false → klt b a = false → a = b.
Proof. intros Hab Hba. destruct (decide (a = b)) as [|Hne]; [done|]. destruct (klt_total a b Hne); congruence. Qed.

Lemma mfind_minsert_eq k v m : mfind k (minsert k v m) = Some v.
Proof.
  induction m as [|[k' v'] m IH]; simpl; [by rewrite decide_True|].
  destruct (klt k k') eqn:E1; simpl; [by rewrite decide_True|].
  destruct (klt k' k) eqn:E2; simpl; [|by rewrite decide_True].
  rewrite decide_False; [done|]. intros ->. by rewrite klt_irrefl in E2.
Qed.

Lemma mfind_minsert_ne k k2 v m : k2 ≠ k → mfind k2 (minsert k v m) = mfind k2 m.
Proof.
  intros Hne. induction m as [|[k' v'] m IH]; simpl; [by rewrite decide_False|].
  destruct (klt k k') eqn:E1; simpl; [by rewrite decide_False|].
  destruct (klt k' k) eqn:E2; simpl; [by destruct (decide _)|].
  rewrite <- (klt_tie k k' E1 E2). by rewrite !decide_False.
Qed.

Lemma mfind_elem k v m : msorted m → mfind k m = Some v ↔ (k, v) ∈ m.
Proof.
  induction 1 as [|[k' v'] m Hs IH Hall]; simpl; [split; [done|by intros ?%elem_of_nil]|].
  rewrite elem_of_cons. destruct (decide (k = k')) as [->|Hne].
  - split; [intros [= ->]; by left|]. intros [[= ->]|Hin]; [done|].
    rewrite Forall_forall in Hall. specialize (Hall _ Hin). simpl in Hall.
    by rewrite klt_irrefl in Hall.
  - rewrite IH. split; [by right|]. by intros [[= ? ?]|?].
Qed.

Lemma minsert_in p k v m : p ∈ minsert k v m → p = (k, v) ∨ p ∈ m.
Proof.
  induction m as [|[k' v'] m IH]; simpl; [rewrite list_elem_of_singleton; by left|].
  destruct (klt k k'); [by rewrite !elem_of_cons; tauto|].
  destruct (klt k' k); rewrite !elem_of_cons; tauto.
Qed.

Lemma minsert_sorted k v m : msorted m → msorted (minsert k v m).
Proof.
  induction 1 as [|[k' v'] m Hs IH Hall]; simpl; [repeat constructor|].
  destruct (klt k k') eqn:E1.
  - repeat constructor; [done..|]. eapply Forall_impl; [done|].
    intros [k2 v2] Hk. simpl in *. by eapply klt_trans.
  - destruct (klt k' k) eqn:E2.
    + constructor; [done|]. apply Forall_forall. intros p [->|Hin]%minsert_in; [done|].
      by rewrite Forall_forall in Hall; apply Hall.
    + rewrite (klt_tie k k') by done. by constructor.
Qed.

Lemma minsert_length k v v0 m :
  msorted m → mfind k m = Some v0 → length (minsert k v m) = length m.
Proof.
  induction 1 as [|[k' v'] m Hs IH Hall]; simpl; [done|].
  destruct (decide (k = k')) as [->|Hne].
  - intros _. by rewrite klt_irrefl.
  - intros Hf. destruct (klt k k') eqn:E1; [|destruct (klt k' k); simpl; [by rewrite IH|done]].
    apply mfind_elem in Hf; [|done]. rewrite Forall_forall in Hall. specialize (Hall _ Hf). simpl in Hall.
    by rewrite (klt_asym k k' E1) in Hall.
Qed.

Lemma merase_in p k m : p ∈ merase k m → p ∈ m.
Proof.
  induction m as [|[k' v'] m IH]; simpl; [done|].
  destruct (decide (k = k')); rewrite !elem_of_cons; tauto.
Qed.
Lemma merase_sorted k m : msorted m → msorted (merase k m).
Proof.
  induction 1 as [|[k' v'] m Hs IH Hall]; simpl; [constructor|].
  destruct (decide (k = k')); [done|]. constructor; [done|].
  apply Forall_forall. intros p Hp%merase_in. by rewrite Forall_forall in Hall; apply Hall.
Qed.
Lemma mfind_merase_eq k m : msorted m → mfind k (merase k m) = None.
Proof.
  induction 1 as [|[k' v'] m Hs IH Hall]; simpl; [done|].
  destruct (decide (k = k')) as [->|Hne]; [|simpl; by rewrite decide_False].
  destruct (mfind k' m) eqn:E; [|done]. apply mfind_elem in E; [|done].
  rewrite Forall_forall in Hall. specialize (Hall _ E). simpl in Hall.
  by rewrite klt_irrefl in Hall.
Qed.
Lemma mfind_merase_ne k k2 m : k2 ≠ k → mfind k2 (merase k m) = mfind k2 m.
Proof.
  intros Hne. induction m as [|[k' v'] m IH]; simpl; [done|].
  destruct (decide (k = k')) as [->|]; simpl; [by rewrite decide_False|]. by destruct (decide _).
Qed.

Lemma msorted_NoDup_keys m : msorted m → NoDup m.*1.
Proof.
  induction 1 as [|[k' v'] m Hs IH Hall]; simpl; [constructor|]. constructor; [|done].
  intros [[k2 v2] [Hk Hin]]%list_elem_of_fmap. simpl in Hk; subst.
  rewrite Forall_forall in Hall. specialize (Hall _ Hin). simpl in Hall.
  by rewrite klt_irrefl in Hall.
Qed.
End stdmap.

#[export] Hint Resolve minsert_sorted merase_sorted : core.

(** [std::less<std::string>]: the byte-wise lexicographic order. *)
Fixpoint string_ltb (s t : string) : bool :=
  match s, t with
  | _, EmptyString => false
  | EmptyString, String _ _ => true
  | String a s', String b t' =>
      (Ascii.N_of_ascii a <? Ascii.N_of_ascii b)%N
      || (bool_decide (a = b) && string_ltb s' t')
  end.

Lemma string_ltb_irrefl s : string_ltb s s = false.
Proof. induction s as [|a s IH]; simpl; [done|]. by rewrite N.ltb_irrefl, IH, andb_false_r. Qed.
Lemma string_ltb_trans s t u :
  string_ltb s t = true → string_ltb t u = true → string_ltb s u = true.
Proof.
  revert t u. induction s as [|a s IH]; intros [|b t] [|c u]; simpl; try done.
  rewrite !orb_true_iff, !andb_true_iff, !N.ltb_lt, !bool_decide_eq_true.
  intros [H1|[-> H1]] [H2|[-> H2]].
  - left. by etrans.
  - by left.
  - by left.
  - right. split; [done|]. by eapply IH.
Qed.
Lemma string_ltb_total s t : s ≠ t → string_ltb s t = true ∨ string_ltb t s = true.
Proof.
  revert t. induction s as [|a s IH]; intros [|b t] Hne; simpl; [done|by left|by right|].
  rewrite !orb_true_iff, !andb_true_iff, !N.ltb_lt, !bool_decide_eq_true.
  destruct (decide (a = b)) as [->|Hab].
  - assert (s ≠ t) as Hst by congruence. destruct (IH t Hst); auto.
  - assert (Ascii.N_of_ascii a ≠ Ascii.N_of_ascii b) as HN.
    { intros E. apply Hab. by rewrite <- (Ascii.ascii_N_embedding a), E, Ascii.ascii_N_embedding. }
    destruct (N.lt_trichotomy (Ascii.N_of_ascii a) (Ascii.N_of_ascii b)) as [|[|]]; auto; done.
Qed.
#[export] Instance string_order : KeyOrder string := {|
  klt := string_ltb; klt_irrefl := string_ltb_irrefl;
  klt_trans := string_ltb_trans; klt_total := string_ltb_total |}.

#[export] Program Instance Z_order : KeyOrder Z := {| klt := Z.ltb |}.
Next Obligation. intros. apply Z.ltb_irrefl. Qed.
Next Obligation. intros a b c. rewrite !Z.ltb_lt. lia. Qed.
Next Obligation. intros a b. rewrite !Z.ltb_lt. lia. Qed.
