(* ===== verification/Order.v ===== *)
(** * The order domain of [ddd/src/domain] and [ddd/src/common]

    [Money] on 64-bit cents, the [Result] type, the [Order] aggregate with its
    status machine, and the pricing service.  A signed overflow, which the
    source leaves undefined, is the outcome [Undef]. *)
From S2P Require Import Prelude.

(** ** [common/domain_error.h] and [common/result.h] *)
Inductive ErrorCode :=
  | None_ | NotFound | EmptyOrder | InvalidQuantity | InvalidUnitPrice
  | StatusTransition | OrderLocked | AlreadyShipped | AlreadyCancelled.
#[export] Instance ErrorCode_eq_dec : EqDecision ErrorCode.
Proof. solve_decision. Defined.

Record DomainError := mkDomainError { code : ErrorCode; message : string }.
Definition defaultMessage (c : ErrorCode) : string :=
  match c with
  | NotFound => "order not found"
  | EmptyOrder => "empty order cannot be submitted"
  | InvalidQuantity => "quantity must be positive"
  | InvalidUnitPrice => "unit price must be non-negative"
  | StatusTransition => "illegal status transition"
  | OrderLocked => "order items are locked after submission"
  | AlreadyShipped => "order already shipped and cannot be cancelled"
  | AlreadyCancelled => "order already cancelled"
  | None_ => "unknown domain error"
  end.
Definition new_DomainError (c : ErrorCode) (msg : string) : DomainError :=
  {| code := c; message := if decide (msg = "") then defaultMessage c else msg |}.
Definition name (c : ErrorCode) : string :=
  match c with
  | NotFound => "NotFound"
  | EmptyOrder => "EmptyOrder"
  | InvalidQuantity => "InvalidQuantity"
  | InvalidUnitPrice => "InvalidUnitPrice"
  | StatusTransition => "StatusTransition"
  | OrderLocked => "OrderLocked"
  | AlreadyShipped => "AlreadyShipped"
  | AlreadyCancelled => "AlreadyCancelled"
  | None_ => "None"
  end.

Inductive Result (A : Type) := ok (v : A) | err (e : DomainError).
Arguments ok {A} v.
Arguments err {A} e.
(** [Result<T>::err(DomainError(c))] *)
Definition fails {A} (c : ErrorCode) : Result A := err (new_DomainError c "").
Definition is_ok {A} (r : Result A) : bool := match r with ok _ => true | err _ => false end.
Definition value {A} (r : Result A) : outcome A :=
  match r with
  | ok v => Ret v
  | err e => Throw (LogicError ("Result::value on error: " +:+ message e))
  end.
Definition err_of {A} (r : Result A) : outcome DomainError :=
  match r with ok _ => Throw (LogicError "Result::err on ok") | err e => Ret e end.

(** ** [domain/money.h], [domain/money.cpp] *)
Module Money.
Record Money := cents { cents_ : Z }.
Definition zero : Money := cents 0.
Definition add (a b : Money) : outcome Money := c ← signed 64 (cents_ a + cents_ b); mret (cents c).
Definition sub (a b : Money) : outcome Money := c ← signed 64 (cents_ a - cents_ b); mret (cents c).
Definition mul (a : Money) (n : Z) : outcome Money := c ← signed 64 (cents_ a * n); mret (cents c).
Definition eqb (a b : Money) : bool := (cents_ a =? cents_ b)%Z.
Definition ltb (a b : Money) : bool := (cents_ a <? cents_ b)%Z.
Definition geb (a b : Money) : bool := (cents_ b <=? cents_ a)%Z.
Definition is_zero (a : Money) : bool := (cents_ a =? 0)%Z.

(** [%02lld] on a value below 100. *)
Definition pad2 (n : Z) : string := if (n <? 10)%Z then "0" +:+ pretty n else pretty n.
(** [snprintf] into a buffer of [n] bytes keeps at most [n - 1] characters. *)
Definition snprintf (n : nat) (s : string) : string := String.substring 0 (n - 1) s.
Definition format (m : Money) : outcome string :=
  let c := cents_ m in
  let neg := (c <? 0)%Z in
  abs ← (if neg then signed 64 (- c) else Ret c);
  let yuan := (abs `quot` 100)%Z in
  let fen := (abs `rem` 100)%Z in
  let s := snprintf 32 (pretty yuan +:+ "." +:+ pad2 fen) in
  mret (if neg then "-" +:+ s else s).
End Money.
Abbreviation Money := Money.Money.

(** ** [domain/order_status.h] *)
Module Status.
Inductive OrderStatus := Created | Confirmed | Shipped | Completed | Cancelled.
#[export] Instance OrderStatus_eq_dec : EqDecision OrderStatus.
Proof. solve_decision. Defined.
Definition canTransit (from to : OrderStatus) : bool :=
  match from with
  | Created => bool_decide (to = Confirmed) || bool_decide (to = Cancelled)
  | Confirmed => bool_decide (to = Shipped) || bool_decide (to = Cancelled)
  | Shipped => bool_decide (to = Completed)
  | _ => false
  end.
Definition isTerminal (s : OrderStatus) : bool :=
  bool_decide (s = Completed) || bool_decide (s = Cancelled).
Definition label (s : OrderStatus) : string :=
  match s with
  | Created => "Created"
  | Confirmed => "Confirmed"
  | Shipped => "Shipped"
  | Completed => "Completed"
  | Cancelled => "Cancelled"
  end.
End Status.
Import Status.

(** ** [domain/order_item.h] *)
Module Item.
Record OrderItem := mkItem { product_ : string; quantity_ : Z; unit_price_ : Money }.
Definition create (product : string) (qty : Z) (unit_price : Money) : Result OrderItem :=
  if (qty <=? 0)%Z then fails InvalidQuantity
  else if Money.ltb unit_price Money.zero then fails InvalidUnitPrice
  else ok {| product_ := product; quantity_ := qty; unit_price_ := unit_price |}.
Definition lineTotal (it : OrderItem) : outcome Money := Money.mul (unit_price_ it) (quantity_ it).
Definition setQuantity (q : Z) (it : OrderItem) : OrderItem :=
  if (0 <? q)%Z
  then {| product_ := product_ it; quantity_ := q; unit_price_ := unit_price_ it |}
  else it.
End Item.
Import Item.

(** ** [domain/order_id.h]: values wrapping strings *)
Record OrderId := mkOrderId { order_id_value : string }.
Record CustomerId := mkCustomerId { customer_id_value : string }.
Record Address := mkAddress { city_ : string; street_ : string; detail_ : string }.
#[export] Instance OrderId_eq_dec : EqDecision OrderId.
Proof. solve_decision. Defined.

(** ** [domain/order.h]: the events and the aggregate root *)
Inductive DomainEvent :=
  | OrderSubmitted (order_id : OrderId) (total : Money)
  | OrderCancelled (order_id : OrderId).

Record Order := mkOrder {
  id_ : OrderId;
  customer_ : CustomerId;
  addr_ : Address;
  status_ : OrderStatus;
  items_ : list OrderItem
}.
Definition new_Order (id : OrderId) (customer : CustomerId) (addr : Address) : Order :=
  {| id_ := id; customer_ := customer; addr_ := addr; status_ := Created; items_ := [] |}.
Definition set_status (s : OrderStatus) (o : Order) : Order :=
  {| id_ := id_ o; customer_ := customer_ o; addr_ := addr_ o; status_ := s; items_ := items_ o |}.
Definition set_items (l : list OrderItem) (o : Order) : Order :=
  {| id_ := id_ o; customer_ := customer_ o; addr_ := addr_ o; status_ := status_ o; items_ := l |}.

Definition itemCount (o : Order) : nat := length (items_ o).
Definition total_from (t : Money) (items : list OrderItem) : outcome Money :=
  foldl (λ acc it, t ← acc; l ← lineTotal it; Money.add t l) (Ret t) items.
Definition total (o : Order) : outcome Money := total_from Money.zero (items_ o).

Definition addItem (product : string) (qty : Z) (price : Money) : M Order (Result unit) :=
  o ← get;
  if decide (status_ o = Confirmed) then mret (fails OrderLocked)
  else match create product qty price with
       | err e => mret (err e)
       | ok it => modify (set_items (items_ o ++ [it])) ;; mret (ok tt)
       end.

Definition setQuantity (idx : nat) (qty : Z) : M Order unit :=
  o ← get;
  if decide (status_ o = Confirmed) then mret tt
  else match items_ o !! idx with
       | Some it => modify (set_items (<[idx := Item.setQuantity qty it]> (items_ o)))
       | None => mret tt
       end.

Definition removeItem (idx : nat) : M Order (Result unit) :=
  o ← get;
  if decide (status_ o = Confirmed) then mret (fails OrderLocked)
  else if decide (length (items_ o) ≤ idx) then mret (fails NotFound)
  else modify (set_items (delete idx (items_ o))) ;; mret (ok tt).

Definition submit : M Order (Result Money) :=
  o ← get;
  if decide (items_ o = []) then mret (fails EmptyOrder)
  else if canTransit (status_ o) Confirmed
  then modify (set_status Confirmed) ;;
       o' ← get; t ← lift_outcome (total o'); mret (ok t)
  else mret (fails StatusTransition).

Definition ship : M Order (Result unit) :=
  o ← get;
  if canTransit (status_ o) Shipped
  then modify (set_status Shipped) ;; mret (ok tt)
  else mret (fails StatusTransition).

Definition complete : M Order (Result unit) :=
  o ← get;
  if canTransit (status_ o) Completed
  then modify (set_status Completed) ;; mret (ok tt)
  else mret (fails StatusTransition).

Definition cancel (reason : string) : M Order (Result unit) :=
  o ← get;
  if decide (status_ o = Shipped) then mret (fails AlreadyShipped)
  else if decide (status_ o = Cancelled) then mret (fails AlreadyCancelled)
  else if canTransit (status_ o) Cancelled
  then modify (set_status Cancelled) ;; mret (ok tt)
  else mret (fails StatusTransition).

(** [dispatch(p)] for a non-null publisher: the events it receives. *)
Definition dispatch (o : Order) : outcome (list DomainEvent) :=
  match status_ o with
  | Confirmed => t ← total o; mret [OrderSubmitted (id_ o) t]
  | Cancelled => mret [OrderCancelled (id_ o)]
  | _ => mret []
  end.

(** ** [domain/order_pricing_service.h] *)
Module Pricing.
Record Quote := mkQuote { subtotal : Money; discount_percent : Z; quote_total : Money }.
Definition threshold_ : Money := Money.cents 50000.
Definition max_discount_percent_ : Z := 15.
Definition apply (subtotal : Money) (percent : Z) : outcome Money :=
  if (percent <=? 0)%Z then Ret subtotal
  else r ← signed 32 (100 - percent);
       c ← signed 64 (Money.cents_ subtotal * r);
       mret (Money.cents (c `quot` 100)).
Definition discount (subtotal : Money) (discount_percent_limit : Z) : outcome Quote :=
  let pct := if Money.geb subtotal threshold_ && (0 <? discount_percent_limit)%Z
             then Z.min discount_percent_limit max_discount_percent_ else 0%Z in
  total ← apply subtotal pct;
  mret {| subtotal := subtotal; discount_percent := pct; quote_total := total |}.
End Pricing.
