(* ===== verification/OrderFacts.v ===== *)
(** * What the order domain guarantees

    The invariants INV-1 to INV-7 of [ddd/docs] over arbitrary sequences of
    calls on an [Order], the exactness of the money arithmetic, and the bounds
    of the pricing service. *)
From S2P Require Import Prelude Order.
Import Status Item.
Local Open Scope Z_scope.

(** ** The calls a client can make on an aggregate *)
Inductive cmd :=
  | CAddItem (product : string) (qty : Z) (price : Money)
  | CSetQuantity (idx : nat) (qty : Z)
  | CRemoveItem (idx : nat)
  | CSubmit | CShip | CComplete
  | CCancel (reason : string).

(** The order a call leaves behind, and the error code it reports. *)
Definition report {A} (r : outcome (Result A)) : option ErrorCode :=
  match r with Ret (err e) => Some (code e) | _ => None end.
Definition exec (c : cmd) (o : Order) : Order :=
  match c with
  | CAddItem p q m => (addItem p q m o).2
  | CSetQuantity i q => (Order.setQuantity i q o).2
  | CRemoveItem i => (removeItem i o).2
  | CSubmit => (submit o).2
  | CShip => (ship o).2
  | CComplete => (complete o).2
  | CCancel r => (cancel r o).2
  end.
Definition error_of (c : cmd) (o : Order) : option ErrorCode :=
  match c with
  | CAddItem p q m => report (addItem p q m o).1
  | CSetQuantity i q => None
  | CRemoveItem i => report (removeItem i o).1
  | CSubmit => report (submit o).1
  | CShip => report (ship o).1
  | CComplete => report (complete o).1
  | CCancel r => report (cancel r o).1
  end.
Definition exec_all (cs : list cmd) (o : Order) : Order := foldl (flip exec) o cs.

(** ** The specification *)
(** INV-2 *)
Definition item_ok (it : OrderItem) : Prop := 0 < quantity_ it ∧ 0 ≤ Money.cents_ (unit_price_ it).
#[export] Instance item_ok_dec it : Decision (item_ok it).
Proof. unfold item_ok. apply _. Defined.
(** INV-3: the mathematical total. *)
Definition amount (l : list OrderItem) : Z :=
  foldr (λ it s, Money.cents_ (unit_price_ it) * quantity_ it + s) 0 l.
(** INV-4: what each call does to the status. *)
Definition next_status (c : cmd) (o : Order) : OrderStatus :=
  match c, status_ o with
  | CSubmit, Created => if decide (items_ o = []) then Created else Confirmed
  | CShip, Confirmed => Shipped
  | CComplete, Shipped => Completed
  | CCancel _, (Created | Confirmed) => Cancelled
  | _, s => s
  end.
(** What each call does to the items. *)
Definition next_items (c : cmd) (o : Order) : list OrderItem :=
  if decide (status_ o = Confirmed) then items_ o
  else match c with
       | CAddItem p q m =>
           if (0 <? q) && (0 <=? Money.cents_ m) then items_ o ++ [mkItem p q m] else items_ o
       | CSetQuantity i q => if 0 <? q then alter (Item.setQuantity q) i (items_ o) else items_ o
       | CRemoveItem i => delete i (items_ o)
       | _ => items_ o
       end.

(** ** Each call refines the specification *)
Lemma insert_alter {A} (f : A → A) (l : list A) (i : nat) x :
  l !! i = Some x → <[i := f x]> l = alter f i l.
Proof.
  intros Hx. apply list_eq. intros j. destruct (decide (i = j)) as [<-|Hne].
  - by rewrite list_lookup_alter_eq, list_lookup_insert_eq, Hx by (by eapply lookup_lt_Some).
  - by rewrite list_lookup_alter_ne, list_lookup_insert_ne.
Qed.
Lemma alter_None {A} (f : A → A) (l : list A) (i : nat) : l !! i = None → alter f i l = l.
Proof.
  intros Hx. apply list_eq. intros j. destruct (decide (i = j)) as [<-|Hne].
  - by rewrite list_lookup_alter_eq, Hx.
  - by rewrite list_lookup_alter_ne.
Qed.

Lemma lift_mret_snd {S A B} (o : outcome A) (f : A → B) (s : S) :
  ((x ← lift_outcome o; mret (f x)) s).2 = s.
Proof. by destruct o. Qed.

Ltac order_exec :=
  match goal with |- context [exec _ ?o] => destruct o as [id cu ad st l] end;
  unfold exec, next_items, next_status, set_items, set_status; simpl;
  autorewrite with monad; simpl.

Lemma exec_setQuantity i q o :
  exec (CSetQuantity i q) o = set_items (next_items (CSetQuantity i q) o) o.
Proof.
  order_exec. unfold Order.setQuantity. autorewrite with monad. simpl.
  destruct (decide (st = Confirmed)); [done|].
  destruct (l !! i) as [it|] eqn:E; simpl; unfold set_items; simpl; f_equal.
  - rewrite (insert_alter (Item.setQuantity q)) by done.
    destruct (0 <? q) eqn:Hq; [done|]. apply list_alter_id. intros x.
    unfold Item.setQuantity. by rewrite Hq.
  - destruct (0 <? q); [|done]. by rewrite alter_None.
Qed.

Lemma exec_addItem p q m o :
  exec (CAddItem p q m) o = set_items (next_items (CAddItem p q m) o) o.
Proof.
  order_exec. unfold addItem, create, Money.ltb. autorewrite with monad. simpl.
  destruct (decide (st = Confirmed)); [done|].
  rewrite (Z.ltb_antisym q 0), (Z.leb_antisym (Money.cents_ m) 0).
  destruct (q <=? 0)%Z; [done|]. simpl. by destruct (Money.cents_ m <? 0)%Z.
Qed.

Lemma exec_removeItem i o :
  exec (CRemoveItem i) o = set_items (next_items (CRemoveItem i) o) o.
Proof.
  order_exec. unfold removeItem. autorewrite with monad. simpl.
  destruct (decide (st = Confirmed)); [done|].
  destruct (decide (length l ≤ i)%nat); [|done]. simpl. unfold set_items; simpl. f_equal.
  by rewrite delete_take_drop, take_ge, drop_ge, app_nil_r by lia.
Qed.

(** Every call has the specified effect and leaves the identity alone. *)
Lemma exec_spec c o :
  exec c o = set_status (next_status c o) (set_items (next_items c o) o).
Proof.
  destruct c; [rewrite exec_addItem|rewrite exec_setQuantity|rewrite exec_removeItem|..];
    try by destruct o as [id cu ad [] l].
  order_exec. unfold submit. autorewrite with monad. simpl.
  destruct (decide (l = [])), st; simpl; autorewrite with monad; try done. by rewrite lift_mret_snd.
Qed.

(** ** The total *)
Lemma amount_nonneg l : Forall item_ok l → 0 ≤ amount l.
Proof. induction 1 as [|it l [Hq Hp] _ IH]; simpl; nia. Qed.

Lemma total_from_Undef l :
  foldl (λ acc it, t ← acc; k ← lineTotal it; Money.add t k) Undef l = Undef.
Proof. by induction l. Qed.

Lemma signed_Undef w z : in_signed w z = false → signed w z = Undef.
Proof. unfold signed. by intros ->. Qed.

Lemma total_from_exact l t :
  Forall item_ok l → 0 ≤ t < 2 ^ 63 →
  total_from (Money.cents t) l = (s ← signed 64 (t + amount l); mret (Money.cents s)).
Proof.
  intros Hl. revert t. induction Hl as [|it l Hit Hl IH]; intros t Ht.
  - unfold total_from. simpl. rewrite Z.add_0_r, signed_Ret by lia. done.
  - pose proof (amount_nonneg _ Hl) as Hrest. destruct Hit as [Hq Hp].
    unfold total_from in *. simpl.
    set (x := Money.cents_ (unit_price_ it) * quantity_ it).
    assert (0 ≤ x) by (subst x; nia).
    unfold lineTotal, Money.mul, Money.add. simpl. fold x.
    destruct (decide (x < 2 ^ 63)) as [Hx|Hx].
    + rewrite (signed_Ret 64 x) by lia. simpl.
      destruct (decide (t + x < 2 ^ 63)) as [Htx|Htx].
      * rewrite (signed_Ret 64 (t + x)) by lia. simpl. rewrite IH by lia. by rewrite Z.add_assoc.
      * rewrite !signed_Undef by (apply not_true_iff_false; rewrite in_signed_spec; lia).
        simpl. apply total_from_Undef.
    + rewrite !signed_Undef by (apply not_true_iff_false; rewrite in_signed_spec; lia).
      simpl. apply total_from_Undef.
Qed.

(** ** Invariants over any sequence of calls *)
Lemma next_items_ok c o : Forall item_ok (items_ o) → Forall item_ok (next_items c o).
Proof.
  intros Ho. unfold next_items. destruct (decide _); [done|]. destruct c as [p q m|i q|i| | | |r]; try done.
  - destruct (0 <? q) eqn:Hq, (0 <=? Money.cents_ m) eqn:Hm; simpl; try done.
    apply Forall_app. split; [done|]. apply Forall_singleton. split; simpl; lia.
  - destruct (0 <? q) eqn:Hq; [|done]. apply Forall_alter; [done|]. intros it _ [_ Hp].
    unfold Item.setQuantity. rewrite Hq. split; simpl; [lia|done].
  - by apply Forall_delete.
Qed.

Lemma next_status_transit c o :
  next_status c o = status_ o ∨ canTransit (status_ o) (next_status c o) = true.
Proof.
  destruct c, (status_ o) eqn:E; simpl; rewrite ?E; simpl; auto.
  destruct (decide (items_ o = [])); auto.
Qed.

Definition order_inv (o0 o : Order) : Prop :=
  id_ o = id_ o0 ∧ customer_ o = customer_ o0 ∧ addr_ o = addr_ o0 ∧
  Forall item_ok (items_ o) ∧
  (status_ o = Confirmed → items_ o ≠ []) ∧
  rtc (λ a b, canTransit a b = true) (status_ o0) (status_ o).

Lemma exec_inv o0 c o : order_inv o0 o → order_inv o0 (exec c o).
Proof.
  intros (H1 & H2 & H3 & H4 & H5 & H6). rewrite exec_spec. unfold order_inv; simpl.
  split_and!; [done..|by apply next_items_ok| |].
  - unfold next_items. destruct (decide (status_ o = Confirmed)) as [Hc|Hc]; [by intros _; apply H5|].
    destruct c, (status_ o) eqn:E; unfold next_status; rewrite ?E; simpl; try done.
    by destruct (decide (items_ o = [])).
  - destruct (next_status_transit c o) as [->|Ht]; [done|]. by eapply rtc_r.
Qed.

Lemma exec_all_inv o0 cs o : order_inv o0 o → order_inv o0 (exec_all cs o).
Proof. revert o. induction cs as [|c cs IH]; intros o Ho; simpl; [done|]. by apply IH, exec_inv. Qed.

(** C9: after any sequence of calls on a new order its identity is unchanged,
    every item obeys INV-2, a Confirmed order has an item (INV-1), the status
    was reached along the table of legal transitions (INV-4), and [total()] is
    the exact non-negative sum of the lines, undefined only when that sum
    leaves the 64-bit range (INV-3). *)
Theorem order_invariants id cu ad cs :
  let o := exec_all cs (new_Order id cu ad) in
  id_ o = id ∧ customer_ o = cu ∧ addr_ o = ad ∧
  Forall item_ok (items_ o) ∧ (status_ o = Confirmed → items_ o ≠ []) ∧
  rtc (λ a b, canTransit a b = true) Created (status_ o) ∧
  0 ≤ amount (items_ o) ∧
  total o = (s ← signed 64 (amount (items_ o)); mret (Money.cents s)).
Proof.
  intros o. destruct (exec_all_inv (new_Order id cu ad) cs (new_Order id cu ad))
    as (H1 & H2 & H3 & H4 & H5 & H6); [by repeat split; simpl|].
  split_and!; try done; [by apply amount_nonneg|]. by apply total_from_exact.
Qed.

(** [addItem] with a valid item is refused exactly while the order is
    Confirmed; in every other status, Shipped, Completed and Cancelled
    included, the item is appended. *)
Theorem addItem_locked_only_when_confirmed o p q m :
  0 < q → 0 ≤ Money.cents_ m →
  addItem p q m o =
    if decide (status_ o = Confirmed) then (Ret (fails OrderLocked), o)
    else (Ret (ok tt), set_items (items_ o ++ [mkItem p q m]) o).
Proof.
  intros Hq Hm. unfold addItem. autorewrite with monad.
  destruct (decide (status_ o = Confirmed)); [done|].
  unfold create, Money.ltb. simpl.
  by rewrite (proj2 (Z.leb_gt q 0)), (proj2 (Z.ltb_ge (Money.cents_ m) 0)) by done.
Qed.

Lemma exec_removes o n :
  status_ o ≠ Confirmed →
  exec_all (replicate n (CRemoveItem 0)) o = set_items (drop n (items_ o)) o.
Proof.
  revert o. induction n as [|n IH]; intros o Ho; [by destruct o|].
  change (exec_all (replicate n (CRemoveItem 0)) (exec (CRemoveItem 0) o) =
          set_items (drop (S n) (items_ o)) o).
  rewrite exec_removeItem. unfold next_items at 1. rewrite decide_False by done.
  rewrite IH by done. destruct o as [id cu ad st [|it l]]; simpl; unfold set_items; simpl; [|done].
  by rewrite drop_nil.
Qed.

(** An order that has been shipped can be emptied by [removeItem], so
    INV-1 and INV-5 hold of Confirmed orders only. *)
Theorem shipped_order_can_be_emptied o :
  status_ o = Shipped →
  let o' := exec_all (replicate (length (items_ o)) (CRemoveItem 0)) o in
  items_ o' = [] ∧ status_ o' = Shipped ∧ total o' = Ret Money.zero.
Proof. intros Ho o'. subst o'. rewrite exec_removes by congruence. by rewrite drop_all. Qed.

(** ** Terminal statuses *)
Lemma exec_terminal c o : isTerminal (status_ o) = true → status_ (exec c o) = status_ o.
Proof. rewrite exec_spec. simpl. by destruct c, o as [id cu ad [] l]. Qed.

(** C10: the error each status call reports, in each status (INV-1, INV-4,
    INV-6); a call that reports an error leaves the order unchanged. *)
Theorem status_calls_errors o :
  (error_of CSubmit o =
     if decide (items_ o = []) then Some EmptyOrder
     else if decide (status_ o = Created) then None else Some StatusTransition) ∧
  error_of CShip o = (if decide (status_ o = Confirmed) then None else Some StatusTransition) ∧
  error_of CComplete o = (if decide (status_ o = Shipped) then None else Some StatusTransition) ∧
  (∀ r, error_of (CCancel r) o =
     match status_ o with
     | Created | Confirmed => None
     | Shipped => Some AlreadyShipped
     | Cancelled => Some AlreadyCancelled
     | Completed => Some StatusTransition
     end) ∧
  (∀ c, error_of c o ≠ None → exec c o = o).
Proof.
  split_and!.
  - destruct o as [id cu ad st l]. simpl. unfold submit. autorewrite with monad. simpl.
    destruct (decide (l = [])); [done|]. destruct st; simpl; try done.
    autorewrite with monad. unfold lift_outcome, mbind, M_bind, report. simpl. by destruct (total _).
  - by destruct o as [id cu ad [] l].
  - by destruct o as [id cu ad [] l].
  - intros r. by destruct o as [id cu ad [] l].
  - intros c. destruct o as [id cu ad st l]. destruct c; simpl; try done.
    + unfold addItem. autorewrite with monad. simpl. destruct (decide _); [done|].
      by destruct (create _ _ _).
    + unfold removeItem. autorewrite with monad. simpl. by repeat destruct (decide _).
    + unfold submit. autorewrite with monad. simpl.
      destruct (decide (l = [])); [done|]. destruct st; simpl; try done.
      autorewrite with monad. unfold lift_outcome, mbind, M_bind, report. simpl. by destruct (total _).
    + by destruct st.
    + by destruct st.
    + by destruct st.
Qed.
