(* ===== verification/MoneyFacts.v ===== *)
(** * [Money::format] and the pricing service

    The text of an amount determines it, and the quoted totals are bounded. *)
From Stdlib Require Import Strings.Ascii.
From S2P Require Import Prelude Order.
Import Money.
Local Open Scope Z_scope.

(** ** Reading an amount back *)
Definition digit (a : Ascii.ascii) : Z := Z.of_N (Ascii.N_of_ascii a) - 48.
(** The number the digits of [s] write after those already read; the point
    between yuan and fen is skipped. *)
Fixpoint read (acc : Z) (s : string) : Z :=
  match s with
  | EmptyString => acc
  | String a s' => if decide (a = "."%char) then read acc s' else read (acc * 10 + digit a) s'
  end.
Definition parse (s : string) : Z :=
  match s with
  | String a s' => if decide (a = "-"%char) then - read 0 s' else read 0 s
  | EmptyString => 0
  end.

Lemma read_app acc s t : read acc (s +:+ t) = read (read acc s) t.
Proof. revert acc. induction s as [|a s IH]; intros acc; simpl; [done|]. by destruct (decide _). Qed.

Lemma digit_char (d : N) : (d < 10)%N → digit (pretty_N_char d) = Z.of_N d ∧ pretty_N_char d ≠ "."%char ∧ pretty_N_char d ≠ "-"%char.
Proof.
  revert d. apply digit_cases. by repeat constructor.
Qed.

Lemma read_pretty_go (n : N) s : read 0 (pretty_N_go n s) = read (Z.of_N n) s.
Proof.
  revert s. induction (N.lt_wf_0 n) as [n _ IH]. intros s.
  destruct (decide (n = 0)%N) as [->|Hn]; [by rewrite pretty_N_go_0|].
  rewrite pretty_N_go_step by lia. rewrite IH by (apply N.div_lt; lia). simpl.
  pose proof (N.mod_lt n 10 ltac:(done)) as Hd.
  destruct (digit_char _ Hd) as (-> & Hdot & _). rewrite decide_False by done.
  f_equal. pose proof (N.div_mod n 10 ltac:(done)). lia.
Qed.

Lemma read_pretty z : 0 ≤ z → read 0 (pretty z) = z.
Proof.
  intros Hz. destruct z as [|p|p]; [done| |lia].
  change (read 0 (pretty (N.pos p)) = Z.pos p). unfold pretty, pretty_N. simpl.
  by rewrite read_pretty_go.
Qed.

Lemma length_pretty_go (k : nat) (n : N) s :
  (n < 10 ^ N.of_nat k)%N → (String.length (pretty_N_go n s) ≤ k + String.length s)%nat.
Proof.
  revert n s. induction k as [|k IH]; intros n s Hn.
  - assert (n = 0%N) as -> by (simpl in Hn; lia). by rewrite pretty_N_go_0.
  - destruct (decide (n = 0)%N) as [->|Hn0]; [rewrite pretty_N_go_0; lia|].
    rewrite pretty_N_go_step by lia. etrans; [apply IH|simpl; lia].
    apply N.Div0.div_lt_upper_bound. rewrite Nat2N.inj_succ, N.pow_succ_r' in Hn. lia.
Qed.

Lemma length_pretty (k : nat) z :
  0 ≤ z < 10 ^ Z.of_nat (S k) → (String.length (pretty z) ≤ S k)%nat.
Proof.
  intros [Hz Hk]. destruct z as [|p|p]; [simpl; lia| |lia].
  change (String.length (pretty (N.pos p)) ≤ S k)%nat. unfold pretty, pretty_N. simpl.
  etrans; [apply (length_pretty_go (S k))|simpl; lia].
  apply N2Z.inj_lt. rewrite N2Z.inj_pow. rewrite nat_N_Z. done.
Qed.

Lemma pretty_not_dash z s : 0 ≤ z → pretty z ≠ "-" +:+ s.
Proof.
  intros Hz. destruct z as [|p|p]; [done| |lia].
  change (pretty (N.pos p) ≠ "-" +:+ s). unfold pretty, pretty_N. simpl.
  by apply pretty_N_go_ne_dash.
Qed.

Lemma pad2_digits f :
  0 ≤ f < 100 →
  pad2 f = String (pretty_N_char (Z.to_N (f / 10))) (String (pretty_N_char (Z.to_N (f mod 10))) "").
Proof.
  intros Hf.
  assert (Forall (λ f, pad2 f = String (pretty_N_char (Z.to_N (f / 10)))
    (String (pretty_N_char (Z.to_N (f mod 10))) "")) (seqZ 0 100)) as Hall
    by (apply (bool_decide_unpack _); by vm_compute).
  rewrite Forall_forall in Hall. apply Hall. apply elem_of_seqZ; lia.
Qed.

Lemma read_pad2 f acc : 0 ≤ f < 100 → read acc (pad2 f) = acc * 100 + f.
Proof.
  intros Hf. rewrite pad2_digits by done.
  pose proof (Z.div_mod f 10 ltac:(done)). pose proof (Z.mod_pos_bound f 10 ltac:(done)).
  destruct (digit_char (Z.to_N (f / 10))) as (E1 & Hd1 & _); [lia|].
  destruct (digit_char (Z.to_N (f mod 10))) as (E2 & Hd2 & _); [lia|].
  cbn [read]. rewrite !decide_False, E1, E2 by done. lia.
Qed.

Lemma string_length_app s t : String.length (s +:+ t) = (String.length s + String.length t)%nat.
Proof. induction s as [|a s IH]; simpl; [done|]. by rewrite IH. Qed.
Lemma substring_full n s : (String.length s ≤ n)%nat → String.substring 0 n s = s.
Proof.
  revert n. induction s as [|a s IH]; intros [|n] Hn; simpl in *; try done; [lia|].
  f_equal. apply IH. lia.
Qed.

Lemma parse_nonneg s : (∀ t, s ≠ "-" +:+ t) → parse s = read 0 s.
Proof.
  intros Hs. destruct s as [|a s]; [done|]. unfold parse. rewrite decide_False; [done|].
  intros ->. by apply (Hs s).
Qed.

(** The body of [format] on the absolute value. *)
Lemma format_abs a :
  0 ≤ a < 2 ^ 63 →
  let s := snprintf 32 (pretty (a `quot` 100) +:+ "." +:+ pad2 (a `rem` 100)) in
  read 0 s = a ∧ ∀ t, s ≠ "-" +:+ t.
Proof.
  intros Ha. rewrite Z.quot_div_nonneg, Z.rem_mod_nonneg by lia. intros s.
  pose proof (Z.mod_pos_bound a 100 ltac:(done)) as Hf.
  assert (0 ≤ a / 100 < 10 ^ 17) as Hy.
  { split; [apply Z.div_pos; lia|]. apply Z.div_lt_upper_bound; lia. }
  assert (s = pretty (a / 100) +:+ "." +:+ pad2 (a mod 100)) as ->.
  { apply substring_full. rewrite !string_length_app, (pad2_digits (a mod 100)) by done.
    pose proof (length_pretty 16 (a / 100) Hy). simpl. lia. }
  split.
  - rewrite read_app, read_pretty, read_app by lia.
    change (read (a / 100) ".") with (a / 100). rewrite read_pad2 by done.
    pose proof (Z.div_mod a 100 ltac:(done)). lia.
  - intros t Ht. pose proof (read_pretty (a / 100) ltac:(lia)) as Hr.
    pose proof (pretty_not_dash (a / 100)) as Hd.
    destruct (pretty (a / 100)) as [|c u]; [done|]. simpl in Ht. injection Ht as -> _.
    apply (Hd u); [lia|done].
Qed.

(** C11: every amount but the least 64-bit one has a text, which fits the
    buffer and reads back to the amount; the least one negates out of range. *)
Theorem format_roundtrip c :
  in_signed 64 c = true →
  if decide (c = - 2 ^ 63) then format (cents c) = Undef
  else ∃ s, format (cents c) = Ret s ∧ parse s = c.
Proof.
  intros Hc%in_signed_spec. unfold format. cbn [cents_].
  destruct (decide _) as [->|Hmin]; [done|]. destruct (c <? 0) eqn:Hneg.
  - rewrite signed_Ret by lia. unfold mbind, outcome_bind, mret, outcome_ret. cbv zeta.
    destruct (format_abs (- c)) as [Hr _]; [lia|]. revert Hr. generalize (snprintf 32
      (pretty ((- c) `quot` 100) +:+ "." +:+ pad2 ((- c) `rem` 100))).
    intros s Hr. eexists; split; [done|]. change (- read 0 s = c). lia.
  - unfold mbind, outcome_bind, mret, outcome_ret. cbv zeta.
    destruct (format_abs c) as [Hr Hd]; [lia|].
    eexists; split; [done|]. by rewrite parse_nonneg.
Qed.
Lemma format_roundtrip_witness :
  in_signed 64 (-1205) = true ∧ ∃ s, format (cents (-1205)) = Ret s ∧ parse s = -1205.
Proof. split; [done|]. exact (format_roundtrip (-1205) eq_refl). Defined.
Example format_example : format (cents (-1205)) = Ret "-12.05".
Proof. by_compute. Qed.

(** The percentage of the documentation: none below 500.00 or for a limit that is
    not positive, else the caller's limit, but at most 15. *)
Definition percent (c limit : Z) : Z := if bool_decide (50000 ≤ c ∧ 0 < limit) then Z.min limit 15 else 0.
(** C12: for a subtotal that is not negative and can be multiplied by 100 in 64 bits
    the quote exists.  The discount is the caller's limit, but at most 15 percent,
    from 500.00 on, and none below it or for a limit that is not positive; it is
    between 0 and 15, and at most the limit when there is one.  The total is the
    discounted subtotal rounded down. *)
Theorem discount_bounds subtotal limit :
  0 ≤ cents_ subtotal → cents_ subtotal * 100 < 2 ^ 63 →
  ∃ q, Pricing.discount subtotal limit = Ret q ∧
    let pct := Pricing.discount_percent q in
    Pricing.subtotal q = subtotal ∧ pct = percent (cents_ subtotal) limit ∧
    0 ≤ pct ≤ 15 ∧ (0 < pct ↔ 50000 ≤ cents_ subtotal ∧ 0 < limit) ∧ (0 < limit → pct ≤ limit) ∧
    cents_ (Pricing.quote_total q) = cents_ subtotal * (100 - pct) / 100 ∧
    cents_ (Pricing.quote_total q) ≤ cents_ subtotal.
Proof.
  intros H0 Hmax. unfold Pricing.discount.
  set (pct := if geb _ _ && _ then _ else _).
  assert (pct = percent (cents_ subtotal) limit) as Hpct.
  { subst pct. unfold percent, geb, Pricing.threshold_, Pricing.max_discount_percent_; simpl.
    case_bool_decide; destruct (50000 <=? cents_ subtotal) eqn:E1, (0 <? limit) eqn:E2; simpl; lia. }
  assert (0 ≤ pct ≤ 15 ∧ (0 < pct ↔ 50000 ≤ cents_ subtotal ∧ 0 < limit) ∧ (0 < limit → pct ≤ limit)) as (Hb & Hiff & Hlim).
  { rewrite Hpct. unfold percent. case_bool_decide; lia. }
  clearbody pct. unfold Pricing.apply. destruct (pct <=? 0) eqn:Hp.
  - assert (pct = 0) as -> by lia. cbn. eexists; split; [done|]. cbn -[Z.div Z.mul].
    rewrite Z.div_mul by done. split_and!; try done; lia.
  - rewrite signed_Ret by lia. cbn -[Z.mul Z.sub Z.quot signed].
    rewrite signed_Ret by nia. cbn -[Z.mul Z.sub Z.quot]. eexists; split; [done|].
    cbn -[Z.mul Z.sub Z.quot Z.div]. rewrite Z.quot_div_nonneg by nia.
    split_and!; try lia; try tauto; try done. apply Z.div_le_upper_bound; nia.
Qed.
Lemma discount_bounds_witness :
  ∃ q, Pricing.discount (cents 60000) 10 = Ret q ∧
    let pct := Pricing.discount_percent q in
    Pricing.subtotal q = cents 60000 ∧ pct = percent 60000 10 ∧
    0 ≤ pct ≤ 15 ∧ (0 < pct ↔ 50000 ≤ 60000 ∧ 0 < 10) ∧ (0 < 10 → pct ≤ 10) ∧
    cents_ (Pricing.quote_total q) = 60000 * (100 - pct) / 100 ∧
    cents_ (Pricing.quote_total q) ≤ 60000.
Proof. apply (discount_bounds (cents 60000) 10); by_compute. Defined.
