(* ===== verification/OrderRepo.v ===== *)
(** * The order repository: the interface of [domain/order_repository.h], its
    contract, and the in-memory implementation of
    [infrastructure/in_memory_order_repository.h] *)
From Stdlib Require Import Sorting.Sorted.
From S2P Require Import Prelude StdMap Order.

(** ** The abstract class *)
Class OrderRepository (R : Type) := {
  findById : R → OrderId → option Order;
  save : Order → R → R;
  remove : OrderId → R → bool * R;
  findPage : R → Z → Z → list Order;
  count : R → nat
}.

(** What an implementation promises to the application layer: it is a finite
    map from the identifiers of the orders to the orders, and a large enough
    page lists each stored order once. *)
Class OrderRepositoryLaws (R : Type) `{OrderRepository R} := {
  repo_ok : R → Prop;
  save_ok o r : repo_ok r → repo_ok (save o r);
  remove_ok i r : repo_ok r → repo_ok (remove i r).2;
  find_save_eq o r : findById (save o r) (id_ o) = Some o;
  find_save_ne o r i : i ≠ id_ o → findById (save o r) i = findById r i;
  find_id r i o : repo_ok r → findById r i = Some o → id_ o = i;
  remove_reports i r : (remove i r).1 = bool_decide (is_Some (findById r i));
  find_remove_eq i r : repo_ok r → findById (remove i r).2 i = None;
  find_remove_ne i j r : j ≠ i → findById (remove i r).2 j = findById r j;
  page_all r limit o :
    repo_ok r → (Z.of_nat (count r) ≤ limit)%Z → o ∈ findPage r 0 limit ↔ findById r (id_ o) = Some o;
  page_NoDup r off limit : repo_ok r → NoDup (id_ <$> findPage r off limit)
}.

(** ** [InMemoryOrderRepository] *)
Record InMemoryOrderRepository := mkRepo { store_ : list (string * Order) }.
Definition empty_repo : InMemoryOrderRepository := {| store_ := [] |}.

Definition mem_findById (r : InMemoryOrderRepository) (i : OrderId) : option Order :=
  mfind (order_id_value i) (store_ r).
Definition mem_save (o : Order) (r : InMemoryOrderRepository) : InMemoryOrderRepository :=
  {| store_ := minsert (order_id_value (id_ o)) o (store_ r) |}.
Definition mem_remove (i : OrderId) (r : InMemoryOrderRepository) : bool * InMemoryOrderRepository :=
  (bool_decide (is_Some (mfind (order_id_value i) (store_ r))),
   {| store_ := merase (order_id_value i) (store_ r) |}).
(** The loop of [findPage]: [i] counts the nodes visited, [out] those taken; the
    [int] of the source would overflow after 2^31 nodes. *)
Fixpoint page_loop (offset limit i : Z) (out : list Order) (nodes : list (string * Order)) : list Order :=
  match nodes with
  | [] => out
  | (_, o) :: nodes' =>
      page_loop offset limit (i + 1)
        (if (offset <=? i)%Z && (Z.of_nat (length out) <? limit)%Z then out ++ [o] else out) nodes'
  end.
Definition mem_findPage (r : InMemoryOrderRepository) (offset limit : Z) : list Order :=
  page_loop offset limit 0 [] (store_ r).
Definition mem_count (r : InMemoryOrderRepository) : nat := length (store_ r).

#[export] Instance in_memory : OrderRepository InMemoryOrderRepository := {|
  findById := mem_findById; save := mem_save; remove := mem_remove;
  findPage := mem_findPage; count := mem_count |}.

(** ** The implementation keeps the contract *)
Definition mem_ok (r : InMemoryOrderRepository) : Prop :=
  msorted (store_ r) ∧ ∀ k o, (k, o) ∈ store_ r → k = order_id_value (id_ o).

Lemma page_loop_spec offset limit i out nodes :
  (0 ≤ limit)%Z → (0 ≤ i)%Z → (Z.of_nat (length out) ≤ limit)%Z →
  page_loop offset limit i out nodes =
    out ++ take (Z.to_nat limit - length out) (drop (Z.to_nat (offset - i)) nodes).*2.
Proof.
  intros Hl. revert i out. induction nodes as [|[k o] nodes IH]; intros i out Hi Hout; simpl.
  - rewrite drop_nil. simpl. by rewrite take_nil, app_nil_r.
  - destruct (offset <=? i)%Z eqn:E1; simpl.
    + assert (Z.to_nat (offset - i) = 0%nat) as -> by lia. simpl.
      destruct (Z.of_nat (length out) <? limit)%Z eqn:E2.
      * rewrite IH by (rewrite ?length_app; simpl; lia).
        assert (Z.to_nat (offset - (i + 1)) = 0%nat) as -> by lia.
        rewrite length_app, <- app_assoc. simpl.
        assert (Z.to_nat limit - length out = S (Z.to_nat limit - (length out + 1)))%nat as -> by lia.
        done.
      * rewrite IH by lia. assert (Z.to_nat limit - length out = 0)%nat as -> by lia.
        by rewrite !take_0.
    + rewrite IH by lia.
      assert (Z.to_nat (offset - i) = S (Z.to_nat (offset - (i + 1)))) as -> by lia. done.
Qed.

Lemma mem_findPage_spec r offset limit :
  (0 ≤ limit)%Z → mem_findPage r offset limit = take (Z.to_nat limit) (drop (Z.to_nat offset) (store_ r).*2).
Proof.
  intros Hl. unfold mem_findPage. rewrite page_loop_spec by (simpl; lia).
  by rewrite Z.sub_0_r, Nat.sub_0_r, fmap_drop.
Qed.

Lemma page_loop_nonpos offset limit i nodes :
  (limit ≤ 0)%Z → page_loop offset limit i [] nodes = [].
Proof.
  intros Hl. revert i. induction nodes as [|[k o] nodes IH]; intros i; [done|]. cbn [page_loop length].
  rewrite (proj2 (Z.ltb_ge (Z.of_nat 0) limit)), andb_false_r by done. apply IH.
Qed.

Lemma store_ids r : mem_ok r → order_id_value ∘ id_ <$> (store_ r).*2 = (store_ r).*1.
Proof.
  intros [_ Hk]. rewrite <- list_fmap_compose. apply list_fmap_ext. intros j [k o] Hj.
  symmetry. apply Hk. by eapply list_elem_of_lookup_2.
Qed.

Lemma page_sublist r offset limit : mem_findPage r offset limit `sublist_of` (store_ r).*2.
Proof.
  destruct (decide (0 ≤ limit)%Z).
  - rewrite mem_findPage_spec by done. etrans; [apply sublist_take|apply sublist_drop].
  - unfold mem_findPage. rewrite page_loop_nonpos by lia. apply sublist_nil_l.
Qed.

Lemma page_ids_NoDup r offset limit : mem_ok r → NoDup (id_ <$> mem_findPage r offset limit).
Proof.
  intros Hr. apply (NoDup_fmap_1 order_id_value). rewrite <- list_fmap_compose.
  eapply sublist_NoDup; [|apply fmap_sublist, page_sublist].
  rewrite store_ids by done. apply msorted_NoDup_keys, Hr.
Qed.

Lemma page_all_mem r limit o :
  mem_ok r → (Z.of_nat (mem_count r) ≤ limit)%Z →
  o ∈ mem_findPage r 0 limit ↔ mem_findById r (id_ o) = Some o.
Proof.
  intros [Hs Hk] Hl. unfold mem_count in Hl. rewrite mem_findPage_spec by lia.
  rewrite take_ge by (rewrite length_drop, length_fmap; lia).
  rewrite (drop_0 (store_ r).*2).
  unfold mem_findById. rewrite mfind_elem by done. rewrite list_elem_of_fmap. split.
  - intros [[k o'] [-> Hin]]. simpl. by rewrite <- (Hk _ _ Hin).
  - intros Hin. by exists (order_id_value (id_ o), o).
Qed.

#[export] Program Instance in_memory_laws : OrderRepositoryLaws InMemoryOrderRepository := {| repo_ok := mem_ok |}.
Next Obligation.
  intros o r [Hs Hk]. split; simpl; [by apply minsert_sorted|].
  intros k o' [[= -> ->]|Hin]%minsert_in; [done|by apply Hk].
Qed.
Next Obligation.
  intros i r [Hs Hk]. split; simpl; [by apply merase_sorted|]. intros k o Hin%merase_in. by apply Hk.
Qed.
Next Obligation. intros o r. apply mfind_minsert_eq. Qed.
Next Obligation.
  intros o r [i] Hne. apply mfind_minsert_ne. simpl. intros ->. apply Hne. by destruct (id_ o).
Qed.
Next Obligation.
  intros r [i] o [Hs Hk] Hf%mfind_elem; [|done]. apply Hk in Hf. simpl in Hf. subst. by destruct (id_ o).
Qed.
Next Obligation. done. Qed.
Next Obligation. intros i r [Hs _]. by apply mfind_merase_eq. Qed.
Next Obligation. intros [i] [j] r Hne. apply mfind_merase_ne. simpl. congruence. Qed.
Next Obligation. intros. by apply page_all_mem. Qed.
Next Obligation. intros. by apply page_ids_NoDup. Qed.
