(* ===== verification/OrderService.v ===== *)
(** * The application service of [ddd/src/application]

    The use cases of [OrderApplicationService], against any repository that
    keeps the contract of [OrderRepo].  The publisher is the log of the events
    it received; [publisher_ = false] is the null pointer. *)
From S2P Require Import Prelude StdMap Order OrderFacts OrderRepo.
Import Status Item.

(** ** [order_dto.h] *)
Record OrderItemDto := mkOrderItemDto {
  product : string; quantity : Z; unit_price : Money; line_total : Money }.
Record OrderDto := mkOrderDto {
  dto_id : string; dto_customer_id : string; dto_status : string; dto_total : Money;
  item_count : Z; dto_items : list OrderItemDto }.

Section service.
Context {R : Type} `{OrderRepository R}.

Record OrderApplicationService := mkService {
  repo_ : R;
  publisher_ : bool;
  seq_ : Z;
  published : list DomainEvent
}.
Definition new_service (r : R) (publisher : bool) : OrderApplicationService :=
  {| repo_ := r; publisher_ := publisher; seq_ := 0; published := [] |}.
Definition set_repo (r : R) (s : OrderApplicationService) : OrderApplicationService :=
  {| repo_ := r; publisher_ := publisher_ s; seq_ := seq_ s; published := published s |}.
Definition set_seq (n : Z) (s : OrderApplicationService) : OrderApplicationService :=
  {| repo_ := repo_ s; publisher_ := publisher_ s; seq_ := n; published := published s |}.
Definition log_event (e : DomainEvent) (s : OrderApplicationService) : OrderApplicationService :=
  {| repo_ := repo_ s; publisher_ := publisher_ s; seq_ := seq_ s; published := published s ++ [e] |}.

(** [repo_.save(order)], [if (publisher_) publisher_->on...(e)]. *)
Definition save_order (o : Order) : M OrderApplicationService unit :=
  modify (λ s, set_repo (save o (repo_ s)) s).
Definition publish (e : DomainEvent) : M OrderApplicationService unit :=
  s ← get; when (publisher_ s) (modify (log_event e)).
(** A call on the local copy [order]: its result and the order it leaves. *)
Definition on_order {A} (m : M Order A) (o : Order) : M OrderApplicationService (A * Order) :=
  match m o with
  | (Ret a, o') => mret (a, o')
  | (Throw e, _) => throw e
  | (Undef, _) => undef
  end.

Definition makeOrderId : M OrderApplicationService string :=
  s ← get; let n := swrap 64 (seq_ s + 1) in
  modify (set_seq n) ;; mret ("ORD-" +:+ pretty n).

Definition createOrder (customer : CustomerId) (addr : Address) : M OrderApplicationService (Result OrderId) :=
  i ← makeOrderId;
  let id := mkOrderId i in
  save_order (new_Order id customer addr) ;;
  mret (ok id).

Definition addItem (id : OrderId) (product : string) (qty : Z) (price : Money)
    : M OrderApplicationService (Result unit) :=
  s ← get;
  match findById (repo_ s) id with
  | None => mret (fails NotFound)
  | Some order =>
      '(r, order) ← on_order (Order.addItem product qty price) order;
      match r with
      | err e => mret (err e)
      | ok _ => save_order order ;; mret (ok tt)
      end
  end.

Definition removeItem (id : OrderId) (index : nat) : M OrderApplicationService (Result unit) :=
  s ← get;
  match findById (repo_ s) id with
  | None => mret (fails NotFound)
  | Some order =>
      '(r, order) ← on_order (Order.removeItem index) order;
      match r with
      | err e => mret (err e)
      | ok _ => save_order order ;; mret (ok tt)
      end
  end.

Definition itemDto (it : OrderItem) : outcome OrderItemDto :=
  lt ← lineTotal it;
  mret {| product := product_ it; quantity := quantity_ it; unit_price := unit_price_ it; line_total := lt |}.
Fixpoint itemDtos (l : list OrderItem) : outcome (list OrderItemDto) :=
  match l with
  | [] => mret []
  | it :: l' => d ← itemDto it; ds ← itemDtos l'; mret (d :: ds)
  end.
Definition toDto (o : Order) : outcome OrderDto :=
  t ← total o;
  items ← itemDtos (items_ o);
  mret {| dto_id := order_id_value (id_ o); dto_customer_id := customer_id_value (customer_ o);
          dto_status := label (status_ o); dto_total := t;
          item_count := swrap 32 (Z.of_nat (itemCount o)); dto_items := items |}.
Definition ok_dto (o : Order) : M OrderApplicationService (Result OrderDto) :=
  d ← lift_outcome (toDto o); mret (ok d).

Definition submit (id : OrderId) : M OrderApplicationService (Result OrderDto) :=
  s ← get;
  match findById (repo_ s) id with
  | None => mret (fails NotFound)
  | Some order =>
      '(r, order) ← on_order Order.submit order;
      match r with
      | err e => mret (err e)
      | ok t => publish (OrderSubmitted id t) ;; save_order order ;; ok_dto order
      end
  end.

Definition cancel (id : OrderId) (reason : string) : M OrderApplicationService (Result OrderDto) :=
  s ← get;
  match findById (repo_ s) id with
  | None => mret (fails NotFound)
  | Some order =>
      '(r, order) ← on_order (Order.cancel reason) order;
      match r with
      | err e => mret (err e)
      | ok _ => publish (OrderCancelled id) ;; save_order order ;; ok_dto order
      end
  end.

Definition ship (id : OrderId) : M OrderApplicationService (Result OrderDto) :=
  s ← get;
  match findById (repo_ s) id with
  | None => mret (fails NotFound)
  | Some order =>
      '(r, order) ← on_order Order.ship order;
      match r with
      | err e => mret (err e)
      | ok _ => save_order order ;; ok_dto order
      end
  end.

Definition complete (id : OrderId) : M OrderApplicationService (Result OrderDto) :=
  s ← get;
  match findById (repo_ s) id with
  | None => mret (fails NotFound)
  | Some order =>
      '(r, order) ← on_order Order.complete order;
      match r with
      | err e => mret (err e)
      | ok _ => save_order order ;; ok_dto order
      end
  end.

Fixpoint toDtos (l : list Order) : outcome (list OrderDto) :=
  match l with
  | [] => mret []
  | o :: l' => d ← toDto o; ds ← toDtos l'; mret (d :: ds)
  end.
Definition listOrders : M OrderApplicationService (Result (list OrderDto)) :=
  s ← get;
  ds ← lift_outcome (toDtos (findPage (repo_ s) 0 10000));
  mret (ok ds).

Definition findOrder (id : OrderId) : M OrderApplicationService (Result OrderDto) :=
  s ← get;
  match findById (repo_ s) id with
  | None => mret (fails NotFound)
  | Some o => ok_dto o
  end.

Definition guardExists (id : OrderId) : M OrderApplicationService (Result unit) :=
  s ← get;
  match findById (repo_ s) id with
  | None => mret (fails NotFound)
  | Some _ => mret (ok tt)
  end.
End service.
Arguments OrderApplicationService R : clear implicits.
