(* ===== verification/ShopRefinement.v ===== *)
(** * The application service refines a shop of orders

    The specification is a finite map from order identifiers to orders, with
    the number of identifiers issued and the events published; a use case
    applies the aggregate's call to the stored order and has no effect when the
    call is refused. *)
From S2P Require Import Prelude StdMap Order OrderFacts OrderRepo OrderService.
Import Status Item.

(** ** The use cases *)
Inductive usecase :=
  | UCreate (customer : CustomerId) (addr : Address)
  | UAddItem (id : OrderId) (product : string) (qty : Z) (price : Money)
  | URemoveItem (id : OrderId) (index : nat)
  | USubmit (id : OrderId)
  | UCancel (id : OrderId) (reason : string)
  | UShip (id : OrderId)
  | UComplete (id : OrderId).

Section shop.
Context {R : Type} `{OrderRepositoryLaws R}.
Implicit Types (s : OrderApplicationService R) (o : Order).

Definition run_case s (u : usecase) : OrderApplicationService R :=
  match u with
  | UCreate c a => (createOrder c a s).2
  | UAddItem i p q m => (OrderService.addItem i p q m s).2
  | URemoveItem i k => (OrderService.removeItem i k s).2
  | USubmit i => (OrderService.submit i s).2
  | UCancel i r => (OrderService.cancel i r s).2
  | UShip i => (OrderService.ship i s).2
  | UComplete i => (OrderService.complete i s).2
  end.
Definition run_cases s (us : list usecase) := foldl run_case s us.
End shop.

(** ** The specification *)
Record Shop := mkShop { orders : gmap string Order; issued : Z; events : list DomainEvent }.

Definition call_of (u : usecase) : option (OrderId * cmd) :=
  match u with
  | UCreate _ _ => None
  | UAddItem i p q m => Some (i, CAddItem p q m)
  | URemoveItem i k => Some (i, CRemoveItem k)
  | USubmit i => Some (i, CSubmit)
  | UCancel i r => Some (i, CCancel r)
  | UShip i => Some (i, CShip)
  | UComplete i => Some (i, CComplete)
  end.

Definition succeeded {A} (r : outcome (Result A)) : bool :=
  match r with Ret (ok _) => true | _ => false end.
(** The aggregate carries the call out. *)
Definition accepts (c : cmd) (o : Order) : bool :=
  match c with
  | CAddItem p q m => succeeded (Order.addItem p q m o).1
  | CSetQuantity _ _ => true
  | CRemoveItem i => succeeded (Order.removeItem i o).1
  | CSubmit => succeeded (Order.submit o).1
  | CShip => succeeded (Order.ship o).1
  | CComplete => succeeded (Order.complete o).1
  | CCancel r => succeeded (Order.cancel r o).1
  end.
(** The events of a call that is carried out. *)
Definition announces (i : OrderId) (c : cmd) (o : Order) : list DomainEvent :=
  match c with
  | CSubmit => match (Order.submit o).1 with Ret (ok t) => [OrderSubmitted i t] | _ => [] end
  | CCancel _ => [OrderCancelled i]
  | _ => []
  end.

Definition order_key (n : Z) : OrderId := mkOrderId ("ORD-" +:+ pretty n).
Definition shop_step (pub : bool) (sh : Shop) (u : usecase) : Shop :=
  match u with
  | UCreate cu ad =>
      let n := swrap 64 (issued sh + 1) in
      {| orders := <[order_id_value (order_key n) := new_Order (order_key n) cu ad]> (orders sh);
         issued := n; events := events sh |}
  | _ =>
      match call_of u with
      | Some (i, c) =>
          match orders sh !! order_id_value i with
          | Some o =>
              if accepts c o
              then {| orders := <[order_id_value i := exec c o]> (orders sh); issued := issued sh;
                      events := events sh ++ if pub then announces i c o else [] |}
              else sh
          | None => sh
          end
      | None => sh
      end
  end.
Definition shop_run (pub : bool) (sh : Shop) (us : list usecase) : Shop := foldl (shop_step pub) sh us.

Section refinement.
Context {R : Type} `{OrderRepositoryLaws R}.
Implicit Types (s : OrderApplicationService R) (o : Order).

(** What a use case on a stored order does to the service. *)
Definition committed (i : OrderId) (c : cmd) s : OrderApplicationService R :=
  match findById (repo_ s) i with
  | None => s
  | Some o =>
      if accepts c o
      then {| repo_ := save (exec c o) (repo_ s); publisher_ := publisher_ s; seq_ := seq_ s;
              published := published s ++ if publisher_ s then announces i c o else [] |}
      else s
  end.

Lemma ok_dto_state o s : (ok_dto o s).2 = s.
Proof. unfold ok_dto. apply lift_mret_snd. Qed.

Lemma publish_state {B} e (k : M (OrderApplicationService R) B) s :
  (publish e ;; k) s =
  k {| repo_ := repo_ s; publisher_ := publisher_ s; seq_ := seq_ s;
       published := published s ++ if publisher_ s then [e] else [] |}.
Proof.
  unfold publish. autorewrite with monad. destruct s as [r [] q p]; simpl.
  - by autorewrite with monad.
  - rewrite M_ret_bind. by rewrite app_nil_r.
Qed.

Ltac use_case i s :=
  autorewrite with monad; unfold committed;
  destruct (findById (repo_ s) i) as [o|] eqn:?; [|done]; unfold on_order.
Ltac done_case s :=
  simpl; autorewrite with monad; rewrite ?app_nil_r; try (by destruct s).

Lemma run_case_committed u i c s :
  call_of u = Some (i, c) → run_case s u = committed i c s.
Proof.
  destruct u; intros [= <- <-]; simpl.
  - unfold OrderService.addItem. use_case id s.
    destruct (Order.addItem _ _ _ o) as [[[?|?]|?|] o'] eqn:E; simpl; rewrite E; done_case s.
    unfold save_order, set_repo. by destruct (publisher_ s); done_case s.
  - unfold OrderService.removeItem. use_case id s.
    destruct (Order.removeItem _ o) as [[[?|?]|?|] o'] eqn:E; simpl; rewrite E; done_case s.
    unfold save_order, set_repo. by destruct (publisher_ s); done_case s.
  - unfold OrderService.submit. use_case id s.
    destruct (Order.submit o) as [[[?|?]|?|] o'] eqn:E; simpl; rewrite E; done_case s.
    rewrite publish_state. unfold save_order, set_repo. autorewrite with monad.
    by rewrite ok_dto_state.
  - unfold OrderService.cancel. use_case id s.
    destruct (Order.cancel _ o) as [[[?|?]|?|] o'] eqn:E; simpl; rewrite E; done_case s.
    rewrite publish_state. unfold save_order, set_repo. autorewrite with monad.
    by rewrite ok_dto_state.
  - unfold OrderService.ship. use_case id s.
    destruct (Order.ship o) as [[[?|?]|?|] o'] eqn:E; simpl; rewrite E; done_case s.
    unfold save_order, set_repo. autorewrite with monad. rewrite ok_dto_state.
    by destruct (publisher_ s); done_case s.
  - unfold OrderService.complete. use_case id s.
    destruct (Order.complete o) as [[[?|?]|?|] o'] eqn:E; simpl; rewrite E; done_case s.
    unfold save_order, set_repo. autorewrite with monad. rewrite ok_dto_state.
    by destruct (publisher_ s); done_case s.
Qed.

(** The service and the shop hold the same orders under the same names. *)
Record shop_sim s (sh : Shop) : Prop := {
  sim_ok : repo_ok (repo_ s);
  sim_find i : findById (repo_ s) i = orders sh !! order_id_value i;
  sim_seq : seq_ s = issued sh;
  sim_events : published s = events sh
}.

Lemma sim_save s sh o i r pub n ev :
  shop_sim s sh → id_ o = i → r = save o (repo_ s) →
  shop_sim (mkService r pub n ev) (mkShop (<[order_id_value i := o]> (orders sh)) n ev).
Proof.
  intros [Hok Hf _ _] <- ->. split; simpl; [by apply save_ok| |done..].
  intros j. destruct (decide (j = id_ o)) as [->|Hne].
  - by rewrite find_save_eq, lookup_insert_eq.
  - rewrite find_save_ne by done. rewrite lookup_insert_ne; [done|].
    intros E. apply Hne. destruct j, (id_ o). by simpl in E; subst.
Qed.

Lemma exec_id c o : id_ (exec c o) = id_ o.
Proof. by rewrite exec_spec. Qed.

Lemma createOrder_state cu ad s :
  (createOrder cu ad s).2 =
  let n := swrap 64 (seq_ s + 1) in
  mkService (save (new_Order (order_key n) cu ad) (repo_ s)) (publisher_ s) n (published s).
Proof. done. Qed.

Lemma run_case_sim u s sh :
  shop_sim s sh →
  shop_sim (run_case s u) (shop_step (publisher_ s) sh u) ∧
  publisher_ (run_case s u) = publisher_ s.
Proof.
  intros Hsim. destruct (call_of u) as [[i c]|] eqn:Hu.
  - rewrite (run_case_committed u i c s Hu).
    assert (shop_step (publisher_ s) sh u =
      match orders sh !! order_id_value i with
      | Some o =>
          if accepts c o
          then {| orders := <[order_id_value i := exec c o]> (orders sh); issued := issued sh;
                  events := events sh ++ if publisher_ s then announces i c o else [] |}
          else sh
      | None => sh
      end) as -> by (by destruct u; simplify_eq/=).
    unfold committed. rewrite <- (sim_find s sh Hsim i).
    destruct (findById (repo_ s) i) as [o|] eqn:Ho; [|done].
    destruct (accepts c o); [|done]. split; [|done].
    rewrite <- (sim_seq s sh Hsim), <- (sim_events s sh Hsim). eapply sim_save; [done| |done].
    rewrite exec_id. eapply find_id, Ho. apply Hsim.
  - destruct u as [cu ad| | | | | | ]; [|done..].
    change (run_case s (UCreate cu ad)) with (createOrder cu ad s).2.
    rewrite createOrder_state. simpl. split; [|done].
    rewrite <- (sim_seq s sh Hsim), <- (sim_events s sh Hsim).
    set (n := swrap 64 (seq_ s + 1)).
    exact (sim_save s sh (new_Order (order_key n) cu ad) (order_key n) _ _ _ _ Hsim eq_refl eq_refl).
Qed.

Lemma run_cases_sim us s sh :
  shop_sim s sh → shop_sim (run_cases s us) (shop_run (publisher_ s) sh us) ∧
  publisher_ (run_cases s us) = publisher_ s.
Proof.
  revert s sh. induction us as [|u us IH]; intros s sh Hsim; simpl; [done|].
  destruct (run_case_sim u s sh Hsim) as [H1 H2].
  destruct (IH _ _ H1) as [H3 H4]. rewrite H2 in H3, H4. done.
Qed.

(** C13: running any sequence of use cases against any repository that keeps its
    contract has the effect of the specification: the stored orders, the
    sequence number and the published events are those of the shop. *)
Theorem service_refines_shop s sh us :
  shop_sim s sh → shop_sim (run_cases s us) (shop_run (publisher_ s) sh us).
Proof. apply run_cases_sim. Qed.

(** ** Facts about the shop *)
(** Every stored order is one the aggregate could have produced, under the
    identifier it was issued. *)
Definition shop_inv (sh : Shop) : Prop :=
  (0 ≤ issued sh < 2 ^ 63)%Z ∧
  ∀ k o, orders sh !! k = Some o →
    (∃ n cu ad, (1 ≤ n ≤ issued sh)%Z ∧ k = order_id_value (order_key n) ∧
       order_inv (new_Order (order_key n) cu ad) o).

Lemma shop_step_inv pub sh u :
  shop_inv sh → (issued sh + 1 < 2 ^ 63)%Z → shop_inv (shop_step pub sh u) ∧
  (issued (shop_step pub sh u) ≤ issued sh + 1)%Z.
Proof.
  intros [Hn Ho] Hlt. destruct (call_of u) as [[i c]|] eqn:Hu.
  - assert (shop_step pub sh u = sh ∨ ∃ o, orders sh !! order_id_value i = Some o ∧
      shop_step pub sh u = {| orders := <[order_id_value i := exec c o]> (orders sh); issued := issued sh;
                  events := events sh ++ if pub then announces i c o else [] |}) as [->|(o & Hi & ->)].
    { destruct u; simplify_eq/=; destruct (orders sh !! _) as [o|]; simpl; auto;
        case_match; eauto. }
    + split; [done|lia].
    + split; [|simpl; lia]. split; [done|]. simpl. intros k o' Hk.
      destruct (decide (k = order_id_value i)) as [->|Hne].
      * rewrite lookup_insert_eq in Hk. injection Hk as <-.
        destruct (Ho _ _ Hi) as (n & cu & ad & ? & ? & ?). exists n, cu, ad.
        split_and!; [lia..|done|by apply exec_inv].
      * rewrite lookup_insert_ne in Hk by done. by apply Ho.
  - destruct u as [cu ad| | | | | | ]; simplify_eq/=. rewrite swrap_small by lia. split; [|lia].
    split; [simpl; lia|]. simpl. intros k o' Hk.
    destruct (decide (k = order_id_value (order_key (issued sh + 1)))) as [->|Hne].
    + change (order_id_value (order_key ?n)) with ("ORD-" +:+ pretty n) in Hk.
      rewrite lookup_insert_eq in Hk. injection Hk as <-.
      exists (issued sh + 1)%Z, cu, ad. split_and!; [lia..|done|]. by repeat split; simpl.
    + rewrite lookup_insert_ne in Hk by (intros <-; by apply Hne).
      destruct (Ho _ _ Hk) as (n & cu' & ad' & ? & ? & ?). exists n, cu', ad'.
      split_and!; [lia..|done|done].
Qed.

Lemma shop_run_inv pub sh us :
  shop_inv sh → (issued sh + Z.of_nat (length us) < 2 ^ 63)%Z →
  shop_inv (shop_run pub sh us) ∧
  (issued (shop_run pub sh us) ≤ issued sh + Z.of_nat (length us))%Z.
Proof.
  revert sh. induction us as [|u us IH]; intros sh Hinv Hlt; simpl in *; [split; [done|lia]|].
  destruct (shop_step_inv pub sh u Hinv) as [H1 H2]; [lia|].
  destruct (IH (shop_step pub sh u) H1) as [H3 H4]; [lia|]. split; [done|lia].
Qed.

Definition empty_shop : Shop := {| orders := ∅; issued := 0; events := [] |}.
Lemma empty_shop_inv : shop_inv empty_shop.
Proof. split; [done|]. simpl. intros k o. by rewrite lookup_empty. Qed.

Lemma empty_sim r pub :
  repo_ok r → (∀ i, findById r i = None) → shop_sim (new_service r pub) empty_shop.
Proof. intros Hok Hempty. split; [done| |done..]. intros i. simpl. by rewrite lookup_empty. Qed.

Lemma reachable r pub us :
  repo_ok r → (∀ i, findById r i = None) → (Z.of_nat (length us) < 2 ^ 63)%Z →
  let s := run_cases (new_service r pub) us in
  ∃ sh, shop_sim s sh ∧ shop_inv sh ∧ (issued sh ≤ Z.of_nat (length us))%Z.
Proof.
  intros Hok Hempty Hlen s. exists (shop_run pub empty_shop us).
  pose proof (run_cases_sim us (new_service r pub) empty_shop (empty_sim r pub Hok Hempty)) as [Hs _].
  split; [done|]. apply shop_run_inv; [apply empty_shop_inv|done].
Qed.

(** Starting from an empty repository, in fewer than 2^63 - 1 use cases, a
    new order never overwrites a stored one: its identifier is unused. *)
Theorem createOrder_fresh r pub us cu ad :
  repo_ok r → (∀ i, findById r i = None) → (Z.of_nat (length us) < 2 ^ 63 - 1)%Z →
  let s := run_cases (new_service r pub) us in
  ∃ id, (createOrder cu ad s).1 = Ret (ok id) ∧ findById (repo_ s) id = None ∧
        findById (repo_ (createOrder cu ad s).2) id = Some (new_Order id cu ad).
Proof.
  intros Hok Hempty Hlen s. destruct (reachable r pub us Hok Hempty) as (sh & Hsim & [Hn Ho] & Hle); [lia|].
  fold s in Hsim. exists (order_key (swrap 64 (seq_ s + 1))). split; [done|].
  rewrite createOrder_state. simpl. split; [|by apply (find_save_eq (new_Order _ _ _))].
  rewrite (sim_find s sh Hsim), (sim_seq s sh Hsim), swrap_small by lia.
  destruct (orders sh !! _) as [o|] eqn:E; [|done].
  destruct (Ho _ _ E) as (n & cu' & ad' & Hrange & Hkey & _).
  apply (inj (String.append "ORD-")), (inj pretty) in Hkey. exfalso. lia.
Qed.

(** Every order a client can find was created under that identifier and
    obeys the aggregate's invariants. *)
Theorem stored_orders_ok r pub us i o :
  repo_ok r → (∀ i, findById r i = None) → (Z.of_nat (length us) < 2 ^ 63)%Z →
  findById (repo_ (run_cases (new_service r pub) us)) i = Some o →
  id_ o = i ∧ Forall item_ok (items_ o) ∧ (status_ o = Confirmed → items_ o ≠ []) ∧
  rtc (λ a b, canTransit a b = true) Created (status_ o).
Proof.
  intros Hok Hempty Hlen Hf. destruct (reachable r pub us Hok Hempty Hlen) as (sh & Hsim & [Hn Ho] & _).
  split; [eapply find_id, Hf; apply Hsim|].
  rewrite (sim_find _ _ Hsim) in Hf. destruct (Ho _ _ Hf) as (n & cu & ad & _ & _ & Hinv).
  destruct Hinv as (_ & _ & _ & H1 & H2 & H3). done.
Qed.

(** ** Listing *)
Lemma toDtos_spec l ds :
  toDtos l = Ret ds ↔ Forall2 (λ o d, toDto o = Ret d) l ds.
Proof.
  revert ds. induction l as [|o l IH]; intros ds; split.
  - by intros [= <-].
  - by inversion 1.
  - simpl. destruct (toDto o) as [d|e|] eqn:E; simpl; [|done..].
    destruct (toDtos l) as [ds'|e|] eqn:E2; simpl; [|done..].
    intros [= <-]. constructor; [done|by apply IH].
  - inversion 1 as [|? d ? ds' Hd Hds]; subst. simpl. rewrite Hd. simpl.
    by rewrite (proj2 (IH ds') Hds).
Qed.

Lemma toDto_id o d : toDto o = Ret d → dto_id d = order_id_value (id_ o).
Proof.
  unfold toDto. destruct (total o); simpl; [|done..].
  by destruct (itemDtos _); simpl; [intros [= <-]|..].
Qed.

Lemma toDtos_ids l ds :
  Forall2 (λ o d, toDto o = Ret d) l ds → dto_id <$> ds = order_id_value <$> (id_ <$> l).
Proof.
  induction 1 as [|o d l ds Hd _ IH]; [done|]. rewrite !fmap_cons.
  by rewrite (toDto_id o d Hd), IH.
Qed.

Lemma Forall2_exists {A B} (P : A → B → Prop) l : (∀ x, x ∈ l → ∃ y, P x y) → ∃ k, Forall2 P l k.
Proof.
  induction l as [|x l IH]; intros Hex; [exists []; constructor|]. destruct (Hex x) as [y Hy]; [left|].
  destruct IH as [k Hk]; [intros z Hz; apply Hex; by right|]. exists (y :: k). by constructor.
Qed.
(** An order whose amount fits 64 bits has a view, with that amount. *)
Lemma itemDtos_total l : Forall item_ok l → (amount l < 2 ^ 63)%Z → ∃ ds, itemDtos l = Ret ds.
Proof.
  induction 1 as [|it l [Hq Hp] Hl IH]; intros Ha; [by eexists|]. pose proof (amount_nonneg _ Hl). cbn [amount foldr] in Ha.
  change (foldr _ 0%Z l) with (amount l) in Ha. destruct IH as [ds Hds]; [nia|].
  cbn [itemDtos]. unfold itemDto, lineTotal, Money.mul. simpl. rewrite signed_Ret by nia. simpl. rewrite Hds. by eexists.
Qed.
Lemma toDto_total o : Forall item_ok (items_ o) → (amount (items_ o) < 2 ^ 63)%Z →
  ∃ d, toDto o = Ret d ∧ dto_total d = Money.cents (amount (items_ o)).
Proof.
  intros Hok Ha. pose proof (amount_nonneg _ Hok). destruct (itemDtos_total _ Hok Ha) as [ds Hds].
  unfold toDto, total, Money.zero. rewrite total_from_exact by (done || lia). rewrite Z.add_0_l, signed_Ret by lia. simpl.
  rewrite Hds. by eexists.
Qed.

(** C14: after any use cases on an empty repository, with at most 10000 orders
    stored and their amounts within 64 bits, [listOrders] returns exactly the
    views of the stored orders, each order once, with its exact total, and
    changes nothing. *)
Theorem listOrders_complete r pub us :
  repo_ok r → (∀ i, findById r i = None) → (Z.of_nat (length us) < 2 ^ 63)%Z →
  let s := run_cases (new_service r pub) us in
  (Z.of_nat (count (repo_ s)) ≤ 10000)%Z → (∀ i o, findById (repo_ s) i = Some o → (amount (items_ o) < 2 ^ 63)%Z) →
  ∃ ds, listOrders s = (Ret (ok ds), s) ∧ NoDup (dto_id <$> ds) ∧
    ∀ d, d ∈ ds ↔ ∃ i o, findById (repo_ s) i = Some o ∧ toDto o = Ret d ∧ dto_total d = Money.cents (amount (items_ o)).
Proof.
  intros Hr Hempty Hlen s Hcount Hamount.
  assert (repo_ok (repo_ s)) as Hok by (destruct (reachable r pub us Hr Hempty Hlen) as (sh & Hsim & _); apply Hsim).
  assert (∀ o, o ∈ findPage (repo_ s) 0 10000 ↔ findById (repo_ s) (id_ o) = Some o) as Hall by (intros o; by apply page_all).
  assert (∀ i o, findById (repo_ s) i = Some o → ∃ d, toDto o = Ret d ∧ dto_total d = Money.cents (amount (items_ o))) as Hview.
  { intros i o Hf. apply toDto_total; [|by eapply Hamount].
    by destruct (stored_orders_ok r pub us i o Hr Hempty Hlen Hf) as (_ & ? & _). }
  assert (∃ ds, Forall2 (λ o d, toDto o = Ret d) (findPage (repo_ s) 0 10000) ds) as [ds Hds].
  { apply Forall2_exists. intros o Ho%Hall. destruct (Hview _ _ Ho) as (d & Hd & _). by exists d. }
  exists ds. split_and!.
  - unfold listOrders. autorewrite with monad. by rewrite (proj2 (toDtos_spec _ _) Hds).
  - assert (dto_id <$> ds = order_id_value <$> (id_ <$> findPage (repo_ s) 0 10000)) as -> by by apply toDtos_ids.
    apply NoDup_fmap_2_strong; [|by apply page_NoDup]. intros [a] [b] _ _ E. simpl in E. by subst.
  - intros d. split.
    + intros [k Hk]%list_elem_of_lookup. destruct (Forall2_lookup_r _ _ _ _ _ Hds Hk) as (o & Ho & Hd).
      assert (findById (repo_ s) (id_ o) = Some o) as Hf by (apply Hall; by eapply list_elem_of_lookup_2).
      exists (id_ o), o. split; [done|]. split; [done|]. destruct (Hview _ _ Hf) as (d' & Hd' & ?). congruence.
    + intros (i & o & Hf & Hd & _). pose proof (find_id _ _ _ Hok Hf) as <-.
      apply Hall, list_elem_of_lookup in Hf as [k Hk].
      destruct (Forall2_lookup_l _ _ _ _ _ Hds Hk) as (d' & Hd' & Hd2).
      rewrite Hd in Hd2. injection Hd2 as <-. by eapply list_elem_of_lookup_2.
Qed.
End refinement.
