(* ===== verification/OrderDemo.v ===== *)
(** * The demonstration of [ddd/src/presentation/main.cpp], and the instances
    of the service's theorems at the in-memory repository *)
From S2P Require Import Prelude StdMap Order OrderFacts OrderRepo OrderService ShopRefinement.
Import Status Item.

Definition Svc : Type := OrderApplicationService InMemoryOrderRepository.

(** ** Output *)
Definition nl : string := String (Ascii.ascii_of_nat 10) "".
Definition money_text (m : Money) : string :=
  match Money.format m with Ret s => s | _ => "" end.
(** [ConsoleEventPublisher] *)
Definition print_event (e : DomainEvent) : string :=
  match e with
  | OrderSubmitted i t =>
      "  [event] OrderSubmitted " +:+ order_id_value i +:+ " total=" +:+ money_text t +:+ nl
  | OrderCancelled i => "  [event] OrderCancelled " +:+ order_id_value i +:+ nl
  end.
Definition print_item (it : OrderItemDto) : string :=
  "      - " +:+ product it +:+ " x" +:+ pretty (quantity it) +:+ " @ " +:+ money_text (unit_price it)
  +:+ " = " +:+ money_text (line_total it) +:+ nl.
Definition printOrder (d : OrderDto) : string :=
  "  #" +:+ dto_id d +:+ " [" +:+ dto_status d +:+ "] customer=" +:+ dto_customer_id d
  +:+ " total=" +:+ money_text (dto_total d) +:+ " items=" +:+ pretty (item_count d) +:+ nl
  +:+ foldr (λ it t, print_item it +:+ t) "" (dto_items d).
Definition printErr (e : DomainError) : string :=
  "       ! error: " +:+ name (code e) +:+ " - " +:+ message e +:+ nl.
Definition separator : string :=
  nl +:+ "--------------------------------------------" +:+ nl +:+ nl.

(** ** [main]

    The state is the service and the console.  A service call prints the events
    it publishes; no service call prints anything else. *)
Definition Main : Type → Type := M (Svc * string).
Definition say (t : string) : Main unit := modify (λ s, (s.1, s.2 +:+ t)).
Definition call {A} (m : M Svc A) : Main A := λ s,
  let r := m s.1 in
  let new := drop (length (published s.1)) (published r.2) in
  (r.1, (r.2, s.2 +:+ foldr (λ e t, print_event e +:+ t) "" new)).
Definition on_err {A} (r : Result A) : Main unit :=
  match r with ok _ => mret tt | err e => say (printErr e) end.

Definition main : Main Z :=
  say ("=== DDD 订单管理演示 ===" +:+ nl) ;;
  created ← call (createOrder (mkCustomerId "C-1001") (mkAddress "Beijing" "Chaoyang" "xxx Road 1"));
  if negb (is_ok created) then say ("create failed" +:+ nl) ;; mret 1%Z else
  order_id ← lift_outcome (value created);
  say (nl +:+ "{1} 创建订单 => " +:+ order_id_value order_id +:+ nl) ;;
  say ("{2} 追加订单项：机械键盘 x1 @899.00，鼠标 x2 @199.00" +:+ nl) ;;
  r ← call (addItem order_id "机械键盘" 1 (Money.cents 89900)); on_err r ;;
  r ← call (addItem order_id "鼠标" 2 (Money.cents 19900)); on_err r ;;
  say separator ;;
  say ("{3} 提交订单" +:+ nl) ;;
  sub ← call (submit order_id);
  if negb (is_ok sub) then on_err sub ;; mret 1%Z else
  d ← lift_outcome (value sub); say (printOrder d) ;;
  say separator ;;
  say ("{4} 提交后尝试追加订单项（应被拒绝）" +:+ nl) ;;
  r ← call (addItem order_id "音箱" 1 (Money.cents 59900));
  (if is_ok r then say ("   ! 不应成功" +:+ nl) else on_err r) ;;
  say separator ;;
  say ("{5} 发货后再取消（应被拒绝）" +:+ nl) ;;
  r ← call (ship order_id); match r with ok d => say (printOrder d) | err _ => mret tt end ;;
  r ← call (cancel order_id ""); on_err r ;;
  say separator ;;
  say ("{6} 第二个订单：演示取消" +:+ nl) ;;
  c2 ← call (createOrder (mkCustomerId "C-1002") (mkAddress "Guangzhou" "Tianhe" "yyy Road"));
  o2 ← lift_outcome (value c2);
  call (addItem o2 "显示器" 1 (Money.cents 149900)) ;;
  sub2 ← call (submit o2);
  d ← lift_outcome (value sub2); say (printOrder d) ;;
  r ← call (cancel o2 "买家申请取消");
  match r with err e => say (printErr e) | ok d => say (printOrder d) end ;;
  say (nl +:+ "=== 各订单总额（领域服务折扣演示不在此展示） ===" +:+ nl) ;;
  list ← call listOrders;
  ds ← lift_outcome (value list);
  for_each (λ d, say (printOrder d)) ds ;;
  mret 0%Z.

(** The demonstration succeeds, and shows what its headings announce. *)
Definition demo_start : Svc * string := (new_service empty_repo true, "").
Definition order_status (s : Svc) (i : string) : option OrderStatus :=
  status_ <$> findById (repo_ s) (mkOrderId i).
Example main_runs :
  (main demo_start).1 = Ret 0%Z ∧
  published (main demo_start).2.1 =
    [OrderSubmitted (mkOrderId "ORD-1") (Money.cents 129700);
     OrderSubmitted (mkOrderId "ORD-2") (Money.cents 149900); OrderCancelled (mkOrderId "ORD-2")] ∧
  order_status (main demo_start).2.1 "ORD-1" = Some Shipped ∧
  order_status (main demo_start).2.1 "ORD-2" = Some Cancelled.
Proof. vm_compute. done. Qed.

(** ** The theorems at the in-memory repository *)
Lemma empty_repo_ok : repo_ok empty_repo.
Proof. split; [constructor|]. by intros k o ?%elem_of_nil. Qed.
Lemma empty_repo_empty i : findById empty_repo i = None.
Proof. done. Qed.

Definition demo_cases : list usecase :=
  [UCreate (mkCustomerId "C") (mkAddress "a" "b" "c");
   UAddItem (mkOrderId "ORD-1") "p" 2 (Money.cents 100); USubmit (mkOrderId "ORD-1")].
Definition demo_service : Svc := run_cases (new_service empty_repo true) demo_cases.

Lemma service_refines_shop_witness :
  shop_sim demo_service (shop_run true empty_shop demo_cases).
Proof.
  exact (service_refines_shop (new_service empty_repo true) empty_shop demo_cases
    (empty_sim empty_repo true empty_repo_ok empty_repo_empty)).
Defined.

Lemma createOrder_fresh_witness :
  ∃ id, (createOrder (mkCustomerId "D") (mkAddress "a" "b" "c") demo_service).1 = Ret (ok id) ∧
    findById (repo_ demo_service) id = None ∧
    findById (repo_ (createOrder (mkCustomerId "D") (mkAddress "a" "b" "c") demo_service).2) id =
      Some (new_Order id (mkCustomerId "D") (mkAddress "a" "b" "c")).
Proof.
  exact (createOrder_fresh empty_repo true demo_cases _ _ empty_repo_ok empty_repo_empty eq_refl).
Defined.

Lemma stored_orders_ok_witness :
  ∃ o, findById (repo_ demo_service) (mkOrderId "ORD-1") = Some o ∧ status_ o = Confirmed ∧
    id_ o = mkOrderId "ORD-1" ∧ Forall item_ok (items_ o) ∧
    (status_ o = Confirmed → items_ o ≠ []) ∧ rtc (λ a b, canTransit a b = true) Created (status_ o).
Proof.
  eexists. split; [vm_compute; reflexivity|]. split; [done|].
  apply (stored_orders_ok empty_repo true demo_cases); [exact empty_repo_ok|exact empty_repo_empty|done|].
  vm_compute. reflexivity.
Defined.

Lemma demo_service_ok : repo_ok (repo_ demo_service).
Proof. apply (run_cases_sim demo_cases _ _ (empty_sim empty_repo true empty_repo_ok empty_repo_empty)). Qed.

Lemma demo_amounts i o : findById (repo_ demo_service) i = Some o → (amount (items_ o) < 2 ^ 63)%Z.
Proof.
  intros Hf. assert (o ∈ findPage (repo_ demo_service) 0 10000) as Hin.
  { apply page_all; [exact demo_service_ok|vm_compute; done|]. by rewrite (find_id _ _ _ demo_service_ok Hf). }
  assert (forallb (λ o, amount (items_ o) <? 2 ^ 63)%Z (findPage (repo_ demo_service) 0 10000) = true) as Hall by by vm_compute.
  rewrite forallb_forall in Hall. by apply Z.ltb_lt, Hall, list_elem_of_In.
Qed.
Lemma listOrders_complete_witness :
  ∃ ds, listOrders demo_service = (Ret (ok ds), demo_service) ∧ NoDup (dto_id <$> ds) ∧
    ∀ d, d ∈ ds ↔ ∃ i o, findById (repo_ demo_service) i = Some o ∧ toDto o = Ret d ∧ dto_total d = Money.cents (amount (items_ o)).
Proof.
  apply (listOrders_complete empty_repo true demo_cases); [exact empty_repo_ok|exact empty_repo_empty|done|vm_compute; done|exact demo_amounts].
Defined.

(** An order that was shipped, for the theorems about the aggregate. *)
Definition shipped_order : Order :=
  exec_all [CAddItem "p" 2 (Money.cents 100); CSubmit; CShip]
    (new_Order (mkOrderId "A") (mkCustomerId "C") (mkAddress "a" "b" "c")).
Lemma addItem_locked_only_when_confirmed_witness :
  Order.addItem "q" 1 (Money.cents 5) shipped_order =
    if decide (status_ shipped_order = Confirmed) then (Ret (fails OrderLocked), shipped_order)
    else (Ret (ok tt), set_items (items_ shipped_order ++ [mkItem "q" 1 (Money.cents 5)]) shipped_order).
Proof. apply addItem_locked_only_when_confirmed; done. Defined.
Lemma shipped_order_can_be_emptied_witness :
  let o' := exec_all (replicate (length (items_ shipped_order)) (CRemoveItem 0)) shipped_order in
  items_ o' = [] ∧ status_ o' = Shipped ∧ total o' = Ret Money.zero.
Proof. exact (shipped_order_can_be_emptied shipped_order eq_refl). Defined.
