(* ===== verification/DeviceCommon.v ===== *)
(** * The states and events of [state_machine_2/include/common.hpp] *)
From stdpp Require Import finite.
From S2P Require Import Prelude.

Inductive DeviceState :=
  | Off | Starting | Standby | Active | Suspended | Error | EmergencyStop | ShuttingDown | On
  | PowerOnState.
Inductive DeviceEvent :=
  | PowerOn | PowerOff | StartComplete | EnterStandby | ExitStandby | Suspend | Resume
  | ErrorOccurred | ErrorCleared | EmergencyStopTriggered | Recover.
#[export] Instance DeviceState_eq_dec : EqDecision DeviceState.
Proof. solve_decision. Defined.
#[export] Instance DeviceEvent_eq_dec : EqDecision DeviceEvent.
Proof. solve_decision. Defined.

Definition all_states : list DeviceState :=
  [Off; Starting; Standby; Active; Suspended; Error; EmergencyStop; ShuttingDown; On; PowerOnState].
Definition all_events : list DeviceEvent :=
  [PowerOn; PowerOff; StartComplete; EnterStandby; ExitStandby; Suspend; Resume; ErrorOccurred;
   ErrorCleared; EmergencyStopTriggered; Recover].
#[export] Program Instance DeviceState_finite : Finite DeviceState := {| enum := all_states |}.
Next Obligation. by apply (bool_decide_unpack _). Qed.
Next Obligation. intros []; by apply (bool_decide_unpack _). Qed.
#[export] Program Instance DeviceEvent_finite : Finite DeviceEvent := {| enum := all_events |}.
Next Obligation. by apply (bool_decide_unpack _). Qed.
Next Obligation. intros []; by apply (bool_decide_unpack _). Qed.

Definition state_to_string (s : DeviceState) : string :=
  match s with
  | Off => "Off" | Starting => "Starting" | Standby => "Standby" | Active => "Active"
  | Suspended => "Suspended" | Error => "Error" | EmergencyStop => "EmergencyStop"
  | ShuttingDown => "ShuttingDown" | On => "On" | PowerOnState => "PowerOnState"
  end.
Definition event_to_string (e : DeviceEvent) : string :=
  match e with
  | PowerOn => "PowerOn" | PowerOff => "PowerOff" | StartComplete => "StartComplete"
  | EnterStandby => "EnterStandby" | ExitStandby => "ExitStandby" | Suspend => "Suspend"
  | Resume => "Resume" | ErrorOccurred => "ErrorOccurred" | ErrorCleared => "ErrorCleared"
  | EmergencyStopTriggered => "EmergencyStopTriggered" | Recover => "Recover"
  end.

(** The position of an enumerator, which orders the keys of the maps. *)
Definition state_index (s : DeviceState) : Z :=
  match s with
  | Off => 0 | Starting => 1 | Standby => 2 | Active => 3 | Suspended => 4 | Error => 5
  | EmergencyStop => 6 | ShuttingDown => 7 | On => 8 | PowerOnState => 9
  end.
Lemma state_index_inj s t : state_index s = state_index t → s = t.
Proof. by destruct s, t. Qed.

Definition newline : string := String (Ascii.ascii_of_nat 10) "".
Definition print_separator (title : string) : list string :=
  [""; String.concat "" (replicate 60 "="); "  " +:+ title; String.concat "" (replicate 60 "=")].
