(* ===== verification/FsmCommon.v ===== *)
(** * What the machines of [state_machine_2/include] share

    The templates keep a current state and call [std::function] members.  A
    callback is a call on the machine's state and on the variables [W] it
    captures; the transition tables are fixed while an event is processed.
    [current_state_] has no value before the first [reset]. *)
From S2P Require Import Prelude.

Section fsm.
Context {State W : Type}.

Record Fsm := mkFsm { current_state_ : option State; world : W }.
Definition Action := M Fsm unit.
Definition Guard := M Fsm bool.
Record Transition := mkTransition { target : State; action : option Action; guard : option Guard }.

Definition current_state : M Fsm State :=
  s ← get; match current_state_ s with Some st => mret st | None => undef end.
Definition set_current (st : State) : M Fsm unit :=
  modify (λ s, {| current_state_ := Some st; world := world s |}).
(** [if (auto it = actions.find(..); it != end) it->second();], and
    [!guard || guard()]. *)
Definition run_opt (a : option Action) : M Fsm unit :=
  match a with Some act => act | None => mret tt end.
Definition passes (g : option Guard) : M Fsm bool :=
  match g with Some g => g | None => mret true end.

(** Callbacks that only touch the captured variables. *)
Definition on_world (f : W → W) : M Fsm unit :=
  modify (λ s, {| current_state_ := current_state_ s; world := f (world s) |}).
Definition reads_world (g : W → bool) : M Fsm bool := s ← get; mret (g (world s)).

Definition acts (a : option Action) (f : W → W) : Prop := ∀ s, run_opt a s = on_world f s.
Definition guards (g : option Guard) (f : W → bool) : Prop :=
  ∀ s, passes g s = (Ret (f (world s)), s).

Lemma acts_none : acts None (λ w, w).
Proof. by intros [s w]. Qed.
Lemma acts_some f : acts (Some (on_world f)) f.
Proof. done. Qed.
Lemma guards_none : guards None (λ _, true).
Proof. done. Qed.
Lemma guards_some g : guards (Some (reads_world g)) g.
Proof. done. Qed.

Lemma acts_bind {A} a f (k : unit → M Fsm A) st w :
  acts a f → (run_opt a ≫= k) (mkFsm st w) = k tt (mkFsm st (f w)).
Proof. intros Ha. apply (M_bind_ret k (run_opt a)). by rewrite Ha. Qed.

Lemma guards_bind {A} g f (k : bool → M Fsm A) s :
  guards g f → (passes g ≫= k) s = k (f (world s)) s.
Proof. intros Hg. apply (M_bind_ret k (passes g)). by rewrite Hg. Qed.

Lemma current_bind {A} (k : State → M Fsm A) st w :
  (current_state ≫= k) (mkFsm (Some st) w) = k st (mkFsm (Some st) w).
Proof. done. Qed.
Lemma set_current_bind {A} (k : unit → M Fsm A) st s :
  (set_current st ≫= k) s = k tt (mkFsm (Some st) (world s)).
Proof. done. Qed.

(** ** What the tables describe *)
Context {Event : Type}.
Record Edge := mkEdge { e_target : State; e_action : W → W; e_guard : W → bool }.
Record Chart := mkChart {
  edge : State → Event → option Edge; enter : State → W → W; leave : State → W → W }.

(** Every callback of the tables is the function the chart names. *)
Record describes (c : Chart) (tr : State → Event → option Transition)
    (en ex : State → option Action) : Prop := {
  desc_edge st e :
    match tr st e, edge c st e with
    | Some t, Some ed =>
        target t = e_target ed ∧ acts (action t) (e_action ed) ∧ guards (guard t) (e_guard ed)
    | None, None => True
    | _, _ => False
    end;
  desc_enter st : acts (en st) (enter c st);
  desc_leave st : acts (ex st) (leave c st)
}.
End fsm.
Arguments Chart State W Event : clear implicits.
Arguments Fsm State W : clear implicits.
Arguments Transition State W : clear implicits.
Arguments Action State W : clear implicits.
Arguments Guard State W : clear implicits.

#[export] Hint Resolve acts_none acts_some guards_none guards_some : fsm.
#[export] Hint Rewrite @current_bind @set_current_bind : monad.
