(* ===== verification/SimpleFsm.v ===== *)
(** * The flat state machine of [state_machine_2/include/simple_fsm.hpp] *)
From S2P Require Import Prelude FsmCommon.
Local Open Scope prog_scope.

Section simple.
Context {State Event W : Type} `{Countable State} `{Countable Event}.

Record SimpleStateMachine := mkTables {
  transitions_ : gmap (State * Event) (Transition State W);
  entry_actions_ : gmap State (Action State W);
  exit_actions_ : gmap State (Action State W)
}.

Definition new_tables : SimpleStateMachine :=
  {| transitions_ := ∅; entry_actions_ := ∅; exit_actions_ := ∅ |}.
Definition add_transition (from : State) (event : Event) (to : State)
    (act : option (Action State W)) (g : option (Guard State W)) (m : SimpleStateMachine) : SimpleStateMachine :=
  {| transitions_ := <[(from, event) := {| target := to; action := act; guard := g |}]> (transitions_ m);
     entry_actions_ := entry_actions_ m; exit_actions_ := exit_actions_ m |}.
Definition on_entry (state : State) (act : Action State W) (m : SimpleStateMachine) : SimpleStateMachine :=
  {| transitions_ := transitions_ m; entry_actions_ := <[state := act]> (entry_actions_ m);
     exit_actions_ := exit_actions_ m |}.
Definition on_exit (state : State) (act : Action State W) (m : SimpleStateMachine) : SimpleStateMachine :=
  {| transitions_ := transitions_ m; entry_actions_ := entry_actions_ m;
     exit_actions_ := <[state := act]> (exit_actions_ m) |}.
Definition has_transition (from : State) (event : Event) (m : SimpleStateMachine) : bool :=
  bool_decide (is_Some (transitions_ m !! (from, event))).
Definition remove_transition (from : State) (event : Event) (m : SimpleStateMachine) : SimpleStateMachine :=
  {| transitions_ := delete (from, event) (transitions_ m);
     entry_actions_ := entry_actions_ m; exit_actions_ := exit_actions_ m |}.
Definition clear (m : SimpleStateMachine) : SimpleStateMachine := new_tables.

Definition process_event (m : SimpleStateMachine) (event : Event) : M (Fsm State W) bool :=
  current ← current_state;
  match transitions_ m !! (current, event) with
  | None => mret false
  | Some tr =>
      pass ← passes (guard tr);
      if negb pass then mret false
      else
        previous ← current_state;
        run_opt (exit_actions_ m !! previous) ;;
        set_current (target tr) ;;
        run_opt (action tr) ;;
        now ← current_state;
        run_opt (entry_actions_ m !! now) ;;
        mret true
  end.

Definition reset (m : SimpleStateMachine) (initial : State) : M (Fsm State W) unit :=
  set_current initial ;; run_opt (entry_actions_ m !! initial).

(** ** The chart *)
Definition chart_step (c : Chart State W Event) (st : State) (w : W) (e : Event) : bool * State * W :=
  match edge c st e with
  | Some ed =>
      if e_guard ed w
      then (true, e_target ed, enter c (e_target ed) (e_action ed (leave c st w)))
      else (false, st, w)
  | None => (false, st, w)
  end.
Fixpoint chart_run (c : Chart State W Event) (st : State) (w : W) (es : list Event) : list bool * State * W :=
  match es with
  | [] => ([], st, w)
  | e :: es' =>
      let '(b, st', w') := chart_step c st w e in
      let '(bs, st'', w'') := chart_run c st' w' es' in (b :: bs, st'', w'')
  end.

Fixpoint process_events (m : SimpleStateMachine) (es : list Event) : M (Fsm State W) (list bool) :=
  match es with
  | [] => mret []
  | e :: es' => b ← process_event m e; bs ← process_events m es'; mret (b :: bs)
  end.

(** The tables implement the chart: every callback is the function it names. *)
Definition implements (m : SimpleStateMachine) (c : Chart State W Event) : Prop :=
  describes c (λ st e, transitions_ m !! (st, e)) (λ st, entry_actions_ m !! st)
    (λ st, exit_actions_ m !! st).

Lemma process_event_chart m c e st w :
  implements m c →
  process_event m e (mkFsm (Some st) w) =
    let '(b, st', w') := chart_step c st w e in (Ret b, mkFsm (Some st') w').
Proof.
  intros Hm. unfold process_event, chart_step. autorewrite with monad.
  pose proof (desc_edge _ _ _ _ Hm st e) as Hedge. simpl in Hedge.
  destruct (transitions_ m !! (st, e)) as [tr|], (edge c st e) as [ed|]; try done.
  destruct Hedge as (-> & Hact & Hg). rewrite (guards_bind _ _ _ _ Hg). simpl.
  destruct (e_guard ed w); simpl; [|done]. autorewrite with monad.
  rewrite (acts_bind _ _ _ _ _ (desc_leave _ _ _ _ Hm st)). autorewrite with monad. simpl.
  rewrite (acts_bind _ _ _ _ _ Hact). autorewrite with monad.
  by rewrite (acts_bind _ _ _ _ _ (desc_enter _ _ _ _ Hm (e_target ed))).
Qed.

Lemma process_events_chart m c es st w :
  implements m c →
  process_events m es (mkFsm (Some st) w) =
    let '(bs, st', w') := chart_run c st w es in (Ret bs, mkFsm (Some st') w').
Proof.
  intros Hm. revert st w. induction es as [|e es IH]; intros st w; simpl; [done|].
  pose proof (process_event_chart m c e st w Hm) as He.
  destruct (chart_step c st w e) as [[b st'] w'].
  rewrite (M_bind_ret _ _ _ _ _ He). specialize (IH st' w').
  destruct (chart_run c st' w' es) as [[bs st''] w''].
  by rewrite (M_bind_ret _ _ _ _ _ IH).
Qed.

(** Tables whose callbacks only touch the captured variables behave, on any
    list of events after [reset], as the chart they describe: the same replies,
    state and variables, the exit callback before the action and the action
    before the entry callback. *)
Theorem simple_fsm_refines_chart m c initial es s :
  implements m c →
  (reset m initial ;; process_events m es) s =
    let '(bs, st', w') := chart_run c initial (enter c initial (world s)) es in
    (Ret bs, mkFsm (Some st') w').
Proof.
  intros Hm. unfold reset. autorewrite with monad.
  rewrite (acts_bind _ _ _ _ _ (desc_enter _ _ _ _ Hm initial)).
  by apply process_events_chart.
Qed.

(** Before the first [reset] the state member has no value, and processing
    an event has no defined behaviour whatever the tables. *)
Theorem process_before_reset_undefined m e w :
  process_event m e (mkFsm None w) = (Undef, mkFsm None w).
Proof. done. Qed.
End simple.
Arguments SimpleStateMachine State Event W {_ _ _ _}.
