(* ===== verification/HierFsm.v ===== *)
(** * The hierarchical state machine of
    [state_machine_2/include/hierarchical_fsm.hpp]

    The walks to the root are loops over [parents_]; they take at most one step
    more than the table has entries when the table is acyclic, which is the
    fuel, and do not end when it has a cycle: the outcome is then [Undef]. *)
From S2P Require Import Prelude StdMap FsmCommon.
Local Open Scope prog_scope.

Section hier.
Context {State Event W : Type} `{KeyOrder State} `{Countable Event} `{!Countable State}.

Record HierarchicalStateMachine := mkTables {
  parents_ : list (State * State);
  children_ : list (State * list State);
  transitions_ : gmap (State * Event) (Transition State W);
  entry_actions_ : gmap State (Action State W);
  exit_actions_ : gmap State (Action State W)
}.
Definition new_tables : HierarchicalStateMachine :=
  {| parents_ := []; children_ := []; transitions_ := ∅; entry_actions_ := ∅; exit_actions_ := ∅ |}.

Definition parent_of (m : HierarchicalStateMachine) (s : State) : option State := mfind s (parents_ m).
Definition children_of (m : HierarchicalStateMachine) (s : State) : list State :=
  default [] (mfind s (children_ m)).

Definition add_state (state parent : State) (m : HierarchicalStateMachine) : HierarchicalStateMachine :=
  {| parents_ := minsert state parent (parents_ m);
     children_ := minsert parent (children_of m parent ++ [state]) (children_ m);
     transitions_ := transitions_ m; entry_actions_ := entry_actions_ m; exit_actions_ := exit_actions_ m |}.
Definition add_transition (from : State) (event : Event) (to : State)
    (act : option (Action State W)) (g : option (Guard State W))
    (m : HierarchicalStateMachine) : HierarchicalStateMachine :=
  {| parents_ := parents_ m; children_ := children_ m;
     transitions_ := <[(from, event) := {| target := to; action := act; guard := g |}]> (transitions_ m);
     entry_actions_ := entry_actions_ m; exit_actions_ := exit_actions_ m |}.
Definition on_entry (state : State) (act : Action State W) (m : HierarchicalStateMachine) : HierarchicalStateMachine :=
  {| parents_ := parents_ m; children_ := children_ m; transitions_ := transitions_ m;
     entry_actions_ := <[state := act]> (entry_actions_ m); exit_actions_ := exit_actions_ m |}.
Definition on_exit (state : State) (act : Action State W) (m : HierarchicalStateMachine) : HierarchicalStateMachine :=
  {| parents_ := parents_ m; children_ := children_ m; transitions_ := transitions_ m;
     entry_actions_ := entry_actions_ m; exit_actions_ := <[state := act]> (exit_actions_ m) |}.

Implicit Types (m : HierarchicalStateMachine) (s a b : State).

Definition fuel_of m : nat := S (length (parents_ m)).

(** ** Walks along [parents_] *)
Fixpoint ancestor_loop m (n : nat) (ancestor : State) (it : option State) : option bool :=
  match n with
  | O => None
  | S n' =>
      match it with
      | None => Some false
      | Some p => if decide (p = ancestor) then Some true else ancestor_loop m n' ancestor (parent_of m p)
      end
  end.
Definition is_ancestor m (ancestor s : State) : option bool :=
  ancestor_loop m (S (fuel_of m)) ancestor (parent_of m s).
Definition is_descendant m (descendant s : State) : option bool := is_ancestor m s descendant.

Fixpoint path_loop m (n : nat) (s : State) : option (list State) :=
  match n with
  | O => None
  | S n' =>
      match parent_of m s with
      | None => Some [s]
      | Some p => path ← path_loop m n' p; Some (s :: path)
      end
  end.
Definition path_to_root m s : option (list State) := path_loop m (fuel_of m) s.

Definition find_lca m a b : option State :=
  path_a ← path_to_root m a;
  path_b ← path_to_root m b;
  Some (match list_find (λ s, s ∈ path_b) path_a with Some (_, s) => s | None => a end).

(** [while (s != lca) { path.push_back(s); s = parent or lca; }] *)
Fixpoint below_loop m (n : nat) (lca s : State) : option (list State) :=
  match n with
  | O => None
  | S n' =>
      if decide (s = lca) then Some []
      else path ← below_loop m n' lca (default lca (parent_of m s)); Some (s :: path)
  end.
Definition path_below m (lca s : State) : option (list State) := below_loop m (S (fuel_of m)) lca s.

Definition lift_option {S A} (o : option A) : M S A :=
  match o with Some a => mret a | None => undef end.

(** ** Operations *)
Definition execute_transition m (from to : State) (act : option (Action State W)) : M (Fsm State W) bool :=
  lca ← lift_option (find_lca m from to);
  exit_path ← lift_option (path_below m lca from);
  for_each (λ s, run_opt (exit_actions_ m !! s)) exit_path ;;
  set_current to ;;
  run_opt act ;;
  entry_path ← lift_option (path_below m lca to);
  for_each (λ s, run_opt (entry_actions_ m !! s)) (reverse entry_path) ;;
  mret true.

Fixpoint bubble m (event : Event) (n : nat) (current : State) : M (Fsm State W) bool :=
  match n with
  | O => undef
  | S n' =>
      let up := match parent_of m current with
                | None => mret false
                | Some p => bubble m event n' p
                end in
      match transitions_ m !! (current, event) with
      | None => up
      | Some tr =>
          pass ← passes (guard tr);
          if (pass : bool) then execute_transition m current (target tr) (action tr) else up
      end
  end.
Definition process_event m (event : Event) : M (Fsm State W) bool :=
  current ← current_state; bubble m event (fuel_of m) current.

Definition is_in_state m (s : State) : M (Fsm State W) bool :=
  current ← current_state;
  if decide (current = s) then mret true else lift_option (is_descendant m current s).

Definition reset m (initial : State) : M (Fsm State W) unit :=
  path ← lift_option (path_to_root m initial);
  for_each (λ s, run_opt (entry_actions_ m !! s)) (reverse path) ;;
  set_current initial.

(** ** [dump_hierarchy]: the printed lines *)
Definition is_child m (parent : State) : bool := existsb (λ '(_, p), bool_decide (p = parent)) (parents_ m).
Definition collect_roots m (entries : list (State * State)) : list (State * unit) :=
  foldl (λ roots '(_, parent),
    if bool_decide (parent_of m parent = None) && bool_decide (mfind parent roots = None)
       && negb (is_child m parent)
    then minsert parent tt roots else roots) [] entries.
Definition roots_of m : list State :=
  let roots := (collect_roots m (parents_ m)).*1 in
  match roots, parents_ m with
  | [], (_, p) :: _ => [p]
  | _, _ => roots
  end.
Fixpoint dump_node m (show : State → string) (current : State) (n : nat) (s : State) (depth : nat)
    : option (list string) :=
  match n with
  | O => None
  | S n' =>
      let line := String.concat "" (replicate depth "  ")
        +:+ (if decide (current = s) then "> " else "  ") +:+ show s
        +:+ (if decide (depth = 0) then " (root)" else "") in
      subs ← mapM (λ c, dump_node m show current n' c (S depth)) (children_of m s);
      Some (line :: concat subs)
  end.
Definition dump_hierarchy m (show : State → string) (current : State) : option (list string) :=
  ls ← mapM (λ r, dump_node m show current (fuel_of m) r 0) (roots_of m); Some (concat ls).
End hier.
Arguments HierarchicalStateMachine State Event W {_ _ _ _}.
