(* ===== verification/HierFacts.v ===== *)
(** * What the hierarchical machine does

    The walks end on an acyclic hierarchy, the common ancestor is the nearest
    one, and processing an event is one step of the hierarchical chart. *)
From S2P Require Import Prelude StdMap FsmCommon HierFsm.

Section hier_facts.
Context {State Event W : Type} `{KeyOrder State} `{Countable Event} `{!Countable State}.
Implicit Types (m : HierarchicalStateMachine State Event W) (s a b : State).

(** No state is its own proper ancestor. *)
Definition acyclic m : Prop :=
  ∃ rank : State → nat, ∀ s p, parent_of m s = Some p → rank p < rank s.

(** [up_path m s l]: [l] lists [s] and its ancestors, up to the root. *)
Inductive up_path m : State → list State → Prop :=
  | up_root s : parent_of m s = None → up_path m s [s]
  | up_step s p l : parent_of m s = Some p → up_path m p l → up_path m s (s :: l).

(** ** The walks end *)
Lemma parent_key m s p : parent_of m s = Some p → s ∈ (parents_ m).*1.
Proof.
  unfold parent_of. induction (parents_ m) as [|[k v] l IH]; simpl; [done|].
  rewrite elem_of_cons. destruct (decide (s = k)); auto.
Qed.

Lemma path_loop_total m (rank : State → nat) n s seen :
  (∀ s p, parent_of m s = Some p → rank p < rank s) →
  NoDup seen → seen ⊆ (parents_ m).*1 → (∀ x, x ∈ seen → rank s < rank x) →
  length (parents_ m) < length seen + n →
  ∃ l, path_loop m n s = Some l ∧ up_path m s l.
Proof.
  intros Hrank. revert s seen. induction n as [|n IH]; intros s seen Hnd Hsub Hlow Hlen.
  - exfalso. assert (length seen ≤ length (parents_ m).*1) as Hle.
    { apply submseteq_length, NoDup_submseteq; [done|]. apply Hsub. }
    rewrite length_fmap in Hle. lia.
  - simpl. destruct (parent_of m s) as [p|] eqn:Hp; [|by eexists; split; [|apply up_root]].
    destruct (IH p (s :: seen)) as (l & -> & Hl).
    + constructor; [|done]. intros Hin. specialize (Hlow s Hin). lia.
    + intros x [->|Hx]%elem_of_cons; [by eapply parent_key|by apply Hsub].
    + specialize (Hrank s p Hp). intros x [->|Hx]%elem_of_cons; [done|]. specialize (Hlow x Hx). lia.
    + simpl. lia.
    + simpl. eexists; split; [done|]. by eapply up_step.
Qed.

Lemma path_to_root_total m s : acyclic m → ∃ l, path_to_root m s = Some l ∧ up_path m s l.
Proof.
  intros [rank Hrank]. apply (path_loop_total m rank _ s []); [done|constructor| | |unfold fuel_of; simpl; lia].
  - apply list_subseteq_nil.
  - by intros x ?%elem_of_nil.
Qed.

Lemma path_loop_length m n s l : path_loop m n s = Some l → length l ≤ n.
Proof.
  revert s l. induction n as [|n IH]; intros s l; simpl; [done|].
  destruct (parent_of m s) as [p|]; [|intros [= <-]; simpl; lia].
  destruct (path_loop m n p) as [l'|] eqn:E; simpl; [|done]. intros [= <-].
  apply IH in E. simpl. lia.
Qed.

Lemma up_path_det m s l l' : up_path m s l → up_path m s l' → l = l'.
Proof.
  intros Hl. revert l'. induction Hl as [s Hs|s p l Hp Hl IH]; intros l' Hl'.
  - inversion Hl'; by simplify_eq.
  - inversion Hl'; simplify_eq. f_equal. by apply IH.
Qed.

Lemma up_path_head m s l : up_path m s l → ∃ l', l = s :: l'.
Proof. destruct 1; eauto. Qed.

Lemma up_path_suffix m s l x :
  up_path m s l → x ∈ l → ∃ l1 l2, l = l1 ++ l2 ∧ up_path m x l2.
Proof.
  induction 1 as [s Hs|s p l Hp Hl IH].
  - intros ->%list_elem_of_singleton. exists [], [s]. split; [done|by apply up_root].
  - intros [->|Hx]%elem_of_cons.
    + exists [], (s :: l). split; [done|by eapply up_step].
    + destruct (IH Hx) as (l1 & l2 & -> & H2). by exists (s :: l1), l2.
Qed.

Lemma up_path_drop m s l i x : up_path m s l → l !! i = Some x → up_path m x (drop i l).
Proof.
  intros Hl. revert i. induction Hl as [s Hs|s p l Hp Hl IH]; intros [|i] Hx; simplify_eq/=.
  - by apply up_root.
  - by eapply up_step.
  - by apply IH.
Qed.

Lemma up_path_rank m (rank : State → nat) s l x :
  (∀ s p, parent_of m s = Some p → rank p < rank s) →
  up_path m s l → x ∈ l → x = s ∨ rank x < rank s.
Proof.
  intros Hrank. induction 1 as [s Hs|s p l Hp Hl IH].
  - intros ->%list_elem_of_singleton. by left.
  - intros [->|Hx]%elem_of_cons; [by left|]. right.
    specialize (Hrank s p Hp). destruct (IH Hx) as [->|]; lia.
Qed.

(** ** The part of a path below a state *)
Fixpoint below (lca : State) (l : list State) : list State :=
  match l with
  | [] => []
  | s :: l' => if decide (s = lca) then [] else s :: below lca l'
  end.

Lemma below_loop_spec m n lca s l :
  up_path m s l → length l < n → below_loop m n lca s = Some (below lca l).
Proof.
  intros Hl. revert n. induction Hl as [s Hs|s p l Hp Hl IH]; intros [|n] Hn; simpl in *; try lia.
  - destruct (decide (s = lca)); [done|]. rewrite Hs. simpl.
    destruct n as [|n]; [lia|]. simpl. by rewrite decide_True.
  - destruct (decide (s = lca)); [done|]. rewrite Hp. simpl. by rewrite IH by lia.
Qed.

Lemma path_below_spec m lca s l :
  acyclic m → up_path m s l → path_below m lca s = Some (below lca l).
Proof.
  intros Hac Hl. apply below_loop_spec; [done|].
  destruct (path_to_root_total m s Hac) as (l' & Hl' & Hup).
  rewrite (up_path_det _ _ _ _ Hl Hup). apply path_loop_length in Hl'. lia.
Qed.

Lemma below_in lca l x : x ∈ below lca l → x ∈ l.
Proof.
  induction l as [|s l IH]; simpl; [done|]. destruct (decide (s = lca)).
  - by intros ?%elem_of_nil.
  - rewrite !elem_of_cons. tauto.
Qed.

(** ** The common ancestor *)
Definition nearest (a : State) (la lb : list State) : State :=
  match list_find (λ s, s ∈ lb) la with Some (_, s) => s | None => a end.

Lemma find_lca_spec m a b la lb :
  acyclic m → up_path m a la → up_path m b lb → find_lca m a b = Some (nearest a la lb).
Proof.
  intros Hac Ha Hb. unfold find_lca.
  destruct (path_to_root_total m a Hac) as (la' & -> & Ha').
  destruct (path_to_root_total m b Hac) as (lb' & -> & Hb').
  by rewrite (up_path_det _ _ _ _ Ha Ha'), (up_path_det _ _ _ _ Hb Hb').
Qed.

(** ** [is_ancestor] *)
Lemma ancestor_loop_spec m n x p l :
  up_path m p l → length l < n → ancestor_loop m n x (Some p) = Some (bool_decide (x ∈ l)).
Proof.
  intros Hl. revert n. induction Hl as [s Hs|s q l Hq Hl IH]; intros [|n] Hn; simpl in *; try lia.
  - destruct (decide (s = x)) as [->|Hne].
    + by rewrite bool_decide_true by (by left).
    + rewrite Hs. destruct n as [|n]; [lia|]. simpl.
      rewrite bool_decide_false; [done|]. by intros ->%list_elem_of_singleton.
  - destruct (decide (s = x)) as [->|Hne].
    + by rewrite bool_decide_true by (by left).
    + rewrite Hq, IH by lia. f_equal. apply bool_decide_ext. rewrite elem_of_cons.
      split; [by right|]. by intros [->|].
Qed.

Lemma is_ancestor_spec m x s l :
  acyclic m → up_path m s l → is_ancestor m x s = Some (bool_decide (x ∈ tail l)).
Proof.
  intros Hac Hl. unfold is_ancestor. destruct Hl as [s Hs|s p l Hp Hl].
  - rewrite Hs. simpl. done.
  - rewrite Hp. apply ancestor_loop_spec; [done|]. change (length l < S (fuel_of m)).
    destruct (path_to_root_total m p Hac) as (l' & Hl' & Hup).
    rewrite (up_path_det _ _ _ _ Hl Hup). apply path_loop_length in Hl'. lia.
Qed.

(** ** The hierarchical chart

    [path] gives the ancestors of each state.  The first state on the current
    path with an enabled edge handles the event; the states below the common
    ancestor are left from the handler upwards and entered downwards to the
    target. *)
Fixpoint handler (c : Chart State W Event) (e : Event) (w : W) (l : list State) : option (State * Edge) :=
  match l with
  | [] => None
  | s :: l' =>
      match edge c s e with
      | Some ed => if e_guard ed w then Some (s, ed) else handler c e w l'
      | None => handler c e w l'
      end
  end.
Definition visit (f : State → W → W) (l : list State) (w : W) : W := foldl (λ w s, f s w) w l.
Definition hier_step (c : Chart State W Event) (path : State → list State) (st : State) (w : W) (e : Event)
    : bool * State * W :=
  match handler c e w (path st) with
  | None => (false, st, w)
  | Some (h, ed) =>
      let lca := nearest h (path h) (path (e_target ed)) in
      (true, e_target ed,
       visit (enter c) (reverse (below lca (path (e_target ed))))
         (e_action ed (visit (leave c) (below lca (path h)) w)))
  end.

Definition implements m (c : Chart State W Event) : Prop :=
  describes c (λ st e, transitions_ m !! (st, e)) (λ st, entry_actions_ m !! st)
    (λ st, exit_actions_ m !! st).
Definition paths_of m (path : State → list State) : Prop := ∀ s, up_path m s (path s).

Lemma for_each_acts {A} (tbl : State → option (Action State W)) (f : State → W → W) l (k : unit → M (Fsm State W) A) st w :
  (∀ s, acts (tbl s) (f s)) →
  (for_each (λ s, run_opt (tbl s)) l ≫= k) (mkFsm st w) = k tt (mkFsm st (visit f l w)).
Proof.
  intros Hf. revert w. induction l as [|s l IH]; intros w; simpl; [done|].
  autorewrite with monad. by rewrite (acts_bind _ _ _ _ _ (Hf s)), IH.
Qed.

Lemma execute_transition_chart m c path from to act f st w :
  acyclic m → paths_of m path → implements m c → acts act f →
  let lca := nearest from (path from) (path to) in
  execute_transition m from to act (mkFsm (Some st) w) =
    (Ret true, mkFsm (Some to)
       (visit (enter c) (reverse (below lca (path to))) (f (visit (leave c) (below lca (path from)) w)))).
Proof.
  intros Hac Hpath Hm Hact lca. unfold execute_transition.
  rewrite (find_lca_spec m from to (path from) (path to)) by done. fold lca.
  cbn [lift_option]. autorewrite with monad.
  rewrite (path_below_spec m lca from (path from)) by done. cbn [lift_option]. autorewrite with monad.
  rewrite (for_each_acts _ _ _ _ _ _ (desc_leave _ _ _ _ Hm)). autorewrite with monad. simpl.
  rewrite (acts_bind _ _ _ _ _ Hact).
  rewrite (path_below_spec m lca to (path to)) by done. cbn [lift_option]. autorewrite with monad.
  by rewrite (for_each_acts _ _ _ _ _ _ (desc_enter _ _ _ _ Hm)).
Qed.

Lemma bubble_chart m c path e n s l st w :
  acyclic m → paths_of m path → implements m c → up_path m s l → length l ≤ n →
  bubble m e n s (mkFsm (Some st) w) =
    match handler c e w l with
    | None => (Ret false, mkFsm (Some st) w)
    | Some (h, ed) =>
        let lca := nearest h (path h) (path (e_target ed)) in
        (Ret true, mkFsm (Some (e_target ed))
          (visit (enter c) (reverse (below lca (path (e_target ed))))
            (e_action ed (visit (leave c) (below lca (path h)) w))))
    end.
Proof.
  intros Hac Hpath Hm Hl. revert n.
  induction Hl as [s Hs|s p l Hp Hl IH]; intros [|n] Hn; simpl in *; try lia.
  - rewrite Hs. pose proof (desc_edge _ _ _ _ Hm s e) as Hedge. simpl in Hedge.
    destruct (transitions_ m !! (s, e)) as [tr|], (edge c s e) as [ed|]; try done.
    destruct Hedge as (Ht & Hact & Hg). rewrite (guards_bind _ _ _ _ Hg), Ht. simpl.
    destruct (e_guard ed w); [|done]. by apply execute_transition_chart.
  - rewrite Hp. pose proof (desc_edge _ _ _ _ Hm s e) as Hedge. simpl in Hedge.
    destruct (transitions_ m !! (s, e)) as [tr|], (edge c s e) as [ed|]; try done; [|apply IH; lia].
    destruct Hedge as (Ht & Hact & Hg). rewrite (guards_bind _ _ _ _ Hg), Ht. simpl.
    destruct (e_guard ed w); [|apply IH; lia]. by apply execute_transition_chart.
Qed.

(** C15: on an acyclic hierarchy [process_event] ends, and is one step of the
    hierarchical chart: the nearest enabled ancestor handles the event, exits
    run from it up to the common ancestor, then the action, then the entries
    down to the target. *)
Theorem hier_process_refines m c path e st w :
  acyclic m → paths_of m path → implements m c →
  process_event m e (mkFsm (Some st) w) =
    let '(b, st', w') := hier_step c path st w e in (Ret b, mkFsm (Some st') w').
Proof.
  intros Hac Hpath Hm. unfold process_event, hier_step. autorewrite with monad.
  rewrite (bubble_chart m c path e _ st (path st)) by
    (try done; destruct (path_to_root_total m st Hac) as (l' & Hl' & Hup);
     rewrite (up_path_det _ _ _ _ (Hpath st) Hup); by apply path_loop_length in Hl').
  by destruct (handler c e w (path st)) as [[h ed]|].
Qed.

(** C16: [find_lca] of two states of one tree is an ancestor of both (a state
    counting as its own), and every common ancestor is an ancestor of it. *)
Theorem find_lca_nearest m a b la lb :
  acyclic m → up_path m a la → up_path m b lb → (∃ x, x ∈ la ∧ x ∈ lb) →
  ∃ lca ll, find_lca m a b = Some lca ∧ up_path m lca ll ∧
    lca ∈ la ∧ lca ∈ lb ∧ ∀ x, x ∈ la → x ∈ lb → x ∈ ll.
Proof.
  intros Hac Ha Hb (x & Hxa & Hxb). rewrite (find_lca_spec m a b la lb) by done.
  unfold nearest. destruct (list_find (λ s, s ∈ lb) la) as [[i lca]|] eqn:E.
  - apply list_find_Some in E as (Hi & Hlb & Hmin). exists lca, (drop i la).
    split_and!; [done|by eapply up_path_drop|by eapply list_elem_of_lookup_2|done|].
    intros y Hya Hyb. apply list_elem_of_lookup in Hya as [j Hj].
    assert (i ≤ j) as Hij by (destruct (decide (j < i)); [by destruct (Hmin j y)|lia]).
    apply list_elem_of_lookup. exists (j - i). by rewrite lookup_drop, Nat.add_sub_assoc, Nat.add_sub_swap, Nat.sub_diag by lia.
  - exfalso. rewrite list_find_None, Forall_forall in E. by apply (E x).
Qed.

(** When the handler is a proper ancestor of the current state, the current
    state is not among the states whose exit callback runs: leaving through an
    inherited transition skips the exits below the handler. *)
Theorem inherited_transition_skips_exit m path st h to :
  acyclic m → paths_of m path → h ∈ path st → h ≠ st →
  ∃ exits, path_below m (nearest h (path h) (path to)) h = Some exits ∧ st ∉ exits.
Proof.
  intros Hac Hpath Hh Hne. exists (below (nearest h (path h) (path to)) (path h)).
  split; [by apply path_below_spec|]. intros Hin%below_in.
  destruct Hac as [rank Hrank].
  destruct (up_path_rank m rank st (path st) h Hrank (Hpath st) Hh) as [|H1]; [done|].
  destruct (up_path_rank m rank h (path h) st Hrank (Hpath h) Hin) as [|H2]; [done|lia].
Qed.

(** No state is ever collected as a root, since each candidate is the parent
    of the entry that proposes it; the dump starts at the parent of the least
    state, a root or not. *)
Theorem dump_starts_at_first_parent m k p rest :
  parents_ m = (k, p) :: rest → roots_of m = [p].
Proof.
  intros Hm. assert (∀ entries roots, entries ⊆ parents_ m →
    foldl (λ roots '(_, parent),
      if bool_decide (parent_of m parent = None) && bool_decide (mfind parent roots = None)
         && negb (is_child m parent)
      then minsert parent tt roots else roots) roots entries = roots) as Hnone.
  { intros entries. induction entries as [|[s q] entries IH]; intros roots Hsub; simpl; [done|].
    assert (is_child m q = true) as ->.
    { unfold is_child. apply existsb_exists. exists (s, q). split; [|by apply bool_decide_eq_true].
      apply list_elem_of_In, Hsub. by left. }
    rewrite andb_false_r. apply IH. intros x Hx. apply Hsub. by right. }
  unfold roots_of, collect_roots. rewrite Hnone by done. simpl. by rewrite Hm.
Qed.

(** ** [reset] *)
Lemma reset_enters m c path initial (o : option State) w :
  acyclic m → paths_of m path → implements m c →
  reset m initial (mkFsm o w) =
    (Ret tt, mkFsm (Some initial) (visit (enter c) (reverse (path initial)) w)).
Proof.
  intros Hac Hpath Hm. unfold reset.
  destruct (path_to_root_total m initial Hac) as (l & -> & Hl).
  rewrite (up_path_det _ _ _ _ Hl (Hpath initial)). cbn [lift_option]. autorewrite with monad.
  by rewrite (for_each_acts _ _ _ _ _ _ (desc_enter _ _ _ _ Hm)).
Qed.
End hier_facts.
