(* ===== verification/OoFsm.v ===== *)
(** * The object-oriented state machine of
    [state_machine_2/include/oo_state_machine.hpp]

    State objects live in [state_ptrs_] and are pointed to by their position;
    [T] are the types [std::type_index] distinguishes.  A state's virtual
    members are calls on the variables [W] the objects share; [handle_event]
    also gets the lookup [sm.state<T>()], the only part of the machine the
    states of the program use. *)
From S2P Require Import Prelude.
Local Open Scope prog_scope.

Section oo.
Context {T Event W : Type} `{Countable T}.

Definition Ptr := nat.
Record State := mkState {
  type_of_ : T;
  on_entry : M W unit;
  on_exit : M W unit;
  handle_event : Event → (T → option Ptr) → M W (option Ptr);
  name : string
}.
Record StateMachine := mkMachine {
  state_ptrs_ : list State;
  states_by_type_ : gmap T Ptr;
  current_state_ : option Ptr;
  world : W
}.
Definition new_machine (w : W) : StateMachine :=
  {| state_ptrs_ := []; states_by_type_ := ∅; current_state_ := None; world := w |}.

Definition register_state (s : State) (sm : StateMachine) : StateMachine :=
  {| state_ptrs_ := state_ptrs_ sm ++ [s];
     states_by_type_ := <[type_of_ s := length (state_ptrs_ sm)]> (states_by_type_ sm);
     current_state_ := current_state_ sm; world := world sm |}.
Definition state (sm : StateMachine) (t : T) : option Ptr := states_by_type_ sm !! t.

(** A call of a virtual member through a pointer. *)
Definition on_world {A} (m : M W A) : M StateMachine A := λ sm,
  let r := m (world sm) in
  (r.1, {| state_ptrs_ := state_ptrs_ sm; states_by_type_ := states_by_type_ sm;
           current_state_ := current_state_ sm; world := r.2 |}).
Definition deref (p : Ptr) : M StateMachine State :=
  sm ← get; match state_ptrs_ sm !! p with Some s => mret s | None => undef end.
Definition set_current (p : Ptr) : M StateMachine unit :=
  modify (λ sm, {| state_ptrs_ := state_ptrs_ sm; states_by_type_ := states_by_type_ sm;
                   current_state_ := Some p; world := world sm |}).

Definition start (t : T) : M StateMachine bool :=
  sm ← get;
  match states_by_type_ sm !! t with
  | None => mret false
  | Some p =>
      set_current p ;;
      s ← deref p; on_world (on_entry s) ;;
      mret true
  end.

Definition process_event (event : Event) : M StateMachine bool :=
  sm ← get;
  match current_state_ sm with
  | None => mret false
  | Some cur =>
      s ← deref cur;
      next ← on_world (handle_event s event (state sm));
      match next with
      | None => mret false
      | Some p =>
          (if decide (p = cur) then mret tt
           else
             on_world (on_exit s) ;;
             set_current p ;;
             s' ← deref p; on_world (on_entry s')) ;;
          mret true
      end
  end.

Definition current_state (sm : StateMachine) : option State :=
  p ← current_state_ sm; state_ptrs_ sm !! p.
(** [dynamic_cast<T*>(current_state_) != nullptr], the state types being final. *)
Definition is_in (t : T) (sm : StateMachine) : bool :=
  match current_state sm with Some s => bool_decide (type_of_ s = t) | None => false end.
Definition size (sm : StateMachine) : nat := length (state_ptrs_ sm).

Lemma deref_bind {A} p s (k : State → M StateMachine A) sm :
  state_ptrs_ sm !! p = Some s → (deref p ≫= k) sm = k s sm.
Proof. intros Hs. unfold deref. autorewrite with monad. by rewrite Hs. Qed.

Lemma on_world_bind {A B} (m : M W A) (k : A → M StateMachine B) sm :
  (on_world m ≫= k) sm =
    let r := m (world sm) in
    let sm' := {| state_ptrs_ := state_ptrs_ sm; states_by_type_ := states_by_type_ sm;
                  current_state_ := current_state_ sm; world := r.2 |} in
    match r.1 with Ret a => k a sm' | Throw e => (Throw e, sm') | Undef => (Undef, sm') end.
Proof. unfold on_world, mbind, M_bind. by destruct (m (world sm)) as [[] ?]. Qed.

Fixpoint process_events (es : list Event) : M StateMachine (list bool) :=
  match es with
  | [] => mret []
  | e :: es' => b ← process_event e; bs ← process_events es'; mret (b :: bs)
  end.

(** ** Registration keeps the pointers valid *)
Record machine_ok (sm : StateMachine) : Prop := {
  ok_types t p : states_by_type_ sm !! t = Some p →
    ∃ s, state_ptrs_ sm !! p = Some s ∧ type_of_ s = t;
  ok_current p : current_state_ sm = Some p → is_Some (state_ptrs_ sm !! p)
}.

Lemma new_machine_ok w : machine_ok (new_machine w).
Proof. split; simpl; [|done]. intros t p. by rewrite lookup_empty. Qed.

Lemma register_state_ok s sm : machine_ok sm → machine_ok (register_state s sm).
Proof.
  intros [Ht Hc]. split; simpl.
  - intros t p. destruct (decide (t = type_of_ s)) as [->|Hne].
    + rewrite lookup_insert_eq. intros [= <-]. exists s. split; [|done].
      by rewrite lookup_app_r, Nat.sub_diag by lia.
    + rewrite lookup_insert_ne by done. intros Hp. destruct (Ht _ _ Hp) as (s' & Hs' & Hty).
      exists s'. split; [|done]. by apply lookup_app_l_Some.
  - intros p Hp. destruct (Hc p Hp) as [s' Hs']. exists s'. by apply lookup_app_l_Some.
Qed.

(** A state that answers with pointers it looked up keeps the machine well
    formed, and no pointer is dereferenced out of range. *)
Definition looks_up (s : State) : Prop :=
  ∀ e f w p, (handle_event s e f w).1 = Ret (Some p) → ∃ t, f t = Some p.

Lemma machine_ok_frame sm w : machine_ok sm →
  machine_ok {| state_ptrs_ := state_ptrs_ sm; states_by_type_ := states_by_type_ sm;
                current_state_ := current_state_ sm; world := w |}.
Proof. intros [H1 H2]. by split. Qed.

Lemma process_event_ok e sm :
  Forall looks_up (state_ptrs_ sm) → machine_ok sm →
  machine_ok (process_event e sm).2 ∧ state_ptrs_ (process_event e sm).2 = state_ptrs_ sm.
Proof.
  intros Hall Hok. pose proof Hok as [Ht Hc]. unfold process_event. autorewrite with monad.
  destruct (current_state_ sm) as [cur|] eqn:Hcur; [|done].
  destruct (Hc cur eq_refl) as [s Hs]. rewrite (deref_bind cur s) by done.
  rewrite on_world_bind. cbv zeta.
  destruct (handle_event s e (state sm) (world sm)) as [[[p|]|ex|] w] eqn:Hh; cbn [fst snd];
    try (split; [by apply machine_ok_frame|done]).
  assert (∃ t, state sm t = Some p) as [t Hp].
  { rewrite Forall_forall in Hall. apply (Hall s (list_elem_of_lookup_2 _ _ _ Hs) e (state sm) (world sm)).
    by rewrite Hh. }
  destruct (Ht t p Hp) as (s' & Hs' & _).
  destruct (decide (p = cur)) as [->|Hne].
  - autorewrite with monad. simpl. split; [by apply machine_ok_frame|done].
  - autorewrite with monad. rewrite on_world_bind. cbv zeta. cbn [world].
    destruct (on_exit s w) as [[[]|ex|] w1]; cbn [fst snd];
      [|simpl; split; [by apply (machine_ok_frame sm)|done]..].
    unfold set_current. autorewrite with monad. rewrite (deref_bind p s') by done.
    rewrite on_world_bind. cbv zeta. cbn [world].
    destruct (on_entry s' w1) as [[[]|ex|] w2]; cbn [fst snd];
      (split; [split; simpl; [done|intros ? [= <-]; eauto]|done]).
Qed.
End oo.
Arguments State T Event W : clear implicits.
Arguments StateMachine T Event W {_ _}.
