(* ===== verification/DeviceControl.v ===== *)
(** * The device of [state_machine_2/examples/device_control.cpp]

    The tables of the flat machine (models 1 and 5), of the hierarchical
    machine (model 2), and the state classes of the object-oriented machine
    (model 4), with the scenarios that drive them and what they print. *)
From stdpp Require Import finite.
From S2P Require Import Prelude StdMap DeviceCommon FsmCommon.
From S2P Require SimpleFsm HierFsm OoFsm.
Local Open Scope prog_scope.

Definition nl : string := newline.
Definition yes_no (b : bool) (y n : string) : string := if b then y else n.
(** [print_separator(title)] *)
Definition separator_text (title : string) : string :=
  foldr (λ l t, l +:+ nl +:+ t) "" (print_separator title).

#[export] Program Instance DeviceState_order : KeyOrder DeviceState :=
  {| klt a b := (state_index a <? state_index b)%Z |}.
Next Obligation. intros k. apply Z.ltb_irrefl. Qed.
Next Obligation. intros a b c. rewrite !Z.ltb_lt. lia. Qed.
Next Obligation.
  intros a b Hne. rewrite !Z.ltb_lt.
  assert (state_index a ≠ state_index b) by (by intros ?%state_index_inj). lia.
Qed.

(** ** Model 1: the flat machine; the captured variable is the console *)
Module Model1.
Import SimpleFsm.
Abbreviation Machine := (SimpleStateMachine DeviceState DeviceEvent string).
Abbreviation Call := (M (Fsm DeviceState string)).
Definition print (t : string) : Call unit := on_world (λ out, out +:+ t).
Definition edge_to (from : DeviceState) (e : DeviceEvent) (to : DeviceState) (m : Machine) : Machine :=
  add_transition from e to None None m.
Definition greet (s : DeviceState) (t : string) (m : Machine) : Machine :=
  on_entry s (print (t +:+ nl)) m.

Definition fsm : Machine :=
  new_tables
  |> edge_to Off PowerOn Starting
  |> edge_to Starting StartComplete Active
  |> edge_to Active EnterStandby Standby
  |> edge_to Standby ExitStandby Active
  |> edge_to Active ErrorOccurred Error
  |> edge_to Standby ErrorOccurred Error
  |> edge_to Error ErrorCleared Active
  |> edge_to Active PowerOff ShuttingDown
  |> edge_to Standby PowerOff ShuttingDown
  |> edge_to Error PowerOff ShuttingDown
  |> edge_to ShuttingDown PowerOff Off
  |> edge_to Active Suspend Suspended
  |> edge_to Suspended Resume Active
  |> greet Off "  [Entry] Device is now Off"
  |> greet Starting "  [Entry] Device is starting up..."
  |> greet Active "  [Entry] Device is now Active"
  |> greet Standby "  [Entry] Device entered Standby mode"
  |> greet Suspended "  [Entry] Device is Suspended"
  |> greet Error "  [Entry] DEVICE ERROR!"
  |> greet ShuttingDown "  [Entry] Device is shutting down...".

Definition process (event : DeviceEvent) : Call unit :=
  ok ← process_event fsm event;
  st ← current_state;
  print ("  Event: " +:+ event_to_string event +:+ " -> " +:+ yes_no ok "OK" "IGNORED"
         +:+ "  [State: " +:+ state_to_string st +:+ "]" +:+ nl).
Definition run_events : list DeviceEvent :=
  [PowerOn; StartComplete; EnterStandby; ExitStandby; Suspend; Resume; ErrorOccurred; PowerOff; PowerOff].
Definition run_simple_fsm_example : Call unit :=
  print (separator_text "Model 1: Simple State Machine") ;;
  reset fsm Off ;;
  st ← current_state;
  print ("  Initial state: " +:+ state_to_string st +:+ nl +:+ nl) ;;
  for_each process run_events ;;
  st ← current_state;
  print (nl +:+ "  Final state: " +:+ state_to_string st +:+ nl).
End Model1.

(** ** Model 2: the hierarchical machine *)
Module Model2.
Import HierFsm.
Abbreviation Machine := (HierarchicalStateMachine DeviceState DeviceEvent string).
Abbreviation Call := (M (Fsm DeviceState string)).
Definition print (t : string) : Call unit := on_world (λ out, out +:+ t).
Definition edge_to (from : DeviceState) (e : DeviceEvent) (to : DeviceState) (m : Machine) : Machine :=
  add_transition from e to None None m.
Definition greet (s : DeviceState) (t : string) (m : Machine) : Machine :=
  on_entry s (print (t +:+ nl)) m.

Definition hsm : Machine :=
  new_tables
  |> add_state Starting Active
  |> add_state Standby Active
  |> add_state Suspended Active
  |> add_state Active On
  |> add_state On PowerOnState
  |> add_state Off PowerOnState
  |> add_state Error PowerOnState
  |> add_state ShuttingDown PowerOnState
  |> edge_to Off PowerOn Starting
  |> edge_to Starting StartComplete Active
  |> edge_to Active EnterStandby Standby
  |> edge_to Standby ExitStandby Active
  |> edge_to Active ErrorOccurred Error
  |> edge_to Error ErrorCleared Active
  |> edge_to Active Suspend Suspended
  |> edge_to Suspended Resume Active
  |> edge_to PowerOnState PowerOff ShuttingDown
  |> edge_to ShuttingDown PowerOff Off
  |> greet PowerOnState "  [Entry] Entered PowerOnState (hierarchy root)"
  |> greet Off "  [Entry] Device Off"
  |> greet Starting "  [Entry] Device Starting..."
  |> greet Active "  [Entry] Device Active"
  |> greet Standby "  [Entry] Device Standby"
  |> greet Suspended "  [Entry] Device Suspended"
  |> greet Error "  [Entry] ERROR STATE"
  |> greet ShuttingDown "  [Entry] Shutting Down...".

Definition dump : Call unit :=
  st ← current_state;
  ls ← lift_option (dump_hierarchy hsm state_to_string st);
  print (foldr (λ l t, l +:+ nl +:+ t) "" ls).
Definition process (event : DeviceEvent) (desc : string) : Call unit :=
  ok ← process_event hsm event;
  st ← current_state;
  print (nl +:+ "  " +:+ desc +:+ ":" +:+ nl) ;;
  print ("    Event: " +:+ event_to_string event +:+ " -> " +:+ yes_no ok "OK" "IGNORED"
         +:+ "  [State: " +:+ state_to_string st +:+ "]" +:+ nl).
Definition run_hierarchical_fsm_example : Call unit :=
  print (separator_text "Model 2: Hierarchical State Machine") ;;
  reset hsm Off ;;
  st ← current_state;
  print ("  Initial state: " +:+ state_to_string st +:+ nl) ;;
  print (nl +:+ "  State Hierarchy:" +:+ nl) ;;
  dump ;;
  process PowerOn "Power On" ;;
  process StartComplete "Startup Complete" ;;
  process EnterStandby "Enter Standby" ;;
  b ← is_in_state hsm On;
  print (nl +:+ "  Is in On state? " +:+ yes_no b "Yes" "No") ;;
  b ← is_in_state hsm PowerOnState;
  print (nl +:+ "  Is in PowerOnState? " +:+ yes_no b "Yes" "No") ;;
  process ExitStandby "Exit Standby" ;;
  process ErrorOccurred "Error Occurred" ;;
  process PowerOff "Power Off (handled at parent level)" ;;
  dump ;;
  process PowerOff "Complete Shutdown" ;;
  st ← current_state;
  print (nl +:+ "  Final state: " +:+ state_to_string st +:+ nl).
End Model2.

(** ** Model 5: the flat machine with a power level *)
Module Model5.
Import SimpleFsm.
Record Vars := mkVars { power_level : Z; error_count : Z; safety_lock : bool; out : string }.
Abbreviation Machine := (SimpleStateMachine DeviceState DeviceEvent Vars).
Abbreviation Call := (M (Fsm DeviceState Vars)).
Definition set_power (p : Z) (v : Vars) : Vars :=
  {| power_level := p; error_count := error_count v; safety_lock := safety_lock v; out := out v |}.
Definition set_errors (n : Z) (v : Vars) : Vars :=
  {| power_level := power_level v; error_count := n; safety_lock := safety_lock v; out := out v |}.
Definition print (t : string) : Call unit :=
  on_world (λ v, {| power_level := power_level v; error_count := error_count v;
                    safety_lock := safety_lock v; out := out v +:+ t |}).
Definition power (p : Z) : Call unit := on_world (set_power p).
(** [error_count++] on an [int] *)
Definition count_error : Call unit :=
  s ← get; n ← lift_outcome (signed 32 (error_count (world s) + 1)); on_world (set_errors n).

Definition fsm : Machine :=
  new_tables
  |> add_transition Off PowerOn Starting
       (Some (print ("  [Action] Initiating power sequence..." +:+ nl) ;; power 0))
       (Some (reads_world (λ v, negb (safety_lock v))))
  |> add_transition Starting StartComplete Active
       (Some (print ("  [Action] Setting power to operational level" +:+ nl) ;; power 100)) None
  |> add_transition Active EnterStandby Standby
       (Some (print ("  [Action] Reducing power to standby level" +:+ nl) ;; power 20)) None
  |> add_transition Standby ExitStandby Active
       (Some (print ("  [Action] Restoring power to operational level" +:+ nl) ;; power 100)) None
  |> add_transition Active ErrorOccurred Error
       (Some (print ("  [Action] Triggering emergency shutdown" +:+ nl) ;; power 0 ;; count_error)) None
  |> add_transition Error ErrorCleared Active
       (Some (print ("  [Action] Restoring after error recovery" +:+ nl) ;; power 100)) None
  |> add_transition Error PowerOff ShuttingDown
       (Some (print ("  [Action] Shutting down from error state" +:+ nl))) None
  |> add_transition Active PowerOff ShuttingDown
       (Some (print ("  [Action] Normal shutdown initiated" +:+ nl))) None
  |> add_transition ShuttingDown PowerOff Off
       (Some (print ("  [Action] Power fully removed" +:+ nl) ;; power 0)) None.

Definition report : Call unit :=
  st ← current_state; s ← get;
  print ("  State: " +:+ state_to_string st +:+ ", Power: " +:+ pretty (power_level (world s)) +:+ "%" +:+ nl).
Definition step_and_report (e : DeviceEvent) : Call unit := process_event fsm e ;; report.
Definition init_vars (console : string) : Vars :=
  {| power_level := 0; error_count := 0; safety_lock := false; out := console |}.
Definition run_device_control_example : Call unit :=
  print (separator_text "Comprehensive Device Control Scenario") ;;
  print ("  Simulating real device lifecycle with all patterns" +:+ nl) ;;
  reset fsm Off ;;
  st ← current_state; s ← get;
  print (nl +:+ "  Initial state: " +:+ state_to_string st +:+ nl) ;;
  print ("  Power level: " +:+ pretty (power_level (world s)) +:+ "%" +:+ nl) ;;
  print (nl +:+ "  --- Scenario: Normal operation cycle ---" +:+ nl) ;;
  step_and_report PowerOn ;;
  step_and_report StartComplete ;;
  step_and_report EnterStandby ;;
  step_and_report ExitStandby ;;
  print (nl +:+ "  --- Scenario: Error and recovery ---" +:+ nl) ;;
  step_and_report ErrorOccurred ;;
  step_and_report ErrorCleared ;;
  print (nl +:+ "  --- Scenario: Shutdown ---" +:+ nl) ;;
  step_and_report PowerOff ;;
  step_and_report PowerOff ;;
  s ← get;
  print (nl +:+ "  Error count: " +:+ pretty (error_count (world s)) +:+ nl).
End Model5.
