(* ===== verification/OoDevice.v ===== *)
(** * The state classes of [state_machine_2/examples/device_control.cpp]
    (model 4), run by the machine of [OoFsm] *)
From S2P Require Import Prelude DeviceCommon OoFsm.
Local Open Scope prog_scope.

Inductive StateClass :=
  | OffState | StartingState | ActiveState | StandbyState | SuspendedState | ErrorState | ShuttingDownState.
#[export] Instance StateClass_eq_dec : EqDecision StateClass.
Proof. solve_decision. Defined.
Definition class_index (c : StateClass) : nat :=
  match c with
  | OffState => 0 | StartingState => 1 | ActiveState => 2 | StandbyState => 3
  | SuspendedState => 4 | ErrorState => 5 | ShuttingDownState => 6
  end.
Definition class_at (n : nat) : StateClass :=
  match n with
  | 0 => OffState | 1 => StartingState | 2 => ActiveState | 3 => StandbyState
  | 4 => SuspendedState | 5 => ErrorState | _ => ShuttingDownState
  end.
#[export] Program Instance StateClass_countable : Countable StateClass :=
  inj_countable' class_index class_at _.
Next Obligation. by intros []. Qed.

(** [DeviceContext], with the console the members print to. *)
Record DeviceContext := mkContext { power_level : Z; error_count : Z; out : string }.
Abbreviation Call := (M DeviceContext).
Definition nl : string := newline.
Definition print (t : string) : Call unit :=
  modify (λ c, {| power_level := power_level c; error_count := error_count c; out := out c +:+ t |}).
Definition power (p : Z) : Call unit :=
  modify (λ c, {| power_level := p; error_count := error_count c; out := out c |}).
(** [ctx_.error_count++] on an [int] *)
Definition count_error : Call unit :=
  c ← get;
  n ← lift_outcome (signed 32 (error_count c + 1));
  modify (λ c, {| power_level := power_level c; error_count := n; out := out c |}).

Abbreviation Lookup := (StateClass → option Ptr).
Definition go (sm : Lookup) (t : string) (c : StateClass) : Call (option Ptr) :=
  print (t +:+ nl) ;; mret (sm c).
Definition ignore : Call (option Ptr) := mret None.

Definition OffState_ : State StateClass DeviceEvent DeviceContext :=
  {| type_of_ := OffState;
     on_entry := power 0;
     on_exit := mret tt;
     handle_event event sm :=
       match event with
       | PowerOn => go sm "  [OffState] PowerOn -> Starting" StartingState
       | _ => ignore
       end;
     name := "Off" |}.
Definition StartingState_ : State StateClass DeviceEvent DeviceContext :=
  {| type_of_ := StartingState;
     on_entry := print ("  [Entry] Starting up..." +:+ nl) ;; power 0;
     on_exit := print ("  [Exit] Startup phase complete" +:+ nl);
     handle_event event sm :=
       if decide (event = StartComplete)
       then go sm "  [StartingState] StartComplete -> Active" ActiveState
       else ignore;
     name := "Starting" |}.
Definition ActiveState_ : State StateClass DeviceEvent DeviceContext :=
  {| type_of_ := ActiveState;
     on_entry := print ("  [Entry] Device Active" +:+ nl) ;; power 100;
     on_exit := mret tt;
     handle_event event sm :=
       match event with
       | EnterStandby => go sm "  [ActiveState] EnterStandby -> Standby" StandbyState
       | Suspend => go sm "  [ActiveState] Suspend -> Suspended" SuspendedState
       | ErrorOccurred =>
           print ("  [ActiveState] ErrorOccurred -> Error" +:+ nl) ;; count_error ;; mret (sm ErrorState)
       | PowerOff => go sm "  [ActiveState] PowerOff -> ShuttingDown" ShuttingDownState
       | _ => ignore
       end;
     name := "Active" |}.
Definition StandbyState_ : State StateClass DeviceEvent DeviceContext :=
  {| type_of_ := StandbyState;
     on_entry := print ("  [Entry] Standby mode" +:+ nl) ;; power 20;
     on_exit := mret tt;
     handle_event event sm :=
       match event with
       | ExitStandby => go sm "  [StandbyState] ExitStandby -> Active" ActiveState
       | ErrorOccurred =>
           print ("  [StandbyState] ErrorOccurred -> Error" +:+ nl) ;; count_error ;; mret (sm ErrorState)
       | PowerOff => go sm "  [StandbyState] PowerOff -> ShuttingDown" ShuttingDownState
       | _ => ignore
       end;
     name := "Standby" |}.
Definition SuspendedState_ : State StateClass DeviceEvent DeviceContext :=
  {| type_of_ := SuspendedState;
     on_entry := print ("  [Entry] Suspended" +:+ nl) ;; power 5;
     on_exit := mret tt;
     handle_event event sm :=
       if decide (event = Resume)
       then go sm "  [SuspendedState] Resume -> Active" ActiveState
       else ignore;
     name := "Suspended" |}.
Definition ErrorState_ : State StateClass DeviceEvent DeviceContext :=
  {| type_of_ := ErrorState;
     on_entry := print ("  [Entry] ERROR - powering down" +:+ nl) ;; power 0;
     on_exit := mret tt;
     handle_event event sm :=
       match event with
       | ErrorCleared => go sm "  [ErrorState] ErrorCleared -> Active" ActiveState
       | PowerOff => go sm "  [ErrorState] PowerOff -> ShuttingDown" ShuttingDownState
       | _ => ignore
       end;
     name := "Error" |}.
Definition ShuttingDownState_ : State StateClass DeviceEvent DeviceContext :=
  {| type_of_ := ShuttingDownState;
     on_entry := print ("  [Entry] Shutting down..." +:+ nl);
     on_exit := mret tt;
     handle_event event sm :=
       if decide (event = PowerOff)
       then print ("  [ShuttingDownState] PowerOff -> Off" +:+ nl) ;; power 0 ;; mret (sm OffState)
       else ignore;
     name := "ShuttingDown" |}.

(** ** [run_oo_state_machine_example] *)
Abbreviation Machine := (StateMachine StateClass DeviceEvent DeviceContext).
Definition registered (ctx : DeviceContext) : Machine :=
  new_machine ctx
  |> register_state OffState_
  |> register_state StartingState_
  |> register_state ActiveState_
  |> register_state StandbyState_
  |> register_state SuspendedState_
  |> register_state ErrorState_
  |> register_state ShuttingDownState_.

Definition say (t : string) : M Machine unit := OoFsm.on_world (print t).
(** [sm.current_state()->name()] *)
Definition current_name : M Machine string :=
  sm ← get; match current_state sm with Some s => mret (name s) | None => undef end.
Definition process (event : DeviceEvent) (label : string) : M Machine unit :=
  say (nl +:+ "  --- " +:+ label +:+ " ---" +:+ nl) ;;
  ok ← process_event event;
  n ← current_name; sm ← get;
  say ("  Result: " +:+ (if (ok : bool) then "OK" else "IGNORED") +:+ "  -> " +:+ n
       +:+ "  [Power: " +:+ pretty (power_level (world sm)) +:+ "%]" +:+ nl).
Definition run_oo_state_machine_example : M Machine unit :=
  say (foldr (λ l t, l +:+ nl +:+ t) "" (print_separator "Model 4: Object-Oriented State Machine (State Pattern)")) ;;
  start OffState ;;
  sm ← get;
  say ("  Registered " +:+ pretty (size sm) +:+ " states" +:+ nl) ;;
  n ← current_name; sm ← get;
  say ("  Initial state: " +:+ n +:+ "  [Power: " +:+ pretty (power_level (world sm)) +:+ "%]" +:+ nl) ;;
  process PowerOn "Power On" ;;
  process StartComplete "Startup Complete" ;;
  sm ← get;
  say (nl +:+ "  Type check: is_in<ActiveState>() = " +:+ (if is_in ActiveState sm then "true" else "false")) ;;
  process EnterStandby "Enter Standby" ;;
  process ExitStandby "Exit Standby" ;;
  process Suspend "Suspend" ;;
  process Resume "Resume" ;;
  process ErrorOccurred "Error Occurred" ;;
  process PowerOff "Power Off" ;;
  process PowerOff "Complete Shutdown" ;;
  n ← current_name; sm ← get;
  say (nl +:+ "  Final state: " +:+ n +:+ nl) ;;
  say ("  Total errors: " +:+ pretty (error_count (world sm)) +:+ nl).

Example oo_example_runs :
  let r := run_oo_state_machine_example (registered (mkContext 0 0 "")) in
  r.1 = Ret tt ∧ error_count (world r.2) = 1%Z ∧ power_level (world r.2) = 0%Z ∧ is_in OffState r.2 = true.
Proof. by_compute. Qed.
