(* ===== verification/DeviceFacts.v ===== *)
(** * The device under its three machines

    The flat table and the state classes describe one device; the power level
    follows the state; the hierarchical tables instantiate the theorems of
    [HierFacts]. *)
From stdpp Require Import finite.
From S2P Require Import Prelude StdMap DeviceCommon FsmCommon DeviceControl.
From S2P Require SimpleFsm HierFsm HierFacts OoFsm OoDevice.
Local Open Scope Z_scope.

(** ** The device's table *)
Definition device_next (s : DeviceState) (e : DeviceEvent) : option DeviceState :=
  match s, e with
  | Off, PowerOn => Some Starting
  | Starting, StartComplete => Some Active
  | Active, EnterStandby => Some Standby
  | Active, Suspend => Some Suspended
  | (Active | Standby), ErrorOccurred => Some Error
  | (Active | Standby | Error), PowerOff => Some ShuttingDown
  | Standby, ExitStandby | Error, ErrorCleared | Suspended, Resume => Some Active
  | ShuttingDown, PowerOff => Some Off
  | _, _ => None
  end.
Definition device_step (s : DeviceState) (e : DeviceEvent) : bool * DeviceState :=
  match device_next s e with Some t => (true, t) | None => (false, s) end.
Fixpoint device_run (s : DeviceState) (es : list DeviceEvent) : list bool * DeviceState :=
  match es with
  | [] => ([], s)
  | e :: es' => let '(b, s') := device_step s e in
                let '(bs, s'') := device_run s' es' in (b :: bs, s'')
  end.

(** ** Model 1 *)
Definition greeting1 (s : DeviceState) : string :=
  match s with
  | Off => "  [Entry] Device is now Off" +:+ nl
  | Starting => "  [Entry] Device is starting up..." +:+ nl
  | Active => "  [Entry] Device is now Active" +:+ nl
  | Standby => "  [Entry] Device entered Standby mode" +:+ nl
  | Suspended => "  [Entry] Device is Suspended" +:+ nl
  | Error => "  [Entry] DEVICE ERROR!" +:+ nl
  | ShuttingDown => "  [Entry] Device is shutting down..." +:+ nl
  | _ => ""
  end.
Lemma string_app_nil s : s +:+ "" = s.
Proof.
  induction s as [|a s IH]; [done|]. change (String a (s +:+ "") = String a s). by rewrite IH.
Qed.
Definition chart1 : Chart DeviceState string DeviceEvent := {|
  edge s e := (λ t, mkEdge t (λ w, w) (λ _, true)) <$> device_next s e;
  enter s w := w +:+ greeting1 s;
  leave _ w := w |}.

Lemma model1_implements : SimpleFsm.implements Model1.fsm chart1.
Proof.
  split.
  - intros s e.
    assert (SimpleFsm.transitions_ Model1.fsm !! (s, e) =
      (λ t, mkTransition t None None) <$> device_next s e) as ->
      by (destruct s, e; vm_compute; reflexivity).
    simpl. destruct (device_next s e); simpl; [|done]. split; [done|]. split; [apply acts_none|apply guards_none].
  - intros s. destruct s; try (intros [o w]; reflexivity);
      intros [o w]; simpl; unfold on_world, modify; simpl; by rewrite string_app_nil.
  - intros s. destruct s; apply acts_none.
Qed.

Lemma chart1_run es s w :
  ∃ w', SimpleFsm.chart_run chart1 s w es = ((device_run s es).1, (device_run s es).2, w').
Proof.
  revert s w. induction es as [|e es IH]; intros s w; simpl; [by eexists|].
  unfold SimpleFsm.chart_step, device_step. simpl. destruct (device_next s e) as [t|]; simpl.
  - destruct (IH t (w +:+ greeting1 t)) as [w' ->]. destruct (device_run t es). by eexists.
  - destruct (IH s w) as [w' ->]. destruct (device_run s es). by eexists.
Qed.

(** ** Model 4 *)
Import OoDevice.
Definition class_state (c : StateClass) : DeviceState :=
  match c with
  | OffState => Off | StartingState => Starting | ActiveState => Active | StandbyState => Standby
  | SuspendedState => Suspended | ErrorState => Error | ShuttingDownState => ShuttingDown
  end.
(** The registered machine in state [c]. *)
Definition oo_at (c : StateClass) (ctx : DeviceContext) : OoFsm.StateMachine StateClass DeviceEvent DeviceContext :=
  {| OoFsm.state_ptrs_ := OoFsm.state_ptrs_ (registered ctx);
     OoFsm.states_by_type_ := OoFsm.states_by_type_ (registered ctx);
     OoFsm.current_state_ := Some (class_index c); OoFsm.world := ctx |}.
(** The power level a state stands for; shutting down keeps the last one. *)
Definition rated_power (s : DeviceState) : option Z :=
  match s with
  | Off | Starting | Error => Some 0
  | Standby => Some 20
  | Active => Some 100
  | Suspended => Some 5
  | _ => None
  end.
Definition powered (s : DeviceState) (p : Z) : Prop :=
  match rated_power s with Some q => p = q | None => 0 ≤ p ≤ 100 end.

Definition object (c : StateClass) : OoFsm.State StateClass DeviceEvent DeviceContext :=
  match c with
  | OffState => OffState_ | StartingState => StartingState_ | ActiveState => ActiveState_
  | StandbyState => StandbyState_ | SuspendedState => SuspendedState_ | ErrorState => ErrorState_
  | ShuttingDownState => ShuttingDownState_
  end.
Definition class_of (s : DeviceState) : StateClass :=
  match s with
  | Off => OffState | Starting => StartingState | Active => ActiveState | Standby => StandbyState
  | Suspended => SuspendedState | Error => ErrorState | _ => ShuttingDownState
  end.

Lemma oo_object c ctx c' : OoFsm.state_ptrs_ (oo_at c ctx) !! class_index c' = Some (object c').
Proof. by destruct c'. Qed.
Lemma oo_types c ctx t : OoFsm.state (oo_at c ctx) t = Some (class_index t).
Proof. by destruct t. Qed.
Lemma class_next_state c e t : device_next (class_state c) e = Some t → class_state (class_of t) = t.
Proof. by destruct c, e; intros; simplify_eq/=. Qed.
Lemma class_next_moves c e t : device_next (class_state c) e = Some t → class_index (class_of t) ≠ class_index c.
Proof. by destruct c, e; intros; simplify_eq/=. Qed.

(** What the virtual members do. *)
Lemma handle_spec c e sm p n o :
  (∀ t, sm t = Some (class_index t)) → 0 ≤ n < 2 ^ 31 - 1 →
  ∃ p' n' o',
    OoFsm.handle_event (object c) e sm (mkContext p n o) =
      (Ret (class_index ∘ class_of <$> device_next (class_state c) e), mkContext p' n' o') ∧
    (p' = p ∨ device_next (class_state c) e ≠ None ∧ p' = 0) ∧ n ≤ n' ≤ n + 1.
Proof.
  intros Hsm Hn. pose proof (signed_Ret 32 (n + 1) ltac:(lia)) as Hs.
  destruct c, e; cbn -[signed Z.add String.append]; unfold go, ignore, print, power, count_error;
    autorewrite with monad; cbn -[signed Z.add String.append];
    try (unfold mbind, M_bind, lift_outcome; cbn -[signed Z.add String.append]; rewrite Hs);
    unfold mret, M_ret, modify; cbn -[signed Z.add String.append]; rewrite ?Hsm;
    (do 3 eexists; split; [reflexivity|]); cbn; (split; [by auto|lia]).
Qed.

Lemma entry_spec c p n o :
  ∃ o', OoFsm.on_entry (object c) (mkContext p n o) =
    (Ret tt, mkContext (default p (rated_power (class_state c))) n o').
Proof. destruct c; by eexists. Qed.
Lemma exit_spec c p n o :
  ∃ o', OoFsm.on_exit (object c) (mkContext p n o) = (Ret tt, mkContext p n o').
Proof. destruct c; by eexists. Qed.

Lemma powered_range s p : powered s p → 0 ≤ p ≤ 100.
Proof. unfold powered. destruct s; simpl; lia. Qed.
Lemma powered_default s p : 0 ≤ p ≤ 100 → powered s (default p (rated_power s)).
Proof. unfold powered. by destruct s. Qed.

Lemma oo_step c e p n o :
  powered (class_state c) p → 0 ≤ n < 2 ^ 31 - 1 →
  ∃ c' p' n' o',
    OoFsm.process_event e (oo_at c (mkContext p n o)) =
      (Ret (device_step (class_state c) e).1, oo_at c' (mkContext p' n' o')) ∧
    class_state c' = (device_step (class_state c) e).2 ∧
    powered (class_state c') p' ∧ n ≤ n' ≤ n + 1.
Proof.
  intros Hp Hn. unfold OoFsm.process_event. autorewrite with monad.
  change (OoFsm.current_state_ (oo_at c (mkContext p n o))) with (Some (class_index c)).
  cbv beta iota. rewrite (OoFsm.deref_bind _ _ _ _ (oo_object c _ c)), OoFsm.on_world_bind.
  destruct (handle_spec c e (OoFsm.state (oo_at c (mkContext p n o))) p n o)
    as (p1 & n1 & o1 & Heq & Hp1 & Hn1); [apply oo_types|done|].
  change (OoFsm.world (oo_at c (mkContext p n o))) with (mkContext p n o). rewrite Heq.
  unfold device_step. pose proof (powered_range _ _ Hp) as Hr.
  destruct (device_next (class_state c) e) as [t|] eqn:Hnext; cbn [fst snd fmap option_fmap option_map compose].
  - rewrite decide_False by (by eapply class_next_moves). autorewrite with monad.
    rewrite OoFsm.on_world_bind. cbn [OoFsm.world].
    destruct (exit_spec c p1 n1 o1) as [o2 ->]. cbn [fst snd].
    unfold OoFsm.set_current. autorewrite with monad.
    rewrite (OoFsm.deref_bind _ (object (class_of t))) by apply (oo_object c (mkContext p n o)).
    rewrite OoFsm.on_world_bind. cbn [OoFsm.world].
    destruct (entry_spec (class_of t) p1 n1 o2) as [o3 ->]. cbn [fst snd].
    exists (class_of t), (default p1 (rated_power (class_state (class_of t)))), n1, o3.
    split; [done|]. split; [by eapply class_next_state|]. split; [|lia].
    apply powered_default. destruct Hp1 as [->|[_ ->]]; lia.
  - destruct Hp1 as [->|[? _]]; [|done]. exists c, p, n1, o1. done.
Qed.

Lemma oo_run es c p n o :
  powered (class_state c) p → 0 ≤ n → n + Z.of_nat (length es) < 2 ^ 31 →
  ∃ c' p' n' o',
    OoFsm.process_events es (oo_at c (mkContext p n o)) =
      (Ret (device_run (class_state c) es).1, oo_at c' (mkContext p' n' o')) ∧
    class_state c' = (device_run (class_state c) es).2 ∧
    powered (class_state c') p'.
Proof.
  revert c p n o. induction es as [|e es IH]; intros c p n o Hp Hn Hlen; [by exists c, p, n, o|].
  cbn [length] in Hlen.
  destruct (oo_step c e p n o Hp ltac:(lia)) as (c1 & p1 & n1 & o1 & Heq & Hc & Hp1 & Hn1).
  destruct (IH c1 p1 n1 o1 Hp1 ltac:(lia) ltac:(lia)) as (c2 & p2 & n2 & o2 & Heq2 & Hc2 & Hp2).
  exists c2, p2, n2, o2. cbn [OoFsm.process_events device_run].
  rewrite (M_bind_ret _ _ _ _ _ Heq), (M_bind_ret _ _ _ _ _ Heq2), Hc2, Hc.
  rewrite Hc2, Hc in Hp2. destruct (device_step (class_state c) e) as [b s]. simpl in *.
  by destruct (device_run s es).
Qed.

(** C19: models 1 and 4 are the same device: on any list of events, short enough
    for the error counter, they give the same replies and end in states of the
    same name, and the power level of model 4 is the one of its state. *)
Theorem flat_and_oo_agree es o w p n out :
  0 ≤ n → n + Z.of_nat (length es) < 2 ^ 31 →
  let r1 := (SimpleFsm.reset Model1.fsm Off ;; SimpleFsm.process_events Model1.fsm es) (mkFsm o w) in
  let r4 := (OoFsm.start OffState ;; OoFsm.process_events es) (registered (mkContext p n out)) in
  ∃ bs s c p' w' n' out',
    r1 = (Ret bs, mkFsm (Some s) w') ∧ r4 = (Ret bs, oo_at c (mkContext p' n' out')) ∧
    class_state c = s ∧ powered s p'.
Proof.
  intros Hn Hlen r1 r4.
  destruct (chart1_run es Off (enter chart1 Off w)) as [w' Hrun].
  destruct (oo_run es OffState 0 n out ltac:(done) Hn Hlen) as (c & p' & n' & out' & H4 & Hc & Hp).
  exists (device_run Off es).1, (device_run Off es).2, c, p', w', n', out'.
  split_and!; [| |done|by cbn in Hc; rewrite <- Hc].
  - subst r1. unfold SimpleFsm.reset. autorewrite with monad.
    rewrite (acts_bind _ _ _ _ _ (desc_enter _ _ _ _ model1_implements Off)).
    rewrite (SimpleFsm.process_events_chart _ chart1) by apply model1_implements.
    cbn [FsmCommon.world]. by rewrite Hrun.
  - exact H4.
Qed.
Lemma flat_and_oo_agree_witness :
  let es := [PowerOn; StartComplete; Suspend; PowerOff] in
  let r1 := (SimpleFsm.reset Model1.fsm Off ;; SimpleFsm.process_events Model1.fsm es) (mkFsm None "") in
  let r4 := (OoFsm.start OffState ;; OoFsm.process_events es) (registered (mkContext 0 0 "")) in
  ∃ bs s c p' w' n' out',
    r1 = (Ret bs, mkFsm (Some s) w') ∧ r4 = (Ret bs, oo_at c (mkContext p' n' out')) ∧
    class_state c = s ∧ powered s p'.
Proof. apply (flat_and_oo_agree [PowerOn; StartComplete; Suspend; PowerOff]); done. Defined.

(** ** Model 5 *)
Definition inv5 (s : DeviceState) (v : Model5.Vars) : Prop :=
  Model5.safety_lock v = false ∧ powered s (Model5.power_level v) ∧ 0 ≤ Model5.error_count v ∧
  s ∈ [Off; Starting; Active; Standby; Error; ShuttingDown].
Definition next5 (s : DeviceState) (e : DeviceEvent) : option DeviceState :=
  match s, e with
  | Off, PowerOn => Some Starting
  | Starting, StartComplete => Some Active
  | Active, EnterStandby => Some Standby
  | Active, ErrorOccurred => Some Error
  | Active, PowerOff | Error, PowerOff => Some ShuttingDown
  | Standby, ExitStandby | Error, ErrorCleared => Some Active
  | ShuttingDown, PowerOff => Some Off
  | _, _ => None
  end.
Definition step5 (s : DeviceState) (e : DeviceEvent) : bool * DeviceState :=
  match next5 s e with Some t => (true, t) | None => (false, s) end.
Definition new_errors (s : DeviceState) (e : DeviceEvent) : Z :=
  if decide (s = Active ∧ e = ErrorOccurred) then 1 else 0.

(** The action of each edge, as the power it sets and whether it counts an
    error; what it prints is left open. *)
Definition acts5 (set : option Z) (count : bool) (a : Action DeviceState Model5.Vars) : Prop :=
  ∃ t, a = (match set, count with
            | Some p, false => Model5.print t ;; Model5.power p
            | Some p, true => Model5.print t ;; Model5.power p ;; Model5.count_error
            | None, _ => Model5.print t
            end).
Definition edge5 (s : DeviceState) (e : DeviceEvent) (tr : Transition DeviceState Model5.Vars) : Prop :=
  next5 s e = Some (target tr) ∧
  (guard tr = None ∨ guard tr = Some (reads_world (λ v, negb (Model5.safety_lock v)))) ∧
  ∃ a, action tr = Some a ∧
    acts5 (if decide (target tr = ShuttingDown) then None else rated_power (target tr))
      (bool_decide (target tr = Error)) a.

Lemma fsm5_lookup s e :
  match SimpleFsm.transitions_ Model5.fsm !! (s, e) with
  | Some tr => edge5 s e tr
  | None => next5 s e = None
  end.
Proof.
  unfold Model5.fsm, SimpleFsm.add_transition. simpl.
  repeat (let Hk := fresh in rewrite lookup_insert; case_decide as Hk;
    [injection Hk as <- <-; split; [done|]; split; [first [left; reflexivity|right; reflexivity]|]; eexists; split; [done|]; eexists; reflexivity|]).
  unfold SimpleFsm.new_tables. cbn [SimpleFsm.transitions_]. rewrite lookup_empty.
  destruct s, e; first [reflexivity|congruence].
Qed.

Lemma run_acts5 set count a o v :
  acts5 set count a → Model5.error_count v + 1 < 2 ^ 31 → 0 ≤ Model5.error_count v →
  ∃ v', run_opt (Some a) (mkFsm o v) = (Ret tt, mkFsm o v') ∧
    Model5.safety_lock v' = Model5.safety_lock v ∧
    Model5.power_level v' = default (Model5.power_level v) set ∧
    Model5.error_count v' = Model5.error_count v + (if count && bool_decide (is_Some set) then 1 else 0).
Proof.
  destruct v as [p n l out]. intros [t ->] Hlt Hn. simpl in Hlt, Hn.
  pose proof (signed_Ret 32 (n + 1) ltac:(lia)) as Hs.
  destruct set as [q|], count; cbn [run_opt]; unfold Model5.print, Model5.power, Model5.count_error, on_world;
    autorewrite with monad; cbn -[signed Z.add String.append];
    try (unfold mbind, M_bind, lift_outcome, get; cbn -[signed Z.add String.append]; rewrite Hs);
    (eexists; split; [reflexivity|]); cbn; split_and!; done || lia.
Qed.

Lemma step5_spec s e v :
  inv5 s v → Model5.error_count v < 2 ^ 31 - 1 →
  ∃ v', SimpleFsm.process_event Model5.fsm e (mkFsm (Some s) v) =
      (Ret (step5 s e).1, mkFsm (Some (step5 s e).2) v') ∧
    inv5 (step5 s e).2 v' ∧ Model5.error_count v' = Model5.error_count v + new_errors s e.
Proof.
  intros (Hl & Hp & Hn & Hs) Hlt.
  unfold SimpleFsm.process_event. autorewrite with monad.
  pose proof (fsm5_lookup s e) as Hlook. unfold step5.
  destruct (SimpleFsm.transitions_ Model5.fsm !! (s, e)) as [tr|].
  - destruct Hlook as (Hnext & Hg & a & Ha & Hacts). rewrite Hnext.
    assert (passes (guard tr) (mkFsm (Some s) v) = (Ret true, mkFsm (Some s) v)) as Hpass.
    { destruct Hg as [-> | ->]; [done|]. cbn. unfold reads_world. autorewrite with monad. cbn. by rewrite Hl. }
    rewrite (M_bind_ret _ _ _ _ _ Hpass). cbn [negb]. autorewrite with monad.
    assert (∀ t, SimpleFsm.exit_actions_ Model5.fsm !! t = None) as Hexit by done.
    assert (∀ t, SimpleFsm.entry_actions_ Model5.fsm !! t = None) as Hentry by done.
    rewrite Hexit, Ha. cbn [run_opt]. autorewrite with monad. cbn [FsmCommon.world].
    destruct (run_acts5 _ _ a (Some (target tr)) v Hacts ltac:(lia) ltac:(lia)) as (v' & Hrun & Hl' & Hp' & Hn').
    cbn [run_opt] in Hrun. rewrite (M_bind_ret _ _ _ _ _ Hrun). autorewrite with monad.
    rewrite Hentry. exists v'. split; [done|]. unfold inv5. cbn [fst snd]. rewrite Hl', Hp', Hn', Hl.
    pose proof (powered_range s _ Hp) as Hr. clear - Hnext Hr Hn.
    revert Hnext. generalize (target tr). intros t Hnext. destruct s, e; simplify_eq/=; unfold powered, new_errors; simpl;
      (split; [split; [done|split; [done || lia|split; [lia|by apply (bool_decide_unpack _)]]]|done || lia]).
  - rewrite Hlook. exists v. split; [done|]. split; [done|]. unfold new_errors.
    rewrite decide_False; [lia|]. by intros [-> ->].
Qed.

Fixpoint run5 (s : DeviceState) (es : list DeviceEvent) : list bool * DeviceState * Z :=
  match es with
  | [] => ([], s, 0)
  | e :: es' => let '(bs, s', n) := run5 (step5 s e).2 es' in ((step5 s e).1 :: bs, s', new_errors s e + n)
  end.
Lemma run5_spec es s v :
  inv5 s v → Model5.error_count v + Z.of_nat (length es) < 2 ^ 31 →
  ∃ v', SimpleFsm.process_events Model5.fsm es (mkFsm (Some s) v) =
      (Ret (run5 s es).1.1, mkFsm (Some (run5 s es).1.2) v') ∧
    inv5 (run5 s es).1.2 v' ∧ Model5.error_count v' = Model5.error_count v + (run5 s es).2.
Proof.
  revert s v. induction es as [|e es IH]; intros s v Hinv Hlen.
  - exists v. split; [done|]. split; [done|]. simpl. lia.
  - cbn [length] in Hlen. destruct (step5_spec s e v Hinv ltac:(lia)) as (v1 & Heq & Hinv1 & Hn1).
    assert (new_errors s e ≤ 1) by (unfold new_errors; case_decide; lia).
    destruct (IH _ v1 Hinv1 ltac:(lia)) as (v2 & Heq2 & Hinv2 & Hn2).
    exists v2. cbn [SimpleFsm.process_events run5].
    rewrite (M_bind_ret _ _ _ _ _ Heq), (M_bind_ret _ _ _ _ _ Heq2).
    destruct (run5 (step5 s e).2 es) as [[bs s'] n]. simpl in *. split; [done|]. split; [done|lia].
Qed.

(** In the comprehensive scenario's machine the power level is the one of
    the state after any list of events (0, 20 or 100 percent), the safety lock
    stays off, the machine never reaches Suspended, and the error counter
    counts the errors handled in Active. *)
Theorem power_follows_state es console :
  Z.of_nat (length es) < 2 ^ 31 →
  ∃ v, (SimpleFsm.reset Model5.fsm Off ;; SimpleFsm.process_events Model5.fsm es)
         (mkFsm None (Model5.init_vars console)) =
       (Ret (run5 Off es).1.1, mkFsm (Some (run5 Off es).1.2) v) ∧
    powered (run5 Off es).1.2 (Model5.power_level v) ∧ Model5.safety_lock v = false ∧
    (run5 Off es).1.2 ∈ [Off; Starting; Active; Standby; Error; ShuttingDown] ∧
    Model5.error_count v = (run5 Off es).2.
Proof.
  intros Hlen. destruct (run5_spec es Off (Model5.init_vars console)) as (v & Heq & (H1 & H2 & H3 & H4) & Hn).
  - split_and!; try done. by apply (bool_decide_unpack _).
  - done.
  - exists v. split_and!; [exact Heq|done..].
Qed.
Lemma power_follows_state_witness :
  let es := [PowerOn; StartComplete; ErrorOccurred; ErrorCleared] in
  ∃ v, (SimpleFsm.reset Model5.fsm Off ;; SimpleFsm.process_events Model5.fsm es)
         (mkFsm None (Model5.init_vars "")) =
       (Ret (run5 Off es).1.1, mkFsm (Some (run5 Off es).1.2) v) ∧
    powered (run5 Off es).1.2 (Model5.power_level v) ∧ Model5.safety_lock v = false ∧
    (run5 Off es).1.2 ∈ [Off; Starting; Active; Standby; Error; ShuttingDown] ∧
    Model5.error_count v = (run5 Off es).2.
Proof. apply (power_follows_state [PowerOn; StartComplete; ErrorOccurred; ErrorCleared] ""). done. Defined.

(** ** Model 2: the instance of the hierarchical theorems *)
Definition rank2 (s : DeviceState) : nat :=
  match s with
  | PowerOnState => 0 | On | Off | Error | ShuttingDown => 1 | Active => 2
  | _ => 3
  end.
Definition path2 (s : DeviceState) : list DeviceState :=
  default [] (HierFsm.path_to_root Model2.hsm s).
Definition chart2 : Chart DeviceState string DeviceEvent := {|
  edge s e := (λ tr, mkEdge (target tr) (λ w, w) (λ _, true)) <$> HierFsm.transitions_ Model2.hsm !! (s, e);
  enter s w := match HierFsm.entry_actions_ Model2.hsm !! s with
               | Some a => FsmCommon.world (a (mkFsm None w)).2
               | None => w
               end;
  leave _ w := w |}.

Lemma model2_acyclic : HierFacts.acyclic Model2.hsm.
Proof.
  exists rank2. intros s p. destruct s; vm_compute; intros [= <-]; lia.
Qed.
Lemma model2_paths : HierFacts.paths_of Model2.hsm path2.
Proof.
  intros s. unfold path2. destruct (HierFacts.path_to_root_total Model2.hsm s model2_acyclic) as (l & -> & Hl).
  exact Hl.
Qed.
Lemma model2_implements : HierFacts.implements Model2.hsm chart2.
Proof.
  split.
  - intros s e. unfold chart2. cbn [edge].
    destruct (HierFsm.transitions_ Model2.hsm !! (s, e)) as [tr|] eqn:E; cbn; [|done].
    split; [done|]. assert (action tr = None ∧ guard tr = None) as [-> ->];
      [|split; [apply acts_none|apply guards_none]].
    revert E. destruct s, e; vm_compute; by intros [= <-].
  - intros s. destruct s; intros [o w]; reflexivity.
  - intros s. destruct s; apply acts_none.
Qed.

Lemma hier_process_refines_witness :
  HierFsm.process_event Model2.hsm PowerOff (mkFsm (Some Standby) "") =
    let '(b, st', w') := HierFacts.hier_step chart2 path2 Standby "" PowerOff in
    (Ret b, mkFsm (Some st') w').
Proof.
  exact (HierFacts.hier_process_refines Model2.hsm chart2 path2 PowerOff Standby ""
    model2_acyclic model2_paths model2_implements).
Defined.
Lemma find_lca_nearest_witness :
  ∃ lca ll, HierFsm.find_lca Model2.hsm Standby Error = Some lca ∧ HierFacts.up_path Model2.hsm lca ll ∧
    lca ∈ path2 Standby ∧ lca ∈ path2 Error ∧ ∀ x, x ∈ path2 Standby → x ∈ path2 Error → x ∈ ll.
Proof.
  apply (HierFacts.find_lca_nearest Model2.hsm Standby Error (path2 Standby) (path2 Error)
    model2_acyclic (model2_paths Standby) (model2_paths Error)).
  exists PowerOnState. split; by apply (bool_decide_unpack _).
Defined.
(** Power off in Standby is handled by the root, so Standby is not left. *)
Lemma inherited_transition_skips_exit_witness :
  ∃ exits, HierFsm.path_below Model2.hsm
      (HierFacts.nearest PowerOnState (path2 PowerOnState) (path2 ShuttingDown)) PowerOnState = Some exits ∧
    Standby ∉ exits.
Proof.
  apply (HierFacts.inherited_transition_skips_exit Model2.hsm path2 Standby PowerOnState ShuttingDown
    model2_acyclic model2_paths); [by apply (bool_decide_unpack _)|done].
Defined.
Lemma dump_starts_at_first_parent_witness : HierFsm.roots_of Model2.hsm = [PowerOnState].
Proof.
  apply (HierFacts.dump_starts_at_first_parent Model2.hsm Off PowerOnState (tail (HierFsm.parents_ Model2.hsm))).
  reflexivity.
Defined.
