(* ===== verification/EventFsm.v ===== *)
(** * The event-driven state machine of
    [state_machine_2/include/event_driven_fsm.hpp]

    Every member function runs under [mutex_], so a call is one atomic step, as
    is each locked section of the worker thread; the steps of the client threads
    and of the worker interleave freely.  The callbacks run under the lock: one
    that calls a member function of the machine locks the mutex its own thread
    holds, which has no defined behaviour, so callbacks here act on the state
    and on the captured variables [W] only.  A callback that throws in the worker
    ends the program, as does starting a second worker over an unjoined one. *)
From S2P Require Import Prelude FsmCommon.
Local Open Scope prog_scope.

Section event_fsm.
Context {State Event W : Type} `{Countable State} `{Countable Event}.

Definition StateChangeCallback : Type := State → State → Event → Action State W.
Record EventDrivenStateMachine := mkTables {
  transitions_ : gmap (State * Event) (Transition State W);
  entry_actions_ : gmap State (Action State W);
  exit_actions_ : gmap State (Action State W);
  observers_ : list StateChangeCallback
}.
Definition new_tables : EventDrivenStateMachine :=
  {| transitions_ := ∅; entry_actions_ := ∅; exit_actions_ := ∅; observers_ := [] |}.
Definition add_transition (from : State) (event : Event) (to : State)
    (act : option (Action State W)) (g : option (Guard State W)) (m : EventDrivenStateMachine) : EventDrivenStateMachine :=
  {| transitions_ := <[(from, event) := {| target := to; action := act; guard := g |}]> (transitions_ m);
     entry_actions_ := entry_actions_ m; exit_actions_ := exit_actions_ m; observers_ := observers_ m |}.
Definition on_entry (state : State) (act : Action State W) (m : EventDrivenStateMachine) : EventDrivenStateMachine :=
  {| transitions_ := transitions_ m; entry_actions_ := <[state := act]> (entry_actions_ m);
     exit_actions_ := exit_actions_ m; observers_ := observers_ m |}.
Definition on_exit (state : State) (act : Action State W) (m : EventDrivenStateMachine) : EventDrivenStateMachine :=
  {| transitions_ := transitions_ m; entry_actions_ := entry_actions_ m;
     exit_actions_ := <[state := act]> (exit_actions_ m); observers_ := observers_ m |}.
Definition add_observer (cb : StateChangeCallback) (m : EventDrivenStateMachine) : EventDrivenStateMachine :=
  {| transitions_ := transitions_ m; entry_actions_ := entry_actions_ m;
     exit_actions_ := exit_actions_ m; observers_ := observers_ m ++ [cb] |}.

Definition notify_observers_locked (m : EventDrivenStateMachine) (from to : State) (event : Event)
    : M (Fsm State W) unit :=
  for_each (λ cb, cb from to event) (observers_ m).

Definition process_internal_locked (m : EventDrivenStateMachine) (event : Event) : M (Fsm State W) bool :=
  current ← current_state;
  match transitions_ m !! (current, event) with
  | None => mret false
  | Some tr =>
      pass ← passes (guard tr);
      if negb pass then mret false
      else
        previous ← current_state;
        run_opt (exit_actions_ m !! previous) ;;
        set_current (target tr) ;;
        run_opt (action tr) ;;
        now ← current_state;
        run_opt (entry_actions_ m !! now) ;;
        now ← current_state;
        notify_observers_locked m previous now event ;;
        mret true
  end.

Definition reset_locked (m : EventDrivenStateMachine) (initial : State) : M (Fsm State W) unit :=
  set_current initial ;; run_opt (entry_actions_ m !! initial).

(** ** The threads

    [Waiting]: the worker is in [cv_.wait] or about to test its predicate, the
    lock free; [Holding e]: it has popped [e] and released the lock. *)
Inductive Worker := NoThread | Waiting | Holding (e : Event) | Exited.
Record Sys := mkSys {
  fsm : Fsm State W;
  current_processing_event_ : option Event;
  event_queue_ : list Event;
  deferred_queue_ : list Event;
  running_ : bool;
  worker : Worker
}.
Definition new_sys (w : W) : Sys :=
  {| fsm := mkFsm None w; current_processing_event_ := None; event_queue_ := []; deferred_queue_ := [];
     running_ := false; worker := NoThread |}.

Definition with_fsm (f : Fsm State W) (s : Sys) : Sys :=
  {| fsm := f; current_processing_event_ := current_processing_event_ s; event_queue_ := event_queue_ s;
     deferred_queue_ := deferred_queue_ s; running_ := running_ s; worker := worker s |}.
Definition with_queues (q d : list Event) (s : Sys) : Sys :=
  {| fsm := fsm s; current_processing_event_ := current_processing_event_ s; event_queue_ := q;
     deferred_queue_ := d; running_ := running_ s; worker := worker s |}.
Definition with_worker (r : bool) (w : Worker) (s : Sys) : Sys :=
  {| fsm := fsm s; current_processing_event_ := current_processing_event_ s; event_queue_ := event_queue_ s;
     deferred_queue_ := deferred_queue_ s; running_ := r; worker := w |}.
Definition with_processing (c : option Event) (s : Sys) : Sys :=
  {| fsm := fsm s; current_processing_event_ := c; event_queue_ := event_queue_ s;
     deferred_queue_ := deferred_queue_ s; running_ := running_ s; worker := worker s |}.

(** The calls of the clients. *)
Definition post_event (e : Event) (s : Sys) : Sys :=
  with_queues (event_queue_ s ++ [e]) (deferred_queue_ s) s.
Definition process_event (m : EventDrivenStateMachine) (e : Event) (s : Sys) : outcome bool * Sys :=
  let r := process_internal_locked m e (fsm s) in (r.1, with_fsm r.2 s).
Definition reset (m : EventDrivenStateMachine) (initial : State) (s : Sys) : outcome unit * Sys :=
  let r := reset_locked m initial (fsm s) in (r.1, with_fsm r.2 s).
Definition defer_current_event (s : Sys) : Sys :=
  match current_processing_event_ s with
  | Some e => with_queues (event_queue_ s) (deferred_queue_ s ++ [e]) s
  | None => s
  end.
Definition process_deferred_events (s : Sys) : Sys :=
  with_queues (event_queue_ s ++ deferred_queue_ s) [] s.
Definition pending_events (s : Sys) : nat := length (event_queue_ s).
Definition deferred_events (s : Sys) : nat := length (deferred_queue_ s).
Definition is_running (s : Sys) : bool := running_ s.
(** [None]: [std::terminate], a joinable thread is overwritten. *)
Definition start_async (s : Sys) : option Sys :=
  if running_ s then Some s
  else match worker s with
       | NoThread => Some (with_worker true Waiting s)
       | _ => None
       end.
(** [stop_async]: the locked section, and the return of [join], which needs the
    worker to have left its loop. *)
Definition stop_request (s : Sys) : Sys := if running_ s then with_worker false (worker s) s else s.
Definition stop_join (s : Sys) : option Sys :=
  match worker s with
  | Exited => Some (with_worker (running_ s) NoThread s)
  | _ => None
  end.

(** [clear], on the tables and the queues. *)
Definition clear (s : Sys) : EventDrivenStateMachine * Sys := (new_tables, with_queues [] [] s).
(** The destructor, once [stop_async] has returned: a [std::thread] that is
    still joinable ends the program. *)
Definition destroy (s : Sys) : outcome unit := match worker s with NoThread => Ret tt | _ => Throw (LogicError "terminate") end.

(** The two locked sections of [processing_loop]. *)
Definition worker_take (s : Sys) : option Sys :=
  match worker s with
  | Waiting =>
      match event_queue_ s with
      | [] => if running_ s then None else Some (with_worker (running_ s) Exited s)
      | e :: q =>
          Some (with_processing (Some e)
            (with_worker (running_ s) (Holding e) (with_queues q (deferred_queue_ s) s)))
      end
  | _ => None
  end.
Definition worker_handle (m : EventDrivenStateMachine) (s : Sys) : option Sys :=
  match worker s with
  | Holding e =>
      match process_internal_locked m e (fsm s) with
      | (Ret _, f) => Some (with_processing None (with_worker (running_ s) Waiting (with_fsm f s)))
      | _ => None
      end
  | _ => None
  end.

(** ** The interleavings *)
Inductive label :=
  | LPost (e : Event) | LProcess (e : Event) | LReset (initial : State)
  | LDefer | LUndefer | LStart | LStop | LJoin | LTake | LHandle.
(** One step: [None] when the step is not enabled or ends the program. *)
Definition step (m : EventDrivenStateMachine) (l : label) (s : Sys) : option Sys :=
  match l with
  | LPost e => Some (post_event e s)
  | LProcess e => Some (process_event m e s).2
  | LReset i => Some (reset m i s).2
  | LDefer => Some (defer_current_event s)
  | LUndefer => Some (process_deferred_events s)
  | LStart => start_async s
  | LStop => Some (stop_request s)
  | LJoin => stop_join s
  | LTake => worker_take s
  | LHandle => worker_handle m s
  end.
Fixpoint steps (m : EventDrivenStateMachine) (ls : list label) (s : Sys) : option Sys :=
  match ls with
  | [] => Some s
  | l :: ls' => s' ← step m l s; steps m ls' s'
  end.

(** ** What the queue has seen *)
(** The events put into [event_queue_] by a step, and the one the worker
    finishes. *)
Definition enqueued (l : label) (s : Sys) : list Event :=
  match l with LPost e => [e] | LUndefer => deferred_queue_ s | _ => [] end.
Definition finished (l : label) (s : Sys) : list Event :=
  match l, worker s with LHandle, Holding e => [e] | _, _ => [] end.
Fixpoint trace (m : EventDrivenStateMachine) (f : label → Sys → list Event) (ls : list label) (s : Sys) : list Event :=
  match ls with
  | [] => []
  | l :: ls' => f l s ++ match step m l s with Some s' => trace m f ls' s' | None => [] end
  end.
Definition in_hand (s : Sys) : list Event := match worker s with Holding e => [e] | _ => [] end.
End event_fsm.
Arguments EventDrivenStateMachine State Event W {_ _ _ _}.
Arguments Sys State Event W : clear implicits.
Arguments label State Event : clear implicits.

Section event_fsm_facts.
Context {State Event W : Type} `{Countable State} `{Countable Event}.
Implicit Types (m : EventDrivenStateMachine State Event W) (s : Sys State Event W) (ls : list (label State Event)).

Lemma step_fifo m l s s' :
  step m l s = Some s' →
  in_hand s ++ event_queue_ s ++ enqueued l s = finished l s ++ in_hand s' ++ event_queue_ s'.
Proof.
  destruct s as [f c q d r w].
  destruct l; simpl; unfold in_hand, finished, start_async, stop_request, stop_join, worker_take,
    worker_handle, defer_current_event; simpl; intros Hs.
  all: repeat (case_match; simplify_eq/=); rewrite ?app_nil_r; done.
Qed.

Lemma fifo_from m ls s0 s :
  steps m ls s0 = Some s →
  in_hand s0 ++ event_queue_ s0 ++ trace m enqueued ls s0 =
    trace m finished ls s0 ++ in_hand s ++ event_queue_ s.
Proof.
  revert s0. induction ls as [|l ls IH]; intros s0 Hs; simpl in *.
  - injection Hs as <-. by rewrite app_nil_r.
  - destruct (step m l s0) as [s1|] eqn:Hl; [|done]. simpl in Hs.
    pose proof (step_fifo m l s0 s1 Hl) as Hf. specialize (IH s1 Hs).
    rewrite <- app_assoc, <- IH, !app_assoc. f_equal. rewrite <- !app_assoc. exact Hf.
Qed.

(** First in, first out, exactly once: in any interleaving, what the worker
    has processed, then the event it holds, then the queue, is what was posted
    or put back, in order. *)
Theorem worker_fifo m ls w s :
  steps m ls (new_sys w) = Some s →
  trace m enqueued ls (new_sys w) = trace m finished ls (new_sys w) ++ in_hand s ++ event_queue_ s.
Proof. exact (fifo_from m ls (new_sys w) s). Qed.

(** The worker leaves its loop only over an empty queue. *)
Definition worker_inv s : Prop :=
  (current_processing_event_ s = match worker s with Holding e => Some e | _ => None end).
Lemma step_worker_inv m l s s' : worker_inv s → step m l s = Some s' → worker_inv s'.
Proof.
  destruct s as [f c q d r w]. unfold worker_inv.
  destruct l; simpl; unfold start_async, stop_request, stop_join, worker_take,
    worker_handle, defer_current_event; simpl; intros Hi Hs; subst.
  all: repeat (case_match; simplify_eq/=); done.
Qed.

(** ** Draining *)
Fixpoint drain_labels (n : nat) : list (label State Event) :=
  match n with O => [LTake] | S n' => LTake :: LHandle :: drain_labels n' end.
(** The machine after the events [es], one after the other. *)
Fixpoint process_all m (es : list Event) (f : Fsm State W) : Fsm State W :=
  match es with [] => f | e :: es' => process_all m es' (process_internal_locked m e f).2 end.
(** The callbacks return, from states in [P], and stay there. *)
Definition total m (P : Fsm State W → Prop) : Prop :=
  ∀ e f, P f → ∃ b f', process_internal_locked m e f = (Ret b, f') ∧ P f'.

(** The worker's turns over a queue of events, from between two events. *)
Lemma drain_run m P s :
  total m P → P (fsm s) → running_ s = false → worker s = Waiting →
  ∃ s', steps m (drain_labels (length (event_queue_ s)) ++ [LJoin]) s = Some s' ∧
    event_queue_ s' = [] ∧ worker s' = NoThread ∧ deferred_queue_ s' = deferred_queue_ s ∧
    fsm s' = process_all m (event_queue_ s) (fsm s) ∧
    trace m finished (drain_labels (length (event_queue_ s)) ++ [LJoin]) s = event_queue_ s.
Proof.
  intros Htot. destruct s as [f c q d r w]. simpl. intros Hf -> ->.
  revert f c Hf. induction q as [|e q IH]; intros f c Hf; simpl.
  - eexists; split; [reflexivity|]. done.
  - unfold worker_handle. simpl. destruct (Htot e f Hf) as (b & f' & -> & Hf'). simpl.
    destruct (IH f' None Hf') as (s' & Hs' & H1 & H2 & H3 & H4 & H5).
    exists s'. split; [exact Hs'|]. split_and!; try done. simpl. f_equal. exact H5.
Qed.
(** The turns a running worker needs to finish the event it holds and drain. *)
Definition finish_labels s : list (label State Event) :=
  match worker s with Holding _ => [LHandle] | _ => [] end ++ drain_labels (length (event_queue_ s)).

(** C18: once a stop is requested the worker, given its turns, finishes the event
    it holds, processes every queued event in order, one event per two turns,
    and leaves; the join then returns and the machine may be destroyed. *)
Theorem stop_drains_queue m P s :
  total m P → P (fsm s) → running_ s = true → (worker s = Waiting ∨ ∃ e, worker s = Holding e) →
  ∃ s', steps m (LStop :: finish_labels s ++ [LJoin]) s = Some s' ∧
    event_queue_ s' = [] ∧ deferred_queue_ s' = deferred_queue_ s ∧ destroy s' = Ret tt ∧
    fsm s' = process_all m (in_hand s ++ event_queue_ s) (fsm s) ∧
    trace m finished (LStop :: finish_labels s ++ [LJoin]) s = in_hand s ++ event_queue_ s.
Proof.
  intros Htot Hf Hr Hw. destruct s as [f c q d r w]. simpl in *. subst r. unfold finish_labels, destroy, in_hand. simpl.
  destruct Hw as [->|[e ->]]; unfold stop_request; simpl.
  - destruct (drain_run m P (mkSys f c q d false Waiting) Htot Hf eq_refl eq_refl) as (s' & H1 & H2 & H3 & H4 & H5 & H6).
    exists s'. rewrite H3. by split_and!.
  - unfold worker_handle. simpl. destruct (Htot e f Hf) as (b & f' & -> & Hf'). simpl.
    destruct (drain_run m P (mkSys f' None q d false Waiting) Htot Hf' eq_refl eq_refl) as (s' & H1 & H2 & H3 & H4 & H5 & H6).
    exists s'. rewrite H3. split_and!; try done. unfold finished at 1. simpl. f_equal. exact H6.
Qed.

(** Cleared, a machine handles nothing: whatever is posted and processed in any
    interleaving, its state and variables stay, until it is reset. *)
Lemma cleared_handles_nothing e (f : Fsm State W) :
  (process_internal_locked (State := State) (Event := Event) new_tables e f).2 = f ∧
  (process_internal_locked (State := State) (Event := Event) new_tables e f).1 ≠ Ret true.
Proof. unfold process_internal_locked, current_state. rewrite M_bind_assoc, M_bind_get. destruct f as [[st|] w]; by split. Qed.
Lemma cleared_is_inert ls s s' :
  Forall (λ l, match l with LReset _ => False | _ => True end) ls →
  steps (clear s).1 ls (clear s).2 = Some s' → fsm s' = fsm s.
Proof.
  intros Hls. change (fsm s) with (fsm (clear s).2). change (clear s).1 with (new_tables : EventDrivenStateMachine State Event W).
  generalize (clear s).2. clear s. induction Hls as [|l ls Hl _ IH]; intros s; simpl; [by intros [= ->]|].
  destruct (step new_tables l s) as [s1|] eqn:E; [|done]. simpl. intros Hs. rewrite (IH s1 Hs). clear -E Hl.
  destruct l; try done; cbn [step] in E.
  all: try (injection E as <-; done).
  all: try (unfold start_async, stop_join, worker_take in E; repeat (case_match; simplify_eq/=); done).
  - injection E as <-. apply cleared_handles_nothing.
  - injection E as <-. unfold defer_current_event. by destruct (current_processing_event_ s).
  - injection E as <-. unfold stop_request. by destruct (running_ s).
  - unfold worker_handle in E. destruct (worker s) as [| |e|]; try done.
    pose proof (proj1 (cleared_handles_nothing e (fsm s))) as Hf.
    destruct (process_internal_locked new_tables e (fsm s)) as [[b|x|] f]; try done. by injection E as <-.
Qed.
End event_fsm_facts.
