(* ===== verification/EventChart.v ===== *)
(** * The event-driven machine is its chart, run on a linear history

    The calls of the clients and the turns of the worker of [EventFsm]
    interleave; each takes effect at one step.  In any interleaving the machine
    is in the state in which the chart of its tables is after the operations in
    the order of their steps, and the worker's events among them are those posted
    or put back, in order. *)
From S2P Require Import Prelude FsmCommon EventFsm.
From S2P Require SimpleFsm.
Local Open Scope prog_scope.

Section event_chart.
Context {State Event W : Type} `{Countable State} `{Countable Event}.
Implicit Types (m : EventDrivenStateMachine State Event W) (s : Sys State Event W) (ls : list (label State Event)).

(** An operation of the history: a [reset], a [process_event] of a client, an
    event the worker has handled. *)
Inductive Op := OReset (initial : State) | ODirect (e : Event) | OWorker (e : Event).
Definition performed (l : label State Event) s : list Op :=
  match l, worker s with
  | LReset i, _ => [OReset i] | LProcess e, _ => [ODirect e] | LHandle, Holding e => [OWorker e] | _, _ => []
  end.
Fixpoint history m ls s : list Op :=
  match ls with
  | [] => []
  | l :: ls' => performed l s ++ match step m l s with Some s' => history m ls' s' | None => [] end
  end.
Definition by_worker (o : Op) : list Event := match o with OWorker e => [e] | _ => [] end.

(** The chart, with what the observers do to the captured variables. *)
Definition Watch : Type := State → State → Event → W → W.
Record implements m (c : Chart State W Event) (watch : Watch) : Prop := {
  imp_tables : describes c (λ st e, transitions_ m !! (st, e)) (λ st, entry_actions_ m !! st) (λ st, exit_actions_ m !! st);
  imp_watch from to e (f : Fsm State W) : notify_observers_locked m from to e f = on_world (watch from to e) f
}.
Definition chart_event (c : Chart State W Event) (watch : Watch) (e : Event) (f : Fsm State W) : Fsm State W :=
  match current_state_ f with
  | None => f
  | Some st =>
      let '(moved, st', w) := SimpleFsm.chart_step c st (world f) e in
      mkFsm (Some st') (if (moved : bool) then watch st st' e w else w)
  end.
Definition chart_op (c : Chart State W Event) (watch : Watch) (f : Fsm State W) (o : Op) : Fsm State W :=
  match o with
  | OReset i => mkFsm (Some i) (enter c i (world f))
  | ODirect e | OWorker e => chart_event c watch e f
  end.

Lemma process_chart m c watch e f : implements m c watch → (process_internal_locked m e f).2 = chart_event c watch e f.
Proof.
  intros [Hm Hw]. destruct f as [[st|] w]; [|done]. unfold chart_event, SimpleFsm.chart_step, process_internal_locked. simpl.
  autorewrite with monad. pose proof (desc_edge _ _ _ _ Hm st e) as Hedge. simpl in Hedge.
  destruct (transitions_ m !! (st, e)) as [tr|], (edge c st e) as [ed|]; try done.
  destruct Hedge as (-> & Hact & Hg). rewrite (guards_bind _ _ _ _ Hg). simpl.
  destruct (e_guard ed w); simpl; [|done]. autorewrite with monad.
  rewrite (acts_bind _ _ _ _ _ (desc_leave _ _ _ _ Hm st)). autorewrite with monad. simpl.
  rewrite (acts_bind _ _ _ _ _ Hact). autorewrite with monad.
  rewrite (acts_bind _ _ _ _ _ (desc_enter _ _ _ _ Hm (e_target ed))). autorewrite with monad.
  by rewrite (M_bind_ret _ _ _ _ _ (Hw _ _ _ _)).
Qed.
Lemma reset_chart m c watch i f : implements m c watch → (reset_locked m i f).2 = chart_op c watch f (OReset i).
Proof.
  intros [Hm _]. unfold reset_locked. autorewrite with monad. by rewrite (desc_enter _ _ _ _ Hm i).
Qed.

Lemma step_history m c watch l s s' : implements m c watch → step m l s = Some s' →
  fsm s' = foldl (chart_op c watch) (fsm s) (performed l s) ∧ concat (by_worker <$> performed l s) = finished l s.
Proof.
  intros Hm. destruct s as [f cur q d r w].
  destruct l; simpl; unfold finished, performed, start_async, stop_request, stop_join, worker_take, worker_handle, defer_current_event; simpl.
  all: intros Hs; split; repeat first [case_match | progress simplify_eq/=]; try done.
  - by apply (process_chart m c watch).
  - by apply (reset_chart m c watch).
  - rewrite <- (process_chart m c watch) by done. by match goal with E : process_internal_locked _ _ _ = _ |- _ => rewrite E end.
Qed.
Lemma history_from m c watch ls s s' : implements m c watch → steps m ls s = Some s' →
  fsm s' = foldl (chart_op c watch) (fsm s) (history m ls s) ∧ concat (by_worker <$> history m ls s) = trace m finished ls s.
Proof.
  intros Hm. revert s. induction ls as [|l ls IH]; intros s; simpl; [by intros [= ->]|].
  destruct (step m l s) as [s1|] eqn:E; [|done]. simpl. intros Hs.
  destruct (step_history m c watch l s s1 Hm E) as [H1 H2], (IH s1 Hs) as [H3 H4].
  rewrite foldl_app, <- H1, fmap_app, concat_app, H2, H4. done.
Qed.

(** C17: however clients and worker interleave, the machine and its variables
    are where the chart is after the history of operations, one at a time; the
    events the worker contributes to it are the first of those posted or put
    back, in order, and the others are in its hand or queued. *)
Theorem async_refines_chart m c watch ls w s :
  implements m c watch → steps m ls (new_sys w) = Some s →
  fsm s = foldl (chart_op c watch) (mkFsm None w) (history m ls (new_sys w)) ∧
  trace m enqueued ls (new_sys w) = concat (by_worker <$> history m ls (new_sys w)) ++ in_hand s ++ event_queue_ s.
Proof.
  intros Hm Hs. destruct (history_from m c watch ls _ _ Hm Hs) as [-> ->]. split; [done|]. exact (fifo_from m ls (new_sys w) s Hs).
Qed.
End event_chart.
