(* ===== verification/EventDevice.v ===== *)
(** * Model 3 of [state_machine_2/examples/device_control.cpp]: the device on
    the event-driven machine *)
From stdpp Require Import finite.
From S2P Require Import Prelude DeviceCommon FsmCommon EventFsm EventChart.
Local Open Scope prog_scope.

(** The static [error_count] of the guard, and the console. *)
Record Vars := mkVars { error_count : Z; out : string }.
Abbreviation Machine := (EventDrivenStateMachine DeviceState DeviceEvent Vars).
Abbreviation Call := (M (Fsm DeviceState Vars)).
Definition nl : string := newline.
Definition print (t : string) : Call unit :=
  on_world (λ v, {| error_count := error_count v; out := out v +:+ t |}).
(** [return ++error_count <= 1;] *)
Definition first_error : Call bool :=
  s ← get;
  n ← lift_outcome (signed 32 (error_count (world s) + 1));
  on_world (λ v, {| error_count := n; out := out v |}) ;;
  mret (n <=? 1)%Z.
Definition print_transition (from to : DeviceState) (event : DeviceEvent) : Call unit :=
  print ("  [" +:+ event_to_string event +:+ "] " +:+ state_to_string to +:+ nl).
Definition edge_to (from : DeviceState) (e : DeviceEvent) (to : DeviceState) (m : Machine) : Machine :=
  add_transition from e to None None m.

Definition machine : Machine :=
  new_tables
  |> edge_to Off PowerOn Starting
  |> edge_to Starting StartComplete Active
  |> edge_to Active EnterStandby Standby
  |> edge_to Standby ExitStandby Active
  |> add_transition Active ErrorOccurred Error None (Some first_error)
  |> edge_to Error ErrorCleared Active
  |> edge_to Active PowerOff ShuttingDown
  |> edge_to Standby PowerOff ShuttingDown
  |> edge_to Error PowerOff ShuttingDown
  |> edge_to ShuttingDown PowerOff Off
  |> on_entry Off (print ("  [Entry] Off" +:+ nl))
  |> on_entry Active (print ("  [Entry] Active" +:+ nl))
  |> on_entry Error (print ("  [Entry] Error" +:+ nl))
  |> add_observer print_transition.

(** [run_event_driven_fsm_example] under the schedule its sleeps are there for:
    the worker handles each event before the next is posted. *)
Definition posted : list DeviceEvent :=
  [PowerOn; StartComplete; EnterStandby; ExitStandby; ErrorOccurred; ErrorCleared].
Definition run_event_driven_fsm_example : list (label DeviceState DeviceEvent) :=
  [LReset Off; LStart] ++ concat ((λ e, [LPost e; LTake; LHandle]) <$> posted)
  ++ [LProcess PowerOff; LProcess PowerOff; LStop; LTake; LJoin].

Definition demo_start : Sys DeviceState DeviceEvent Vars := new_sys (mkVars 0 "").
Example demo_ends_off :
  (λ s, (current_state_ (fsm s), event_queue_ s, worker s, error_count (world (fsm s)))) <$>
    steps machine run_event_driven_fsm_example demo_start = Some (Some Off, [], NoThread, 1%Z).
Proof. by_compute. Qed.

(** ** Witnesses *)
Lemma worker_fifo_witness :
  ∃ s, steps machine run_event_driven_fsm_example demo_start = Some s ∧
    trace machine enqueued run_event_driven_fsm_example demo_start =
      trace machine finished run_event_driven_fsm_example demo_start ++ in_hand s ++ event_queue_ s.
Proof.
  destruct (steps machine run_event_driven_fsm_example demo_start) as [s|] eqn:E; [|by vm_compute in E].
  exists s. split; [done|].
  exact (worker_fifo machine run_event_driven_fsm_example (mkVars 0 "") s E).
Defined.

(** A machine of plain edges, with one event in the worker's hand and two queued. *)
Definition plain : Machine :=
  new_tables |> edge_to Off PowerOn Starting |> edge_to Starting StartComplete Active.
Definition stopping : Sys DeviceState DeviceEvent Vars :=
  {| fsm := mkFsm (Some Off) (mkVars 0 ""); current_processing_event_ := Some PowerOn;
     event_queue_ := [Suspend; StartComplete]; deferred_queue_ := []; running_ := true;
     worker := Holding PowerOn |}.
Lemma plain_edges st e tr : transitions_ plain !! (st, e) = Some tr → tr = mkTransition (target tr) None None.
Proof.
  unfold plain, edge_to, add_transition. simpl. rewrite !lookup_insert, lookup_empty. by repeat case_decide; intros; simplify_eq.
Qed.
Lemma plain_total : total plain (λ f, is_Some (current_state_ f)).
Proof.
  intros e [[s|] v] Hf; [|by destruct Hf]. unfold process_internal_locked. autorewrite with monad.
  destruct (transitions_ plain !! (s, e)) as [tr|] eqn:E; [|by eexists _, _].
  rewrite (plain_edges _ _ _ E). eexists _, _. split; [reflexivity|]. simpl. eauto.
Qed.
Lemma stop_drains_queue_witness :
  ∃ s', steps plain (LStop :: finish_labels stopping ++ [LJoin]) stopping = Some s' ∧
    event_queue_ s' = [] ∧ deferred_queue_ s' = deferred_queue_ stopping ∧ destroy s' = Ret tt ∧
    fsm s' = process_all plain (in_hand stopping ++ event_queue_ stopping) (fsm stopping) ∧
    trace plain finished (LStop :: finish_labels stopping ++ [LJoin]) stopping = in_hand stopping ++ event_queue_ stopping.
Proof.
  apply (stop_drains_queue plain (λ f, is_Some (current_state_ f)) stopping plain_total); [by eexists|done|].
  right. by exists PowerOn.
Defined.

(** The plain edges with an entry line and the observer, as a chart; two clients
    and the worker interleave on it. *)
Definition append (t : string) (v : Vars) : Vars := {| error_count := error_count v; out := out v +:+ t |}.
Definition shown : Machine := plain |> on_entry Active (print ("  [Entry] Active" +:+ nl)) |> add_observer print_transition.
Definition shown_chart : Chart DeviceState Vars DeviceEvent := {|
  edge st e := (λ tr, mkEdge (target tr) (λ v, v) (λ _, true)) <$> transitions_ plain !! (st, e);
  enter st := if decide (st = Active) then append ("  [Entry] Active" +:+ nl) else λ v, v;
  leave _ v := v
|}.
Definition shown_watch : Watch (State := DeviceState) (Event := DeviceEvent) (W := Vars) :=
  λ _ to e, append ("  [" +:+ event_to_string e +:+ "] " +:+ state_to_string to +:+ nl).
Lemma shown_implements : implements shown shown_chart shown_watch.
Proof.
  split; [split|done].
  - intros st e. change (transitions_ shown) with (transitions_ plain). unfold shown_chart. cbn [edge].
    destruct (transitions_ plain !! (st, e)) as [tr|] eqn:E; [|done]. rewrite (plain_edges _ _ _ E). split_and!; [done|apply acts_none|apply guards_none].
  - intros st. simpl. rewrite lookup_insert. case_decide; [subst|rewrite decide_False by done; rewrite lookup_empty; apply acts_none].
    apply acts_some.
  - intros st. simpl. rewrite lookup_empty. apply acts_none.
Qed.
Definition two_clients : list (label DeviceState DeviceEvent) :=
  [LStart; LReset Off; LPost PowerOn; LPost Suspend; LTake; LPost StartComplete; LProcess PowerOn; LHandle; LTake; LStop].
Lemma async_refines_chart_witness : ∃ s, steps shown two_clients (new_sys (mkVars 0 "")) = Some s ∧
  fsm s = foldl (chart_op shown_chart shown_watch) (mkFsm None (mkVars 0 "")) (history shown two_clients (new_sys (mkVars 0 ""))) ∧
  trace shown enqueued two_clients (new_sys (mkVars 0 "")) =
    concat (by_worker <$> history shown two_clients (new_sys (mkVars 0 ""))) ++ in_hand s ++ event_queue_ s.
Proof.
  destruct (steps shown two_clients (new_sys (mkVars 0 ""))) as [s|] eqn:E; [|by vm_compute in E].
  exists s. split; [done|]. exact (async_refines_chart shown shown_chart shown_watch two_clients (mkVars 0 "") s shown_implements E).
Defined.
