(* ===== verification/DeviceModule.v ===== *)
(** * The device modules of [ddd_multi_device/src/ddd/domain/module]

    Modules refer to their children by pointer and a guard reads the children's
    state, so the modules live in a store; a null child is [None]. *)
From S2P Require Import Prelude.

(** ** [domain/core/result.hpp] *)
Record Result (A : Type) := mkResult { value : A; error : string; ok_ : bool }.
Arguments mkResult {A} _ _ _.
Arguments value {A} _.
Arguments error {A} _.
Arguments ok_ {A} _.
Definition success {A} (v : A) : Result A := mkResult v "" true.
Definition failure (reason : string) : Result bool := mkResult false reason false.
Definition isOk {A} (r : Result A) : bool := ok_ r.
Definition isErr {A} (r : Result A) : bool := negb (ok_ r).

(** ** [device_module.hpp] *)
Inductive ModuleType := OPERATOR | SENSOR.
Inductive ModuleState := INACTIVE | PREHEATING | READY | WORKING | COMPLETED | FAULT.
Inductive SensorState := NORMAL | TRIGGERED | OUT_OF_RANGE.
#[export] Instance ModuleType_eq_dec : EqDecision ModuleType.
Proof. solve_decision. Defined.
#[export] Instance ModuleState_eq_dec : EqDecision ModuleState.
Proof. solve_decision. Defined.
#[export] Instance SensorState_eq_dec : EqDecision SensorState.
Proof. solve_decision. Defined.

Definition moduleTypeLabel (t : ModuleType) : string :=
  if decide (t = OPERATOR) then "OPERATOR(执行型)" else "SENSOR(传感型)".
Definition moduleStateLabel (s : ModuleState) : string :=
  match s with
  | INACTIVE => "INACTIVE"
  | PREHEATING => "PREHEATING(预热)"
  | READY => "READY(就绪)"
  | WORKING => "WORKING(工作)"
  | COMPLETED => "COMPLETED(完成)"
  | FAULT => "FAULT(故障)"
  end.
Definition sensorStateLabel (s : SensorState) : string :=
  match s with
  | NORMAL => "NORMAL(正常)"
  | TRIGGERED => "TRIGGERED(触发)"
  | OUT_OF_RANGE => "OUT_OF_RANGE(失联/超范围)"
  end.

Record DeviceModule := mkModule {
  name_ : string;
  type_ : ModuleType;
  state_ : ModuleState;
  sensor_ : SensorState;
  children_ : list (option Z)
}.
Definition new_DeviceModule (name : string) (type : ModuleType) : DeviceModule :=
  {| name_ := name; type_ := type; state_ := INACTIVE; sensor_ := NORMAL; children_ := [] |}.
Definition set_state (st : ModuleState) (m : DeviceModule) : DeviceModule :=
  {| name_ := name_ m; type_ := type_ m; state_ := st; sensor_ := sensor_ m; children_ := children_ m |}.
Definition set_sensor (x : SensorState) (m : DeviceModule) : DeviceModule :=
  {| name_ := name_ m; type_ := type_ m; state_ := state_ m; sensor_ := x; children_ := children_ m |}.
Definition add_child (c : option Z) (m : DeviceModule) : DeviceModule :=
  {| name_ := name_ m; type_ := type_ m; state_ := state_ m; sensor_ := sensor_ m; children_ := children_ m ++ [c] |}.

Abbreviation Modules := (gmap Z DeviceModule).
(** A member call on module [i]; a dangling pointer is undefined behaviour. *)
Definition this (i : Z) : M Modules DeviceModule :=
  s ← get; match s !! i with Some m => mret m | None => undef end.
Definition update (i : Z) (f : DeviceModule → DeviceModule) : M Modules unit := modify (alter f i).

Definition inFault (m : DeviceModule) : bool := bool_decide (state_ m = FAULT).

(** The loop of [canReachReady] over the children. *)
Fixpoint ready_loop (children : list (option Z)) : M Modules bool :=
  match children with
  | [] => mret true
  | None :: _ => mret false
  | Some c :: cs =>
      m ← this c;
      let childReady := if decide (type_ m = SENSOR) then bool_decide (sensor_ m = NORMAL)
                        else bool_decide (state_ m = READY) in
      if negb childReady then mret false else ready_loop cs
  end.
Definition canReachReady (i : Z) : M Modules bool := m ← this i; ready_loop (children_ m).

Fixpoint sensor_loop (children : list (option Z)) : M Modules bool :=
  match children with
  | [] => mret true
  | None :: cs => sensor_loop cs
  | Some c :: cs =>
      m ← this c;
      if bool_decide (type_ m = SENSOR) && bool_decide (sensor_ m ≠ NORMAL)
      then mret false else sensor_loop cs
  end.
Definition sensorOk (i : Z) : M Modules bool :=
  m ← this i;
  if decide (type_ m = SENSOR) then mret (bool_decide (sensor_ m = NORMAL)) else sensor_loop (children_ m).

Definition powerOn (i : Z) : M Modules (Result bool) :=
  m ← this i;
  if decide (state_ m ≠ INACTIVE) then mret (failure "非 INACTIVE 态不能上电")
  else update i (set_state PREHEATING) ;; mret (success true).

Definition preheatDone (i : Z) : M Modules (Result bool) :=
  m ← this i;
  if decide (state_ m ≠ PREHEATING) then mret (failure "非 PREHEATING 态不能判定就绪")
  else
    b ← canReachReady i;
    if negb b then mret (failure "Guard 不满足: 子模块/传感尚未就绪")
    else update i (set_state READY) ;; mret (success true).

Definition startWork (i : Z) : M Modules (Result bool) :=
  m ← this i;
  if decide (type_ m = SENSOR) then mret (failure "传感型模块不接受控制指令")
  else if decide (state_ m ≠ READY) then mret (failure "仅 READY 态可开工")
  else
    b ← sensorOk i;
    if negb b then mret (failure "传感条件不满足, 禁止启动")
    else update i (set_state WORKING) ;; mret (success true).

Definition finishWork (i : Z) : M Modules (Result bool) :=
  m ← this i;
  if decide (state_ m ≠ WORKING) then mret (failure "仅 WORKING 态可完成")
  else update i (set_state COMPLETED) ;; mret (success true).

Definition setFault (i : Z) : M Modules (Result bool) :=
  m ← this i;
  if decide (state_ m = FAULT) then mret (failure "已在 FAULT 态")
  else update i (set_state FAULT) ;; mret (success true).

Definition reset (i : Z) : M Modules (Result bool) :=
  m ← this i;
  if decide (state_ m ≠ FAULT) then mret (failure "仅 FAULT 态需要/允许复位")
  else update i (set_state INACTIVE) ;; mret (success true).

Definition refreshSensor (i : Z) (input : SensorState) : M Modules unit :=
  this i ;; update i (set_sensor input).

(** ** The specification *)
Inductive command := CPowerOn | CPreheatDone | CStartWork | CFinishWork | CSetFault | CReset.
Definition run (c : command) (i : Z) : M Modules (Result bool) :=
  match c with
  | CPowerOn => powerOn i
  | CPreheatDone => preheatDone i
  | CStartWork => startWork i
  | CFinishWork => finishWork i
  | CSetFault => setFault i
  | CReset => reset i
  end.
(** The table of the documentation: the states a command leads from and to. *)
Definition moves (c : command) (from to : ModuleState) : bool :=
  match c, from, to with
  | CPowerOn, INACTIVE, PREHEATING | CPreheatDone, PREHEATING, READY | CStartWork, READY, WORKING
  | CFinishWork, WORKING, COMPLETED | CReset, FAULT, INACTIVE => true
  | CSetFault, (INACTIVE | PREHEATING | READY | WORKING | COMPLETED), FAULT => true
  | _, _, _ => false
  end.

(** The guards as predicates on the store. *)
Definition child_ready (s : Modules) (c : option Z) : Prop :=
  ∃ i m, c = Some i ∧ s !! i = Some m ∧
    if decide (type_ m = SENSOR) then sensor_ m = NORMAL else state_ m = READY.
Definition child_sensor_ok (s : Modules) (c : option Z) : Prop :=
  ∀ i m, c = Some i → s !! i = Some m → type_ m = SENSOR → sensor_ m = NORMAL.
Definition children_valid (s : Modules) (m : DeviceModule) : Prop :=
  ∀ i, Some i ∈ children_ m → is_Some (s !! i).

Lemma this_bind {A} i m (k : DeviceModule → M Modules A) s :
  s !! i = Some m → (this i ≫= k) s = k m s.
Proof. intros Hi. unfold this. autorewrite with monad. by rewrite Hi. Qed.

Lemma ready_loop_spec s cs :
  (∀ i, Some i ∈ cs → is_Some (s !! i)) →
  ∃ b, ready_loop cs s = (Ret b, s) ∧ (b = true ↔ Forall (child_ready s) cs).
Proof.
  induction cs as [|[c|] cs IH]; intros Hv; simpl.
  - exists true. split; [done|]. split; [constructor|done].
  - destruct (Hv c) as [m Hm]; [by left|]. rewrite (this_bind c m) by done.
    destruct (if decide (type_ m = SENSOR) then _ else _) eqn:E; simpl.
    + destruct IH as (b & Hb & Hiff); [intros i Hi; apply Hv; by right|].
      exists b. split; [done|]. rewrite Hiff, Forall_cons. split; [|tauto]. intros Hall. split; [|done].
      exists c, m. split_and!; [done..|]. by destruct (decide _); apply bool_decide_eq_true in E.
    + exists false. split; [done|]. split; [done|]. rewrite Forall_cons.
      intros [(i & m' & [= <-] & Hm' & Hr) _]. rewrite Hm in Hm'. injection Hm' as <-.
      destruct (decide _); by apply bool_decide_eq_false in E.
  - exists false. split; [done|]. split; [done|]. rewrite Forall_cons. by intros [(i & m & [=] & _) _].
Qed.

Lemma sensor_loop_spec s cs :
  (∀ i, Some i ∈ cs → is_Some (s !! i)) →
  ∃ b, sensor_loop cs s = (Ret b, s) ∧ (b = true ↔ Forall (child_sensor_ok s) cs).
Proof.
  induction cs as [|[c|] cs IH]; intros Hv; simpl.
  - exists true. split; [done|]. split; [constructor|done].
  - destruct (Hv c) as [m Hm]; [by left|]. rewrite (this_bind c m) by done.
    destruct IH as (b & Hb & Hiff); [intros i Hi; apply Hv; by right|].
    destruct (bool_decide (type_ m = SENSOR) && bool_decide (sensor_ m ≠ NORMAL)) eqn:E.
    + exists false. split; [done|]. split; [done|]. rewrite Forall_cons. intros [Hc _].
      apply andb_true_iff in E as [E1%bool_decide_eq_true E2%bool_decide_eq_true].
      by rewrite (Hc c m) in E2.
    + exists b. split; [done|]. rewrite Hiff, Forall_cons. split; [|tauto]. intros Hall. split; [|done].
      intros i m' [= <-] Hm' Ht. rewrite Hm in Hm'. injection Hm' as <-.
      rewrite Ht in E. apply andb_false_iff in E as [E%bool_decide_eq_false|E%bool_decide_eq_false]; [done|].
      by destruct (decide (sensor_ m = NORMAL)).
  - destruct IH as (b & Hb & Hiff); [intros i Hi; apply Hv; by right|].
    exists b. split; [done|]. rewrite Hiff, Forall_cons. split; [|tauto]. by intros Hall; split.
Qed.

(** When a command is carried out: there is a move for it in the table, and its
    guard holds.  Only [startWork] looks at the type of the module. *)
Definition allowed (c : command) (m : DeviceModule) (s : Modules) : Prop :=
  (∃ to, moves c (state_ m) to = true) ∧
  match c with
  | CPreheatDone => Forall (child_ready s) (children_ m)
  | CStartWork => type_ m = OPERATOR ∧ Forall (child_sensor_ok s) (children_ m)
  | _ => True
  end.
Definition answers (c : command) (i : Z) (m : DeviceModule) (s : Modules) (x : outcome (Result bool) * Modules) : Prop :=
  ∃ r, x.1 = Ret r ∧ (isOk r = true ↔ allowed c m s) ∧
    if isOk r
    then ∃ to, x.2 = <[i := set_state to m]> s ∧ moves c (state_ m) to = true ∧
         (to = READY → Forall (child_ready s) (children_ m)) ∧
         (to = WORKING → type_ m = OPERATOR ∧ Forall (child_sensor_ok s) (children_ m))
    else x.2 = s.
Lemma answers_failure c i m s e : ¬ allowed c m s → answers c i m s (Ret (failure e), s).
Proof. intros Hn. exists (failure e). split_and!; [done|by split|done]. Qed.
Lemma answers_success c i m s to : s !! i = Some m → moves c (state_ m) to = true → allowed c m s →
  answers c i m s ((update i (set_state to) ;; mret (success true)) s).
Proof.
  intros Hi Hmv Hal. exists (success true).
  assert ((update i (set_state to) ;; mret (success true)) s = (Ret (success true), <[i := set_state to m]> s)) as ->.
  { unfold update. autorewrite with monad. f_equal. unfold mret, M_ret. f_equal.
    apply map_eq. intros j. destruct (decide (i = j)) as [<-|Hne].
    - by rewrite lookup_alter_eq, Hi, lookup_insert_eq.
    - by rewrite lookup_alter_ne, lookup_insert_ne. }
  split_and!; [done|by split|]. exists to. split_and!; [done|done|..]; intros ->; destruct Hal as [_ Hg];
    by destruct c, (state_ m).
Qed.
Lemma not_allowed c m s : (∀ to, moves c (state_ m) to = false) → ¬ allowed c m s.
Proof. intros H [[to Hto] _]. by rewrite H in Hto. Qed.

(** C23: a command on a module whose children exist either fails and changes
    nothing, or moves that module alone along the table of the documentation.  It is
    carried out exactly when the table has a move for it from the module's state
    and its guard holds: [preheatDone] wants every child ready, [startWork] an
    operator whose sensor children are all NORMAL.  The other commands do not look
    at the type and move a sensor as well, which the requirements exclude
    (Example [sensor_takes_commands] of Plant). *)
Theorem commands_follow_table c i m s :
  s !! i = Some m → children_valid s m →
  ∃ r, (run c i s).1 = Ret r ∧ (isOk r = true ↔ allowed c m s) ∧
    if isOk r
    then ∃ to, (run c i s).2 = <[i := set_state to m]> s ∧ moves c (state_ m) to = true ∧
         (to = READY → Forall (child_ready s) (children_ m)) ∧
         (to = WORKING → type_ m = OPERATOR ∧ Forall (child_sensor_ok s) (children_ m))
    else (run c i s).2 = s.
Proof.
  intros Hi Hv. change (answers c i m s (run c i s)).
  destruct (ready_loop_spec s (children_ m) Hv) as (b & Hb & Hbiff).
  destruct (sensor_loop_spec s (children_ m) Hv) as (b2 & Hb2 & Hb2iff).
  destruct c; simpl; unfold powerOn, preheatDone, startWork, finishWork, setFault, reset, canReachReady, sensorOk;
    rewrite ?(this_bind i m) by done.
  - destruct (decide _) as [|E%dec_stable]; [apply answers_failure, not_allowed; by destruct (state_ m)|].
    apply answers_success; rewrite ?E; [done..|]. split; [|done]. rewrite E. by exists PREHEATING.
  - destruct (decide _) as [|E%dec_stable]; [apply answers_failure, not_allowed; by destruct (state_ m)|].
    rewrite M_bind_assoc, (this_bind i m), (M_bind_ret _ _ _ _ _ Hb) by done.
    destruct b; cbn [negb]; [|apply answers_failure; intros [_ Hg]; by apply Hbiff in Hg].
    apply answers_success; rewrite ?E; [done..|]. split; [rewrite E; by exists READY|by apply Hbiff].
  - destruct (decide (type_ m = SENSOR)) as [Ety|Ety]; [apply answers_failure; intros [_ [Hty _]]; by rewrite Hty in Ety|].
    destruct (decide _) as [|E%dec_stable]; [apply answers_failure, not_allowed; by destruct (state_ m)|].
    rewrite M_bind_assoc, (this_bind i m) by done. rewrite decide_False by done.
    rewrite (M_bind_ret _ _ _ _ _ Hb2).
    destruct b2; cbn [negb]; [|apply answers_failure; intros [_ [_ Hg]]; by apply Hb2iff in Hg].
    apply answers_success; rewrite ?E; [done..|]. split; [rewrite E; by exists WORKING|].
    split; [by destruct (type_ m)|by apply Hb2iff].
  - destruct (decide _) as [|E%dec_stable]; [apply answers_failure, not_allowed; by destruct (state_ m)|].
    apply answers_success; rewrite ?E; [done..|]. split; [|done]. rewrite E. by exists COMPLETED.
  - destruct (decide _) as [E|E]; [apply answers_failure, not_allowed; by rewrite E|].
    apply answers_success; [done|by destruct (state_ m)|]. split; [|done]. exists FAULT. by destruct (state_ m).
  - destruct (decide _) as [|E%dec_stable]; [apply answers_failure, not_allowed; by destruct (state_ m)|].
    apply answers_success; rewrite ?E; [done..|]. split; [|done]. rewrite E. by exists INACTIVE.
Qed.
