(* ===== verification/HierNode.v ===== *)
(** * The node hierarchy of [ddd_multi_device/src/ddd/domain/process]

    A node drives the nodes below it through the RPC port, whose adapter
    ([RpcRouter] of [infrastructure/runtime/store.hpp]) looks them up in the
    store, and reports to its upstream, another node or the plant controller.
    Calls therefore run on the whole store.  Reports climb and commands descend
    one layer per call; both recursions carry fuel, which the trees the program
    builds never use up, and a run out of it is [Undef] (a cycle of ports would
    overflow the stack). *)
From S2P Require Import Prelude StdMap.
Local Open Scope prog_scope.

(** ** [model.hpp], [impact.hpp] *)
Inductive Step := UNKNOWN | POWER | PREHEAT | CLEAN | SELFCHECK | HOME | READY | WORK | DONE.
Inductive FaultLevel := NONE | ALARM | BLOCKING.
#[export] Instance Step_eq_dec : EqDecision Step.
Proof. solve_decision. Defined.
#[export] Instance FaultLevel_eq_dec : EqDecision FaultLevel.
Proof. solve_decision. Defined.
Definition step_value (s : Step) : Z :=
  match s with
  | UNKNOWN => 0 | POWER => 1 | PREHEAT => 2 | CLEAN => 3 | SELFCHECK => 4 | HOME => 5 | READY => 6
  | WORK => 7 | DONE => 8
  end.
Definition fault_value (f : FaultLevel) : Z := match f with NONE => 0 | ALARM => 1 | BLOCKING => 2 end.
Definition stepLabel (s : Step) : string :=
  match s with
  | UNKNOWN => "UNKNOWN"
  | POWER => "POWER(上电)"
  | PREHEAT => "PREHEAT(预热)"
  | CLEAN => "CLEAN(清洗)"
  | SELFCHECK => "SELFCHECK(故障检测)"
  | HOME => "HOME(到位)"
  | READY => "READY(就绪)"
  | WORK => "WORKING(工作)"
  | DONE => "DONE(完成)"
  end.
Definition faultLabel (f : FaultLevel) : string :=
  match f with
  | NONE => "NONE"
  | ALARM => "ALARM(告警/不影响生产)"
  | BLOCKING => "BLOCKING(阻断生产)"
  end.
Definition worstOf (a b : FaultLevel) : FaultLevel := if (fault_value b <? fault_value a)%Z then a else b.

Record Impact := mkImpact { affectsProduction : bool; severity : FaultLevel; impact_reason : string }.
Definition decideProductionImpact (sev : FaultLevel) (criticalToJob : bool) : Impact :=
  match sev with
  | BLOCKING => mkImpact true sev "硬故障(BLOCKING)，影响生产"
  | ALARM =>
      mkImpact criticalToJob sev
        (if criticalToJob then "安全/质量关键节点告警，影响生产" else "非关键告警，可继续生产")
  | NONE => mkImpact false sev "正常"
  end.
Definition aggregateFault (own childWorst : FaultLevel) : FaultLevel := worstOf own childWorst.

(** ** [events/event.hpp] *)
Inductive EventKind := ModuleStateChanged | ModuleReady | LineStateChanged | Alarm | FaultCleared.
Definition eventKindLabel (k : EventKind) : string :=
  match k with
  | ModuleStateChanged => "ModuleStateChanged"
  | ModuleReady => "ModuleReady"
  | LineStateChanged => "LineStateChanged"
  | Alarm => "Alarm"
  | FaultCleared => "FaultCleared"
  end.
Record DomainEvent := mkEvent {
  kind : EventKind; moduleId : Z; from : Z; to : Z; line : bool; message : string }.
Definition describe (e : DomainEvent) : string :=
  eventKindLabel (kind e) +:+ " id=" +:+ pretty (moduleId e) +:+ " " +:+ pretty (from e) +:+ "->" +:+ pretty (to e)
  +:+ (if decide (message e = "") then "" else " msg=" +:+ message e).

(** ** [port/pubsub.hpp] *)
Record ProcessReport := mkReport {
  origin : Z; r_layer : Z; r_name : string; r_step : Step; r_fault : FaultLevel; r_ready : bool;
  r_blocking : bool; r_affectsProduction : bool; reason : string }.

(** ** [node.hpp] *)
(** [IUpstream*]: null, a node, or the plant controller. *)
Inductive Upstream := UpNull | UpNode (i : Z) | UpController.
Record HierNode := mkNode {
  id_ : Z; name_ : string; layer_ : Z; criticalToJob_ : bool;
  plan_ : list Step; pos_ : nat; curState_ : Step;
  ready_ : bool; working_ : bool; ownFault_ : FaultLevel;
  childReady_ : gmap Z bool; childBlock_ : gmap Z bool; childBlocked_ : bool; blocking_ : bool;
  childIds_ : list Z; rpc_ : bool; up_ : Upstream; sink_ : bool; lastSig_ : Z; trace_ : bool
}.
Definition no_signature : Z := 0xFFFFFFFFFFFFFFFF.
Definition new_HierNode (i : Z) (name : string) (layer : Z) : HierNode :=
  {| id_ := i; name_ := name; layer_ := layer; criticalToJob_ := true; plan_ := []; pos_ := 0;
     curState_ := UNKNOWN; ready_ := false; working_ := false; ownFault_ := NONE; childReady_ := ∅;
     childBlock_ := ∅; childBlocked_ := false; blocking_ := false; childIds_ := []; rpc_ := false;
     up_ := UpNull; sink_ := false; lastSig_ := no_signature; trace_ := false |}.

(** Setup: the composition root's wiring. *)
Definition wire (plan : list Step) (critical rpc sink trace : bool) (up : Upstream) (children : list Z)
    (n : HierNode) : HierNode :=
  {| id_ := id_ n; name_ := name_ n; layer_ := layer_ n; criticalToJob_ := critical; plan_ := plan; pos_ := pos_ n;
     curState_ := curState_ n; ready_ := ready_ n; working_ := working_ n; ownFault_ := ownFault_ n;
     childReady_ := childReady_ n; childBlock_ := childBlock_ n; childBlocked_ := childBlocked_ n;
     blocking_ := blocking_ n; childIds_ := children; rpc_ := rpc; up_ := up; sink_ := sink;
     lastSig_ := lastSig_ n; trace_ := trace |}.

(** Assignments to members. *)
Definition set_plan_state (pos : nat) (st : Step) (n : HierNode) : HierNode :=
  {| id_ := id_ n; name_ := name_ n; layer_ := layer_ n; criticalToJob_ := criticalToJob_ n; plan_ := plan_ n;
     pos_ := pos; curState_ := st; ready_ := ready_ n; working_ := working_ n; ownFault_ := ownFault_ n;
     childReady_ := childReady_ n; childBlock_ := childBlock_ n; childBlocked_ := childBlocked_ n;
     blocking_ := blocking_ n; childIds_ := childIds_ n; rpc_ := rpc_ n; up_ := up_ n; sink_ := sink_ n;
     lastSig_ := lastSig_ n; trace_ := trace_ n |}.
Definition set_ready (b : bool) (st : Step) (n : HierNode) : HierNode :=
  {| id_ := id_ n; name_ := name_ n; layer_ := layer_ n; criticalToJob_ := criticalToJob_ n; plan_ := plan_ n;
     pos_ := pos_ n; curState_ := st; ready_ := b; working_ := working_ n; ownFault_ := ownFault_ n;
     childReady_ := childReady_ n; childBlock_ := childBlock_ n; childBlocked_ := childBlocked_ n;
     blocking_ := blocking_ n; childIds_ := childIds_ n; rpc_ := rpc_ n; up_ := up_ n; sink_ := sink_ n;
     lastSig_ := lastSig_ n; trace_ := trace_ n |}.
Definition set_working (b : bool) (st : Step) (n : HierNode) : HierNode :=
  {| id_ := id_ n; name_ := name_ n; layer_ := layer_ n; criticalToJob_ := criticalToJob_ n; plan_ := plan_ n;
     pos_ := pos_ n; curState_ := st; ready_ := ready_ n; working_ := b; ownFault_ := ownFault_ n;
     childReady_ := childReady_ n; childBlock_ := childBlock_ n; childBlocked_ := childBlocked_ n;
     blocking_ := blocking_ n; childIds_ := childIds_ n; rpc_ := rpc_ n; up_ := up_ n; sink_ := sink_ n;
     lastSig_ := lastSig_ n; trace_ := trace_ n |}.
Definition set_fault (f : FaultLevel) (n : HierNode) : HierNode :=
  {| id_ := id_ n; name_ := name_ n; layer_ := layer_ n; criticalToJob_ := criticalToJob_ n; plan_ := plan_ n;
     pos_ := pos_ n; curState_ := curState_ n; ready_ := ready_ n; working_ := working_ n; ownFault_ := f;
     childReady_ := childReady_ n; childBlock_ := childBlock_ n; childBlocked_ := childBlocked_ n;
     blocking_ := blocking_ n; childIds_ := childIds_ n; rpc_ := rpc_ n; up_ := up_ n; sink_ := sink_ n;
     lastSig_ := lastSig_ n; trace_ := trace_ n |}.
Definition set_child (c : Z) (r b : bool) (n : HierNode) : HierNode :=
  {| id_ := id_ n; name_ := name_ n; layer_ := layer_ n; criticalToJob_ := criticalToJob_ n; plan_ := plan_ n;
     pos_ := pos_ n; curState_ := curState_ n; ready_ := ready_ n; working_ := working_ n; ownFault_ := ownFault_ n;
     childReady_ := <[c := r]> (childReady_ n); childBlock_ := <[c := b]> (childBlock_ n);
     childBlocked_ := childBlocked_ n;
     blocking_ := blocking_ n; childIds_ := childIds_ n; rpc_ := rpc_ n; up_ := up_ n; sink_ := sink_ n;
     lastSig_ := lastSig_ n; trace_ := trace_ n |}.
Definition set_blocking (cb b : bool) (n : HierNode) : HierNode :=
  {| id_ := id_ n; name_ := name_ n; layer_ := layer_ n; criticalToJob_ := criticalToJob_ n; plan_ := plan_ n;
     pos_ := pos_ n; curState_ := curState_ n; ready_ := ready_ n; working_ := working_ n; ownFault_ := ownFault_ n;
     childReady_ := childReady_ n; childBlock_ := childBlock_ n; childBlocked_ := cb;
     blocking_ := b; childIds_ := childIds_ n; rpc_ := rpc_ n; up_ := up_ n; sink_ := sink_ n;
     lastSig_ := lastSig_ n; trace_ := trace_ n |}.
Definition set_signature (sig : Z) (n : HierNode) : HierNode :=
  {| id_ := id_ n; name_ := name_ n; layer_ := layer_ n; criticalToJob_ := criticalToJob_ n; plan_ := plan_ n;
     pos_ := pos_ n; curState_ := curState_ n; ready_ := ready_ n; working_ := working_ n; ownFault_ := ownFault_ n;
     childReady_ := childReady_ n; childBlock_ := childBlock_ n; childBlocked_ := childBlocked_ n;
     blocking_ := blocking_ n; childIds_ := childIds_ n; rpc_ := rpc_ n; up_ := up_ n; sink_ := sink_ n;
     lastSig_ := sig; trace_ := trace_ n |}.

(** Queries. *)
Definition inFault (n : HierNode) : bool := bool_decide (ownFault_ n ≠ NONE).
Definition isTop (n : HierNode) : bool := match up_ n with UpNull => true | _ => false end.
Definition composite (n : HierNode) : bool := bool_decide (childIds_ n ≠ []).
Definition allChildrenReady (n : HierNode) : bool :=
  forallb (λ i, match childReady_ n !! i with Some b => b | None => false end) (childIds_ n).

(** ** The store, and what leaves it *)
Inductive Output :=
  | OEvent (e : DomainEvent)          (* [sink_->publish(e)] *)
  | OTrace (r : ProcessReport)        (* [trace_(r)] *)
  | OController (r : ProcessReport).  (* [PlantController::report(r)] *)
Record NodeStore := mkStore { nodes_ : list (Z * HierNode); out : list Output }.
Definition empty_store : NodeStore := {| nodes_ := []; out := [] |}.
(** [add(node)] *)
Definition add (n : HierNode) (s : NodeStore) : NodeStore :=
  {| nodes_ := minsert (id_ n) n (nodes_ s); out := out s |}.
Definition at_ (i : Z) (s : NodeStore) : option HierNode := mfind i (nodes_ s).

Abbreviation Call := (M NodeStore).
(** A member access through [this], a node of the store. *)
Definition this (i : Z) : Call HierNode :=
  s ← get; match at_ i s with Some n => mret n | None => undef end.
Definition update (i : Z) (f : HierNode → HierNode) : Call unit :=
  modify (λ s, match at_ i s with
               | Some n => {| nodes_ := minsert i (f n) (nodes_ s); out := out s |}
               | None => s
               end).
Definition log (o : Output) : Call unit := modify (λ s, {| nodes_ := nodes_ s; out := out s ++ [o] |}).

(** ** [node.cpp] *)
Definition emit (i : Z) (k : EventKind) (from to : Z) (msg : string) : Call unit :=
  n ← this i;
  if sink_ n
  then log (OEvent {| kind := k; moduleId := id_ n; from := from; to := to;
                      line := bool_decide (layer_ n = 0)%Z; message := msg |})
  else mret tt.

Definition any_blocked (m : gmap Z bool) : bool := existsb (λ kv, kv.2) (map_to_list m).

Definition buildReport (n : HierNode) : ProcessReport :=
  {| origin := id_ n; r_layer := layer_ n; r_name := name_ n; r_step := curState_ n; r_fault := ownFault_ n;
     r_ready := ready_ n; r_blocking := blocking_ n; r_affectsProduction := blocking_ n;
     reason := if decide (ownFault_ n ≠ NONE)
               then impact_reason (decideProductionImpact (ownFault_ n) (criticalToJob_ n))
               else if childBlocked_ n then "由子节点故障逐级上报，影响生产" else "正常" |}.

Definition bit (b : bool) : Z := if b then 1 else 0.
Definition signature (r : ProcessReport) : Z :=
  Z.lor (Z.lor (Z.lor (Z.lor (Z.shiftl (step_value (r_step r)) 24) (Z.shiftl (fault_value (r_fault r)) 16))
    (Z.shiftl (bit (r_ready r)) 8)) (Z.shiftl (bit (r_affectsProduction r)) 4)) (bit (r_blocking r)).

(** The first half of [recomputeAndReport]. *)
Definition refresh (n : HierNode) : HierNode :=
  let childBlock := any_blocked (childBlock_ n) in
  let mine := decideProductionImpact (ownFault_ n) (criticalToJob_ n) in
  set_blocking childBlock (affectsProduction mine || childBlock) n.

(** [recomputeAndReport], with [publish] and the upstream's [report], which
    recomputes in turn. *)
Fixpoint recomputeAndReport (fuel : nat) (i : Z) : Call unit :=
  match fuel with
  | O => undef
  | S fuel' =>
      update i refresh ;;
      n ← this i;
      let r := buildReport n in
      let sig := signature r in
      if (sig =? lastSig_ n)%Z then mret tt
      else
        update i (set_signature sig) ;;
        when (trace_ n) (log (OTrace r)) ;;
        match up_ n with
        | UpNull => mret tt
        | UpController => log (OController r)
        | UpNode p =>
            this p ;;
            update p (set_child (origin r) (r_ready r) (r_blocking r)) ;;
            recomputeAndReport fuel' p
        end
  end.
(** Enough for a chain of distinct nodes. *)
Definition up_fuel (s : NodeStore) : nat := S (length (nodes_ s)).
Definition recompute (i : Z) : Call unit := s ← get; recomputeAndReport (up_fuel s) i.

Definition promote (n : HierNode) : HierNode :=
  match plan_ n !! pos_ n with
  | Some st => set_plan_state (S (pos_ n)) st n
  | None => n
  end.

(** [RpcRouter]: a command to a child, if the store has it. *)
Definition route (cmd : Z → Call unit) (c : Z) : Call unit :=
  s ← get; match at_ c s with Some _ => cmd c | None => mret tt end.

(** The tail of [advance]: the node's own plan. *)
Definition advance_self (i : Z) : Call unit :=
  n ← this i;
  let from := curState_ n in
  update i promote ;;
  n ← this i;
  when (bool_decide (curState_ n ≠ from))
    (emit i ModuleStateChanged (step_value from) (step_value (curState_ n)) "步进") ;;
  when (bool_decide (length (plan_ n) ≤ pos_ n) && negb (ready_ n))
    (update i (set_ready true READY) ;;
     emit i ModuleReady (step_value from) (step_value READY) "计划完成") ;;
  recompute i.
Fixpoint advance (fuel : nat) (i : Z) : Call unit :=
  match fuel with
  | O => undef
  | S fuel' =>
      n ← this i;
      if inFault n || blocking_ n then mret tt
      else if composite n && negb (allChildrenReady n)
      then when (rpc_ n) (for_each (route (advance fuel')) (childIds_ n))
      else advance_self i
  end.

Fixpoint startWork (fuel : nat) (i : Z) : Call unit :=
  match fuel with
  | O => undef
  | S fuel' =>
      n ← this i;
      if negb (ready_ n) || blocking_ n then mret tt
      else
        update i (set_working true WORK) ;;
        when (rpc_ n) (for_each (route (startWork fuel')) (childIds_ n)) ;;
        recompute i
  end.

Fixpoint finishWork (fuel : nat) (i : Z) : Call unit :=
  match fuel with
  | O => undef
  | S fuel' =>
      n ← this i;
      if negb (working_ n) then mret tt
      else
        update i (set_working false DONE) ;;
        when (rpc_ n) (for_each (route (finishWork fuel')) (childIds_ n)) ;;
        recompute i
  end.

Definition fail (sev : FaultLevel) (i : Z) : Call unit :=
  n ← this i;
  let wasFault := inFault n in
  let own := worstOf (ownFault_ n) sev in
  update i (set_fault own) ;;
  when (negb wasFault) (emit i Alarm (fault_value NONE) (fault_value own) "节点故障(逐级上报)") ;;
  recompute i.

Definition clearFault (i : Z) : Call unit :=
  n ← this i;
  if decide (ownFault_ n = NONE) then mret tt
  else
    update i (set_fault NONE) ;;
    emit i FaultCleared (fault_value BLOCKING) (fault_value NONE) "故障清除" ;;
    recompute i.

(** ** The commands a deployment receives, with the fuel of its size *)
Inductive command := CAdvance | CStart | CFinish | CFail (sev : FaultLevel) | CClear.
Definition command_on (c : command) (i : Z) : Call unit :=
  s ← get;
  match c with
  | CAdvance => advance (up_fuel s) i
  | CStart => startWork (up_fuel s) i
  | CFinish => finishWork (up_fuel s) i
  | CFail sev => fail sev i
  | CClear => clearFault i
  end.
