(* ===== verification/NodeFacts.v ===== *)
(** * Reports climb, faults escalate

    The invariant ties what a parent knows of a child to what the child last
    published; every command keeps it and ends, so that after any history a node
    is blocking exactly when it or a node below it has a fault that affects
    production. *)
From Stdlib Require Import Sorting.Sorted Bool.
From S2P Require Import Prelude StdMap HierNode.
Local Open Scope Z_scope.

(** ** The signature determines what is reported *)
Definition sigv (st : Step) (f : FaultLevel) (r b : bool) : Z :=
  step_value st * 2 ^ 24 + fault_value f * 2 ^ 16 + bit r * 2 ^ 8 + bit b * 2 ^ 4 + bit b.
Lemma signature_sigv n : signature (buildReport n) = sigv (curState_ n) (ownFault_ n) (ready_ n) (blocking_ n).
Proof.
  unfold signature, buildReport. cbn [r_step r_fault r_ready r_affectsProduction r_blocking].
  destruct (curState_ n), (ownFault_ n), (ready_ n), (blocking_ n); reflexivity.
Qed.
Lemma sigv_inj st f r b st' f' r' b' :
  sigv st f r b = sigv st' f' r' b' → st = st' ∧ f = f' ∧ r = r' ∧ b = b'.
Proof.
  assert (0 ≤ step_value st < 9 ∧ 0 ≤ step_value st' < 9) as [H1 H2] by (destruct st, st'; simpl; lia).
  assert (0 ≤ fault_value f < 3 ∧ 0 ≤ fault_value f' < 3) as [H3 H4] by (destruct f, f'; simpl; lia).
  intros E. assert (step_value st = step_value st' ∧ fault_value f = fault_value f' ∧ bit r = bit r' ∧ bit b = bit b') as (E1 & E2 & E3 & E4).
  { unfold sigv in E. destruct r, b, r', b'; simpl bit in *; lia. }
  split_and!; [by destruct st, st'|by destruct f, f'|by destruct r, r'|by destruct b, b'].
Qed.
Lemma sigv_not_initial st f r b : sigv st f r b ≠ no_signature.
Proof. destruct st, f, r, b; vm_compute; discriminate. Qed.

(** The deduplication drops no news: two reports of one node have the same
    signature only if step, fault, readiness and impact are all the same, and
    no report has the signature a node starts with. *)
Theorem signature_faithful n n' :
  signature (buildReport n) = signature (buildReport n') →
  (curState_ n = curState_ n' ∧ ownFault_ n = ownFault_ n' ∧ ready_ n = ready_ n' ∧
   blocking_ n = blocking_ n') ∧ signature (buildReport n) ≠ lastSig_ (new_HierNode 0 "" 0).
Proof.
  rewrite !signature_sigv. intros E%sigv_inj. split; [done|]. apply sigv_not_initial.
Qed.

(** ** The invariant, on the nodes as a function of their identifier *)
Abbreviation View := (Z → option HierNode).
Definition view (s : NodeStore) : View := λ i, at_ i s.
Definition put_node (i : Z) (n : HierNode) (v : View) : View := λ j, if decide (j = i) then Some n else v j.

Definition affects (n : HierNode) : bool :=
  affectsProduction (decideProductionImpact (ownFault_ n) (criticalToJob_ n)).
Definition accounted (n : HierNode) : Prop := blocking_ n = affects n || any_blocked (childBlock_ n).
(** What the upstream of node [i] knows is what [i] last published. *)
Definition known (v : View) (i : Z) (n : HierNode) (x : option (bool * bool)) : Prop :=
  ∀ p np, up_ n = UpNode p → v p = Some np →
    childReady_ np !! i = fst <$> x ∧ childBlock_ np !! i = snd <$> x.
Definition published (v : View) (i : Z) (n : HierNode) (r b : bool) : Prop :=
  (lastSig_ n = no_signature ∧ r = false ∧ b = false ∧ known v i n None) ∨
  (∃ st f, lastSig_ n = sigv st f r b ∧ known v i n (Some (r, b))).
Definition kids (v : View) (i : Z) (n : HierNode) : Prop :=
  ∀ c b, childBlock_ n !! c = Some b → ∃ nc, v c = Some nc ∧ up_ nc = UpNode i.
(** The node [x], if any, is being updated. *)
Definition inv (v : View) (x : option Z) : Prop :=
  ∀ i n, v i = Some n →
    (x ≠ Some i → accounted n) ∧
    (∃ r b, published v i n r b ∧ (x ≠ Some i → r = ready_ n ∧ b = blocking_ n)) ∧
    kids v i n.

Lemma inv_weaken v x : inv v None → inv v (Some x).
Proof.
  intros Hv i n Hi. destruct (Hv i n Hi) as (H1 & (r & b & H2 & H3) & H4).
  split; [by intros _; apply H1|]. split; [|done]. exists r, b. split; [done|]. by intros _; apply H3.
Qed.

(** Changing a node's own fields, but not what it published nor what it knows. *)
Record same_links (n n' : HierNode) : Prop := {
  sl_up : up_ n' = up_ n; sl_sig : lastSig_ n' = lastSig_ n;
  sl_ready : childReady_ n' = childReady_ n; sl_block : childBlock_ n' = childBlock_ n }.

Lemma known_same v j m m' i n n' x :
  v j = Some m → same_links m m' → up_ n' = up_ n → known v i n x → known (put_node j m' v) i n' x.
Proof.
  intros Hj [_ _ Hr Hb] Hup Hk p np Hp. unfold put_node. destruct (decide (p = j)) as [->|].
  - intros [= <-]. rewrite Hr, Hb. apply (Hk j m); [by rewrite <- Hup|done].
  - intros Hnp. apply (Hk p np); [by rewrite <- Hup|done].
Qed.

(** From one view to another. *)
Lemma kids_mono v v' i m :
  (∀ c nc, v c = Some nc → ∃ nc', v' c = Some nc' ∧ up_ nc' = up_ nc) → kids v i m → kids v' i m.
Proof.
  intros Hups Hk c b Hc. destruct (Hk c b Hc) as (nc & Hnc & Hupc).
  destruct (Hups c nc Hnc) as (nc' & Hnc' & Hu). exists nc'. by rewrite Hu.
Qed.
Lemma published_mono v v' i m m' r b :
  lastSig_ m' = lastSig_ m → (∀ y, known v i m y → known v' i m' y) → published v i m r b → published v' i m' r b.
Proof.
  intros Hs Hk [(H1 & H2 & H3 & H4)|(st & f & H1 & H2)].
  - left. rewrite Hs. split_and!; try done. by apply Hk.
  - right. exists st, f. rewrite Hs. split; [done|]. by apply Hk.
Qed.
Lemma published_same v j m m' i n n' r b :
  v j = Some m → same_links m m' → up_ n' = up_ n → lastSig_ n' = lastSig_ n →
  published v i n r b → published (put_node j m' v) i n' r b.
Proof.
  intros Hj Hs Hup Hsig. apply published_mono; [done|]. intros y. by eapply known_same.
Qed.

Lemma kids_same v j m m' i n n' :
  v j = Some m → same_links m m' → childBlock_ n' = childBlock_ n →
  kids v i n → kids (put_node j m' v) i n'.
Proof.
  intros Hj Hs Hb Hk. apply (kids_mono v); [|intros c b; rewrite Hb; apply Hk]. intros c nc Hnc.
  unfold put_node. destruct (decide (c = j)) as [->|]; [|by exists nc].
  exists m'. split; [done|]. rewrite (sl_up _ _ Hs). congruence.
Qed.

Lemma inv_own v x n n' :
  inv v (Some x) → v x = Some n → same_links n n' → inv (put_node x n' v) (Some x).
Proof.
  intros Hv Hx Hs i m. unfold put_node at 1. destruct (decide (i = x)) as [->|Hne].
  - intros [= <-]. destruct (Hv x n Hx) as (H1 & (r & b & H2 & H3) & H4).
    split; [by intros []|]. split; [|exact (kids_same v x n n' x n n' Hx Hs (sl_block _ _ Hs) H4)].
    exists r, b. split; [|by intros []].
    exact (published_same v x n n' x n n' r b Hx Hs (sl_up _ _ Hs) (sl_sig _ _ Hs) H2).
  - intros Hi. destruct (Hv i m Hi) as (H1 & (r & b & H2 & H3) & H4).
    split; [done|]. split; [|by eapply kids_same]. exists r, b. split; [|done]. by eapply published_same.
Qed.

(** A change that neither [accounted] nor a report of readiness or impact sees. *)
Lemma inv_silent v x n n' :
  inv v None → v x = Some n → same_links n n' →
  ready_ n' = ready_ n → blocking_ n' = blocking_ n → ownFault_ n' = ownFault_ n →
  criticalToJob_ n' = criticalToJob_ n → inv (put_node x n' v) None.
Proof.
  intros Hv Hx Hs Hr Hb Ho Hc i m. unfold put_node at 1. destruct (decide (i = x)) as [->|Hne].
  - intros [= <-]. destruct (Hv x n Hx) as (H1 & (r & b & H2 & H3) & H4). split.
    { intros _. unfold accounted, affects. rewrite Hb, Ho, Hc, (sl_block _ _ Hs). by apply H1. }
    split; [|exact (kids_same v x n n' x n n' Hx Hs (sl_block _ _ Hs) H4)].
    exists r, b. split; [|intros _; rewrite Hr, Hb; by apply H3].
    exact (published_same v x n n' x n n' r b Hx Hs (sl_up _ _ Hs) (sl_sig _ _ Hs) H2).
  - intros Hi. destruct (Hv i m Hi) as (H1 & (r & b & H2 & H3) & H4).
    split; [done|]. split; [|by eapply kids_same]. exists r, b. split; [|done]. by eapply published_same.
Qed.

(** The report would repeat the last one. *)
Lemma inv_close v x n :
  inv v (Some x) → v x = Some n → accounted n → signature (buildReport n) = lastSig_ n → inv v None.
Proof.
  intros Hv Hx Ha Hsig i m Hi. destruct (Hv i m Hi) as (H1 & (r & b & H2 & H3) & H4).
  destruct (decide (i = x)) as [->|Hne].
  - rewrite Hx in Hi. injection Hi as <-. split; [done|]. split; [|done]. exists r, b. split; [done|].
    intros _. rewrite signature_sigv in Hsig. destruct H2 as [(H2 & _)|(st & f & H2 & _)].
    + rewrite H2 in Hsig. by apply sigv_not_initial in Hsig.
    + rewrite H2 in Hsig. by apply sigv_inj in Hsig as (_ & _ & -> & ->).
  - split; [intros _; apply H1; congruence|]. split; [|done]. exists r, b. split; [done|].
    intros _. apply H3. congruence.
Qed.

(** The node has no node above it. *)
Lemma inv_publish_top v x n :
  inv v (Some x) → v x = Some n → accounted n → (∀ p, up_ n ≠ UpNode p) →
  inv (put_node x (set_signature (signature (buildReport n)) n) v) None.
Proof.
  intros Hv Hx Ha Htop. set (n' := set_signature _ n).
  assert (∀ i m r b, i ≠ x → v i = Some m → published v i m r b → published (put_node x n' v) i m r b) as Hpub.
  { intros i m r b Hne Hi. apply published_mono; [done|].
    intros y Hk p np Hup. unfold put_node. destruct (decide (p = x)) as [->|]; [|by apply Hk].
    intros [= <-]. by apply (Hk x n). }
  assert (∀ i m, kids v i m → kids (put_node x n' v) i m) as Hkids.
  { intros i m. apply kids_mono. intros c nc Hc. unfold put_node.
    destruct (decide (c = x)) as [->|]; [|by exists nc]. exists n'. split; [done|]. simpl. congruence. }
  intros i m. unfold put_node at 1. destruct (decide (i = x)) as [->|Hne].
  - intros [= <-]. destruct (Hv x n Hx) as (_ & _ & H4). split; [done|]. split; [|by apply Hkids].
    exists (ready_ n), (blocking_ n). split; [|done]. right. exists (curState_ n), (ownFault_ n).
    split; [by rewrite <- signature_sigv|]. intros p np Hup. by destruct (Htop p).
  - intros Hi. destruct (Hv i m Hi) as (H1 & (r & b & H2 & H3) & H4).
    split; [intros _; apply H1; congruence|]. split; [|by apply Hkids].
    exists r, b. split; [by apply Hpub|]. intros _. apply H3. congruence.
Qed.

(** The node reports to node [p], which is then the one being updated. *)
Lemma inv_publish_up v x n p np :
  inv v (Some x) → v x = Some n → accounted n → up_ n = UpNode p → v p = Some np → p ≠ x →
  inv (put_node p (set_child x (ready_ n) (blocking_ n) np)
        (put_node x (set_signature (signature (buildReport n)) n) v)) (Some p).
Proof.
  intros Hv Hx Ha Hup Hp Hne. set (n' := set_signature _ n). set (np' := set_child _ _ _ np).
  set (v' := put_node p np' (put_node x n' v)).
  assert (v' x = Some n') as Hx'.
  { unfold v', put_node. rewrite decide_False by done. by rewrite decide_True. }
  assert (v' p = Some np') as Hp' by (unfold v', put_node; by rewrite decide_True).
  assert (∀ i, i ≠ x → i ≠ p → v' i = v i) as Hother.
  { intros i H1 H2. unfold v', put_node. by rewrite !decide_False. }
  assert (∀ i m y, i ≠ x → v i = Some m → known v i m y → known v' i m y) as Hknown.
  { intros i m y Hix Hi Hk q nq Hq Hnq. destruct (decide (q = p)) as [->|].
    - rewrite Hp' in Hnq. injection Hnq as <-. simpl. rewrite !lookup_insert_ne by done. by apply (Hk p np).
    - destruct (decide (q = x)) as [->|].
      + rewrite Hx' in Hnq. injection Hnq as <-. by apply (Hk x n).
      + rewrite Hother in Hnq by done. by apply (Hk q nq). }
  assert (∀ i m m' r b, i ≠ x → v i = Some m → up_ m' = up_ m → lastSig_ m' = lastSig_ m →
    published v i m r b → published v' i m' r b) as Hpub.
  { intros i m m' r b Hix Hi Hu Hs. apply published_mono; [done|].
    intros y Hk q nq. rewrite Hu. by apply (Hknown i m y). }
  assert (∀ i m, kids v i m → kids v' i m) as Hkids.
  { intros i m. apply kids_mono. intros c nc Hc. destruct (decide (c = p)) as [->|]; [exists np'; rewrite Hp in Hc; by injection Hc as <-|].
    destruct (decide (c = x)) as [->|]; [exists n'; rewrite Hx in Hc; by injection Hc as <-|].
    exists nc. by rewrite Hother. }
  intros i m Hi. destruct (decide (i = p)) as [->|Hip].
  - rewrite Hp' in Hi. injection Hi as <-. destruct (Hv p np Hp) as (H1 & (r & b & H2 & H3) & H4).
    split; [by intros []|]. split.
    + exists r, b. split; [by eapply Hpub|]. by intros [].
    + intros c b'. simpl. destruct (decide (c = x)) as [->|Hcx].
      * intros _. exists n'. done.
      * rewrite lookup_insert_ne by done. apply (Hkids p np H4).
  - destruct (decide (i = x)) as [->|Hix].
    + rewrite Hx' in Hi. injection Hi as <-. destruct (Hv x n Hx) as (_ & _ & H4).
      split; [done|]. split; [|by apply Hkids]. exists (ready_ n), (blocking_ n). split; [|done].
      right. exists (curState_ n), (ownFault_ n). split; [by rewrite <- signature_sigv|].
      intros q nq Hq Hnq. simpl in Hq. rewrite Hup in Hq. injection Hq as <-.
      rewrite Hp' in Hnq. injection Hnq as <-. simpl. by rewrite !lookup_insert_eq.
    + rewrite Hother in Hi by done. destruct (Hv i m Hi) as (H1 & (r & b & H2 & H3) & H4).
      split; [intros _; apply H1; congruence|]. split; [|by apply Hkids].
      exists r, b. split; [by eapply Hpub|]. intros _. apply H3. congruence.
Qed.

(** ** Well-formed deployments *)
Definition static (n : HierNode) : Z * Upstream * list Z * bool := (id_ n, up_ n, childIds_ n, criticalToJob_ n).
(** The ports follow a tree: [rank] is the layer, upstream smaller, children
    larger, and the layers are fewer than the nodes. *)
Record wf (s0 : NodeStore) (rank : Z → nat) : Prop := {
  wf_sorted : msorted (nodes_ s0);
  wf_id i n : at_ i s0 = Some n → id_ n = i;
  wf_up i n p : at_ i s0 = Some n → up_ n = UpNode p → is_Some (at_ p s0) ∧ (rank p < rank i)%nat;
  wf_down i n c : at_ i s0 = Some n → c ∈ childIds_ n → is_Some (at_ c s0) → (rank i < rank c)%nat;
  wf_bound i n : at_ i s0 = Some n → (rank i < length (nodes_ s0))%nat
}.

Definition put_store (i : Z) (n : HierNode) (s : NodeStore) : NodeStore :=
  {| nodes_ := minsert i n (nodes_ s); out := out s |}.
Lemma node_this_bind {A} i n (k : HierNode → Call A) s : at_ i s = Some n → (this i ≫= k) s = k n s.
Proof. intros Hi. unfold this. autorewrite with monad. by rewrite Hi. Qed.
Lemma update_bind {A} i n f (k : unit → Call A) s :
  at_ i s = Some n → (update i f ≫= k) s = k tt (put_store i (f n) s).
Proof. intros Hi. unfold update. autorewrite with monad. by rewrite Hi. Qed.
Lemma at_put i n s j : at_ j (put_store i n s) = put_node i n (view s) j.
Proof.
  unfold at_, put_store, put_node, view. simpl. destruct (decide (j = i)) as [->|].
  - apply mfind_minsert_eq.
  - by apply mfind_minsert_ne.
Qed.
Lemma at_put_eq i n s : at_ i (put_store i n s) = Some n.
Proof. rewrite at_put. unfold put_node. by rewrite decide_True. Qed.
Lemma at_put_ne i n s j : j ≠ i → at_ j (put_store i n s) = at_ j s.
Proof. intros. rewrite at_put. unfold put_node. by rewrite decide_False. Qed.
Lemma inv_ext v v' x : (∀ i, v' i = v i) → inv v x → inv v' x.
Proof.
  intros Hvv Hv i n Hi. rewrite Hvv in Hi. destruct (Hv i n Hi) as (H1 & (r & b & H2 & H3) & H4).
  assert (∀ y, known v i n y → known v' i n y) as Hk.
  { intros y Hk p np Hp Hnp. rewrite Hvv in Hnp. by apply (Hk p np). }
  split; [done|]. split.
  - exists r, b. split; [|done]. destruct H2 as [(?&?&?&?)|(st & f & ? & ?)]; [left|right; exists st, f]; auto.
  - intros c b' Hc. destruct (H4 c b' Hc) as (nc & Hnc & Hup). exists nc. by rewrite Hvv.
Qed.
Lemma inv_put s i n x : inv (put_node i n (view s)) x → inv (view (put_store i n s)) x.
Proof. apply inv_ext. intros j. apply at_put. Qed.

Section deployment.
Context (s0 : NodeStore) (rank : Z → nat) (Hwf : wf s0 rank).

(** The wiring of [s] is the one of [s0]. *)
Record framed (s : NodeStore) : Prop := {
  fr_static i : static <$> at_ i s = static <$> at_ i s0;
  fr_length : length (nodes_ s) = length (nodes_ s0);
  fr_sorted : msorted (nodes_ s)
}.
Lemma framed_refl : framed s0.
Proof. split; [done..|]. apply Hwf. Qed.
Lemma framed_put s i n n' : framed s → at_ i s = Some n → static n' = static n → framed (put_store i n' s).
Proof.
  intros [H1 H2 H3] Hi Hst. split.
  - intros j. rewrite <- H1. destruct (decide (j = i)) as [->|Hne].
    + by rewrite at_put_eq, Hi; simpl; rewrite Hst.
    + by rewrite at_put_ne.
  - simpl. rewrite <- H2. by eapply minsert_length.
  - by apply minsert_sorted.
Qed.
Lemma framed_at s i n : framed s → at_ i s = Some n →
  ∃ n0, at_ i s0 = Some n0 ∧ static n = static n0.
Proof.
  intros Hf Hi. pose proof (fr_static s Hf i) as H. rewrite Hi in H.
  destruct (at_ i s0) as [n0|]; simpl in H; [|done]. injection H as H1 H2 H3 H4. exists n0.
  split; [done|]. unfold static. congruence.
Qed.
Lemma framed_some s i : framed s → is_Some (at_ i s0) → is_Some (at_ i s).
Proof.
  intros Hf [n0 Hi]. pose proof (fr_static s Hf i) as H. rewrite Hi in H.
  destruct (at_ i s); [by eexists|done].
Qed.
Lemma framed_id s i n : framed s → at_ i s = Some n → id_ n = i.
Proof.
  intros Hf Hi. destruct (framed_at s i n Hf Hi) as (n0 & Hn0 & Hst).
  rewrite <- (wf_id _ _ Hwf i n0 Hn0). unfold static in Hst. congruence.
Qed.
Lemma framed_up s i n p : framed s → at_ i s = Some n → up_ n = UpNode p →
  is_Some (at_ p s) ∧ (rank p < rank i)%nat.
Proof.
  intros Hf Hi Hp. destruct (framed_at s i n Hf Hi) as (n0 & Hn0 & Hst).
  destruct (wf_up _ _ Hwf i n0 p Hn0) as [H1 H2]; [unfold static in Hst; congruence|].
  split; [by apply framed_some|done].
Qed.
Lemma framed_log s o : framed s → framed {| nodes_ := nodes_ s; out := out s ++ [o] |}.
Proof. by intros [H1 H2 H3]. Qed.

Lemma refresh_spec n : static (refresh n) = static n ∧ same_links n (refresh n) ∧ accounted (refresh n).
Proof. by split_and!. Qed.

Lemma recompute_total fuel x s n :
  framed s → at_ x s = Some n → (rank x < fuel)%nat → inv (view s) (Some x) →
  ∃ s', recomputeAndReport fuel x s = (Ret tt, s') ∧ framed s' ∧ inv (view s') None.
Proof.
  revert x s n. induction fuel as [|fuel IH]; intros x s n Hf Hx Hfuel Hinv; [lia|].
  cbn [recomputeAndReport]. rewrite (update_bind x n) by done. set (s1 := put_store x (refresh n) s).
  destruct (refresh_spec n) as (Hst & Hlinks & Hacc).
  assert (framed s1) as Hf1 by by eapply framed_put.
  assert (at_ x s1 = Some (refresh n)) as Hx1 by apply at_put_eq.
  assert (inv (view s1) (Some x)) as Hinv1 by by apply inv_put; eapply inv_own.
  rewrite (node_this_bind x (refresh n)) by done. set (n1 := refresh n) in *.
  destruct (signature (buildReport n1) =? lastSig_ n1) eqn:Hsig.
  { exists s1. split; [done|]. split; [done|]. eapply inv_close; [done..|]. by apply Z.eqb_eq. }
  rewrite (update_bind x n1) by done. set (s2 := put_store x (set_signature (signature (buildReport n1)) n1) s1). set (n2 := set_signature (signature (buildReport n1)) n1).
  assert (framed s2) as Hf2 by by eapply framed_put.
  assert (∃ s3, (when (trace_ n1) (log (OTrace (buildReport n1)))) s2 = (Ret tt, s3) ∧ framed s3 ∧ ∀ i, at_ i s3 = at_ i s2)
    as (s3 & Hrun & Hf3 & Hv3).
  { destruct (trace_ n1); eexists; split; try done. split; [by apply framed_log|done]. }
  rewrite (M_bind_ret _ _ _ _ _ Hrun).
  destruct (up_ n1) as [|p|] eqn:Hup.
  - exists s3. split; [done|]. split; [done|]. apply (inv_ext (view s2)); [exact Hv3|].
    apply inv_put, inv_publish_top; try done. intros p. congruence.
  - destruct (framed_up s1 x n1 p Hf1 Hx1 Hup) as [[np Hp] Hrank].
    assert (p ≠ x) as Hpx by (intros ->; lia).
    assert (at_ p s3 = Some np) as Hp3 by (rewrite Hv3; unfold s2; by rewrite at_put_ne).
    rewrite (node_this_bind p np), (update_bind p np) by done. cbn [origin r_ready r_blocking buildReport].
    rewrite (framed_id s1 x n1) by done.
    eapply IH; [by eapply framed_put|apply at_put_eq|lia|].
    apply inv_put. apply (inv_ext (put_node p (set_child x (ready_ n1) (blocking_ n1) np) (view s2))).
    { intros i. unfold put_node, view. by rewrite Hv3. }
    apply (inv_ext (put_node p (set_child x (ready_ n1) (blocking_ n1) np) (put_node x n2 (view s1)))).
    { intros i. unfold put_node. destruct (decide (i = p)); [done|]. unfold view at 1. apply at_put. }
    by apply inv_publish_up.
  - eexists. split; [reflexivity|]. split; [by apply framed_log|].
    apply (inv_ext (view s2)); [exact Hv3|].
    apply inv_put, inv_publish_top; try done. intros p. congruence.
Qed.

(** ** Every command ends and keeps the invariant *)
Definition good (s : NodeStore) : Prop := framed s ∧ inv (view s) None.
Definition returns (m : Call unit) (s : NodeStore) (P : NodeStore → Prop) : Prop :=
  ∃ s', m s = (Ret tt, s') ∧ P s'.

Lemma run_bind m k s (P Q : NodeStore → Prop) :
  returns m s P → (∀ s', P s' → returns (k tt) s' Q) → returns (m ≫= k) s Q.
Proof.
  intros (s1 & Hm & HP) Hk. destruct (Hk s1 HP) as (s2 & Hk2 & HQ). exists s2.
  split; [|done]. by rewrite (M_bind_ret _ _ _ _ _ Hm).
Qed.
Lemma run_for_each {A} (body : A → Call unit) (xs : list A) s (P : NodeStore → Prop) :
  (∀ x s, x ∈ xs → P s → returns (body x) s P) → P s → returns (for_each body xs) s P.
Proof.
  revert s. induction xs as [|x xs IH]; intros s Hb Hs; simpl; [by exists s|].
  apply (run_bind _ _ _ P); [apply Hb; [by left|done]|]. intros s' Hs'. apply IH; [|done].
  intros y s1 Hy. apply Hb. by right.
Qed.

(** The nodes are those of [s]. *)
Definition like (s s' : NodeStore) : Prop := framed s' ∧ ∀ j, at_ j s' = at_ j s.
Lemma emit_returns i n k a b msg s :
  framed s → at_ i s = Some n → returns (emit i k a b msg) s (like s).
Proof.
  intros Hf Hi. unfold emit, returns. rewrite (node_this_bind i n) by done.
  destruct (sink_ n); eexists; (split; [reflexivity|]); split; try done. by apply framed_log.
Qed.
Lemma when_emit_returns c i n k a b msg s :
  framed s → at_ i s = Some n → returns (when c (emit i k a b msg)) s (like s).
Proof. destruct c; [by apply emit_returns|]. intros. by exists s. Qed.

Lemma recompute_returns i n s :
  framed s → at_ i s = Some n → inv (view s) (Some i) → returns (recompute i) s good.
Proof.
  intros Hf Hi Hinv. unfold recompute, returns. autorewrite with monad. unfold up_fuel.
  apply (recompute_total _ i s n); try done. rewrite (fr_length s Hf).
  destruct (framed_at s i n Hf Hi) as (n0 & Hn0 & _). pose proof (wf_bound _ _ Hwf i n0 Hn0). lia.
Qed.

(** Changing the node itself, then recomputing. *)
Lemma update_inv i n f s :
  framed s → at_ i s = Some n → inv (view s) (Some i) → static (f n) = static n → same_links n (f n) →
  framed (put_store i (f n) s) ∧ inv (view (put_store i (f n) s)) (Some i).
Proof.
  intros Hf Hi Hinv Hst Hl. split; [by eapply framed_put|]. apply inv_put. by eapply inv_own.
Qed.

Lemma promote_frame n : static (promote n) = static n ∧ same_links n (promote n).
Proof. unfold promote. by destruct (plan_ n !! pos_ n). Qed.

Lemma advance_self_returns i n s :
  good s → at_ i s = Some n → returns (advance_self i) s good.
Proof.
  intros [Hf Hinv] Hi. unfold advance_self, returns. rewrite (node_this_bind i n), (update_bind i n) by done.
  destruct (promote_frame n) as [Hst Hl].
  destruct (update_inv i n promote s Hf Hi (inv_weaken _ _ Hinv) Hst Hl) as [Hf1 Hinv1].
  set (s1 := put_store i (promote n) s) in *. set (n1 := promote n) in *.
  assert (at_ i s1 = Some n1) as Hi1 by apply at_put_eq. rewrite (node_this_bind i n1) by done.
  eapply run_bind; [by apply (when_emit_returns _ i n1)|]. intros s2 [Hf2 Hv2].
  assert (at_ i s2 = Some n1) as Hi2 by by rewrite Hv2.
  assert (inv (view s2) (Some i)) as Hinv2 by by apply (inv_ext (view s1)).
  apply (run_bind _ _ _ (λ s', framed s' ∧ inv (view s') (Some i) ∧ is_Some (at_ i s'))).
  - destruct (bool_decide _ && negb (ready_ n1)); [|by exists s2]. cbn [when].
    unfold returns. rewrite (update_bind i n1) by done.
    destruct (update_inv i n1 (set_ready true READY) s2 Hf2 Hi2 Hinv2) as [Hf3 Hinv3]; [done..|].
    destruct (emit_returns i (set_ready true READY n1) ModuleReady (step_value (curState_ n)) (step_value READY)
      "计划完成" (put_store i (set_ready true READY n1) s2) Hf3 (at_put_eq _ _ _)) as (s4 & Hrun & Hf4 & Hv4).
    exists s4. split; [done|]. split; [done|]. split; [|rewrite Hv4, at_put_eq; by eexists].
    apply (inv_ext (view (put_store i (set_ready true READY n1) s2))); [exact Hv4|done].
  - intros s3 (Hf3 & Hinv3 & [n3 Hi3]). by eapply recompute_returns.
Qed.

Lemma route_returns cmd c s :
  (∀ s n, good s → at_ c s = Some n → returns (cmd c) s good) → good s → returns (route cmd c) s good.
Proof.
  intros Hc Hs. unfold route, returns. autorewrite with monad.
  destruct (at_ c s) as [n|] eqn:E; [by eapply Hc|]. by exists s.
Qed.

(** A command that descends to the children. *)
Lemma children_return cmd i n s (b : bool) :
  good s → at_ i s = Some n →
  (∀ c s n', (rank i < rank c)%nat → good s → at_ c s = Some n' → returns (cmd c) s good) →
  returns (when b (for_each (route cmd) (childIds_ n))) s good.
Proof.
  intros Hs Hi Hc. destruct b; [|by exists s]. apply run_for_each; [|done].
  intros c s' Hin Hs'. apply route_returns; [|done]. intros s'' n' Hs'' Hn'.
  apply (Hc c s'' n'); [|done..]. destruct (framed_at s i n (proj1 Hs) Hi) as (n0 & Hn0 & Hst).
  apply (wf_down _ _ Hwf i n0 c Hn0).
  - unfold static in Hst. by injection Hst as _ _ <- _.
  - destruct (framed_at s'' c n' (proj1 Hs'') Hn') as (nc & Hnc & _). by eexists.
Qed.

Lemma descend_fuel {fuel i s n} :
  framed s → at_ i s = Some n → (length (nodes_ s0) < fuel + rank i)%nat → ∃ f, fuel = S f.
Proof.
  intros Hf Hi Hlt. destruct (framed_at s i n Hf Hi) as (n0 & Hn0 & _).
  pose proof (wf_bound _ _ Hwf i n0 Hn0). destruct fuel as [|f]; [lia|by exists f].
Qed.

Lemma advance_returns fuel i n s :
  good s → at_ i s = Some n → (length (nodes_ s0) < fuel + rank i)%nat → returns (advance fuel i) s good.
Proof.
  revert i n s. induction fuel as [|fuel IH]; intros i n s Hs Hi Hlt.
  { by destruct (descend_fuel (proj1 Hs) Hi Hlt). }
  unfold returns. cbn [advance]. rewrite (node_this_bind i n) by done.
  destruct (inFault n || blocking_ n); [by exists s|].
  destruct (composite n && negb (allChildrenReady n)); [|by eapply advance_self_returns].
  apply (children_return (advance fuel) i n); try done. intros c s' n' Hr Hs' Hn'. apply (IH c n'); [done..|lia].
Qed.

Lemma startWork_returns fuel i n s :
  good s → at_ i s = Some n → (length (nodes_ s0) < fuel + rank i)%nat → returns (startWork fuel i) s good.
Proof.
  revert i n s. induction fuel as [|fuel IH]; intros i n s Hs Hi Hlt.
  { by destruct (descend_fuel (proj1 Hs) Hi Hlt). }
  unfold returns. cbn [startWork]. rewrite (node_this_bind i n) by done.
  destruct (negb (ready_ n) || blocking_ n); [by exists s|]. rewrite (update_bind i n) by done.
  set (n1 := set_working true WORK n). set (s1 := put_store i n1 s).
  assert (good s1) as Hs1.
  { split; [by eapply framed_put; [apply Hs|..]|]. apply inv_put. eapply inv_silent; [apply Hs|by apply Hi|done..]. }
  apply (run_bind _ _ _ good).
  - change (childIds_ n) with (childIds_ n1). apply (children_return (startWork fuel) i n1); [done|apply at_put_eq|].
    intros c s' n' Hr Hs' Hn'. apply (IH c n'); [done..|lia].
  - intros s2 [Hf2 Hinv2]. destruct (framed_some s2 i Hf2) as [n2 Hn2].
    { destruct (framed_at s i n (proj1 Hs) Hi) as (n0 & Hn0 & _). by eexists. }
    apply (recompute_returns i n2); [done..|by apply inv_weaken].
Qed.

Lemma finishWork_returns fuel i n s :
  good s → at_ i s = Some n → (length (nodes_ s0) < fuel + rank i)%nat → returns (finishWork fuel i) s good.
Proof.
  revert i n s. induction fuel as [|fuel IH]; intros i n s Hs Hi Hlt.
  { by destruct (descend_fuel (proj1 Hs) Hi Hlt). }
  unfold returns. cbn [finishWork]. rewrite (node_this_bind i n) by done.
  destruct (negb (working_ n)); [by exists s|]. rewrite (update_bind i n) by done.
  set (n1 := set_working false DONE n). set (s1 := put_store i n1 s).
  assert (good s1) as Hs1.
  { split; [by eapply framed_put; [apply Hs|..]|]. apply inv_put. eapply inv_silent; [apply Hs|by apply Hi|done..]. }
  apply (run_bind _ _ _ good).
  - change (childIds_ n) with (childIds_ n1). apply (children_return (finishWork fuel) i n1); [done|apply at_put_eq|].
    intros c s' n' Hr Hs' Hn'. apply (IH c n'); [done..|lia].
  - intros s2 [Hf2 Hinv2]. destruct (framed_some s2 i Hf2) as [n2 Hn2].
    { destruct (framed_at s i n (proj1 Hs) Hi) as (n0 & Hn0 & _). by eexists. }
    apply (recompute_returns i n2); [done..|by apply inv_weaken].
Qed.

Lemma set_fault_returns i n f (m : Call unit) s :
  good s → at_ i s = Some n →
  (∀ s', framed s' → at_ i s' = Some (set_fault f n) → returns m s' (like s')) →
  returns (update i (set_fault f) ;; m ;; recompute i) s good.
Proof.
  intros [Hf Hinv] Hi Hm. unfold returns. rewrite (update_bind i n) by done.
  destruct (update_inv i n (set_fault f) s Hf Hi (inv_weaken _ _ Hinv)) as [Hf1 Hinv1]; [done..|].
  eapply run_bind; [apply Hm; [done|apply at_put_eq]|]. intros s2 [Hf2 Hv2].
  eapply (recompute_returns i); [done|rewrite Hv2; apply at_put_eq|].
  apply (inv_ext (view (put_store i (set_fault f n) s))); [exact Hv2|done].
Qed.

Lemma command_returns c i n s : good s → at_ i s = Some n → returns (command_on c i) s good.
Proof.
  intros Hs Hi. unfold command_on, returns. autorewrite with monad.
  assert (length (nodes_ s0) < up_fuel s + rank i)%nat as Hfuel.
  { unfold up_fuel. rewrite (fr_length s (proj1 Hs)). lia. }
  destruct c.
  - by eapply advance_returns.
  - by eapply startWork_returns.
  - by eapply finishWork_returns.
  - unfold fail. rewrite (node_this_bind i n) by done. eapply set_fault_returns; [done..|].
    intros s' Hf' Hi'. by eapply when_emit_returns.
  - unfold clearFault. rewrite (node_this_bind i n) by done. case_decide; [by exists s|].
    eapply set_fault_returns; [done..|]. intros s' Hf' Hi'. by eapply emit_returns.
Qed.
End deployment.

(** ** Escalation *)
(** Node [i] or a node below it has a fault that affects production. *)
Inductive affected (v : View) : Z → Prop :=
  | aff_own i n : v i = Some n → affects n = true → affected v i
  | aff_below i c nc : v c = Some nc → up_ nc = UpNode i → affected v c → affected v i.

Definition fresh (s : NodeStore) : Prop :=
  ∀ i n, at_ i s = Some n →
    lastSig_ n = no_signature ∧ ready_ n = false ∧ blocking_ n = false ∧ ownFault_ n = NONE ∧
    childReady_ n = ∅ ∧ childBlock_ n = ∅.
Definition run_commands (cs : list (command * Z)) : Call unit :=
  for_each (λ ci, command_on ci.1 ci.2) cs.

Lemma any_blocked_spec m : any_blocked m = true ↔ ∃ c, m !! c = Some true.
Proof.
  unfold any_blocked. rewrite existsb_exists. split.
  - intros ([c b] & Hin & Hb). simpl in Hb. subst b. exists c. by apply elem_of_map_to_list, list_elem_of_In.
  - intros [c Hc]. exists (c, true). split; [|done]. by apply list_elem_of_In, elem_of_map_to_list.
Qed.

Lemma fresh_inv s : fresh s → inv (view s) None.
Proof.
  intros Hf i n Hi. destruct (Hf i n Hi) as (H1 & H2 & H3 & H4 & H5 & H6). split_and!.
  - intros _. unfold accounted, affects. by rewrite H3, H4, H6.
  - exists false, false. split; [|done]. left. split_and!; try done. intros p np _ Hp.
    destruct (Hf p np Hp) as (_ & _ & _ & _ & -> & ->). by rewrite !lookup_empty.
  - intros c b. by rewrite H6, lookup_empty.
Qed.

Section escalation.
Context (s0 : NodeStore) (rank : Z → nat) (Hwf : wf s0 rank).

Lemma affected_blocking s i : good s0 s → affected (view s) i → ∃ n, at_ i s = Some n ∧ blocking_ n = true.
Proof.
  intros [Hf Hinv] Ha. induction Ha as [i n Hi Haff|i c nc Hc Hup Ha IH].
  - exists n. split; [done|]. destruct (Hinv i n Hi) as (Hacc & _). rewrite Hacc by done. by rewrite Haff.
  - destruct IH as (nc' & Hnc & Hb). change (at_ c s = Some nc) in Hc. rewrite Hc in Hnc. injection Hnc as <-.
    destruct (framed_up s0 rank Hwf s c nc i Hf Hc Hup) as [[n Hi] _]. exists n. split; [done|].
    destruct (Hinv c nc Hc) as (_ & (r & b & Hpub & Heq) & _). destruct Heq as [-> ->]; [done|].
    destruct (Hinv i n Hi) as (Hacc & _). rewrite Hacc by done. apply orb_true_intro. right.
    apply any_blocked_spec. exists c.
    destruct Hpub as [(_ & _ & Hfalse & _)|(st & f & _ & Hk)]; [congruence|].
    destruct (Hk i n Hup Hi) as [_ ->]. simpl. by rewrite Hb.
Qed.

Lemma blocking_affected k s i n :
  good s0 s → at_ i s = Some n → (length (nodes_ s0) ≤ k + rank i)%nat → blocking_ n = true → affected (view s) i.
Proof.
  intros [Hf Hinv]. revert i n. induction k as [|k IH]; intros i n Hi Hk Hb;
    destruct (framed_at s0 s i n Hf Hi) as (n0 & Hn0 & _); pose proof (wf_bound _ _ Hwf i n0 Hn0); [lia|].
  destruct (Hinv i n Hi) as (Hacc & _ & Hkids). rewrite Hacc in Hb by done.
  apply orb_prop in Hb as [Hown|Hbelow]; [by eapply aff_own|].
  apply any_blocked_spec in Hbelow as [c Hc]. destruct (Hkids c true Hc) as (nc & Hnc & Hup).
  destruct (framed_up s0 rank Hwf s c nc i Hf Hnc Hup) as [_ Hr].
  eapply aff_below; [done..|]. apply (IH c nc); [done|lia|].
  destruct (Hinv c nc Hnc) as (_ & (r & b & Hpub & Heq) & _). destruct Heq as [-> ->]; [done|].
  destruct Hpub as [(_ & _ & _ & Hk0)|(st & f & _ & Hk0)]; destruct (Hk0 i n Hup Hi) as [_ Hcb];
    rewrite Hc in Hcb; simpl in Hcb; congruence.
Qed.

(** C20: whatever commands a freshly wired tree receives, every command returns,
    and afterwards a node is blocking exactly when it or a node below it has a
    fault that affects production. *)
Theorem escalation_exact cs :
  fresh s0 → (∀ c i, (c, i) ∈ cs → is_Some (at_ i s0)) →
  ∃ s, run_commands cs s0 = (Ret tt, s) ∧
    ∀ i n, at_ i s = Some n → (blocking_ n = true ↔ affected (view s) i).
Proof.
  intros Hfresh Hcs. assert (good s0 s0) as Hgood by (split; [by eapply framed_refl|by apply fresh_inv]).
  destruct (run_for_each (λ ci, command_on ci.1 ci.2) cs s0 (good s0)) as (s & Hrun & Hs); [|done|].
  - intros [c i] s Hin Hs. destruct (framed_some s0 s i (proj1 Hs) (Hcs c i Hin)) as [n Hn].
    by eapply command_returns.
  - exists s. split; [done|]. intros i n Hi. split.
    + intros Hb. apply (blocking_affected (length (nodes_ s0)) s i n); [done..|lia|done].
    + intros Ha. destruct (affected_blocking s i Hs Ha) as (n' & Hn' & Hb). congruence.
Qed.
End escalation.
