(* ===== verification/NodeReady.v ===== *)
(** * A wired tree gets ready, and then works

    While no node has a fault, every [advance] of a node that is not ready brings
    some node of the tree nearer to the end of its plan; a node is ready only
    above ready nodes; and a start that reaches a ready node reaches all the
    nodes below it. *)
From S2P Require Import Prelude StdMap HierNode NodeFacts.

(** ** What a node still needs *)
(** The members no command changes. *)
Definition fixed (n : HierNode) : (Z * Upstream * list Z * bool) * list Step * bool := (static n, plan_ n, rpc_ n).
(** And those a report does not change. *)
Definition Own : Type := (Z * Upstream * list Z * bool) * list Step * bool * FaultLevel * nat * bool * (bool * Step).
Definition own (n : HierNode) : Own := (fixed n, ownFault_ n, pos_ n, ready_ n, (working_ n, curState_ n)).
(** The rounds a node needs once its children are ready. *)
Definition need (n : HierNode) : nat := if ready_ n then 0 else Nat.max 1 (length (plan_ n) - pos_ n).
Definition total_need (s : NodeStore) : nat := sum_list (need <$> (nodes_ s).*2).
Definition need_at (s : NodeStore) (i : Z) : nat := from_option need 0 (at_ i s).
Lemma total_need_at s : msorted (nodes_ s) → total_need s = sum_list (need_at s <$> (nodes_ s).*1).
Proof.
  intros Hs. unfold total_need. f_equal. rewrite <- !list_fmap_compose. apply list_fmap_ext. intros k [i n] Hk. simpl.
  unfold need_at, at_. by rewrite (proj2 (mfind_elem i n _ Hs) (list_elem_of_lookup_2 _ _ _ Hk)).
Qed.
Lemma sum_list_cons {A} (f : A → nat) x l : sum_list (f <$> x :: l) = f x + sum_list (f <$> l).
Proof. done. Qed.
Lemma sum_list_le {A} (f g : A → nat) l : (∀ x, x ∈ l → f x ≤ g x) → sum_list (f <$> l) ≤ sum_list (g <$> l).
Proof.
  induction l as [|x l IH]; intros Hfg; [done|]. rewrite !sum_list_cons. pose proof (Hfg x ltac:(by left)).
  pose proof (IH ltac:(intros y Hy; apply Hfg; by right)). lia.
Qed.
Lemma sum_list_lt {A} (f g : A → nat) l x : (∀ x, x ∈ l → f x ≤ g x) → x ∈ l → f x < g x → sum_list (f <$> l) < sum_list (g <$> l).
Proof.
  induction l as [|y l IH]; intros Hfg Hx Hlt; [by apply elem_of_nil in Hx|]. rewrite !sum_list_cons. pose proof (Hfg y ltac:(by left)).
  assert (∀ z, z ∈ l → f z ≤ g z) as Hl by (intros z Hz; apply Hfg; by right).
  apply elem_of_cons in Hx as [->|Hx]; [pose proof (sum_list_le f g l Hl)|pose proof (IH Hl Hx Hlt)]; lia.
Qed.

(** ** Calls that leave the progress of every node alone *)
Definition owned (F : Z → option Own) (s : NodeStore) : Prop := ∀ j, own <$> at_ j s = F j.
Section owned.
Context (F : Z → option Own).
Lemma update_owned i f : (∀ n, own (f n) = own n) → preserves (owned F) (update i f).
Proof.
  intros Hf. apply pres_modify. intros s Hs. destruct (at_ i s) as [n|] eqn:E; [|done]. intros j.
  change (own <$> at_ j (put_store i (f n) s) = F j). rewrite <- Hs. destruct (decide (j = i)) as [->|Hne].
  - by rewrite at_put_eq, E; simpl; rewrite Hf.
  - by rewrite at_put_ne.
Qed.
Lemma this_owned i : preserves (owned F) (this i).
Proof. intros s Hs. unfold this. autorewrite with monad. by destruct (at_ i s). Qed.
Lemma log_owned o : preserves (owned F) (log o).
Proof. by apply pres_modify. Qed.
Lemma recompute_owned fuel i : preserves (owned F) (recomputeAndReport fuel i).
Proof.
  revert i. induction fuel as [|fuel IH]; intros i; [apply pres_undef|]. cbn [recomputeAndReport].
  apply pres_bind; [by apply update_owned|intros _]. apply pres_bind; [apply this_owned|intros n]. simpl.
  destruct (_ =? _)%Z; [apply pres_ret|]. apply pres_bind; [by apply update_owned|intros _].
  apply pres_bind; [apply pres_when, log_owned|intros _].
  destruct (up_ n) as [|p|]; [apply pres_ret| |apply log_owned].
  apply pres_bind; [apply this_owned|intros _]. apply pres_bind; [by apply update_owned|intros _]. apply IH.
Qed.
Lemma emit_owned i k a b msg : preserves (owned F) (emit i k a b msg).
Proof. apply pres_bind; [apply this_owned|intros n]. destruct (sink_ n); [apply log_owned|apply pres_ret]. Qed.
Lemma recompute_call_owned i : preserves (owned F) (recompute i).
Proof. apply pres_get_any. intros s. apply recompute_owned. Qed.
End owned.
#[export] Hint Resolve this_owned log_owned emit_owned recompute_call_owned : pres.

(** ** One step of a node's own plan *)
Definition stepped (n : HierNode) : HierNode :=
  let n1 := promote n in
  if bool_decide (length (plan_ n1) ≤ pos_ n1) && negb (ready_ n1) then set_ready true READY n1 else n1.
Lemma when_emit_run c i n k a b msg s : at_ i s = Some n →
  ∃ o, when c (emit i k a b msg) s = (Ret tt, {| nodes_ := nodes_ s; out := o |}).
Proof.
  intros Hi. destruct c; [|destruct s; by eexists]. unfold when, emit. rewrite (node_this_bind i n) by done.
  destruct (sink_ n); [by eexists|destruct s; by eexists].
Qed.
Lemma advance_self_owned i n s : at_ i s = Some n →
  owned (λ j, own <$> at_ j (put_store i (stepped n) s)) (advance_self i s).2.
Proof.
  intros Hi. unfold advance_self. rewrite (node_this_bind i n), (update_bind i n) by done.
  set (n1 := promote n). set (s1 := put_store i n1 s).
  assert (at_ i s1 = Some n1) as Hi1 by apply at_put_eq. rewrite (node_this_bind i n1) by done.
  destruct (when_emit_run (bool_decide (curState_ n1 ≠ curState_ n)) i n1 ModuleStateChanged (step_value (curState_ n))
    (step_value (curState_ n1)) "步进" s1 Hi1) as [o Ho].
  rewrite (M_bind_ret _ _ _ _ _ Ho). clear Ho.
  unfold stepped. fold n1. destruct (bool_decide _ && _).
  - unfold when at 1. rewrite M_bind_assoc, (update_bind i n1) by done. set (s2 := put_store i (set_ready true READY n1) _).
    apply (pres_bind (owned _)); [apply emit_owned|intros _; apply recompute_call_owned|].
    intros j. unfold s2. destruct (decide (j = i)) as [->|Hne]; [by rewrite !at_put_eq|]. rewrite !at_put_ne by done.
    change (own <$> at_ j s1 = own <$> at_ j s). unfold s1. by rewrite at_put_ne.
  - cbn [when]. rewrite M_ret_bind. by apply recompute_call_owned.
Qed.

(** ** Progress *)
(** From [n] to [n']: nothing is taken back. *)
Definition nearer (n n' : HierNode) : Prop :=
  fixed n' = fixed n ∧ need n' ≤ need n ∧ (ready_ n = true → ready_ n' = true).
Definition progress (s s' : NodeStore) : Prop :=
  ∀ j, match at_ j s, at_ j s' with Some n, Some n' => nearer n n' | None, None => True | _, _ => False end.
(** And some node is nearer to its end. *)
Definition gain (s s' : NodeStore) : Prop :=
  progress s s' ∧ ∃ j n n', at_ j s = Some n ∧ at_ j s' = Some n' ∧ need n' < need n.
#[export] Instance nearer_preorder : PreOrder nearer.
Proof.
  split; [done|]. intros n1 n2 n3 (H1 & H2 & H3) (H4 & H5 & H6). split; [congruence|]. split; [lia|auto].
Qed.
#[export] Instance progress_preorder : PreOrder progress.
Proof.
  split.
  - intros s j. by destruct (at_ j s).
  - intros s1 s2 s3 H1 H2 j. specialize (H1 j). specialize (H2 j).
    destruct (at_ j s1), (at_ j s2), (at_ j s3); try done. by etrans.
Qed.
Lemma progress_at {s s' j n} : progress s s' → at_ j s = Some n → ∃ n', at_ j s' = Some n' ∧ nearer n n'.
Proof. intros Hp Hj. specialize (Hp j). rewrite Hj in Hp. destruct (at_ j s') as [n'|]; [by exists n'|done]. Qed.
Lemma progress_back {s s' j n'} : progress s s' → at_ j s' = Some n' → ∃ n, at_ j s = Some n ∧ nearer n n'.
Proof. intros Hp Hj. specialize (Hp j). rewrite Hj in Hp. destruct (at_ j s) as [n|]; [by exists n|done]. Qed.
Lemma gain_l s1 s2 s3 : gain s1 s2 → progress s2 s3 → gain s1 s3.
Proof.
  intros [Hp (j & n & n' & Hn & Hn' & Hlt)] Hq. split; [by etrans|].
  destruct (progress_at Hq Hn') as (n3 & Hn3 & _ & Hle & _). exists j, n, n3. split_and!; [done..|lia].
Qed.
Lemma gain_r s1 s2 s3 : progress s1 s2 → gain s2 s3 → gain s1 s3.
Proof.
  intros Hq [Hp (j & n & n' & Hn & Hn' & Hlt)]. split; [by etrans|].
  destruct (progress_back Hq Hn) as (n1 & Hn1 & _ & Hle & _). exists j, n1, n'. split_and!; [done..|lia].
Qed.
(** A node that got ready is one that gained. *)
Lemma need_pos n : ready_ n = false → 0 < need n.
Proof. unfold need. intros ->. lia. Qed.
Lemma ready_gain s s' j n n' : progress s s' → at_ j s = Some n → at_ j s' = Some n' →
  ready_ n = false → ready_ n' = true → gain s s'.
Proof.
  intros Hp Hn Hn' Hf Ht. split; [done|]. exists j, n, n'. split_and!; [done..|].
  pose proof (need_pos n Hf). unfold need at 1. by rewrite Ht.
Qed.

Lemma gain_need l s s' : gain s s' → (∀ i, is_Some (at_ i s) → i ∈ l) →
  sum_list (need_at s' <$> l) < sum_list (need_at s <$> l).
Proof.
  intros [Hp (j & n & n' & Hn & Hn' & Hlt)] Hl. apply (sum_list_lt _ _ _ j).
  - intros i _. unfold need_at. specialize (Hp i). destruct (at_ i s), (at_ i s'); try done. apply Hp.
  - apply Hl. by exists n.
  - unfold need_at. by rewrite Hn, Hn'.
Qed.

Lemma stepped_nearer n : nearer n (stepped n) ∧ (ready_ n = false → need (stepped n) < need n).
Proof.
  unfold stepped, promote, nearer, need.
  destruct (plan_ n !! pos_ n) as [st|] eqn:E.
  - apply lookup_lt_Some in E. cbn -[Nat.max]. case_bool_decide; destruct (ready_ n) eqn:Hr; cbn -[Nat.max]; rewrite ?Hr; split_and!; intros; try done; lia.
  - apply lookup_ge_None in E. rewrite bool_decide_true by done. destruct (ready_ n) eqn:Hr; cbn -[Nat.max]; rewrite ?Hr; split_and!; intros; try done; lia.
Qed.
(** States with the same progress. *)
Lemma owned_progress s s' : owned (λ j, own <$> at_ j s) s' → progress s s'.
Proof.
  intros Ho j. specialize (Ho j). cbv beta in Ho. destruct (at_ j s) as [n|], (at_ j s') as [n'|]; try done.
  assert (own n' = own n) as E by (simpl in Ho; congruence). unfold own in E.
  assert (fixed n' = fixed n ∧ pos_ n' = pos_ n ∧ ready_ n' = ready_ n) as (Hf & Hp & Hr) by (split_and!; congruence).
  unfold nearer, need. assert (plan_ n' = plan_ n) as -> by (unfold fixed in Hf; congruence).
  rewrite Hp, Hr. split_and!; [done|lia|done].
Qed.

(** ** Driving a healthy tree *)
(** Children are deployed below their parent, which has the port to them. *)
Record wired (s0 : NodeStore) : Prop := {
  wi_child i n c : at_ i s0 = Some n → c ∈ childIds_ n → ∃ nc, at_ c s0 = Some nc ∧ up_ nc = UpNode i;
  wi_rpc i n : at_ i s0 = Some n → childIds_ n ≠ [] → rpc_ n = true
}.
Section tree.
Context (s0 : NodeStore) (rank : Z → nat) (Hwf : wf s0 rank) (Hwired : wired s0).
(** Reached from [s0]. *)
Definition healthy (s : NodeStore) : Prop := good s0 s ∧ progress s0 s.
Definition faultless (s : NodeStore) : Prop := ∀ i n, at_ i s = Some n → ownFault_ n = NONE.
Lemma faultless_owned s s' : faultless s → owned (λ j, own <$> at_ j s) s' → faultless s'.
Proof.
  intros Hs Ho j n' Hj. specialize (Ho j). cbv beta in Ho. rewrite Hj in Ho. destruct (at_ j s) as [n|] eqn:E; [|done].
  assert (own n' = own n) as Eo by (simpl in Ho; congruence). rewrite <- (Hs j n E). unfold own in Eo. congruence.
Qed.
Lemma faultless_put s i n : faultless s → ownFault_ n = NONE → faultless (put_store i n s).
Proof.
  intros Hs Hn j m. destruct (decide (j = i)) as [->|Hne]; [rewrite at_put_eq; by intros [= <-]|].
  rewrite at_put_ne by done. apply Hs.
Qed.
Lemma stepped_fault n : ownFault_ n = NONE → ownFault_ (stepped n) = NONE.
Proof. unfold stepped, promote. destruct (plan_ n !! pos_ n); by destruct (bool_decide _ && _). Qed.

Lemma healthy_refl : fresh s0 → healthy s0.
Proof. intros Hfresh. split; [|done]. split; [by eapply framed_refl|by apply fresh_inv]. Qed.
Lemma healthy_step s s' : healthy s → good s0 s' → progress s s' → healthy s'.
Proof. intros [_ Hp] Hg Hp'. split; [done|by etrans]. Qed.
Lemma healthy_fixed s i n : healthy s → at_ i s = Some n → ∃ n0, at_ i s0 = Some n0 ∧ fixed n = fixed n0.
Proof. intros [_ Hp] Hi. destruct (progress_back Hp Hi) as (n0 & Hn0 & Hf & _). by exists n0. Qed.
Lemma healthy_sound s i n : healthy s → faultless s → at_ i s = Some n → inFault n = false ∧ blocking_ n = false.
Proof.
  intros Hs Hnone Hi.
  split; [unfold inFault; by rewrite (Hnone i n Hi)|]. destruct (blocking_ n) eqn:Hb; [|done].
  destruct (blocking_affected s0 rank Hwf (length (nodes_ s0)) s i n (proj1 Hs) Hi ltac:(lia) Hb) as [j m Hj Ha|j c nc Hc Hup Ha].
  - unfold affects in Ha. by rewrite (Hnone j m Hj) in Ha.
  - clear Hc Hup. induction Ha as [j' m Hj Ha|j' c' nc' _ _ _ IH]; [|done]. unfold affects in Ha. by rewrite (Hnone j' m Hj) in Ha.
Qed.
Lemma healthy_child s i n c : healthy s → at_ i s = Some n → c ∈ childIds_ n →
  ∃ nc, at_ c s = Some nc ∧ rpc_ n = true ∧ (rank i < rank c)%nat ∧
    ((childReady_ n !! c = Some true → ready_ nc = true) ∧ (ready_ nc = true → childReady_ n !! c = Some true)).
Proof.
  intros Hs Hi Hc. destruct (healthy_fixed s i n Hs Hi) as (n0 & Hn0 & Hf).
  assert (childIds_ n = childIds_ n0 ∧ rpc_ n = rpc_ n0) as [Hids Hrpc] by (unfold fixed, static in Hf; split; congruence).
  rewrite Hids in Hc. destruct (wi_child s0 Hwired i n0 c Hn0 Hc) as (nc0 & Hnc0 & Hup).
  destruct (progress_at (proj2 Hs) Hnc0) as (nc & Hnc & Hfc & _). exists nc.
  split; [done|]. split; [rewrite Hrpc; apply (wi_rpc s0 Hwired i n0 Hn0); by destruct (childIds_ n0); [apply elem_of_nil in Hc|]|].
  split; [by apply (wf_down _ _ Hwf i n0 c Hn0 Hc)|].
  destruct (proj2 (proj1 Hs) c nc Hnc) as (_ & (r & b & Hpub & Heq) & _). destruct Heq as [-> _]; [done|].
  assert (up_ nc = UpNode i) as Hupc by (rewrite <- Hup; unfold fixed, static in Hfc; congruence).
  destruct Hpub as [(_ & Hr & _ & Hk)|(st & f & _ & Hk)]; destruct (Hk i n Hupc Hi) as [-> _]; simpl; split; congruence.
Qed.
Lemma all_children_ready s i n : healthy s → at_ i s = Some n → allChildrenReady n = true →
  ∀ c nc, c ∈ childIds_ n → at_ c s = Some nc → ready_ nc = true.
Proof.
  intros Hs Hi Hall c nc Hc Hnc. destruct (healthy_child s i n c Hs Hi Hc) as (nc' & Hnc' & _ & _ & Hk & _).
  replace nc with nc' by congruence. apply Hk. unfold allChildrenReady in Hall. rewrite forallb_forall in Hall.
  specialize (Hall c (proj1 (list_elem_of_In _ _) Hc)). by destruct (childReady_ n !! c) as [[]|].
Qed.
Lemma some_child_unready s i n : healthy s → at_ i s = Some n → allChildrenReady n = false →
  ∃ c nc, c ∈ childIds_ n ∧ at_ c s = Some nc ∧ ready_ nc = false.
Proof.
  intros Hs Hi Hall. unfold allChildrenReady in Hall.
  assert (∃ c, c ∈ childIds_ n ∧ childReady_ n !! c ≠ Some true) as (c & Hc & Hk).
  { induction (childIds_ n) as [|c l IH]; [done|]. simpl in Hall. destruct (childReady_ n !! c) as [[]|] eqn:E.
    1: destruct (IH Hall) as (c' & Hc' & Hk); exists c'; split; [by right|done].
    all: exists c; split; [by left|by rewrite E]. }
  destruct (healthy_child s i n c Hs Hi Hc) as (nc & Hnc & _ & _ & _ & Hr). exists c, nc. split_and!; [done..|].
  destruct (ready_ nc); [by destruct Hk; apply Hr|done].
Qed.

Lemma advance_self_nearer s i n : healthy s → at_ i s = Some n →
  returns (advance_self i) s (λ s', good s0 s' ∧ progress s s' ∧ (ready_ n = false → gain s s') ∧
    owned (λ j, own <$> at_ j (put_store i (stepped n) s)) s').
Proof.
  intros Hs Hi. destruct (advance_self_returns s0 rank Hwf i n s (proj1 Hs) Hi) as (s' & Hrun & Hg). exists s'. split; [done|].
  split; [done|]. pose proof (advance_self_owned i n s Hi) as Hown. rewrite Hrun in Hown. simpl in Hown.
  pose proof (owned_progress _ _ Hown) as Ho.
  destruct (stepped_nearer n) as [Hst Hlt]. set (s1 := put_store i (stepped n) s) in *.
  assert (progress s s1) as Hp.
  { intros j. unfold s1. destruct (decide (j = i)) as [->|Hne]; [by rewrite at_put_eq, Hi|]. rewrite at_put_ne by done. by destruct (at_ j s). }
  split; [by etrans|]. split; [|done]. intros Hr. apply (gain_l s s1 s'); [|done]. split; [done|]. exists i, n, (stepped n).
  split_and!; [done|apply at_put_eq|by apply Hlt].
Qed.

(** A ready node is above ready nodes only. *)
Definition settled (s : NodeStore) : Prop :=
  ∀ i n c nc, at_ i s = Some n → ready_ n = true → c ∈ childIds_ n → at_ c s = Some nc → ready_ nc = true.
Definition kept (s : NodeStore) : Prop := healthy s ∧ settled s.
Definition sane (s : NodeStore) : Prop := kept s ∧ faultless s.

Lemma sane_healthy {s} : sane s → healthy s.
Proof. by intros [[]]. Qed.
Lemma sane_framed {s} : sane s → framed s0 s.
Proof. intros [[[[]]]]. done. Qed.

(** A command sent to the children in turn, where [R] is what each may change and
    [D c] what it does for child [c]. *)
Lemma children_each cmd (R : NodeStore → NodeStore → Prop) (D : Z → NodeStore → NodeStore → Prop) cs s :
  (∀ s, R s s) → (∀ s1 s2 s3, R s1 s2 → R s2 s3 → R s1 s3) → (∀ s1 s2, R s1 s2 → progress s1 s2) →
  (∀ c s1 s2 s3, R s1 s2 → R s2 s3 → D c s2 s3 → D c s1 s3) → (∀ c s1 s2 s3, D c s1 s2 → R s2 s3 → D c s1 s3) →
  (∀ c s nc, c ∈ cs → sane s → at_ c s = Some nc → returns (cmd c) s (λ s', sane s' ∧ R s s' ∧ D c s s')) →
  sane s → (∀ c, c ∈ cs → is_Some (at_ c s)) →
  returns (for_each (route cmd) cs) s (λ s', sane s' ∧ R s s' ∧ ∀ c, c ∈ cs → D c s s').
Proof.
  intros Hrefl Htrans Hprog Hl Hr Hcmd. revert s. induction cs as [|c cs IH]; intros s Hs Hsome.
  { exists s. split; [done|]. split; [done|]. split; [by apply Hrefl|]. by intros c ?%elem_of_nil. }
  destruct (Hsome c ltac:(by left)) as [nc Hc].
  destruct (Hcmd c s nc ltac:(by left) Hs Hc) as (s1 & Hrun1 & Hs1 & HR1 & HD1).
  destruct (IH ltac:(intros ?????; apply Hcmd; [by right|done..]) s1 Hs1) as (s2 & Hrun2 & Hs2 & HR2 & HD2).
  { intros c' Hc'. destruct (Hsome c' ltac:(by right)) as [m Hm]. destruct (progress_at (Hprog _ _ HR1) Hm) as (m' & Hm' & _). by exists m'. }
  exists s2. split.
  - cbn [for_each]. rewrite (M_bind_ret _ (route cmd c) _ tt s1); [done|]. unfold route. autorewrite with monad. by rewrite Hc.
  - split; [done|]. split; [by eapply Htrans|]. intros c' Hin. apply elem_of_cons in Hin as [->|Hin]; eauto.
Qed.

(** Advancing node [n] from [s]: progress, and a gain if it is not ready. *)
Definition gains_at (i : Z) (s s' : NodeStore) : Prop := ∀ n, at_ i s = Some n → ready_ n = false → gain s s'.
Lemma gains_at_later i s1 s2 s3 : progress s1 s2 → progress s2 s3 → gains_at i s2 s3 → gains_at i s1 s3.
Proof.
  intros H1 H2 Hg n Hn Hr. destruct (progress_at H1 Hn) as (n' & Hn' & _). destruct (ready_ n') eqn:Hr'.
  - apply (gain_l s1 s2); [|done]. by apply (ready_gain s1 s2 i n n').
  - apply (gain_r s1 s2); [done|]. by apply (Hg n').
Qed.
Lemma advance_self_settles s i n s' : kept s → at_ i s = Some n → (childIds_ n ≠ [] → allChildrenReady n = true) →
  owned (λ j, own <$> at_ j (put_store i (stepped n) s)) s' → progress s s' → settled s'.
Proof.
  intros [Hh Hs] Hi Hall Ho Hp j m c mc Hj Hr Hc Hmc.
  destruct (progress_back Hp Hj) as (m0 & Hm0 & Hfix & _). destruct (progress_back Hp Hmc) as (mc0 & Hmc0 & _ & _ & Hready).
  assert (childIds_ m = childIds_ m0) as Hids by (unfold fixed, static in Hfix; congruence). rewrite Hids in Hc. apply Hready.
  destruct (decide (j = i)) as [->|Hne].
  - replace m0 with n in Hc by congruence. apply (all_children_ready s i n Hh Hi) with c; [|done..].
    apply Hall. intros E. rewrite E in Hc. by apply elem_of_nil in Hc.
  - apply (Hs j m0 c mc0); [done| |done..]. specialize (Ho j). cbv beta in Ho. rewrite at_put_ne, Hj, Hm0 in Ho by done.
    assert (own m = own m0) as E by (simpl in Ho; congruence). unfold own in E. congruence.
Qed.
Lemma advance_drives fuel i n s : sane s → at_ i s = Some n → (length (nodes_ s0) < fuel + rank i)%nat →
  returns (advance fuel i) s (λ s', sane s' ∧ progress s s' ∧ gains_at i s s').
Proof.
  revert i n s. induction fuel as [|fuel IH]; intros i n s Hs Hi Hlt.
  { by destruct (descend_fuel s0 rank Hwf (sane_framed Hs) Hi Hlt). }
  unfold returns. cbn [advance]. rewrite (node_this_bind i n) by done.
  destruct (healthy_sound s i n (sane_healthy Hs) (proj2 Hs) Hi) as [-> ->]. simpl.
  destruct (composite n && negb (allChildrenReady n)) eqn:Hcase.
  - apply andb_true_iff in Hcase as [_ Hall%negb_true_iff].
    destruct (some_child_unready s i n (sane_healthy Hs) Hi Hall) as (c & nc & Hc & Hnc & Hr).
    destruct (healthy_child s i n c (sane_healthy Hs) Hi Hc) as (_ & _ & -> & _). simpl.
    destruct (children_each (advance fuel) progress gains_at (childIds_ n) s) as (s' & Hrun & Hs' & Hp & Hgain);
      [done|intros ????; by etrans|done|apply gains_at_later|intros c' s1 s2 s3 Hg Hp m Hm Hm'; by apply (gain_l s1 s2); [apply (Hg m)|]| |done|..].
    + intros c' s1 nc' Hc' Hs1 Hnc'. apply (IH c' nc'); [done..|]. destruct (healthy_child s i n c' (sane_healthy Hs) Hi Hc') as (_ & _ & _ & Hrank & _). lia.
    + intros c' Hc'. destruct (healthy_child s i n c' (sane_healthy Hs) Hi Hc') as (m & Hm & _). by exists m.
    + exists s'. split; [done|]. split; [done|]. split; [done|]. intros _ _ _. by apply (Hgain c Hc nc).
  - destruct (advance_self_nearer s i n (sane_healthy Hs) Hi) as (s' & Hrun & Hg & Hp & Hgain & Ho). exists s'. split; [done|].
    split; [split; [split; [by apply (healthy_step s); [apply Hs|..]|]|]|split; [done|]].
    2:{ apply (faultless_owned (put_store i (stepped n) s)); [|done]. apply faultless_put; [apply Hs|apply stepped_fault, (proj2 Hs i n Hi)]. }
    + apply (advance_self_settles s i n s' (proj1 Hs) Hi); [|done..].
      intros Hne. unfold composite in Hcase. rewrite bool_decide_true in Hcase by done. simpl in Hcase. by apply negb_false_iff.
    + intros m Hm Hr. apply Hgain. congruence.
Qed.

(** ** Work *)
Definition busy (n : HierNode) : Prop := working_ n = true ∧ curState_ n = WORK.
Definition busy_at (i : Z) (s : NodeStore) : Prop := ∃ n, at_ i s = Some n ∧ busy n.
Definition starts (s s' : NodeStore) : Prop := progress s s' ∧ ∀ j, busy_at j s → busy_at j s'.
(** Node [i] and the nodes below it, over any number of layers. *)
Inductive below (i : Z) : Z → Prop :=
  | below_self : below i i
  | below_child n c j : at_ i s0 = Some n → c ∈ childIds_ n → below c j → below i j.
Definition works_at (c : Z) (s s' : NodeStore) : Prop :=
  ∀ n, at_ c s = Some n → ready_ n = true → ∀ j, below c j → busy_at j s'.
Lemma owned_busy s s' j : owned (λ j, own <$> at_ j s) s' → busy_at j s → busy_at j s'.
Proof.
  intros Ho (n & Hn & Hw & Hc). specialize (Ho j). cbv beta in Ho. rewrite Hn in Ho.
  destruct (at_ j s') as [n'|] eqn:E; [|done]. exists n'. split; [done|].
  assert (own n' = own n) as Eo by (simpl in Ho; congruence). unfold own in Eo. split; congruence.
Qed.
Lemma settled_owned s s' : settled s → owned (λ j, own <$> at_ j s) s' → settled s'.
Proof.
  intros Hs Ho. pose proof (owned_progress s s' Ho) as Hp. intros i n c nc Hi Hr Hc Hnc.
  destruct (progress_back Hp Hi) as (n0 & Hn0 & Hf & _), (progress_back Hp Hnc) as (nc0 & Hnc0 & _ & _ & Hm).
  apply Hm, (Hs i n0 c); [done| |unfold fixed, static in Hf; congruence|done].
  specialize (Ho i). cbv beta in Ho. rewrite Hi, Hn0 in Ho.
  assert (own n = own n0) as Eo by (simpl in Ho; congruence). unfold own in Eo. congruence.
Qed.
Lemma healthy_ids s i n n0 : healthy s → at_ i s = Some n → at_ i s0 = Some n0 → childIds_ n = childIds_ n0.
Proof. intros Hs Hi Hn0. destruct (healthy_fixed s i n Hs Hi) as (m & Hm & Hf). unfold fixed, static in Hf. congruence. Qed.

Lemma put_working i n s : sane s → at_ i s = Some n →
  let s1 := put_store i (set_working true WORK n) s in sane s1 ∧ starts s s1 ∧ busy_at i s1.
Proof.
  intros [[[[Hf Hinv] Hp0] Hset] Hfl] Hi s1. set (n1 := set_working true WORK n) in *.
  assert (progress s s1) as Hp.
  { intros j. unfold s1. destruct (decide (j = i)) as [->|Hne]; [by rewrite at_put_eq, Hi|]. rewrite at_put_ne by done. by destruct (at_ j s). }
  assert (busy_at i s1) as Hb by (exists n1; split; [apply at_put_eq|done]).
  split_and!; [|split; [done|]|done].
  - split; [split; [apply (healthy_step s); [by split|split|done]|]|apply faultless_put; [done|exact (Hfl i n Hi)]].
    + by apply (framed_put s0 s i n).
    + apply inv_put. by eapply inv_silent.
    + assert (∀ j m, at_ j s1 = Some m → ∃ m0, at_ j s = Some m0 ∧ ready_ m = ready_ m0 ∧ childIds_ m = childIds_ m0) as Hback.
      { intros j m. unfold s1. destruct (decide (j = i)) as [->|Hne]; [rewrite at_put_eq; intros [= <-]; by exists n|].
        rewrite at_put_ne by done. by exists m. }
      intros j m c mc Hj Hr Hc Hmc. destruct (Hback j m Hj) as (m0 & Hm0 & Er & Ec), (Hback c mc Hmc) as (mc0 & Hmc0 & -> & _).
      apply (Hset j m0 c); congruence.
  - intros j Hj. destruct (decide (j = i)) as [->|Hne]; [done|]. destruct Hj as (m & Hm & Hbm). exists m. unfold s1. by rewrite at_put_ne.
Qed.
Lemma children_start fuel i n s : sane s → at_ i s = Some n → (length (nodes_ s0) < S fuel + rank i)%nat →
  (∀ c nc s, sane s → at_ c s = Some nc → (length (nodes_ s0) < fuel + rank c)%nat →
     returns (startWork fuel c) s (λ s', sane s' ∧ starts s s' ∧ works_at c s s')) →
  returns (when (rpc_ n) (for_each (route (startWork fuel)) (childIds_ n))) s
    (λ s', sane s' ∧ starts s s' ∧ ∀ c, c ∈ childIds_ n → works_at c s s').
Proof.
  intros Hs Hi Hlt IH. assert (rpc_ n = true ∨ childIds_ n = []) as [->|Hnil].
  { destruct (childIds_ n) as [|c l] eqn:E; [by right|left]. destruct (healthy_child s i n c (sane_healthy Hs) Hi) as (_ & _ & H & _); [rewrite E; left|done]. }
  2:{ rewrite Hnil. exists s. split; [by destruct (rpc_ n)|]. split; [done|]. split; [done|]. by intros c ?%elem_of_nil. }
  cbn [when]. apply children_each; [done|..].
  - intros s1 s2 s3 [H1 H2] [H3 H4]. split; [by etrans|auto].
  - by intros s1 s2 [H _].
  - intros c s1 s2 s3 [H1 _] _ Hw m Hm Hr j Hj. destruct (progress_at H1 Hm) as (m' & Hm' & _ & _ & Hr'). apply (Hw m'); auto.
  - intros c s1 s2 s3 Hw [_ H2] m Hm Hr j Hj. by apply H2, (Hw m).
  - intros c s1 nc Hc Hs1 Hnc. apply (IH c nc s1); [done..|]. destruct (healthy_child s i n c (sane_healthy Hs) Hi Hc) as (_ & _ & _ & Hrank & _). lia.
  - done.
  - intros c Hc. destruct (healthy_child s i n c (sane_healthy Hs) Hi Hc) as (m & Hm & _). by exists m.
Qed.
Lemma below_ready s i j : sane s → below i j → (∃ n, at_ i s = Some n ∧ ready_ n = true) → ∃ n, at_ j s = Some n ∧ ready_ n = true.
Proof.
  intros Hs. induction 1 as [i|i n0 c j Hn0 Hc _ IH]; intros (n & Hn & Hr); [by exists n|]. apply IH.
  rewrite <- (healthy_ids s i n n0 (sane_healthy Hs) Hn Hn0) in Hc.
  destruct (healthy_child s i n c (sane_healthy Hs) Hn Hc) as (nc & Hnc & _). exists nc. split; [done|]. by apply (proj2 (proj1 Hs) i n c nc).
Qed.
Lemma startWork_works fuel i n s : sane s → at_ i s = Some n → (length (nodes_ s0) < fuel + rank i)%nat →
  returns (startWork fuel i) s (λ s', sane s' ∧ starts s s' ∧ works_at i s s').
Proof.
  revert i n s. induction fuel as [|fuel IH]; intros i n s Hs Hi Hlt.
  { by destruct (descend_fuel s0 rank Hwf (sane_framed Hs) Hi Hlt). }
  unfold returns. cbn [startWork]. rewrite (node_this_bind i n) by done.
  destruct (healthy_sound s i n (sane_healthy Hs) (proj2 Hs) Hi) as [_ ->]. rewrite orb_false_r.
  destruct (ready_ n) eqn:Hr; cbn [negb]; [|exists s; split; [done|]; split; [done|]; split; [done|]; intros m Hm Hrm; congruence].
  rewrite (update_bind i n) by done.
  destruct (put_working i n s Hs Hi) as (Hs1 & [Hp1 Hst1] & Hb1). set (n1 := set_working true WORK n) in *. set (s1 := put_store i n1 s) in *.
  assert (at_ i s1 = Some n1) as Hi1 by apply at_put_eq.
  change (rpc_ n) with (rpc_ n1). change (childIds_ n) with (childIds_ n1).
  destruct (children_start fuel i n1 s1 Hs1 Hi1 Hlt) as (s2 & Hrun2 & Hs2 & [Hp2 Hst2] & Hw2); [by intros; eapply IH|].
  rewrite (M_bind_ret _ _ _ _ _ Hrun2). destruct (progress_at Hp2 Hi1) as (n2 & Hi2 & _).
  destruct (recompute_returns s0 rank Hwf i n2 s2) as (s3 & Hrun3 & Hg3); [apply Hs2|done|apply inv_weaken, Hs2|].
  pose proof (recompute_call_owned (λ j, own <$> at_ j s2) i s2 ltac:(done)) as Ho. rewrite Hrun3 in Ho. cbn [snd] in Ho.
  pose proof (owned_progress s2 s3 Ho) as Hp3. exists s3. split; [done|]. split_and!.
  - split; [split; [by apply (healthy_step s2); [apply Hs2|..]|]|].
    + apply (settled_owned s2); [apply Hs2|done].
    + apply (faultless_owned s2); [apply Hs2|done].
  - split; [by etrans; [|etrans]|]. intros j Hj. apply (owned_busy s2 s3 j Ho). auto.
  - intros m Hm _ j Hj. apply (owned_busy s2 s3 j Ho). destruct Hj as [|n0 c j Hn0 Hc Hj]; [by apply Hst2|].
    rewrite <- (healthy_ids s i n n0 (sane_healthy Hs) Hi Hn0) in Hc.
    destruct (healthy_child s i n c (sane_healthy Hs) Hi Hc) as (nc & Hnc & _).
    destruct (progress_at Hp1 Hnc) as (nc1 & Hnc1 & _ & _ & Hr1).
    apply (Hw2 c Hc nc1 Hnc1); [|done]. apply Hr1, (proj2 (proj1 Hs) i n c nc); done.
Qed.
End tree.
