(* ===== verification/NodeRecovery.v ===== *)
(** * A tree recovers once its faults are cleared

    No command takes back what a node has reached of its plan, and a node gets
    ready above ready nodes only, faults or not.  So after any commands, the
    faults cleared, the tree is as sane as one that never had a fault. *)
From S2P Require Import Prelude StdMap HierNode NodeFacts NodeReady.
Local Open Scope prog_scope.

(** ** Calls that leave plan, place and readiness alone *)
Definition Mark : Type := (Z * Upstream * list Z * bool) * list Step * bool * nat * bool.
Definition mark (n : HierNode) : Mark := (fixed n, pos_ n, ready_ n).
Definition marked (F : Z → option Mark) (s : NodeStore) : Prop := ∀ j, mark <$> at_ j s = F j.
Lemma own_mark n n' : own n' = own n → mark n' = mark n.
Proof. unfold own, mark. congruence. Qed.
Lemma owned_marked (m : Call unit) F : (∀ G, preserves (owned G) m) → preserves (marked F) m.
Proof.
  intros Hm s Hs j. rewrite <- Hs. specialize (Hm (λ j, own <$> at_ j s) s ltac:(done) j). cbv beta in Hm.
  destruct (at_ j s) as [n|], (at_ j (m s).2) as [n'|]; try done. simpl. f_equal. apply own_mark. simpl in Hm. congruence.
Qed.
Lemma update_marked F i f : (∀ n, mark (f n) = mark n) → preserves (marked F) (update i f).
Proof.
  intros Hf. apply pres_modify. intros s Hs. destruct (at_ i s) as [n|] eqn:E; [|done]. intros j.
  change (mark <$> at_ j (put_store i (f n) s) = F j). rewrite <- Hs. destruct (decide (j = i)) as [->|Hne].
  - by rewrite at_put_eq, E; simpl; rewrite Hf.
  - by rewrite at_put_ne.
Qed.
Lemma this_marked F i : preserves (marked F) (this i).
Proof. intros s Hs. unfold this. autorewrite with monad. by destruct (at_ i s). Qed.
Lemma tail_marked F i c k a b msg : preserves (marked F) (when c (emit i k a b msg);; recompute i).
Proof.
  apply owned_marked. intros G. apply pres_bind; [apply pres_when, emit_owned|intros _; apply recompute_call_owned].
Qed.
Lemma children_marked F (b : bool) cmd cs : (∀ c, preserves (marked F) (cmd c)) → preserves (marked F) (when b (for_each (route cmd) cs)).
Proof.
  intros Hc. apply pres_when, pres_for_each. intros c _. apply pres_get_any. intros s.
  destruct (at_ c s); [apply Hc|apply pres_ret].
Qed.
Lemma startWork_marked F fuel i : preserves (marked F) (startWork fuel i).
Proof.
  revert i. induction fuel as [|fuel IH]; intros i; [apply pres_undef|]. cbn [startWork].
  apply pres_bind; [apply this_marked|intros n]. destruct (_ || _); [apply pres_ret|].
  apply pres_bind; [by apply update_marked|intros _]. apply pres_bind; [by apply children_marked|intros _].
  apply owned_marked. intros G. apply recompute_call_owned.
Qed.
Lemma finishWork_marked F fuel i : preserves (marked F) (finishWork fuel i).
Proof.
  revert i. induction fuel as [|fuel IH]; intros i; [apply pres_undef|]. cbn [finishWork].
  apply pres_bind; [apply this_marked|intros n]. destruct (negb _); [apply pres_ret|].
  apply pres_bind; [by apply update_marked|intros _]. apply pres_bind; [by apply children_marked|intros _].
  apply owned_marked. intros G. apply recompute_call_owned.
Qed.
Lemma fail_marked F sev i : preserves (marked F) (fail sev i).
Proof.
  apply pres_bind; [apply this_marked|intros n]. apply pres_bind; [by apply update_marked|intros _]. apply tail_marked.
Qed.
Lemma clearFault_marked F i : preserves (marked F) (clearFault i).
Proof.
  apply pres_bind; [apply this_marked|intros n]. case_decide; [apply pres_ret|].
  apply pres_bind; [by apply update_marked|intros _]. apply (tail_marked F i true).
Qed.

Section recovery.
Context (s0 : NodeStore) (rank : Z → nat) (Hwf : wf s0 rank) (Hwired : wired s0).

(** ** What every command keeps *)
Lemma kept_marked s s' : kept s0 s → good s0 s' → marked (λ j, mark <$> at_ j s) s' → kept s0 s'.
Proof.
  intros [Hh Hset] Hg Hm.
  assert (∀ j n', at_ j s' = Some n' → ∃ n, at_ j s = Some n ∧ mark n' = mark n) as Hback.
  { intros j n' Hj. specialize (Hm j). cbv beta in Hm. rewrite Hj in Hm. destruct (at_ j s) as [n|]; [|done].
    exists n. split; [done|]. simpl in Hm. congruence. }
  split.
  - apply (healthy_step s0 s); [done..|]. intros j. specialize (Hm j). cbv beta in Hm.
    destruct (at_ j s) as [n|], (at_ j s') as [n'|]; try done. simpl in Hm.
    assert (mark n' = mark n) as E by congruence. unfold mark in E. unfold nearer, need.
    assert (fixed n' = fixed n ∧ pos_ n' = pos_ n ∧ ready_ n' = ready_ n) as (Hf & -> & ->) by (split_and!; congruence).
    assert (plan_ n' = plan_ n) as -> by (unfold fixed in Hf; congruence). split_and!; [done|lia|done].
  - intros i n c nc Hi Hr Hc Hnc. destruct (Hback i n Hi) as (n0 & Hn0 & E), (Hback c nc Hnc) as (nc0 & Hnc0 & Ec).
    unfold mark, fixed, static in E, Ec. replace (ready_ nc) with (ready_ nc0) by congruence.
    apply (Hset i n0 c nc0); congruence.
Qed.
Lemma advance_kept fuel i n s : kept s0 s → at_ i s = Some n → (length (nodes_ s0) < fuel + rank i)%nat →
  returns (advance fuel i) s (kept s0).
Proof.
  revert i n s. induction fuel as [|fuel IH]; intros i n s Hs Hi Hlt.
  { by destruct (descend_fuel s0 rank Hwf (proj1 (proj1 (proj1 Hs))) Hi Hlt). }
  unfold returns. cbn [advance]. rewrite (node_this_bind i n) by done.
  destruct (inFault n || blocking_ n); [by exists s|].
  destruct (composite n && negb (allChildrenReady n)) eqn:Hcase.
  - destruct (rpc_ n); [|by exists s]. apply run_for_each; [|done]. intros c s1 Hc Hs1.
    unfold route, returns. autorewrite with monad. destruct (at_ c s1) as [m|] eqn:E; [|by exists s1].
    apply (IH c m s1); [done..|]. destruct (healthy_child s0 rank Hwf Hwired s i n c (proj1 Hs) Hi Hc) as (_ & _ & _ & Hrank & _). lia.
  - destruct (advance_self_nearer s0 rank Hwf s i n (proj1 Hs) Hi) as (s' & Hrun & Hg & Hp & _ & Ho). exists s'. split; [done|].
    split; [by apply (healthy_step s0 s); [apply Hs|..]|].
    apply (advance_self_settles s0 rank Hwf Hwired s i n s' Hs Hi); [|done..].
    intros Hne. unfold composite in Hcase. rewrite bool_decide_true in Hcase by done. simpl in Hcase. by apply negb_false_iff.
Qed.
Lemma command_kept c i n s : kept s0 s → at_ i s = Some n → returns (command_on c i) s (kept s0).
Proof.
  intros Hs Hi. destruct (command_returns s0 rank Hwf c i n s (proj1 (proj1 Hs)) Hi) as (s' & Hrun & Hg).
  assert (c = CAdvance ∨ c ≠ CAdvance) as [->|Hc] by (destruct c; by (left + right)).
  { unfold command_on, returns. autorewrite with monad. apply (advance_kept _ i n); [done..|].
    unfold up_fuel. rewrite (fr_length s0 s (proj1 (proj1 (proj1 Hs)))). lia. }
  exists s'. split; [done|]. apply (kept_marked s); [done..|].
  assert (∀ F, preserves (marked F) (command_on c i)) as Hm.
  { intros F. apply pres_get_any. intros s1. destruct c; [done|apply startWork_marked|apply finishWork_marked|apply fail_marked|apply clearFault_marked]. }
  specialize (Hm (λ j, mark <$> at_ j s) s). rewrite Hrun in Hm. by apply Hm.
Qed.
Lemma run_commands_kept cs s : kept s0 s → (∀ c i, (c, i) ∈ cs → is_Some (at_ i s0)) → returns (run_commands cs) s (kept s0).
Proof.
  intros Hs Hcs. apply run_for_each; [|done]. intros [c i] s1 Hin Hs1.
  destruct (framed_some s0 s1 i (proj1 (proj1 (proj1 Hs1))) (Hcs c i Hin)) as [n Hn]. by apply (command_kept c i n).
Qed.
Lemma fresh_kept : fresh s0 → kept s0 s0.
Proof.
  intros Hf. split; [by eapply healthy_refl|]. intros i n c nc Hi Hr. destruct (Hf i n Hi) as (_ & Hnr & _). congruence.
Qed.

(** ** Clearing the faults *)
Definition clear_all (l : list Z) : list (command * Z) := (λ i, (CClear, i)) <$> l.
Lemma clearFault_owned i n s : at_ i s = Some n → owned (λ j, own <$> at_ j (put_store i (set_fault NONE n) s)) (clearFault i s).2.
Proof.
  intros Hi. unfold clearFault. rewrite (node_this_bind i n) by done. destruct (decide (ownFault_ n = NONE)) as [E|_].
  - intros j. simpl. destruct (decide (j = i)) as [->|Hne]; [|by rewrite at_put_ne].
    rewrite at_put_eq, Hi. simpl. unfold own, fixed, static. simpl. by rewrite E.
  - rewrite (update_bind i n) by done. apply (pres_bind (owned _)); [apply emit_owned|intros _; apply recompute_call_owned|done].
Qed.
(** No fault but in the nodes of [l]. *)
Definition faults_within (l : list Z) (s : NodeStore) : Prop := ∀ i n, at_ i s = Some n → i ∉ l → ownFault_ n = NONE.
Lemma clear_within i l n s : faults_within (i :: l) s → at_ i s = Some n → faults_within l (clearFault i s).2.
Proof.
  intros Hs Hi j m Hj Hl. pose proof (clearFault_owned i n s Hi j) as Ho. cbv beta in Ho. rewrite Hj in Ho.
  destruct (at_ j (put_store i (set_fault NONE n) s)) as [m'|] eqn:E; [|done].
  assert (ownFault_ m = ownFault_ m') as -> by (assert (own m = own m') as Eo by (simpl in Ho; congruence); unfold own in Eo; congruence).
  destruct (decide (j = i)) as [->|Hne]; [rewrite at_put_eq in E; by injection E as <-|].
  rewrite at_put_ne in E by done. apply (Hs j m' E). rewrite elem_of_cons. tauto.
Qed.
Lemma clear_all_sane l s : kept s0 s → faults_within l s → (∀ i, i ∈ l → is_Some (at_ i s0)) →
  returns (run_commands (clear_all l)) s (sane s0).
Proof.
  revert s. induction l as [|i l IH]; intros s Hs Hf Hl.
  { exists s. split; [done|]. split; [done|]. intros i n Hi. apply (Hf i n Hi), not_elem_of_nil. }
  destruct (framed_some s0 s i (proj1 (proj1 (proj1 Hs))) (Hl i ltac:(by left))) as [n Hn].
  destruct (command_kept CClear i n s Hs Hn) as (s1 & Hrun & Hs1).
  destruct (IH s1 Hs1) as (s2 & Hrun2 & Hs2).
  - pose proof (clear_within i l n s Hf Hn) as H. change (clearFault i s) with (command_on CClear i s) in H. by rewrite Hrun in H.
  - intros j Hj. apply Hl. by right.
  - exists s2. split; [|done]. cbn [run_commands clear_all fmap list_fmap for_each]. by rewrite (M_bind_ret _ (command_on CClear i) _ tt s1).
Qed.
(** The identifiers of the tree. *)
Lemma in_tree s i : healthy s0 s → is_Some (at_ i s) → i ∈ (nodes_ s0).*1.
Proof.
  intros Hs [n Hi]. destruct (healthy_fixed s0 s i n Hs Hi) as (n0 & Hn0 & _).
  apply (mfind_elem i n0 _ (wf_sorted _ _ Hwf)) in Hn0. by apply (list_elem_of_fmap_2 fst _ (i, n0)).
Qed.
Lemma commands_then_clear cs : fresh s0 → (∀ c i, (c, i) ∈ cs → is_Some (at_ i s0)) →
  returns (run_commands (cs ++ clear_all (nodes_ s0).*1)) s0 (sane s0).
Proof.
  intros Hf Hcs. destruct (run_commands_kept cs s0 (fresh_kept Hf) Hcs) as (s1 & Hrun & Hs1).
  destruct (clear_all_sane (nodes_ s0).*1 s1 Hs1) as (s2 & Hrun2 & Hs2).
  - intros i n Hi Hl. destruct Hl. apply (in_tree s1); [apply Hs1|by exists n].
  - intros i [[j n] [-> Hin]]%list_elem_of_fmap. exists n. by apply (mfind_elem _ _ _ (wf_sorted _ _ Hwf)).
  - exists s2. split; [|done]. unfold run_commands. rewrite for_each_app. by rewrite (M_bind_ret _ _ _ tt s1).
Qed.
End recovery.
