(* ===== verification/NodeReports.v ===== *)
(** * What the operator is told is true

    A node publishes when its signature changes.  After any commands every node
    has last published the state it is in, and the last line the plant controller
    received from a top node says what that node's step, fault, readiness and
    impact are. *)
From S2P Require Import Prelude StdMap HierNode NodeFacts.

(** ** Calls that return *)
Definition ensures {A} (P : NodeStore → Prop) (m : Call A) (Q : NodeStore → Prop) : Prop :=
  ∀ s a s', P s → m s = (Ret a, s') → Q s'.
Lemma ensures_ret {A} (a : A) P : ensures P (mret a) P.
Proof. by intros s a' s' HP [= <- <-]. Qed.
Lemma ensures_bind {A B} (m : Call A) (k : A → Call B) P Q R :
  ensures P m Q → (∀ a, ensures Q (k a) R) → ensures P (m ≫= k) R.
Proof. intros Hm Hk s b s2 HP Hrun. apply M_bind_inv in Hrun as (a & s1 & H1 & H2). eapply Hk; [by eapply Hm|done]. Qed.
Lemma ensures_when b m P : ensures P m P → ensures P (when b m) P.
Proof. destruct b; [done|intros _; apply ensures_ret]. Qed.
Lemma ensures_for_each {A} (body : A → Call unit) xs P : (∀ x, ensures P (body x) P) → ensures P (for_each body xs) P.
Proof. intros Hb. induction xs as [|x xs IH]; simpl; [apply ensures_ret|]. apply (ensures_bind _ _ _ P); [apply Hb|done]. Qed.
Lemma ensures_this {B} i (k : HierNode → Call B) P Q :
  (∀ n, ensures (λ s, P s ∧ at_ i s = Some n) (k n) Q) → ensures P (this i ≫= k) Q.
Proof.
  intros Hk s b s' HP. unfold this. autorewrite with monad. destruct (at_ i s) as [n|] eqn:E; [|done].
  intros Hrun. by eapply (Hk n); [split|].
Qed.
Lemma ensures_get {B} (k : NodeStore → Call B) P Q : (∀ s0, ensures P (k s0) Q) → ensures P (get ≫= k) Q.
Proof. intros Hk s b s' HP Hrun. by eapply (Hk s). Qed.
Lemma ensures_pre {A} (m : Call A) (P P' Q : NodeStore → Prop) : (∀ s, P s → P' s) → ensures P' m Q → ensures P m Q.
Proof. intros Hp Hm s a s' HP. by apply Hm, Hp. Qed.
Lemma ensures_post {A} (m : Call A) (P Q Q' : NodeStore → Prop) : (∀ s, Q s → Q' s) → ensures P m Q → ensures P m Q'.
Proof. intros Hq Hm s a s' HP Hrun. by eapply Hq, Hm. Qed.

Lemma not_in_add (i x : Z) (D : gset Z) : i ≠ x → i ∉ D → i ∉ {[x]} ∪ D.
Proof. set_solver. Qed.

(** ** What has been reported *)
Definition report_of (o : Output) : option ProcessReport := match o with OController r => Some r | _ => None end.
Definition last_report (i : Z) (l : list Output) : option ProcessReport :=
  last (filter (λ r, origin r = i) (omap report_of l)).
Definition state_of (n : HierNode) : Step * FaultLevel * bool * bool := (curState_ n, ownFault_ n, ready_ n, blocking_ n).
Definition told (r : ProcessReport) : Step * FaultLevel * bool * bool := (r_step r, r_fault r, r_ready r, r_affectsProduction r).

Section reports.
Context (s0 : NodeStore).
(** The nodes outside [D] have published the state they are in. *)
Definition up_to_date (n : HierNode) (i : Z) : Prop :=
  (lastSig_ n = no_signature ∧ state_of <$> at_ i s0 = Some (state_of n)) ∨ lastSig_ n = signature (buildReport n).
Record reported (D : gset Z) (s : NodeStore) : Prop := {
  rep_id i n : at_ i s = Some n → id_ n = i;
  rep_node i n : at_ i s = Some n → i ∉ D → up_to_date n i;
  rep_last i n : at_ i s = Some n → up_ n = UpController →
    match last_report i (out s) with
    | Some r => lastSig_ n = signature r ∧ ∃ m, r = buildReport m
    | None => lastSig_ n = no_signature
    end
}.
Lemma reported_weaken D D' s : D ⊆ D' → reported D s → reported D' s.
Proof. intros HD [H1 H2 H3]. split; [done| |done]. intros i n Hi Hn. apply H2; [done|set_solver]. Qed.

(** Changes that are not published. *)
Record quiet (f : HierNode → HierNode) : Prop := {
  quiet_id n : id_ (f n) = id_ n; quiet_up n : up_ (f n) = up_ n; quiet_sig n : lastSig_ (f n) = lastSig_ n }.
Lemma put_reported D D' i f n s : quiet f → D ⊆ D' → (i ∉ D' → up_to_date n i → up_to_date (f n) i) →
  at_ i s = Some n → reported D s → reported D' (put_store i (f n) s).
Proof.
  intros [Q1 Q2 Q3] HD Hf Hi [H1 H2 H3]. split.
  - intros j m. destruct (decide (j = i)) as [->|Hne]; [rewrite at_put_eq; intros [= <-]; rewrite Q1; auto|rewrite at_put_ne by done; auto].
  - intros j m. destruct (decide (j = i)) as [->|Hne].
    + rewrite at_put_eq. intros [= <-] Hn. apply Hf; [done|]. apply H2; [done|set_solver].
    + rewrite at_put_ne by done. intros Hj Hn. apply H2; [done|set_solver].
  - intros j m. simpl. destruct (decide (j = i)) as [->|Hne]; [rewrite at_put_eq; intros [= <-]; rewrite Q2, Q3; by apply H3|rewrite at_put_ne by done; by apply H3].
Qed.
Lemma update_reported D D' i f : quiet f → D ⊆ D' → (∀ n, i ∉ D' → up_to_date n i → up_to_date (f n) i) →
  ensures (reported D) (update i f) (reported D').
Proof.
  intros Hq HD Hf s a s' Hs [= _ <-]. destruct (at_ i s) as [n|] eqn:E; [|by apply (reported_weaken D)].
  apply (put_reported D D' i f n s); auto.
Qed.
(** The node becomes out of date. *)
Lemma update_dirty D i f : quiet f → ensures (reported D) (update i f) (reported ({[i]} ∪ D)).
Proof. intros Hq. apply update_reported; [done|set_solver|set_solver]. Qed.
Lemma log_reported D o : report_of o = None → ensures (reported D) (log o) (reported D).
Proof.
  intros Ho s a s' [H1 H2 H3] [= _ <-]. split; [done|done|]. intros i n Hi Hup. simpl.
  unfold last_report. rewrite omap_app. simpl. rewrite Ho, app_nil_r. by apply H3.
Qed.
Lemma emit_reported D i k a b msg : ensures (reported D) (emit i k a b msg) (reported D).
Proof.
  apply ensures_this. intros n. apply (ensures_pre _ _ (reported D)); [by intros s []|].
  destruct (sink_ n); [by apply log_reported|apply ensures_ret].
Qed.

(** [recompute] brings the node up to date, and its parent, which it dirties. *)
Lemma quiet_refresh : quiet refresh.
Proof. done. Qed.
(** After node [x], which was [n], has stored its signature and traced it. *)
Definition publishing (D : gset Z) (x : Z) (n : HierNode) (s : NodeStore) : Prop :=
  ∃ s1, reported ({[x]} ∪ D) s1 ∧ at_ x s1 = Some n ∧
    nodes_ s = nodes_ (put_store x (set_signature (signature (buildReport n)) n) s1) ∧
    omap report_of (out s) = omap report_of (out s1).
Lemma publishing_start D x n : ensures (λ s, reported ({[x]} ∪ D) s ∧ at_ x s = Some n)
  (update x (set_signature (signature (buildReport n)));; when (trace_ n) (log (OTrace (buildReport n))))%prog (publishing D x n).
Proof.
  intros s a s' [Hs Hx]. rewrite (update_bind x n) by done. intros Hrun. exists s. split; [done|]. split; [done|].
  destruct (trace_ n); injection Hrun as _ <-; simpl; [|done]. by rewrite omap_app, app_nil_r.
Qed.
(** The nodes are up to date, and so is what the controller knows of the others. *)
Lemma publishing_nodes D x n s j m : publishing D x n s → at_ j s = Some m →
  id_ m = j ∧ (j ∉ D → up_to_date m j) ∧ (j = x → lastSig_ m = signature (buildReport n) ∧ up_ m = up_ n) ∧
  (j ≠ x → up_ m = UpController →
    match last_report j (out s) with Some r => lastSig_ m = signature r ∧ ∃ m', r = buildReport m' | None => lastSig_ m = no_signature end).
Proof.
  intros (s1 & [H1 H2 H3] & Hx & Hnodes & Hout). unfold at_. rewrite Hnodes. fold (at_ j (put_store x (set_signature (signature (buildReport n)) n) s1)).
  destruct (decide (j = x)) as [->|Hne].
  - rewrite at_put_eq. intros [= <-]. split; [by apply (H1 x n)|]. split; [by right|]. split; [done|by intros []].
  - rewrite at_put_ne by done. intros Hj. split; [by apply H1|]. split; [intros; apply H2; [done|by apply not_in_add]|]. split; [done|].
    intros _ Hup. unfold last_report. rewrite Hout. by apply H3.
Qed.
Lemma publishing_below D x n s : publishing D x n s → up_ n ≠ UpController → reported D s.
Proof.
  intros Hp Hup. split; intros j m Hj; destruct (publishing_nodes D x n s j m Hp Hj) as (P1 & P2 & P3 & P4); [done..|].
  intros Hc. destruct (decide (j = x)) as [->|Hne]; [destruct P3; [done|congruence]|by apply P4].
Qed.
Lemma publishing_top D x n : up_ n = UpController → ensures (publishing D x n) (log (OController (buildReport n))) (reported D).
Proof.
  intros Hup s a s' Hp [= _ <-]. assert (id_ n = x) as Hid.
  { destruct Hp as (s1 & [H1 _ _] & Hx & _). by apply (H1 x n). }
  split; intros j m Hj; destruct (publishing_nodes D x n s j m Hp Hj) as (P1 & P2 & P3 & P4); [done..|].
  intros Hc. simpl. unfold last_report. rewrite omap_app, filter_app. simpl. rewrite filter_cons, filter_nil. simpl. rewrite Hid.
  destruct (decide (x = j)) as [<-|Hne].
  - rewrite last_snoc. split; [by apply P3|by exists n].
  - rewrite app_nil_r. by apply P4.
Qed.
Lemma quiet_child c r b : quiet (set_child c r b).
Proof. done. Qed.
(** [recompute] brings the node up to date, and its parent, which it dirties. *)
Lemma recompute_reported fuel : ∀ x D, ensures (reported ({[x]} ∪ D)) (recomputeAndReport fuel x) (reported D).
Proof.
  induction fuel as [|fuel IH]; intros x D; [by intros s a s' _|]. cbn [recomputeAndReport].
  apply (ensures_bind _ _ _ (reported ({[x]} ∪ D))); [apply update_reported; [apply quiet_refresh|done|set_solver]|intros _].
  apply ensures_this. intros n. simpl. destruct (Z.eqb_spec (signature (buildReport n)) (lastSig_ n)) as [Hsig|_].
  { intros s a s' [[H1 H2 H3] Hx] [= _ <-]. split; [done| |done]. intros i m Hi Hn. destruct (decide (i = x)) as [->|Hne]; [|apply H2; [done|by apply not_in_add]].
    right. congruence. }
  intros s a s' Hs. rewrite <- M_bind_assoc. revert s a s' Hs. change (ensures (λ s, reported ({[x]} ∪ D) s ∧ at_ x s = Some n)
    ((update x (set_signature (signature (buildReport n)));; when (trace_ n) (log (OTrace (buildReport n))))%prog ≫= λ _,
      match up_ n with UpNull => mret tt | UpController => log (OController (buildReport n))
      | UpNode p => this p ≫= λ _, update p (set_child (id_ n) (ready_ n) (blocking_ n)) ≫= λ _, recomputeAndReport fuel p end) (reported D)).
  apply (ensures_bind _ _ _ (publishing D x n)); [apply publishing_start|intros _].
  destruct (up_ n) as [|p|] eqn:Hup; [|apply (ensures_pre _ _ (reported D)); [intros s Hs; apply (publishing_below D x n s Hs); congruence|]|by apply publishing_top].
  - intros s a s' Hs [= _ <-]. apply (publishing_below D x n s Hs). congruence.
  - apply ensures_this. intros np. apply (ensures_pre _ _ (reported D)); [by intros s []|].
    apply (ensures_bind _ _ _ (reported ({[p]} ∪ D))); [apply update_dirty, quiet_child|intros _]. apply IH.
Qed.

(** ** The commands *)
Lemma recompute_call_reported D i : ensures (reported ({[i]} ∪ D)) (recompute i) (reported D).
Proof. apply ensures_get. intros s. apply recompute_reported. Qed.
Lemma ensures_node {B} i (k : HierNode → Call B) P Q : (∀ n, ensures P (k n) Q) → ensures P (this i ≫= k) Q.
Proof. intros Hk. apply ensures_this. intros n. apply (ensures_pre _ _ P); [by intros s []|done]. Qed.
(** Changing a node, some calls, and reporting. *)
Lemma change_and_report D i f (m : Call unit) : quiet f → ensures (reported ({[i]} ∪ D)) m (reported ({[i]} ∪ D)) →
  ensures (reported D) (update i f ≫= λ _, m ≫= λ _, recompute i) (reported D).
Proof.
  intros Hf Hm. apply (ensures_bind _ _ _ (reported ({[i]} ∪ D))); [by apply update_dirty|intros _].
  apply (ensures_bind _ _ _ (reported ({[i]} ∪ D))); [done|intros _]. apply recompute_call_reported.
Qed.
Lemma quiet_promote : quiet promote.
Proof. split; intros n; unfold promote; by destruct (plan_ n !! pos_ n). Qed.
Lemma advance_self_reported D i : ensures (reported D) (advance_self i) (reported D).
Proof.
  apply ensures_node. intros n. apply (ensures_bind _ _ _ (reported ({[i]} ∪ D))); [apply update_dirty, quiet_promote|intros _].
  apply ensures_node. intros n1. apply (ensures_bind _ _ _ (reported ({[i]} ∪ D))); [apply ensures_when, emit_reported|intros _].
  apply (ensures_bind _ _ _ (reported ({[i]} ∪ D))); [apply ensures_when|intros _; apply recompute_call_reported].
  apply (ensures_bind _ _ _ (reported ({[i]} ∪ D))); [|intros _; apply emit_reported].
  apply update_reported; [done|done|set_solver].
Qed.
Lemma route_reported cmd D c : (∀ c, ensures (reported D) (cmd c) (reported D)) → ensures (reported D) (route cmd c) (reported D).
Proof. intros Hc. apply ensures_get. intros s. destruct (at_ c s); [apply Hc|apply ensures_ret]. Qed.
Lemma children_reported cmd D (b : bool) cs : (∀ c, ensures (reported D) (cmd c) (reported D)) →
  ensures (reported D) (when b (for_each (route cmd) cs)) (reported D).
Proof. intros Hc. apply ensures_when, ensures_for_each. intros c. by apply route_reported. Qed.
Lemma advance_reported fuel : ∀ i D, ensures (reported D) (advance fuel i) (reported D).
Proof.
  induction fuel as [|fuel IH]; intros i D; [by intros s a s' _|]. cbn [advance]. apply ensures_node. intros n.
  destruct (_ || _); [apply ensures_ret|]. destruct (_ && _); [|apply advance_self_reported]. by apply children_reported.
Qed.
Lemma startWork_reported fuel : ∀ i D, ensures (reported D) (startWork fuel i) (reported D).
Proof.
  induction fuel as [|fuel IH]; intros i D; [by intros s a s' _|]. cbn [startWork]. apply ensures_node. intros n.
  destruct (_ || _); [apply ensures_ret|]. apply change_and_report; [done|]. by apply children_reported.
Qed.
Lemma finishWork_reported fuel : ∀ i D, ensures (reported D) (finishWork fuel i) (reported D).
Proof.
  induction fuel as [|fuel IH]; intros i D; [by intros s a s' _|]. cbn [finishWork]. apply ensures_node. intros n.
  destruct (negb _); [apply ensures_ret|]. apply change_and_report; [done|]. by apply children_reported.
Qed.
Lemma command_reported c i D : ensures (reported D) (command_on c i) (reported D).
Proof.
  apply ensures_get. intros s. destruct c as [| | |sev|]; [apply advance_reported|apply startWork_reported|apply finishWork_reported|..].
  - apply ensures_node. intros n. apply change_and_report; [done|]. apply ensures_when, emit_reported.
  - apply ensures_node. intros n. case_decide; [apply ensures_ret|]. apply change_and_report; [done|]. apply emit_reported.
Qed.
Lemma fresh_reported : fresh s0 → (∀ i n, at_ i s0 = Some n → id_ n = i) → out s0 = [] → reported ∅ s0.
Proof.
  intros Hf Hid Hout. split; [done|..].
  - intros i n Hi _. left. destruct (Hf i n Hi) as (H1 & _). by rewrite Hi.
  - intros i n Hi _. rewrite Hout. simpl. by destruct (Hf i n Hi).
Qed.
End reports.

(** C21: whatever commands a freshly wired tree receives, they return, and the
    last report the controller has of a top node says that node's step, fault,
    readiness and impact; if it has none the node is as it was deployed. *)
Theorem controller_knows s0 rank cs :
  wf s0 rank → fresh s0 → out s0 = [] → (∀ c i, (c, i) ∈ cs → is_Some (at_ i s0)) →
  ∃ s, run_commands cs s0 = (Ret tt, s) ∧
    ∀ i n, at_ i s = Some n → up_ n = UpController →
      match last_report i (out s) with
      | Some r => told r = state_of n
      | None => state_of <$> at_ i s0 = Some (state_of n)
      end.
Proof.
  intros Hwf Hfresh Hout Hcs.
  assert (good s0 s0) as Hgood by (split; [by eapply framed_refl|by apply fresh_inv]).
  destruct (run_for_each (λ ci, command_on ci.1 ci.2) cs s0 (good s0)) as (s & Hrun & Hs); [|done|].
  { intros [c i] s Hin Hs. destruct (framed_some s0 s i (proj1 Hs) (Hcs c i Hin)) as [n Hn]. by eapply command_returns. }
  exists s. split; [done|]. pose proof (fresh_reported s0 Hfresh (wf_id _ _ Hwf) Hout) as Hr.
  apply (ensures_for_each (λ ci, command_on ci.1 ci.2) cs (reported s0 ∅)) in Hrun as [H1 H2 H3]; [|intros []; apply command_reported|done].
  intros i n Hi Hup. specialize (H2 i n Hi ltac:(set_solver)). specialize (H3 i n Hi Hup).
  destruct (last_report i (out s)) as [r|]; destruct H2 as [[Hsig Hold]|Hsig].
  - destruct H3 as [H3 [m ->]]. rewrite signature_sigv in H3. rewrite Hsig in H3. by destruct (sigv_not_initial _ _ _ _ (eq_sym H3)).
  - destruct H3 as [H3 [m ->]]. rewrite Hsig, !signature_sigv in H3. apply sigv_inj in H3 as (E1 & E2 & E3 & E4).
    unfold told, state_of. simpl. congruence.
  - done.
  - rewrite H3, signature_sigv in Hsig. by destruct (sigv_not_initial _ _ _ _ (eq_sym Hsig)).
Qed.
