(* ===== verification/Plant.v ===== *)
(** * The plant controller and the scenarios of [ddd_multi_device/src]

    [application/plant_controller.hpp] and [main.cpp].  What a node traces or
    publishes, and what the controller receives, is the store's output; the
    text of the output is given by the functions below. *)
From Stdlib Require Import Sorting.Sorted.
From S2P Require Import Prelude StdMap HierNode NodeFacts.
From S2P Require DeviceModule.
Local Open Scope prog_scope.

(** ** [PlantController] *)
(** [while (!n->ready() && guard++ < 100) n->advance();] *)
Fixpoint ready_loop (guard : nat) (root : Z) : Call unit :=
  n ← this root;
  if ready_ n then mret tt
  else match guard with
       | O => mret tt
       | S guard' => command_on CAdvance root ;; ready_loop guard' root
       end.
Definition if_present (i : Z) (m : Call unit) : Call unit :=
  s ← get; match at_ i s with Some _ => m | None => mret tt end.
Definition runToReady (root : Z) : Call unit := if_present root (ready_loop 100 root).
Definition ctrl_startWork (root : Z) : Call unit := if_present root (command_on CStart root).
Definition ctrl_finishWork (root : Z) : Call unit := if_present root (command_on CFinish root).
Definition ctrl_fail (i : Z) (sev : FaultLevel) : Call unit := if_present i (command_on (CFail sev) i).
Definition ctrl_clearFault (i : Z) : Call unit := if_present i (command_on CClear i).

Definition yn (b : bool) : string := if b then "Y" else "N".
(** [report(e)]: the line printed. *)
Definition report_text (e : ProcessReport) : string :=
  "    [上报 L" +:+ pretty (r_layer e) +:+ "] " +:+ r_name e +:+ " step=" +:+ stepLabel (r_step e)
  +:+ " ready=" +:+ yn (r_ready e) +:+ " fault=" +:+ faultLabel (r_fault e)
  +:+ " affectsProduction=" +:+ (if r_affectsProduction e then "YES" else "no") +:+ " (" +:+ reason e +:+ ")".
Definition dump_line (n : HierNode) : string :=
  "  " +:+ name_ n +:+ " [L" +:+ pretty (layer_ n) +:+ "] step=" +:+ stepLabel (curState_ n)
  +:+ " ready=" +:+ yn (ready_ n) +:+ " fault=" +:+ faultLabel (ownFault_ n)
  +:+ " affects=" +:+ yn (blocking_ n).
Definition dumpAll (s : NodeStore) : list string := dump_line <$> (nodes_ s).*2.
(** The subscriber of [attachBus]. *)
Definition event_text (e : DomainEvent) : string :=
  "      [📣 事件] " +:+ eventKindLabel (kind e) +:+ " id=" +:+ pretty (moduleId e) +:+ " "
  +:+ pretty (from e) +:+ "->" +:+ pretty (to e)
  +:+ (if decide (message e = "") then "" else " (" +:+ message e +:+ ")").
(** The trace hooks of the two scenarios. *)
Definition trace_text (r : ProcessReport) : string :=
  "   [↑升报] " +:+ r_name r +:+ "[L" +:+ pretty (r_layer r) +:+ "] -> step=" +:+ stepLabel (r_step r)
  +:+ " ready=" +:+ yn (r_ready r) +:+ " affects=" +:+ yn (r_affectsProduction r).
Definition fault_trace_text (r : ProcessReport) : string :=
  "   [↑升报] " +:+ r_name r +:+ "[L" +:+ pretty (r_layer r) +:+ "] -> fault=" +:+ faultLabel (r_fault r)
  +:+ " affects=" +:+ yn (r_affectsProduction r) +:+ " (" +:+ reason r +:+ ")".

(** ** The deployments *)
Definition deploy (i : Z) (name : string) (layer : Z) (plan : list Step) (critical : bool)
    (up : Upstream) (children : list Z) (s : NodeStore) : NodeStore :=
  add (wire plan critical true true true up children (new_HierNode i name layer)) s.
Definition normal_plant : NodeStore :=
  empty_store
  |> deploy 1 "产线" 0 [POWER] true UpController [11; 12; 13]%Z
  |> deploy 11 "预热工位" 1 [POWER] true (UpNode 1) [111; 112]%Z
  |> deploy 12 "加工工位" 1 [POWER; PREHEAT] true (UpNode 1) [121]%Z
  |> deploy 13 "品检工位" 1 [POWER] true (UpNode 1) [131]%Z
  |> deploy 111 "加热器Heater" 2 [POWER; PREHEAT; SELFCHECK; HOME] true (UpNode 11) []
  |> deploy 112 "温度传感(pre-hot)" 2 [POWER] false (UpNode 11) []
  |> deploy 121 "精密定位DP-200" 2 [POWER; HOME; SELFCHECK] true (UpNode 12) []
  |> deploy 131 "质检相机QCcam" 2 [POWER; SELFCHECK; HOME] false (UpNode 13) [].
Definition scenarioNormal : Call unit := runToReady 1 ;; ctrl_startWork 1.

Definition fault_plant : NodeStore :=
  empty_store
  |> deploy 1 "产线" 0 [POWER] true UpController [11; 12]%Z
  |> deploy 11 "预热工位" 1 [POWER] true (UpNode 1) [111; 112]%Z
  |> deploy 12 "加工工位" 1 [POWER] true (UpNode 1) [121]%Z
  |> deploy 111 "加热器Heater" 2 [POWER; PREHEAT; SELFCHECK; HOME] true (UpNode 11) []
  |> deploy 112 "温度感应器(非关键告警)" 2 [POWER] false (UpNode 11) []
  |> deploy 121 "精密机DP-200" 2 [POWER; HOME; SELFCHECK] true (UpNode 12) [].
Definition scenarioFault : Call unit :=
  runToReady 1 ;;
  ctrl_fail 112 ALARM ;;
  ctrl_clearFault 112 ;;
  ctrl_fail 121 BLOCKING ;;
  ctrl_clearFault 121 ;;
  runToReady 1.

(** [scenarioSensorMapping]: the replies of its calls, in order. *)
Module Mapping.
Import DeviceModule.
Definition start_modules : Modules :=
  <[501%Z := add_child (Some 502%Z) (new_DeviceModule "加工台DP-500" OPERATOR)]>
  (<[502%Z := new_DeviceModule "温度传感" SENSOR]>
  (<[999%Z := new_DeviceModule "非法模块" OPERATOR]> ∅)).
Definition scenarioSensorMapping : M Modules (list bool) :=
  r1 ← powerOn 501; r2 ← preheatDone 501; r3 ← startWork 501; r4 ← finishWork 501;
  r5 ← setFault 501; r6 ← reset 501;
  r7 ← preheatDone 999;
  refreshSensor 502 OUT_OF_RANGE ;;
  r8 ← powerOn 501; r9 ← preheatDone 501;
  refreshSensor 502 NORMAL ;;
  r10 ← preheatDone 501; r11 ← startWork 501;
  mret (isOk <$> [r1; r2; r3; r4; r5; r6; r7; r8; r9; r10; r11]).
Example mapping_replies :
  (scenarioSensorMapping start_modules).1 =
    Ret [true; true; true; true; true; true; false; true; false; true; true].
Proof. by_compute. Qed.

(** The sensor takes every control command but [startWork]. *)
Example sensor_takes_commands :
  ((r1 ← powerOn 502; r2 ← preheatDone 502; r3 ← startWork 502; r4 ← setFault 502; r5 ← reset 502;
    mret (isOk <$> [r1; r2; r3; r4; r5])) start_modules).1 = Ret [true; true; false; true; true].
Proof. by_compute. Qed.

Lemma commands_follow_table_witness :
  ∃ m, start_modules !! 501%Z = Some m ∧
  ∃ r, (run CPowerOn 501 start_modules).1 = Ret r ∧ (isOk r = true ↔ allowed CPowerOn m start_modules) ∧
    if isOk r
    then ∃ to, (run CPowerOn 501 start_modules).2 = <[501%Z := set_state to m]> start_modules ∧
         moves CPowerOn (state_ m) to = true ∧
         (to = DeviceModule.READY → Forall (child_ready start_modules) (children_ m)) ∧
         (to = WORKING → type_ m = OPERATOR ∧ Forall (child_sensor_ok start_modules) (children_ m))
    else (run CPowerOn 501 start_modules).2 = start_modules.
Proof.
  eexists. split; [reflexivity|]. apply (commands_follow_table CPowerOn 501); [reflexivity|].
  intros i. cbn. rewrite list_elem_of_singleton. intros [= ->]. by eexists.
Defined.
End Mapping.

(** ** What the scenarios reach *)
Definition status (s : NodeStore) : list (Z * Step * bool * bool) :=
  (λ n, (id_ n, curState_ n, ready_ n, blocking_ n)) <$> (nodes_ s).*2.

(** Scenario A: the line is ready well within the controller's 100 rounds,
    and starting it puts every node to work. *)
Theorem normal_scenario_works :
  (scenarioNormal normal_plant).1 = Ret tt ∧
  (ready_loop 7 1 normal_plant).2 = (runToReady 1 normal_plant).2 ∧
  status (runToReady 1 normal_plant).2 =
    ((λ i, (i, READY, true, false)) <$> [1; 11; 12; 13; 111; 112; 121; 131]%Z) ∧
  status (scenarioNormal normal_plant).2 =
    ((λ i, (i, WORK, true, false)) <$> [1; 11; 12; 13; 111; 112; 121; 131]%Z).
Proof. vm_compute. done. Qed.

(** The fault scenario: the alarm of the uncritical sensor blocks nothing, the
    hard fault blocks its station and the line, and clearing it restores them
    at once: they are still ready, no step of a plan is run again. *)
Example fault_scenario :
  let s1 := (runToReady 1 fault_plant).2 in
  let s2 := (ctrl_fail 112 ALARM s1).2 in
  let s3 := (ctrl_fail 121 BLOCKING (ctrl_clearFault 112 s2).2).2 in
  let s4 := (ctrl_clearFault 121 s3).2 in
  (λ x, x.2) <$> status s2 = [false; false; false; false; false; false] ∧
  (λ x, x.2) <$> status s3 = [true; false; true; false; false; true] ∧
  status s4 = status s1 ∧ (runToReady 1 s4).2 = s4.
Proof. vm_compute. done. Qed.

(** ** Witnesses *)
Definition layer_rank (i : Z) : nat := if (i <? 10)%Z then 0 else if (i <? 100)%Z then 1 else 2.
(** Goes through the nodes of the plant for a lookup [Hi]. *)
Ltac plant_cases i n Hi :=
  let l := eval vm_compute in (nodes_ fault_plant) in
  change (mfind i l = Some n) in Hi; cbn [mfind] in Hi;
  repeat (destruct (decide (i = _)) as [->|] in Hi; [injection Hi as <-|]); [..|done].
Lemma fault_plant_wf : wf fault_plant layer_rank.
Proof.
  split.
  - repeat apply minsert_sorted. constructor.
  - intros i n Hi. by plant_cases i n Hi.
  - intros i n p Hi. plant_cases i n Hi; intros [= <-];
      (split; [vm_compute; by eexists|vm_compute; lia]).
  - intros i n c Hi. plant_cases i n Hi; cbn; rewrite ?elem_of_cons, elem_of_nil; intros Hc _;
      repeat (destruct Hc as [->|Hc]; [vm_compute; lia|]); done.
  - intros i n Hi. plant_cases i n Hi; vm_compute; lia.
Qed.
Lemma fault_plant_fresh : fresh fault_plant.
Proof. intros i n Hi. by plant_cases i n Hi. Qed.

Definition fault_commands : list (command * Z) :=
  [(CAdvance, 1%Z); (CFail ALARM, 112%Z); (CFail BLOCKING, 121%Z); (CClear, 112%Z)].
Lemma fault_commands_sent c i : (c, i) ∈ fault_commands → is_Some (at_ i fault_plant).
Proof.
  intros Hin. unfold fault_commands in Hin. rewrite !elem_of_cons, elem_of_nil in Hin.
  destruct_or! Hin; try done; injection Hin as -> ->; vm_compute; by eexists.
Qed.
Lemma escalation_exact_witness :
  ∃ s, run_commands fault_commands fault_plant = (Ret tt, s) ∧
    ∀ i n, at_ i s = Some n → (blocking_ n = true ↔ affected (view s) i).
Proof.
  exact (escalation_exact fault_plant layer_rank fault_plant_wf fault_commands fault_plant_fresh fault_commands_sent).
Defined.
Lemma signature_faithful_witness :
  let n := new_HierNode 1 "a" 0 in let n' := new_HierNode 2 "b" 0 in
  (curState_ n = curState_ n' ∧ ownFault_ n = ownFault_ n' ∧ ready_ n = ready_ n' ∧
   blocking_ n = blocking_ n') ∧ signature (buildReport n) ≠ lastSig_ (new_HierNode 0 "" 0).
Proof. exact (signature_faithful (new_HierNode 1 "a" 0) (new_HierNode 2 "b" 0) eq_refl). Defined.
