(* ===== verification/PlantFacts.v ===== *)
(** * The controller brings a plant to work

    [PlantController] on any tree of nodes that is wired below its root: whatever
    commands it has received, once its faults are cleared [runToReady] gets the
    root ready within its hundred rounds, if the plans of all nodes together have
    no more steps, and [startWork] then puts every node below to work. *)
From S2P Require Import Prelude StdMap HierNode NodeFacts NodeReady NodeRecovery NodeReports Plant.

Section plant.
Context (s0 : NodeStore) (rank : Z → nat) (Hwf : wf s0 rank) (Hwired : wired s0).
Definition rounds_left (s : NodeStore) : nat := sum_list (need_at s <$> (nodes_ s0).*1).

Lemma ready_loop_ready guard root s : sane s0 s → is_Some (at_ root s) → rounds_left s ≤ guard →
  ∃ s' n, ready_loop guard root s = (Ret tt, s') ∧ sane s0 s' ∧ at_ root s' = Some n ∧ ready_ n = true.
Proof.
  revert s. induction guard as [|guard IH]; intros s Hs [n Hn] Hg; cbn [ready_loop]; rewrite (node_this_bind root n) by done.
  - destruct (ready_ n) eqn:Hr; [by exists s, n|]. pose proof (need_pos n Hr). exfalso.
    assert (0 < rounds_left s); [|lia]. unfold rounds_left.
    pose proof (in_tree s0 rank Hwf s root (sane_healthy s0 Hs) ltac:(by exists n)) as Hin. induction (nodes_ s0).*1 as [|i l IHl]; [by apply elem_of_nil in Hin|].
    rewrite sum_list_cons. apply elem_of_cons in Hin as [<-|Hin]; [unfold need_at at 1; rewrite Hn; simpl; lia|specialize (IHl Hin); lia].
  - destruct (ready_ n) eqn:Hr; [by exists s, n|].
    destruct (advance_drives s0 rank Hwf Hwired (up_fuel s) root n s Hs Hn) as (s1 & Hrun & Hs1 & Hp & Hgain).
    { unfold up_fuel. rewrite (fr_length s0 s (sane_framed s0 Hs)). lia. }
    rewrite (M_bind_ret _ (command_on CAdvance root) _ tt s1) by exact Hrun.
    apply IH; [done|destruct (progress_at Hp Hn) as (n1 & Hn1 & _); by exists n1|].
    pose proof (gain_need (nodes_ s0).*1 s s1 (Hgain n Hn Hr) (λ i, in_tree s0 rank Hwf s i (sane_healthy s0 Hs))). unfold rounds_left in *. lia.
Qed.

Lemma rounds_bound s : healthy s0 s → rounds_left s ≤ total_need s0.
Proof.
  intros [_ Hp]. rewrite total_need_at by apply Hwf. apply sum_list_le. intros i _. unfold need_at. specialize (Hp i).
  destruct (at_ i s0), (at_ i s); try done. apply Hp.
Qed.
Lemma sane_works root s : sane s0 s → is_Some (at_ root s) → total_need s0 ≤ 100 →
  ∃ s', (runToReady root ;; ctrl_startWork root)%prog s = (Ret tt, s') ∧
    ∀ j, below s0 root j → ∃ n, at_ j s' = Some n ∧ ready_ n = true ∧ working_ n = true ∧ curState_ n = WORK ∧ blocking_ n = false.
Proof.
  intros Hs Hroot Hneed. pose proof (rounds_bound s (sane_healthy s0 Hs)).
  destruct (ready_loop_ready 100 root s Hs Hroot) as (s1 & n1 & Hrun1 & Hs1 & Hn1 & Hr1); [lia|].
  destruct (startWork_works s0 rank Hwf Hwired (up_fuel s1) root n1 s1 Hs1 Hn1) as (s2 & Hrun2 & Hs2 & Hst & Hw).
  { unfold up_fuel. rewrite (fr_length s0 s1 (sane_framed s0 Hs1)). lia. }
  exists s2. split.
  - rewrite (M_bind_ret _ (runToReady root) _ tt s1).
    + unfold ctrl_startWork, if_present. autorewrite with monad. by rewrite Hn1.
    + unfold runToReady, if_present. autorewrite with monad. destruct Hroot as [r0 ->]. done.
  - intros j Hj. destruct (Hw n1 Hn1 Hr1 j Hj) as (n & Hn & Hb1 & Hb2). exists n.
    destruct (below_ready s0 rank Hwf Hwired s2 root j Hs2 Hj) as (n' & Hn' & Hr').
    { destruct (progress_at (proj1 Hst) Hn1) as (n2 & Hn2 & _ & _ & Hr2). exists n2. auto. }
    split_and!; [done|congruence|done..|]. by apply (healthy_sound s0 rank Hwf s2 j n (sane_healthy s0 Hs2) (proj2 Hs2)).
Qed.
(** C5: a freshly wired tree whose plans fit into the hundred rounds of the
    controller: whatever commands its nodes receive, failures included, once the
    faults are cleared running to ready and starting return, and every node from
    the root down is then ready and at work, and none blocks. *)
Theorem plant_works cs root :
  fresh s0 → (∀ c i, (c, i) ∈ cs → is_Some (at_ i s0)) → is_Some (at_ root s0) → total_need s0 ≤ 100 →
  ∃ s, (run_commands (cs ++ clear_all (nodes_ s0).*1) ;; runToReady root ;; ctrl_startWork root)%prog s0 = (Ret tt, s) ∧
    ∀ j, below s0 root j → ∃ n, at_ j s = Some n ∧ ready_ n = true ∧ working_ n = true ∧ curState_ n = WORK ∧ blocking_ n = false.
Proof.
  intros Hfresh Hcs Hroot Hneed. destruct (commands_then_clear s0 rank Hwf Hwired cs Hfresh Hcs) as (s1 & Hrun & Hs1).
  destruct (sane_works root s1 Hs1) as (s & Hrun2 & Hs); [by apply (framed_some s0); [apply (sane_framed s0 Hs1)|]|done|].
  exists s. by rewrite (M_bind_ret _ _ _ tt s1).
Qed.
End plant.

Lemma fault_plant_wired : wired fault_plant.
Proof.
  split.
  - intros i n c Hi. plant_cases i n Hi; cbn; rewrite ?elem_of_cons, elem_of_nil; intros Hc;
      repeat (destruct Hc as [->|Hc]; [by eexists|]); done.
  - intros i n Hi. by plant_cases i n Hi.
Qed.
(** The commands of the escalation, a fault that stops the plant among them,
    before the plant is run. *)
Lemma plant_works_witness : ∃ s, (run_commands (fault_commands ++ clear_all (nodes_ fault_plant).*1) ;; runToReady 1 ;; ctrl_startWork 1)%prog fault_plant = (Ret tt, s) ∧
  ∀ j, below fault_plant 1 j → ∃ n, at_ j s = Some n ∧ ready_ n = true ∧ working_ n = true ∧ curState_ n = WORK ∧ blocking_ n = false.
Proof.
  apply (plant_works fault_plant layer_rank fault_plant_wf fault_plant_wired fault_commands 1 fault_plant_fresh fault_commands_sent);
    [by eexists|vm_compute; lia].
Defined.

(** The commands of the escalation, sent to nodes of the plant. *)
Lemma controller_knows_witness : ∃ s, run_commands fault_commands fault_plant = (Ret tt, s) ∧
  ∀ i n, at_ i s = Some n → up_ n = UpController →
    match last_report i (out s) with
    | Some r => told r = state_of n
    | None => state_of <$> at_ i fault_plant = Some (state_of n)
    end.
Proof.
  exact (controller_knows fault_plant layer_rank fault_commands fault_plant_wf fault_plant_fresh eq_refl fault_commands_sent).
Defined.
(** After a hard fault below, the last line the controller got says so. *)
Example controller_hears_of_fault :
  (λ r, (r_fault r, r_affectsProduction r)) <$> last_report 1 (out (run_commands [(CAdvance, 1%Z); (CFail BLOCKING, 121%Z)] fault_plant).2) =
    Some (NONE, true).
Proof. by_compute. Qed.
