(* ===== verification/Pipeline.v ===== *)
(** * The stage pipeline of [threads/cancel/include/stage/pipeline.hpp]

    A stage is a program whose atomic actions interleave with the other threads:
    it changes the variables [W] it captures, reads them, polls or raises the stop
    flag, loops, returns or throws; it need not end.  The worker's own steps are
    those of [run]; the calls of the other threads are atomic. *)
From S2P Require Import Prelude.

Section pipeline.
Context {W : Type}.

Inductive prog :=
  | PRet
  | PThrow (e : exn)
  | PAct (f : W → W) (k : prog)
  | PRead {A : Type} (g : W → A) (k : A → prog)
  | PPoll (k : bool → prog)       (* [stop_requested()] *)
  | PRequestStop (k : prog)       (* [request_stop()] *)
  | PSeq (a b : prog)
  | PWhile (test : W → bool → bool) (body k : prog).   (* the test may poll the flag *)
Definition Cleanup := bool → prog.

(** Where the worker is in [run]. *)
Inductive Worker :=
  | NoWorker
  | InLoop (i : nat)                                   (* the test of the [for] *)
  | InStage (i : nat) (rest : prog)
  | AfterStage (i : nat)                               (* the load of the flag *)
  | BeforeCleanup (failure : option exn) (aborted : bool)
  | InCleanup (failure : option exn) (rest : prog)
  | Publishing (failure : option exn)
  | Finished.
Inductive Event := EStage (i : nat) | ECleanup (aborted : bool).
Record Pipeline := mkPipeline {
  steps_ : list prog; cleanup_ : option Cleanup;
  stop_flag_ : bool; current_ : Z; done_ : bool; failure_ : option exn;
  worker_ : Worker; world : W; log : list Event
}.
Definition new_Pipeline (w : W) : Pipeline :=
  {| steps_ := []; cleanup_ := None; stop_flag_ := false; current_ := -1; done_ := false; failure_ := None;
     worker_ := NoWorker; world := w; log := [] |}.

Definition joinable (p : Pipeline) : bool := match worker_ p with NoWorker => false | _ => true end.
Definition running_locked (p : Pipeline) : bool := joinable p && negb (done_ p).

(** Assignments. *)
Definition set_flag (b : bool) (p : Pipeline) : Pipeline :=
  {| steps_ := steps_ p; cleanup_ := cleanup_ p; stop_flag_ := b; current_ := current_ p; done_ := done_ p;
     failure_ := failure_ p; worker_ := worker_ p; world := world p; log := log p |}.
Definition move (w : Worker) (p : Pipeline) : Pipeline :=
  {| steps_ := steps_ p; cleanup_ := cleanup_ p; stop_flag_ := stop_flag_ p; current_ := current_ p; done_ := done_ p;
     failure_ := failure_ p; worker_ := w; world := world p; log := log p |}.
Definition move_to (w : Worker) (cur : Z) (ev : list Event) (p : Pipeline) : Pipeline :=
  {| steps_ := steps_ p; cleanup_ := cleanup_ p; stop_flag_ := stop_flag_ p; current_ := cur; done_ := done_ p;
     failure_ := failure_ p; worker_ := w; world := world p; log := log p ++ ev |}.
Definition set_world (w : W) (p : Pipeline) : Pipeline :=
  {| steps_ := steps_ p; cleanup_ := cleanup_ p; stop_flag_ := stop_flag_ p; current_ := current_ p; done_ := done_ p;
     failure_ := failure_ p; worker_ := worker_ p; world := w; log := log p |}.

(** ** The calls *)
Definition set_steps (steps : list prog) : M Pipeline unit :=
  p ← get;
  if running_locked p then throw (LogicError "Pipeline::set_steps: pipeline already running")
  else put {| steps_ := steps; cleanup_ := cleanup_ p; stop_flag_ := stop_flag_ p; current_ := current_ p;
              done_ := done_ p; failure_ := failure_ p; worker_ := worker_ p; world := world p; log := log p |}.
Definition set_cleanup (cleanup : option Cleanup) : M Pipeline unit :=
  p ← get;
  if running_locked p then throw (LogicError "Pipeline::set_cleanup: pipeline already running")
  else put {| steps_ := steps_ p; cleanup_ := cleanup; stop_flag_ := stop_flag_ p; current_ := current_ p;
              done_ := done_ p; failure_ := failure_ p; worker_ := worker_ p; world := world p; log := log p |}.
(** A previous run is over when the test passes, so the [join] returns. *)
Definition start : M Pipeline unit :=
  p ← get;
  if running_locked p then throw (LogicError "Pipeline::start: already running")
  else put {| steps_ := steps_ p; cleanup_ := cleanup_ p; stop_flag_ := false; current_ := -1;
              done_ := false; failure_ := None; worker_ := InLoop 0; world := world p; log := [] |}.
Definition request_stop : M Pipeline unit := modify (set_flag true).
Definition rethrow_if_failed : M Pipeline unit :=
  p ← get; match failure_ p with Some e => throw e | None => mret tt end.
(** [wait]: [None] while it blocks. *)
Definition wait_ready (p : Pipeline) : bool := done_ p || negb (joinable p).
Definition wait (p : Pipeline) : option (outcome unit * Pipeline) :=
  if wait_ready p then Some (rethrow_if_failed p) else None.
(** [stop]: the request; the caller then is in [wait]. *)
Definition stop_then (p : Pipeline) : option (outcome unit * Pipeline) := wait (request_stop p).2.
(** The destructor requests a stop and joins: [None] while it blocks.  It does
    not look at the failure. *)
Definition joined (p : Pipeline) : bool := match worker_ p with NoWorker | Finished => true | _ => false end.
Definition destroy (p : Pipeline) : option (outcome unit) :=
  let p' := (request_stop p).2 in if joined p' then Some (Ret tt) else None.
Definition stop_requested (p : Pipeline) : bool := stop_flag_ p.
Definition current_stage (p : Pipeline) : Z := current_ p.
Definition is_running (p : Pipeline) : bool := running_locked p.

(** ** The worker: one step of [run] *)
(** One action of a program: what is left, or its end; the variables and the flag. *)
Fixpoint action (k : prog) (w : W) (stop : bool) : (prog + option exn) * W * bool :=
  match k with
  | PRet => (inr None, w, stop)
  | PThrow e => (inr (Some e), w, stop)
  | PAct f k => (inl k, f w, stop)
  | PRead g k => (inl (k (g w)), w, stop)
  | PPoll k => (inl (k stop), w, stop)
  | PRequestStop k => (inl k, w, true)
  | PSeq a b =>
      match action a w stop with
      | (inl a', w', stop') => (inl (PSeq a' b), w', stop')
      | (inr None, w', stop') => (inl b, w', stop')
      | (inr (Some e), w', stop') => (inr (Some e), w', stop')
      end
  | PWhile test body k' => (inl (if test w stop then PSeq body k else k'), w, stop)
  end.
Definition act (k : prog) (p : Pipeline) : (prog + option exn) * Pipeline :=
  let '(r, w, stop) := action k (world p) (stop_flag_ p) in (r, set_flag stop (set_world w p)).
Definition run_step (p : Pipeline) : Pipeline :=
  match worker_ p with
  | NoWorker | Finished => p
  | InLoop i =>
      match steps_ p !! i with
      | Some k => move_to (InStage i k) (Z.of_nat i) [EStage i] p
      | None => move (BeforeCleanup None false) p
      end
  | InStage i k =>
      match act k p with
      | (inl k', p') => move (InStage i k') p'
      | (inr None, p') => move (AfterStage i) p'
      | (inr (Some e), p') => move (BeforeCleanup (Some e) true) p'
      end
  | AfterStage i => if stop_flag_ p then move (BeforeCleanup None true) p else move (InLoop (S i)) p
  | BeforeCleanup f ab =>
      match cleanup_ p with
      | Some c => move_to (InCleanup f (c ab)) (-1) [ECleanup ab] p
      | None => move_to (Publishing f) (-1) [] p
      end
  | InCleanup f k =>
      match act k p with
      | (inl k', p') => move (InCleanup f k') p'
      | (inr e, p') => move (Publishing (match f with Some _ => f | None => e end)) p'
      end
  | Publishing f =>
      {| steps_ := steps_ p; cleanup_ := cleanup_ p; stop_flag_ := stop_flag_ p; current_ := current_ p;
         done_ := true; failure_ := f; worker_ := Finished; world := world p; log := log p |}
  end.

(** A run: the worker's steps, interleaved with stop requests of other threads. *)
Inductive label := LWorker | LRequestStop.
Definition pstep (p : Pipeline) (l : label) : Pipeline :=
  match l with LWorker => run_step p | LRequestStop => (request_stop p).2 end.
Definition psteps (p : Pipeline) (ls : list label) : Pipeline := foldl pstep p ls.
End pipeline.
Arguments Pipeline W : clear implicits.
Arguments prog W : clear implicits.
Arguments Worker W : clear implicits.

Section pipeline_facts.
Context {W : Type}.
Implicit Types (p : Pipeline W).

(** ** Stages in order, cleanup once *)
Definition stages (k : nat) : list Event := EStage <$> seq 0 k.
(** What the log holds when the worker is at a point. *)
Definition log_at (p : Pipeline W) : Prop :=
  let n := length (steps_ p) in
  match worker_ p with
  | NoWorker => True
  | InLoop i => i ≤ n ∧ log p = stages i
  | InStage i _ | AfterStage i => i < n ∧ log p = stages (S i)
  | BeforeCleanup _ ab => ∃ k, k ≤ n ∧ (ab = false → k = n) ∧ log p = stages k
  | InCleanup _ _ | Publishing _ | Finished =>
      ∃ k ab, k ≤ n ∧ (ab = false → k = n) ∧
        log p = stages k ++ match cleanup_ p with Some _ => [ECleanup ab] | None => [] end
  end.

(** The flag stays raised. *)
Lemma action_keeps_stop (k : prog W) : ∀ w r w' stop, action k w true = (r, w', stop) → stop = true.
Proof.
  induction k as [|e|f k IH|A g k IH|k IH|k IH|a IHa b IHb|t body IHb k IH]; intros w r w' stop; cbn [action]; try by intros [= _ _ <-].
  destruct (action a w true) as [[[a'|[e|]] w1] s1] eqn:E; intros [= _ _ <-]; by eapply IHa.
Qed.
Lemma act_frame k p r p' : act k p = (r, p') →
  steps_ p' = steps_ p ∧ cleanup_ p' = cleanup_ p ∧ log p' = log p ∧ worker_ p' = worker_ p ∧
  done_ p' = done_ p ∧ (stop_flag_ p = true → stop_flag_ p' = true).
Proof.
  unfold act. destruct (action _ _ _) as [[r' w] st] eqn:E. intros [= <- <-]. split_and!; try done.
  intros Hs. rewrite Hs in E. exact (action_keeps_stop _ _ _ _ _ E).
Qed.

Lemma stages_S i : stages (S i) = stages i ++ [EStage i].
Proof. unfold stages. by rewrite seq_S, fmap_app. Qed.

Lemma run_step_frame p : steps_ (run_step p) = steps_ p ∧ cleanup_ (run_step p) = cleanup_ p.
Proof.
  unfold run_step. destruct (worker_ p) as [|i|i k|i|f ab|f k|f|]; try done.
  - by destruct (steps_ p !! i).
  - destruct (act k p) as [[k'|[e|]] p'] eqn:E; apply act_frame in E as (? & ? & _); done.
  - by destruct (stop_flag_ p).
  - destruct (cleanup_ p) eqn:Ec; simpl; by rewrite Ec.
  - destruct (act k p) as [[k'|e] p'] eqn:E; apply act_frame in E as (? & ? & _); done.
Qed.

Lemma run_step_log p : log_at p → log_at (run_step p).
Proof.
  unfold run_step. destruct (worker_ p) as [|i|i k|i|f ab|f k|f|] eqn:Ew; intros Hl; try done;
    unfold log_at in Hl |- *; rewrite Ew in Hl.
  - destruct (steps_ p !! i) as [k|] eqn:E; simpl.
    + destruct Hl as [Hi Hlog]. split; [by eapply lookup_lt_Some|]. by rewrite stages_S, Hlog.
    + destruct Hl as [Hi Hlog]. apply lookup_ge_None in E. exists i. split_and!; [done|intros _; by apply Nat.le_antisymm|done].
  - destruct (act k p) as [[k'|[e|]] p'] eqn:E; simpl; apply act_frame in E as (-> & Hc & -> & _).
    + done.
    + destruct Hl as [Hi Hlog]. exists (S i). split_and!; [lia|done|done].
    + done.
  - destruct Hl as [Hi Hlog]. destruct (stop_flag_ p); simpl; [exists (S i); split_and!; [lia|done|done]|].
    split; [lia|done].
  - destruct Hl as (j & Hj & Hab & Hlog). destruct (cleanup_ p) as [c|] eqn:Ec; simpl; exists j, ab; rewrite Ec, Hlog; done.
  - destruct (act k p) as [[k'|e] p'] eqn:E; simpl; apply act_frame in E as (-> & -> & -> & _); done.
  - done.
Qed.

Lemma psteps_log ls p : log_at p → log_at (psteps p ls).
Proof.
  revert p. induction ls as [|[] ls IH]; intros p Hp; simpl; [done|apply IH; by apply run_step_log|].
  apply IH. exact Hp.
Qed.
Lemma psteps_frame ls p : steps_ (psteps p ls) = steps_ p ∧ cleanup_ (psteps p ls) = cleanup_ p.
Proof.
  revert p. induction ls as [|[] ls IH]; intros p; simpl; [done|..].
  - destruct (run_step_frame p) as [<- <-]. apply IH.
  - apply (IH (set_flag true p)).
Qed.

Lemma run_step_started p : worker_ p ≠ NoWorker → worker_ (run_step p) ≠ NoWorker.
Proof.
  unfold run_step. destruct (worker_ p) as [|i|i k|i|f ab|f k|f|] eqn:E; intros Hw; try done; try by rewrite E.
  - by destruct (steps_ p !! i).
  - by destruct (act k p) as [[k'|[e|]] p'].
  - by destruct (stop_flag_ p).
  - by destruct (cleanup_ p).
  - by destruct (act k p) as [[k'|e] p'].
Qed.
Lemma psteps_started ls p : worker_ p ≠ NoWorker → worker_ (psteps p ls) ≠ NoWorker.
Proof. revert p. induction ls as [|[] ls IH]; intros p H; simpl; [done|apply IH, run_step_started, H|apply IH, H]. Qed.
Lemma start_started p : running_locked p = false → worker_ (start p).2 ≠ NoWorker.
Proof. intros Hr. unfold start. autorewrite with monad. by rewrite Hr. Qed.

Lemma start_log p : running_locked p = false → log_at (start p).2.
Proof.
  intros Hr. unfold start. autorewrite with monad. rewrite Hr. unfold log_at. simpl. split; [lia|done].
Qed.

(** C24: in any interleaving of a run the stages start one by one from the first,
    and the cleanup, if one is configured, has run exactly once when the worker
    is done, after the stages; it is told the run was not aborted only if every
    stage ran. *)
Theorem stages_in_order p ls :
  running_locked p = false →
  let p' := psteps (start p).2 ls in
  (∃ k ab, k ≤ length (steps_ p) ∧ (log p' = stages k ∨ log p' = stages k ++ [ECleanup ab])) ∧
  (worker_ p' = Finished → ∃ k ab, k ≤ length (steps_ p) ∧ (ab = false → k = length (steps_ p)) ∧
    log p' = stages k ++ match cleanup_ p with Some _ => [ECleanup ab] | None => [] end).
Proof.
  intros Hr p'. pose proof (start_log p Hr) as Hstart.
  assert (steps_ (start p).2 = steps_ p ∧ cleanup_ (start p).2 = cleanup_ p) as [Hs Hc].
  { unfold start. autorewrite with monad. by rewrite Hr. }
  assert (worker_ p' ≠ NoWorker) as Hnw by apply psteps_started, start_started, Hr.
  pose proof (psteps_log ls _ Hstart) as Hlog. destruct (psteps_frame ls (start p).2) as [Hs' Hc'].
  fold p' in Hlog, Hs', Hc'. unfold log_at in Hlog. rewrite Hs', Hs in Hlog. rewrite Hc', Hc in Hlog. split.
  - destruct (worker_ p') as [|i|i k|i|f ab|f k|f|]; [done|..].
    + exists i, false. destruct Hlog; auto.
    + exists (S i), false. destruct Hlog; auto.
    + exists (S i), false. destruct Hlog; auto.
    + destruct Hlog as (k & ? & _ & ?). exists k, false; auto.
    + destruct Hlog as (j & ab & ? & _ & Hl). exists j, ab. rewrite Hl. destruct (cleanup_ p); rewrite ?app_nil_r; auto.
    + destruct Hlog as (j & ab & ? & _ & Hl). exists j, ab. rewrite Hl. destruct (cleanup_ p); rewrite ?app_nil_r; auto.
    + destruct Hlog as (j & ab & ? & _ & Hl). exists j, ab. rewrite Hl. destruct (cleanup_ p); rewrite ?app_nil_r; auto.
  - intros Hw. rewrite Hw in Hlog. exact Hlog.
Qed.

(** ** After a stop request *)
Definition stage_bound (i : nat) (p : Pipeline W) : Prop :=
  stop_flag_ p = true ∧
  match worker_ p with
  | InStage j _ | AfterStage j => j ≤ i
  | InLoop j => False
  | _ => True
  end ∧ ∀ j, EStage j ∈ log p → j ≤ i.
Lemma run_step_bound i p : stage_bound i p → stage_bound i (run_step p).
Proof.
  intros (Hf & Hw & Hl). unfold run_step.
  destruct (worker_ p) as [|j|j k|j|f ab|f k|f|] eqn:E; try (by split_and!; rewrite ?E); try done.
  - destruct (act k p) as [[k'|[e|]] p'] eqn:Ea; apply act_frame in Ea as (_ & _ & El & _ & _ & Hfl);
      (split_and!; simpl; [by apply Hfl|done|by rewrite El]).
  - rewrite Hf. by split_and!.
  - destruct (cleanup_ p); (split_and!; simpl; [done|done|]); intros j [Hj|Hj]%elem_of_app; auto;
      [apply list_elem_of_singleton in Hj|apply elem_of_nil in Hj]; done.
  - destruct (act k p) as [[k'|e] p'] eqn:Ea; apply act_frame in Ea as (_ & _ & El & _ & _ & Hfl);
      (split_and!; simpl; [by apply Hfl|done|by rewrite El]).
Qed.

(** C25: a stop request skips every later stage: whatever happened since the
    run started, once the flag is raised while stage [i] runs no stage after [i]
    starts, however the worker and further requests interleave. *)
Theorem stop_skips_later_stages p before i k after :
  running_locked p = false →
  let p' := psteps (start p).2 before in
  worker_ p' = InStage i k →
  ∀ j, EStage j ∈ log (psteps (request_stop p').2 after) → j ≤ i.
Proof.
  intros Hr p' Hw. cut (stage_bound i (psteps (request_stop p').2 after)); [by intros (_ & _ & ?)|].
  assert (stage_bound i (request_stop p').2) as Hb.
  { assert (log_at p') as Hl by apply psteps_log, start_log, Hr. unfold log_at in Hl. rewrite Hw in Hl.
    destruct Hl as [_ Hl]. split; [done|]. simpl. rewrite Hw, Hl.
    split; [done|]. intros j (m & [= ->] & Hm%elem_of_seq)%list_elem_of_fmap. lia. }
  clear Hw. clearbody p'. revert Hb. generalize (request_stop p').2. clear.
  induction after as [|[] ls IH]; intros p Hb; simpl; [done|apply IH; by apply run_step_bound|].
  apply IH. destruct Hb as (? & ? & ?). by split_and!.
Qed.

(** ** The run ends *)
Lemma steps_app p a b : psteps p (replicate (a + b) LWorker) = psteps (psteps p (replicate a LWorker)) (replicate b LWorker).
Proof. unfold psteps. by rewrite replicate_add, foldl_app. Qed.
Definition ends (p : Pipeline W) : Prop := ∃ m, worker_ (psteps p (replicate m LWorker)) = Finished.
Lemma ends_step p : ends (run_step p) → ends p.
Proof. intros [m Hm]. exists (S m). exact Hm. Qed.

(** With the flag raised, the program comes to its end. *)
Inductive halts : prog W → W → Prop :=
  | halts_end k w e w' stop : action k w true = (inr e, w', stop) → halts k w
  | halts_step k w k' w' stop : action k w true = (inl k', w', stop) → halts k' w' → halts k w.
(** What is left of a program after some of its actions; and a program that
    ends once the flag is raised, however far it has got. *)
Definition becomes (k k' : prog W) : Prop := ∃ w stop w' stop', action k w stop = (inl k', w', stop').
Definition heeds (k : prog W) : Prop := ∀ k' w, rtc becomes k k' → halts k' w.

Lemma heeds_halts k w : heeds k → halts k w.
Proof. intros H. by apply H. Qed.
Lemma heeds_becomes k k' : heeds k → becomes k k' → heeds k'.
Proof. intros H Hk k2 w Hr. apply H. by eapply rtc_l. Qed.
Lemma heeds_intro k : (∀ w, halts k w) → (∀ k', becomes k k' → heeds k') → heeds k.
Proof. intros Hh Hb k' w Hr. inversion Hr as [|? k2 ? Hk Hr']; subst; [done|]. by apply (Hb k2). Qed.
(** Programs built from finitely many actions heed a stop. *)
Lemma heeds_ret : heeds PRet.
Proof. apply heeds_intro; [intros w; by eapply halts_end|]. by intros k' (? & ? & ? & ? & [=]). Qed.
Lemma heeds_throw e : heeds (PThrow e).
Proof. apply heeds_intro; [intros w; by eapply halts_end|]. by intros k' (? & ? & ? & ? & [=]). Qed.
Lemma heeds_act f k : heeds k → heeds (PAct f k).
Proof. intros H. apply heeds_intro; [intros w; eapply halts_step; [done|by apply heeds_halts]|]. by intros k' (? & ? & ? & ? & [= <- _ _]). Qed.
Lemma heeds_read {A} (g : W → A) k : (∀ a, heeds (k a)) → heeds (PRead g k).
Proof. intros H. apply heeds_intro; [intros w; eapply halts_step; [done|by apply heeds_halts]|]. by intros k' (? & ? & ? & ? & [= <- _ _]). Qed.
Lemma heeds_poll k : (∀ b, heeds (k b)) → heeds (PPoll k).
Proof. intros H. apply heeds_intro; [intros w; eapply halts_step; [done|by apply heeds_halts]|]. by intros k' (? & ? & ? & ? & [= <- _ _]). Qed.
Lemma heeds_request k : heeds k → heeds (PRequestStop k).
Proof. intros H. apply heeds_intro; [intros w; eapply halts_step; [done|by apply heeds_halts]|]. by intros k' (? & ? & ? & ? & [= <- _ _]). Qed.
Lemma halts_seq a w b : halts a w → (∀ w, halts b w) → halts (PSeq a b) w.
Proof.
  intros Ha Hb. induction Ha as [a w [e|] w' stop E|a w a' w' stop E _ IH].
  - eapply halts_end. cbn [action]. by rewrite E.
  - eapply halts_step; [cbn [action]; by rewrite E|apply Hb].
  - eapply halts_step; [cbn [action]; by rewrite E|exact IH].
Qed.
Lemma becomes_seq a b k : becomes (PSeq a b) k → (∃ a', becomes a a' ∧ k = PSeq a' b) ∨ k = b.
Proof.
  intros (w & s & w' & s' & E). cbn [action] in E. destruct (action a w s) as [[[a'|[e|]] w1] s1] eqn:Ea; simplify_eq; [left|by right].
  exists a'. split; [|done]. by exists w, s, w', s'.
Qed.
Lemma rtc_seq a b k : rtc becomes (PSeq a b) k → (∃ a', rtc becomes a a' ∧ k = PSeq a' b) ∨ rtc becomes b k.
Proof.
  intros H. remember (PSeq a b) as s eqn:Es. revert a Es. induction H as [s|s s1 k Hs Hk IH]; intros a ->; [left; by exists a|].
  apply becomes_seq in Hs as [(a1 & Ha & ->)| ->]; [|by right]. destruct (IH a1 eq_refl) as [(a' & Ha' & ->)|?]; [left|by right].
  exists a'. split; [by eapply rtc_l|done].
Qed.
Lemma heeds_seq a b : heeds a → heeds b → heeds (PSeq a b).
Proof.
  intros Ha Hb k w Hr. apply rtc_seq in Hr as [(a' & Ha' & ->)|Hr]; [|by apply Hb]. apply halts_seq; [by apply Ha|]. intros w'. by apply heeds_halts.
Qed.
(** A loop that polls the flag heeds a stop; before it the loop need not end. *)
Lemma heeds_while test body k : (∀ w, test w true = false) → heeds body → heeds k → heeds (PWhile test body k).
Proof.
  intros Ht Hb Hk. assert (∀ w, halts (PWhile test body k) w) as Hh.
  { intros w. eapply halts_step; [cbn [action]; by rewrite Ht|by apply heeds_halts]. }
  intros k' w Hr. remember (PWhile test body k) as l eqn:El. revert w. cut (k' = l ∨ (∃ b, rtc becomes body b ∧ k' = PSeq b l) ∨ rtc becomes k k').
  { intros [->|[(b & Hbb & ->)|?]] w; subst l; [apply Hh|apply halts_seq; [by apply Hb|exact Hh]|by apply Hk]. }
  clear Hh. revert k' Hr. apply (rtc_ind_r (λ k', k' = l ∨ (∃ b, rtc becomes body b ∧ k' = PSeq b l) ∨ rtc becomes k k')); [by left|].
  intros k1 k2 _ Hs [->|[(b & Hbb & ->)|?]].
  - destruct Hs as (w & s & w' & s' & E). subst l. cbn [action] in E. injection E as <- _ _.
    destruct (test w s); [right; left; by exists body|right; by right].
  - apply becomes_seq in Hs as [(b' & Hbb' & ->)| ->]; [|by left]. right; left. exists b'. split; [by eapply rtc_r|done].
  - right; right. by eapply rtc_r.
Qed.

(** The stages and the cleanup heed a stop; so does what the worker is in. *)
Definition heeding (p : Pipeline W) : Prop :=
  Forall heeds (steps_ p) ∧ (∀ c ab, cleanup_ p = Some c → heeds (c ab)) ∧
  match worker_ p with InStage _ k | InCleanup _ k => heeds k | _ => True end.
Lemma act_becomes k p k' p' : act k p = (inl k', p') → becomes k k'.
Proof. unfold act. destruct (action _ _ _) as [[r w] st] eqn:E. intros [= -> _]. by eexists _, _, _, _. Qed.
Lemma run_step_heeding p : heeding p → heeding (run_step p).
Proof.
  intros (Hs & Hc & Hw). destruct (run_step_frame p) as [Es Ec]. unfold heeding. rewrite Es, Ec. split_and!; [done..|].
  unfold run_step. destruct (worker_ p) as [|i|i k|i|f ab|f k|f|] eqn:E; simpl; rewrite ?E; try done.
  - destruct (steps_ p !! i) as [k|] eqn:Ei; [|done]. by eapply Forall_lookup_1.
  - destruct (act k p) as [[k'|[e|]] p'] eqn:Ea; [|done..]. simpl. eapply heeds_becomes, act_becomes; done.
  - by destruct (stop_flag_ p).
  - destruct (cleanup_ p) as [c|] eqn:Ecl; [|done]. by apply Hc.
  - destruct (act k p) as [[k'|e] p'] eqn:Ea; [|done]. simpl. eapply heeds_becomes, act_becomes; done.
Qed.
Lemma psteps_heeding ls p : heeding p → heeding (psteps p ls).
Proof. revert p. induction ls as [|[] ls IH]; intros p H; simpl; [done|by apply IH, run_step_heeding|apply IH, H]. Qed.

Lemma act_stopped k p : stop_flag_ p = true → ∃ r w, action k (world p) true = (r, w, true) ∧ act k p = (r, set_flag true (set_world w p)).
Proof.
  intros Hf. unfold act. rewrite Hf. destruct (action k (world p) true) as [[r w] st] eqn:E. exists r, w.
  by rewrite (action_keeps_stop _ _ _ _ _ E).
Qed.
Lemma ends_cleanup k w f : halts k w → ∀ p, world p = w → stop_flag_ p = true → worker_ p = InCleanup f k → ends p.
Proof.
  induction 1 as [k w e w' st E|k w k' w' st E _ IH]; intros p <- Hf Hw; apply ends_step; unfold run_step; rewrite Hw;
    destruct (act_stopped k p Hf) as (r & w2 & E' & ->); rewrite E in E'; injection E' as <- <- ->; [by exists 1|].
  by eapply IH.
Qed.
Definition cleanup_heeds p : Prop := ∀ c ab, cleanup_ p = Some c → heeds (c ab).
Lemma ends_before_cleanup f ab p : cleanup_heeds p → stop_flag_ p = true → worker_ p = BeforeCleanup f ab → ends p.
Proof.
  intros Hc Hf Hw. apply ends_step. unfold run_step. rewrite Hw. destruct (cleanup_ p) as [c|] eqn:E; [|by exists 1].
  by eapply ends_cleanup; [apply heeds_halts, Hc|..].
Qed.
Lemma ends_after i p : cleanup_heeds p → stop_flag_ p = true → worker_ p = AfterStage i → ends p.
Proof. intros Hc Hf Hw. apply ends_step. unfold run_step. rewrite Hw, Hf. by eapply ends_before_cleanup. Qed.
Lemma ends_stage k w i : halts k w → ∀ p, world p = w → cleanup_heeds p → stop_flag_ p = true → worker_ p = InStage i k → ends p.
Proof.
  induction 1 as [k w e w' st E|k w k' w' st E _ IH]; intros p <- Hc Hf Hw; apply ends_step; unfold run_step; rewrite Hw;
    destruct (act_stopped k p Hf) as (r & w2 & E' & ->); rewrite E in E'; injection E' as <- <- ->; [|by eapply IH].
  destruct e; [by eapply ends_before_cleanup|by eapply ends_after].
Qed.
Lemma ends_heeding p : heeding p → stop_flag_ p = true → worker_ p ≠ NoWorker → ends p.
Proof.
  intros (Hs & Hc & Hk) Hf Hw. destruct (worker_ p) as [|i|i k|i|f ab|f k|f|] eqn:E; [done|..].
  - apply ends_step. unfold run_step. rewrite E. destruct (steps_ p !! i) as [k|] eqn:Ei; [|by eapply ends_before_cleanup].
    by eapply ends_stage; [apply heeds_halts; by eapply Forall_lookup_1|..].
  - by eapply ends_stage; [by apply heeds_halts|..].
  - by eapply ends_after.
  - by eapply ends_before_cleanup.
  - by eapply ends_cleanup; [by apply heeds_halts|..].
  - apply ends_step. unfold run_step. rewrite E. by exists 0.
  - by exists 0.
Qed.

Definition done_when_finished (p : Pipeline W) : Prop := worker_ p = Finished → done_ p = true.
Lemma run_step_done p : done_when_finished p → done_when_finished (run_step p).
Proof.
  unfold run_step, done_when_finished. destruct (worker_ p) as [|i|i k|i|f ab|f k|f|] eqn:E; intros Hd; simpl; rewrite ?E; try done.
  - by destruct (steps_ p !! i).
  - by destruct (act k p) as [[k'|[e|]] p'].
  - by destruct (stop_flag_ p).
  - by destruct (cleanup_ p).
  - by destruct (act k p) as [[k'|e] p'].
Qed.

Lemma psteps_done ls p : done_when_finished p → done_when_finished (psteps p ls).
Proof. revert p. induction ls as [|[] ls IH]; intros p H; simpl; [done|apply IH, run_step_done, H|apply IH, H]. Qed.

Lemma finished_destroy (q : Pipeline W) : worker_ q = Finished → destroy q = Some (Ret tt).
Proof. intros H. unfold destroy, joined. simpl. by rewrite H. Qed.

(** C26: let every stage and the cleanup end once the stop flag is raised, as those
    do that take finitely many actions between polls of it; before a stop they
    may run forever.  Then, whatever the interleaving so far, after a stop request
    the worker ends by its own steps, and a blocked [stop] or [wait] returns, and so
    does the destructor, which a failure of the run does not disturb. *)
Theorem stop_returns p ls :
  running_locked p = false → Forall heeds (steps_ p) → (∀ c ab, cleanup_ p = Some c → heeds (c ab)) →
  let p' := psteps (start p).2 ls in
  ∃ m, let q := psteps (request_stop p').2 (replicate m LWorker) in
    worker_ q = Finished ∧ destroy q = Some (Ret tt) ∧ ∃ r, wait q = Some (r, q).
Proof.
  intros Hr Hs Hc p'. assert (worker_ p' ≠ NoWorker) as Hnw by apply psteps_started, start_started, Hr.
  assert (done_when_finished p') as Hd.
  { apply psteps_done. unfold start, done_when_finished. autorewrite with monad. by rewrite Hr. }
  assert (heeding p') as Hh.
  { apply psteps_heeding. unfold start, heeding. autorewrite with monad. by rewrite Hr. }
  destruct (ends_heeding (request_stop p').2 Hh eq_refl Hnw) as [m Hm]. exists m. cbv zeta. split; [exact Hm|].
  split; [by apply finished_destroy|].
  pose proof (psteps_done (replicate m LWorker) (request_stop p').2 Hd) as Hdone.
  specialize (Hdone Hm). revert Hm Hdone. generalize (psteps (request_stop p').2 (replicate m LWorker)).
  intros q Hq Hdone. unfold wait, wait_ready. rewrite Hdone. simpl.
  unfold rethrow_if_failed. autorewrite with monad. destruct (failure_ q); by eexists.
Qed.

(** A stage that loops while its test of the flag holds never ends while the
    flag stays as it is: one that polls, before a stop; one that does not, ever. *)
Definition loop_stage (test : bool → bool) (f : W → W) : prog W := PWhile (λ _, test) (PAct f PRet) PRet.
Definition looping (test : bool → bool) (f : W → W) (b : bool) (p : Pipeline W) : Prop :=
  stop_flag_ p = b ∧ ∃ k, worker_ p = InStage 0 k ∧
    (k = loop_stage test f ∨ k = PSeq (PAct f PRet) (loop_stage test f) ∨ k = PSeq PRet (loop_stage test f)).
Lemma looping_step test f b p : test b = true → looping test f b p → looping test f b (run_step p).
Proof.
  intros Ht (Hb & k & Hw & Hk). unfold run_step. rewrite Hw. unfold act. rewrite Hb.
  destruct Hk as [->|[->| ->]]; cbn [action loop_stage]; rewrite ?Ht; split; try done; eexists; (split; [reflexivity|]); eauto.
Qed.
Theorem loop_stage_waits test f b p m : test b = true → looping test f b p → worker_ (psteps p (replicate m LWorker)) ≠ Finished.
Proof.
  intros Ht. revert p. induction m as [|m IH]; intros p Hp; [|by apply IH, looping_step]. destruct Hp as (_ & k & Hw & _). simpl. by rewrite Hw.
Qed.
End pipeline_facts.

(** ** The two scenarios of [src/main.cpp]
    [printf] appends to the output; a [sleep_for] takes no step. *)
Definition Output := list string.
Definition printf (s : string) (k : prog Output) : prog Output := PAct (λ o, o ++ [s]) k.
Definition stage_name (i : Z) : string :=
  if bool_decide (0 ≤ i < 5)%Z then ["step1"; "step2"; "step3"; "step4"; "step5"] !!! Z.to_nat i else "?".
Definition make_step (i ms : Z) : prog Output :=
  printf ("    [" +:+ stage_name i +:+ "] begin (" +:+ pretty ms +:+ " ms, runs to completion)")
    (printf ("    [" +:+ stage_name i +:+ "] done") PRet).
Definition cleanup1 : @Cleanup Output := λ aborted,
  printf ("    [cleanup] begin (aborted=" +:+ pretty (Z.b2z aborted) +:+ ")") (printf "    [cleanup] done" PRet).
Definition scenario1 : Pipeline Output :=
  ((set_steps [make_step 0 300; make_step 1 400; make_step 2 500; make_step 3 200; make_step 4 300];;
   set_cleanup (Some cleanup1)) (new_Pipeline [])).2.
Fixpoint cooperative (n : nat) : prog Output :=
  match n with
  | O => printf "    [step2] completed naturally" PRet
  | S n => PPoll (λ b, if b then printf "    [step2] exited early (cooperative)" PRet else cooperative n)
  end.
Definition scenario2 : Pipeline Output :=
  ((set_steps [printf "    [step1] begin/done" PRet;
              printf "    [step2] long cooperative stage begin" (cooperative 100);
              printf "    [step3] must NOT run" PRet]) (new_Pipeline [])).2.

Definition workers (n : nat) : list label := replicate n LWorker.
(** The request arrives in the middle of step 2, resp. at the third poll. *)
Definition run1 : Pipeline Output := psteps (start scenario1).2 (workers 7 ++ [LRequestStop] ++ workers 9).
Definition run2 : Pipeline Output := psteps (start scenario2).2 (workers 9 ++ [LRequestStop] ++ workers 9).
Example scenario1_output : worker_ run1 = Finished ∧ world run1 =
  ["    [step1] begin (300 ms, runs to completion)"; "    [step1] done";
   "    [step2] begin (400 ms, runs to completion)"; "    [step2] done";
   "    [cleanup] begin (aborted=1)"; "    [cleanup] done"].
Proof. by_compute. Qed.
Example scenario2_output : worker_ run2 = Finished ∧ world run2 =
  ["    [step1] begin/done"; "    [step2] long cooperative stage begin"; "    [step2] exited early (cooperative)"].
Proof. by_compute. Qed.

Lemma stages_in_order_witness : ∃ k ab, k ≤ 5 ∧ (ab = false → k = 5) ∧
  log run1 = stages k ++ [ECleanup ab].
Proof.
  refine (proj2 (stages_in_order scenario1 (workers 7 ++ [LRequestStop] ++ workers 9) _) _); by vm_compute.
Defined.
Lemma stop_skips_later_stages_witness :
  let l := log (psteps (request_stop (psteps (start scenario1).2 (workers 6))).2 (workers 9)) in
  EStage 1 ∈ l ∧ EStage 2 ∉ l.
Proof.
  split; [apply list_elem_of_In; vm_compute; auto|]. intros H. cut (2 ≤ 1); [lia|].
  eapply (stop_skips_later_stages scenario1 (workers 6) 1); [by vm_compute..|exact H].
Defined.
(** A stage that polls until a stop, and one that never looks. *)
Definition scenario3 (test : bool → bool) : Pipeline nat :=
  ((set_steps [loop_stage test S];; set_cleanup (Some (λ _, PAct (λ n, n + 100) PRet))) (new_Pipeline 0)).2.
Lemma stop_returns_witness :
  ∃ m, let q := psteps (request_stop (psteps (start (scenario3 negb)).2 (workers 13))).2 (replicate m LWorker) in
    worker_ q = Finished ∧ destroy q = Some (Ret tt) ∧ ∃ r, wait q = Some (r, q).
Proof.
  apply (stop_returns (scenario3 negb) (workers 13)); [by vm_compute|..].
  - repeat constructor. by apply heeds_while; [|apply heeds_act|]; try apply heeds_ret.
  - intros c ab [= <-]. apply heeds_act, heeds_ret.
Defined.
Lemma loop_stage_waits_witness :
  (∀ m, worker_ (psteps (psteps (start (scenario3 negb)).2 (workers 1)) (workers m)) ≠ Finished) ∧
  (∀ m, worker_ (psteps (request_stop (psteps (start (scenario3 (λ _, true))).2 (workers 1))).2 (workers m)) ≠ Finished).
Proof.
  split; intros m.
  - apply (loop_stage_waits negb S false); [done|]. split; [done|]. eexists. split; [reflexivity|by left].
  - apply (loop_stage_waits (λ _, true) S true); [done|]. split; [done|]. eexists. split; [reflexivity|by left].
Defined.
