(* ===== verification/ThreadPool.v ===== *)
(** * The worker pool of [threads/cancel/include/thread_pool_context.h]

    One queue, one context and one thread per worker.  A task is a program whose
    atomic actions are the public methods of any context, reads of the contexts,
    changes of the variables [W] it captures, tests of a loop, and its end; it
    need not end.  The steps of the threads interleave in any order; the calls of
    other threads, those a task makes on the pool included, are steps of their own.

    The pool is taken as its constructor means to leave it, every worker made
    before a thread runs.  As written the constructor does not compile (a worker holds a
    mutex, so the vector cannot move it), and it starts thread [i] before worker [i]
    is in the vector and while later appends would still move the workers. *)
From S2P Require Import Prelude.

(** ** [WorkerContext] *)
Record WorkerContext := mkContext {
  id_ : Z; name_ : string; enabled_ : bool; poll_interval_ms_ : Z; node_ids_ : list Z;
  poll_count_ : Z; last_poll_ms_ : Z; last_value_ : string; running_ : bool; stop_ : bool
}.
Definition new_WorkerContext (id : Z) : WorkerContext :=
  {| id_ := id; name_ := ""; enabled_ := true; poll_interval_ms_ := 1000; node_ids_ := [];
     poll_count_ := 0; last_poll_ms_ := 0; last_value_ := ""; running_ := false; stop_ := false |}.
(** The methods that read. *)
Definition context_id (c : WorkerContext) : Z := id_ c.
Definition running (c : WorkerContext) : bool := running_ c.
Definition pollCount (c : WorkerContext) : Z := poll_count_ c.
Definition lastValue (c : WorkerContext) : string := last_value_ c.
Definition lastPollMs (c : WorkerContext) : Z := last_poll_ms_ c.
Definition name (c : WorkerContext) : string := name_ c.
(** The methods that write. *)
Inductive CtxOp :=
  | SetName (name : string) | SetEnabled (on : bool) | SetPollIntervalMs (ms : Z)
  | SetNodeIds (ids : list Z) | AddNodeId (id : Z)
  | RequestStop | ClearStop | MarkRunning | MarkStopped | ReportPoll (poll_ms : Z) (value : string).
Definition apply_op (op : CtxOp) (c : WorkerContext) : WorkerContext :=
  let '(mkContext i n e pi ids pc lp lv r s) := c in
  match op with
  | SetName name => mkContext i name e pi ids pc lp lv r s
  | SetEnabled on => mkContext i n on pi ids pc lp lv r s
  | SetPollIntervalMs ms => mkContext i n e ms ids pc lp lv r s
  | SetNodeIds ids' => mkContext i n e pi ids' pc lp lv r s
  | AddNodeId id => mkContext i n e pi (ids ++ [id]) pc lp lv r s
  | RequestStop => mkContext i n e pi ids pc lp lv r true
  | ClearStop => mkContext i n e pi ids pc lp lv r false
  | MarkRunning => mkContext i n e pi ids pc lp lv true s
  | MarkStopped => mkContext i n e pi ids pc lp lv false s
  | ReportPoll ms value => mkContext i n e pi ids (uwrap 64 (pc + 1)) ms value r s
  end.
Definition shouldStop (c : WorkerContext) : bool := stop_ c.

Section pool.
Context {W : Type}.

(** A thrown [std::exception] is swallowed by the worker; another leaves the
    thread function and ends the process. *)
Inductive prog :=
  | TRet
  | TThrow (is_std_exception : bool)
  | TWorld (f : W → W) (k : prog)
  | TCtx (j : nat) (op : CtxOp) (k : prog)                      (* a context the task holds *)
  | TRead {A : Type} (g : W → list WorkerContext → A) (k : A → prog)
  | TSeq (a b : prog)
  | TWhile (test : W → list WorkerContext → bool) (body k : prog).   (* the test may ask [shouldStop] *)
(** The task is given its worker's context. *)
Definition Task := nat → prog.

(** Where a thread is in [run]. *)
Inductive Thread :=
  | Starting | Waiting | Popped (t : Task) | Running (k : prog) | Leaving | Exited.
Record Worker := mkWorker { thread : Thread; ctx : WorkerContext; tasks : list Task; shutdown : bool }.
Inductive Event := ESubmit (i : nat) (t : Task) | EPop (i : nat) (t : Task).
Record ThreadPool := mkPool {
  workers_ : list Worker; next_round_robin_ : Z; world : W; terminated : bool; log : list Event
}.
(** What the constructor means to leave: each thread starts once it is complete. *)
Definition make_worker (i : nat) : Worker :=
  {| thread := Starting;
     ctx := apply_op (SetName ("worker-" +:+ pretty (Z.of_nat i))) (new_WorkerContext (uwrap 32 (Z.of_nat i)));
     tasks := []; shutdown := false |}.
Definition new_ThreadPool (num_workers : nat) (w : W) : ThreadPool :=
  {| workers_ := make_worker <$> seq 0 num_workers; next_round_robin_ := 0; world := w;
     terminated := false; log := [] |}.
Definition size (p : ThreadPool) : nat := length (workers_ p).
Definition context (id : nat) (p : ThreadPool) : option WorkerContext := ctx <$> workers_ p !! id.

Definition on_worker (i : nat) (f : Worker → Worker) (ev : list Event) (p : ThreadPool) : ThreadPool :=
  {| workers_ := alter f i (workers_ p); next_round_robin_ := next_round_robin_ p; world := world p;
     terminated := terminated p; log := log p ++ ev |}.
Definition set_thread (t : Thread) (w : Worker) : Worker :=
  {| thread := t; ctx := ctx w; tasks := tasks w; shutdown := shutdown w |}.
Definition on_ctx (op : CtxOp) (w : Worker) : Worker :=
  {| thread := thread w; ctx := apply_op op (ctx w); tasks := tasks w; shutdown := shutdown w |}.
Definition set_tasks (ts : list Task) (w : Worker) : Worker :=
  {| thread := thread w; ctx := ctx w; tasks := ts; shutdown := shutdown w |}.
Definition set_shutdown (w : Worker) : Worker :=
  {| thread := thread w; ctx := ctx w; tasks := tasks w; shutdown := true |}.

(** ** The calls *)
Definition submit (id : nat) (task : Task) (p : ThreadPool) : bool * ThreadPool :=
  if bool_decide (size p ≤ id) then (false, p)
  else (true, on_worker id (λ w, set_tasks (tasks w ++ [task]) w) [ESubmit id task] p).
Definition next_id (p : ThreadPool) : nat := Z.to_nat (next_round_robin_ p `mod` Z.of_nat (size p)).
Definition fetch_add (p : ThreadPool) : ThreadPool :=
  {| workers_ := workers_ p; next_round_robin_ := uwrap 64 (next_round_robin_ p + 1); world := world p;
     terminated := terminated p; log := log p |}.
(** The loop of [submitRoundRobin]; [None] is [SIZE_MAX]. *)
Fixpoint submit_loop (n : nat) (task : Task) (p : ThreadPool) : option nat * ThreadPool :=
  match n with
  | O => (None, p)
  | S n =>
      let id := next_id p in
      match submit id task (fetch_add p) with
      | (true, p') => (Some id, p')
      | (false, p') => submit_loop n task p'
      end
  end.
Definition submitRoundRobin (task : Task) (p : ThreadPool) : option nat * ThreadPool := submit_loop (size p) task p.
Definition stopWorker (id : nat) (p : ThreadPool) : ThreadPool := on_worker id (on_ctx RequestStop) [] p.
(** [shutdown]: what it writes for each worker, and whether its join returns. *)
Definition shutdown_requests (p : ThreadPool) : ThreadPool :=
  foldl (λ p i, on_worker i set_shutdown [] (on_worker i (on_ctx RequestStop) [] p)) p (seq 0 (size p)).
Definition join_ready (w : Worker) : bool := match thread w with Exited => true | _ => false end.
Definition shutdown_returns (p : ThreadPool) : bool := forallb join_ready (workers_ p).
(** [~ThreadPool] is [shutdown]. *)
Definition destroy_requests (p : ThreadPool) : ThreadPool := shutdown_requests p.

(** ** A worker thread: one step of [run] *)
Definition terminate (p : ThreadPool) : ThreadPool :=
  {| workers_ := workers_ p; next_round_robin_ := next_round_robin_ p; world := world p; terminated := true; log := log p |}.
Definition set_world (f : W → W) (p : ThreadPool) : ThreadPool :=
  {| workers_ := workers_ p; next_round_robin_ := next_round_robin_ p; world := f (world p);
     terminated := terminated p; log := log p |}.
(** One action of a task: what is left, or its end (with what it throws), and
    its effect. *)
Inductive Effect := Nothing | OnWorld (f : W → W) | OnContext (j : nat) (op : CtxOp).
Fixpoint action (k : prog) (w : W) (cs : list WorkerContext) : (prog + option bool) * Effect :=
  match k with
  | TRet => (inr None, Nothing)
  | TThrow b => (inr (Some b), Nothing)
  | TWorld f k => (inl k, OnWorld f)
  | TCtx j op k => (inl k, OnContext j op)
  | TRead g k => (inl (k (g w cs)), Nothing)
  | TSeq a b =>
      match action a w cs with
      | (inl a', e) => (inl (TSeq a' b), e)
      | (inr None, e) => (inl b, e)
      | (inr (Some x), e) => (inr (Some x), e)
      end
  | TWhile test body k' => (inl (if test w cs then TSeq body k else k'), Nothing)
  end.
Definition perform (e : Effect) (p : ThreadPool) : ThreadPool :=
  match e with Nothing => p | OnWorld f => set_world f p | OnContext j op => on_worker j (on_ctx op) [] p end.
Definition contexts (p : ThreadPool) : list WorkerContext := ctx <$> workers_ p.
Definition run_task (i : nat) (k : prog) (p : ThreadPool) : ThreadPool :=
  let '(r, e) := action k (world p) (contexts p) in
  match r with
  | inl k' => on_worker i (set_thread (Running k')) [] (perform e p)
  | inr None | inr (Some true) => on_worker i (set_thread Waiting) [] (perform e p)
  | inr (Some false) => terminate (perform e p)
  end.
(** A thread whose [wait] predicate is false stays where it is. *)
Definition worker_step (i : nat) (p : ThreadPool) : ThreadPool :=
  if terminated p then p else
  match workers_ p !! i with
  | None => p
  | Some w =>
      match thread w with
      | Starting => on_worker i (λ w, set_thread Waiting (on_ctx MarkRunning w)) [] p
      | Waiting =>
          match tasks w with
          | [] => if shutdown w then on_worker i (set_thread Leaving) [] p else p
          | t :: ts => on_worker i (λ w, set_thread (Popped t) (set_tasks ts w)) [EPop i t] p
          end
      | Popped t => on_worker i (λ w, set_thread (Running (t i)) (on_ctx ClearStop w)) [] p
      | Running k => run_task i k p
      | Leaving => on_worker i (λ w, set_thread Exited (on_ctx MarkStopped w)) [] p
      | Exited => p
      end
  end.

(** The two writes of [shutdown] for a worker are two steps. *)
Inductive label :=
  | LWorker (i : nat) | LSubmit (i : nat) (t : Task) | LSubmitRoundRobin (t : Task)
  | LCtx (i : nat) (op : CtxOp) | LShutdown (i : nat).
Definition step (p : ThreadPool) (l : label) : ThreadPool :=
  match l with
  | LWorker i => worker_step i p
  | LSubmit i t => (submit i t p).2
  | LSubmitRoundRobin t => (submitRoundRobin t p).2
  | LCtx i op => on_worker i (on_ctx op) [] p
  | LShutdown i => on_worker i set_shutdown [] p
  end.
Definition steps (p : ThreadPool) (ls : list label) : ThreadPool := foldl step p ls.

(** The tasks submitted to a worker, and those it has taken, oldest first. *)
Definition submitted (i : nat) (l : list Event) : list Task :=
  omap (λ e, match e with ESubmit j t => if decide (i = j) then Some t else None | EPop _ _ => None end) l.
Definition taken (i : nat) (l : list Event) : list Task :=
  omap (λ e, match e with EPop j t => if decide (i = j) then Some t else None | ESubmit _ _ => None end) l.
End pool.
Arguments prog W : clear implicits.
Arguments Task W : clear implicits.
Arguments Thread W : clear implicits.
Arguments Worker W : clear implicits.
Arguments ThreadPool W : clear implicits.
Arguments label W : clear implicits.

Section pool_facts.
Context {W : Type}.
Implicit Types (p : ThreadPool W) (w : Worker W) (t : Task W).

Lemma lookup_on_worker i j f ev p :
  workers_ (on_worker j f ev p) !! i = (if decide (i = j) then f else id) <$> workers_ p !! i.
Proof.
  simpl. destruct (decide (i = j)) as [->|Hne]; [apply list_lookup_alter_eq|].
  rewrite list_lookup_alter_ne by done. by destruct (workers_ p !! i).
Qed.
Lemma submitted_app i (l1 l2 : list (@Event W)) : submitted i (l1 ++ l2) = submitted i l1 ++ submitted i l2.
Proof. apply omap_app. Qed.
Lemma taken_app i (l1 l2 : list (@Event W)) : taken i (l1 ++ l2) = taken i l1 ++ taken i l2.
Proof. apply omap_app. Qed.

(** ** First in, first out *)
Definition fifo p : Prop :=
  ∀ i w, workers_ p !! i = Some w → submitted i (log p) = taken i (log p) ++ tasks w.

Lemma fifo_quiet i f p : (∀ w, tasks (f w) = tasks w) → fifo p → fifo (on_worker i f [] p).
Proof.
  intros Hf Hp j w. rewrite lookup_on_worker. simpl. rewrite app_nil_r.
  intros (w' & Hw & ->)%fmap_Some. rewrite (Hp j w' Hw). f_equal.
  destruct (decide (j = i)); [by rewrite Hf|done].
Qed.
Lemma fifo_submit i t p : fifo p → fifo (submit i t p).2.
Proof.
  intros Hp. unfold submit. case_bool_decide; [done|]. cbv [snd]. intros j w. rewrite lookup_on_worker.
  intros (w' & Hw & ->)%fmap_Some. change (log (on_worker ?a ?b ?c ?d)) with (log d ++ c).
  rewrite submitted_app, taken_app, (Hp j w' Hw). simpl. rewrite app_nil_r, <- app_assoc. f_equal.
  destruct (decide (j = i)); [done|apply app_nil_r].
Qed.
Lemma fifo_pop i t ts w p f :
  workers_ p !! i = Some w → tasks w = t :: ts → (∀ w, tasks (f w) = ts) → fifo p →
  fifo (on_worker i f [EPop i t] p).
Proof.
  intros Hw Ht Hf Hp j w2. rewrite lookup_on_worker.
  intros (w' & Hw' & ->)%fmap_Some. change (log (on_worker ?a ?b ?c ?d)) with (log d ++ c).
  rewrite submitted_app, taken_app, (Hp j w' Hw'). simpl. rewrite app_nil_r, <- app_assoc. f_equal.
  destruct (decide (j = i)) as [->|]; [|done]. simplify_eq. by rewrite Ht, Hf.
Qed.
Lemma fifo_same p q : workers_ q = workers_ p → log q = log p → fifo p → fifo q.
Proof. unfold fifo. intros -> ->. done. Qed.

Lemma fifo_perform e p : fifo p → fifo (perform e p).
Proof. destruct e as [|f|j op]; simpl; [done|by apply fifo_same|by apply fifo_quiet]. Qed.
Lemma fifo_worker i p : fifo p → fifo (worker_step i p).
Proof.
  intros Hp. unfold worker_step. destruct (terminated p); [done|]. destruct (workers_ p !! i) as [w|] eqn:Hw; [|done].
  destruct (thread w) as [| |t|k| |]; try done; try by apply fifo_quiet.
  - destruct (tasks w) as [|t ts] eqn:Ht.
    + destruct (shutdown w); [by apply fifo_quiet|done].
    + by eapply fifo_pop.
  - unfold run_task. destruct (action k _ _) as [[k'|[[]|]] e]; try (apply fifo_quiet; [done|by apply fifo_perform]).
    apply (fifo_same (perform e p)); [done..|by apply fifo_perform].
Qed.
Lemma fifo_loop n t p : fifo p → fifo (submit_loop n t p).2.
Proof.
  revert p. induction n as [|n IH]; intros p Hp; simpl; [done|].
  assert (fifo (submit (next_id p) t (fetch_add p)).2) as H by (apply fifo_submit; by apply (fifo_same p)).
  destruct (submit (next_id p) t (fetch_add p)) as [[] p']; simpl in *; [done|by apply IH].
Qed.
Lemma fifo_steps ls p : fifo p → fifo (steps p ls).
Proof.
  revert p. induction ls as [|l ls IH]; intros p Hp; simpl; [done|]. apply IH.
  destruct l; simpl; [by apply fifo_worker|by apply fifo_submit|by apply fifo_loop|by apply fifo_quiet|by apply fifo_quiet].
Qed.
Lemma fifo_new n x : fifo (new_ThreadPool n x).
Proof.
  intros i w. simpl. rewrite list_lookup_fmap. intros (j & _ & ->)%fmap_Some. done.
Qed.

(** C27: from a pool that is constructed, in any interleaving of submissions (direct
    or round robin), context calls, shutdown and worker steps, what was submitted to
    a worker is what it has taken, in that order, followed by what is in its queue:
    nothing is lost, duplicated or reordered.  What is queued when the worker exits
    stays queued: [submit_after_shutdown]. *)
Theorem workers_take_in_order (n : nat) (x : W) ls i w :
  workers_ (steps (new_ThreadPool n x) ls) !! i = Some w →
  let l := log (steps (new_ThreadPool n x) ls) in submitted i l = taken i l ++ tasks w.
Proof. intros Hw. exact (fifo_steps ls _ (fifo_new n x) i w Hw). Qed.

(** ** Shutdown *)
Definition reach (i : nat) p (Q : ThreadPool W → Prop) : Prop := ∃ m, Q (steps p (replicate m (LWorker i))).
Lemma reach_step i p Q : reach i (worker_step i p) Q → reach i p Q.
Proof. intros [m Hm]. by exists (S m). Qed.
Lemma reach_now i p (Q : ThreadPool W → Prop) : Q p → reach i p Q.
Proof. by exists 0. Qed.

(** Worker [i] of [p] is at [th] with its flag set and [ts] queued, [S] being
    what it will have taken. *)
Definition closing (i : nat) (th : Thread W) (S ts : list (Task W)) p : Prop :=
  ∃ w, workers_ p !! i = Some w ∧ thread w = th ∧ shutdown w = true ∧ tasks w = ts ∧ taken i (log p) ++ ts = S.
Definition closed (i : nat) (S : list (Task W)) p : Prop :=
  terminated p = true ∨
  ∃ w, workers_ p !! i = Some w ∧ thread w = Exited ∧ running_ (ctx w) = false ∧ taken i (log p) = S.

Lemma closing_step i th th' S ts p f :
  closing i th S ts p → (∀ w, thread (f w) = th' ∧ shutdown (f w) = shutdown w ∧ tasks (f w) = tasks w) →
  closing i th' S ts (on_worker i f [] p).
Proof.
  intros (w & Hw & _ & Hs & Hts & HS) Hf. destruct (Hf w) as (Ht & Hs' & Hts').
  exists (f w). rewrite lookup_on_worker, Hw, decide_True by done. simpl. rewrite app_nil_r. split_and!; congruence.
Qed.
Lemma closing_ctx i j op th S ts p : closing i th S ts p → closing i th S ts (on_worker j (on_ctx op) [] p).
Proof.
  intros (w & Hw & Ht & Hs & HS). exists ((if decide (i = j) then on_ctx op else id) w).
  rewrite lookup_on_worker, Hw. simpl. rewrite app_nil_r. by destruct (decide (i = j)).
Qed.
Lemma worker_at i th S ts p :
  closing i th S ts p →
  (∀ w, workers_ p !! i = Some w → thread w = th → shutdown w = true → tasks w = ts →
     terminated p = false → reach i (worker_step i p) (closed i S)) → reach i p (closed i S).
Proof.
  intros (w & Hw & Ht & Hs & Hts & HS) H. destruct (terminated p) eqn:E; [by apply reach_now; left|].
  apply reach_step. by eapply H.
Qed.
Lemma closed_leaving i S p : closing i Leaving S [] p → reach i p (closed i S).
Proof.
  intros Hc. eapply worker_at; [exact Hc|]. intros w Hw Ht Hs _ E.
  apply reach_now. right. unfold worker_step. rewrite E, Hw, Ht.
  exists (set_thread Exited (on_ctx MarkStopped w)). rewrite lookup_on_worker, Hw, decide_True by done.
  destruct Hc as (_ & _ & _ & _ & _ & HS). rewrite app_nil_r in HS.
  split_and!; [done|done|by destruct w as [? []]|]. simpl. by rewrite app_nil_r.
Qed.
(** A task that comes to its end by its own actions, from given variables and
    contexts. *)
Definition effect_world (e : Effect) (x : W) : W := match e with OnWorld f => f x | _ => x end.
Definition effect_contexts (e : @Effect W) (cs : list WorkerContext) : list WorkerContext :=
  match e with OnContext j op => alter (apply_op op) j cs | _ => cs end.
Inductive halts : prog W → W → list WorkerContext → Prop :=
  | halts_end k x cs r e : action k x cs = (inr r, e) → halts k x cs
  | halts_step k x cs k' e : action k x cs = (inl k', e) → halts k' (effect_world e x) (effect_contexts e cs) → halts k x cs.
(** A task that does so from any. *)
Definition ends (k : prog W) : Prop := ∀ x cs, halts k x cs.
Lemma ends_ret : ends TRet.
Proof. intros x cs. by eapply halts_end. Qed.
Lemma ends_throw b : ends (TThrow b).
Proof. intros x cs. by eapply halts_end. Qed.
Lemma ends_world f k : ends k → ends (TWorld f k).
Proof. intros H x cs. eapply halts_step; [done|apply H]. Qed.
Lemma ends_ctx j op k : ends k → ends (TCtx j op k).
Proof. intros H x cs. eapply halts_step; [done|apply H]. Qed.
Lemma ends_read {A} (g : W → list WorkerContext → A) k : (∀ a, ends (k a)) → ends (TRead g k).
Proof. intros H x cs. eapply halts_step; [done|apply H]. Qed.
(** A loop whose test is false ends. *)
Lemma halts_while test body k x cs : test x cs = false → halts k x cs → halts (TWhile test body k) x cs.
Proof. intros Ht Hk. eapply halts_step; [cbn [action]; by rewrite Ht|exact Hk]. Qed.

Lemma contexts_on_worker i f p : (∀ w, ctx (f w) = ctx w) → contexts (on_worker i f [] p) = contexts p.
Proof.
  intros Hf. apply list_eq. intros j. unfold contexts. rewrite !list_lookup_fmap, lookup_on_worker.
  destruct (workers_ p !! j); [|done]. simpl. f_equal. destruct (decide (j = i)); [apply Hf|done].
Qed.
Lemma contexts_perform e p : contexts (perform e p) = effect_contexts e (contexts p).
Proof.
  destruct e as [|f|j op]; [done..|]. apply list_eq. intros l. unfold contexts. simpl. rewrite list_lookup_fmap.
  destruct (decide (l = j)) as [->|Hne].
  - rewrite !list_lookup_alter_eq, list_lookup_fmap. by destruct (workers_ p !! j).
  - by rewrite !list_lookup_alter_ne, list_lookup_fmap by done.
Qed.
Lemma world_perform e p : world (perform e p) = effect_world e (world p).
Proof. by destruct e. Qed.
Lemma closing_perform i e th S ts p : closing i th S ts p → closing i th S ts (perform e p).
Proof. intros H. destruct e as [|f|j op]; [exact H|exact H|by apply closing_ctx]. Qed.
Lemma closed_task i S ts k x cs : halts k x cs → ∀ p,
  world p = x → contexts p = cs → (∀ p, closing i Waiting S ts p → reach i p (closed i S)) →
  closing i (Running k) S ts p → reach i p (closed i S).
Proof.
  induction 1 as [k x cs r e E|k x cs k' e E _ IH]; intros p <- <- Hnext Hc; (eapply worker_at; [exact Hc|]);
    intros w Hw Ht Hs Hts Et; unfold worker_step; rewrite Et, Hw, Ht; unfold run_task; rewrite E.
  - destruct r as [[]|]; [|by apply reach_now; left|]; apply Hnext; by eapply closing_step; [apply closing_perform|].
  - apply IH; [|by rewrite contexts_on_worker, contexts_perform|exact Hnext|by eapply closing_step; [apply closing_perform|]].
    simpl. apply world_perform.
Qed.
Lemma closed_waiting i S ts p : (∀ t, t ∈ ts → ends (t i)) → closing i Waiting S ts p → reach i p (closed i S).
Proof.
  revert p. induction ts as [|t ts IH]; intros p Hends Hc; (eapply worker_at; [exact Hc|]);
    intros w Hw Ht Hs Hts E; unfold worker_step; rewrite E, Hw, Ht, Hts.
  - rewrite Hs. apply closed_leaving. by eapply closing_step.
  - assert (closing i (Popped t) S ts (on_worker i (λ w, set_thread (Popped t) (set_tasks ts w)) [EPop i t] p)) as Hc'.
    { destruct Hc as (_ & _ & _ & _ & _ & HS). exists (set_thread (Popped t) (set_tasks ts w)).
      rewrite lookup_on_worker, Hw, decide_True by done. split_and!; [done..|].
      change (log (on_worker ?a ?b ?c ?d)) with (log d ++ c). rewrite taken_app. simpl. rewrite decide_True by done.
      by rewrite <- app_assoc. }
    eapply worker_at; [exact Hc'|]. intros w' Hw' Ht' _ _ E'.
    unfold worker_step at 1. rewrite E', Hw', Ht'. eapply closed_task; [by apply Hends; left|done|done| |by eapply closing_step].
    intros p' Hp'. apply IH; [|exact Hp']. intros t' Ht2. apply Hends. by right.
Qed.

(** What a worker runs ends from where it is, and what it has yet to run ends
    from anywhere. *)
Definition ending (i : nat) (w : Worker W) p : Prop :=
  match thread w with Popped t => ends (t i) | Running k => halts k (world p) (contexts p) | _ => True end ∧
  (∀ t, t ∈ tasks w → ends (t i)).
Lemma closed_live i w S p : workers_ p !! i = Some w → closing i (thread w) S (tasks w) p → ending i w p →
  thread w ≠ Leaving → thread w ≠ Exited → reach i p (closed i S).
Proof.
  intros Hw Hc [He Hq] H1 H2. destruct (thread w) as [| |t|k| |]; [|by eapply closed_waiting| | |done|done].
  - eapply worker_at; [exact Hc|]. intros w' Hw' Ht Hs Hts E. unfold worker_step. rewrite E, Hw', Ht.
    eapply closed_waiting; [exact Hq|]. by eapply closing_step.
  - eapply worker_at; [exact Hc|]. intros w' Hw' Ht Hs Hts E. unfold worker_step. rewrite E, Hw', Ht.
    eapply closed_task; [apply He|done|done|by intros p'; apply closed_waiting|]. by eapply closing_step.
  - eapply closed_task; [exact He|done|done|by intros p'; apply closed_waiting|exact Hc].
Qed.

(** C28: shutdown drains: take a worker of a constructed pool whose shutdown flag is
    set and that has not yet left its loop, let the task it runs end from where it
    is and the tasks in its queue end whenever they are started.  Then by its own
    steps it takes every task submitted to it so far and exits, its context marked
    stopped, so that the join returns; the one exception is a task that throws
    something else than a [std::exception], which ends the process.  A queued task
    that polls [shouldStop] does not end, see [queued_poll_hangs]. *)
Theorem shutdown_drains (n : nat) (x : W) ls i w :
  let p := steps (new_ThreadPool n x) ls in
  workers_ p !! i = Some w → shutdown w = true → thread w ≠ Leaving → thread w ≠ Exited → ending i w p →
  ∃ m, let q := steps p (replicate m (LWorker i)) in
    terminated q = true ∨
    ∃ w', workers_ q !! i = Some w' ∧ join_ready w' = true ∧ running_ (ctx w') = false ∧
          taken i (log q) = submitted i (log p).
Proof.
  intros p Hw Hs H1 H2 He. pose proof (fifo_steps ls _ (fifo_new n x) i w Hw) as HS. fold p in HS.
  destruct (closed_live i w (submitted i (log p)) p) as [m Hm]; [done|by exists w|done..|].
  exists m. destruct Hm as [Ht|(w' & Hw' & Hx & Hr & HT)]; [by left|right].
  exists w'. unfold join_ready. by rewrite Hx.
Qed.

Lemma shutdown_requests_lookup i w p : workers_ p !! i = Some w →
  workers_ (shutdown_requests p) !! i = Some (set_shutdown (on_ctx RequestStop w)) ∧
  terminated (shutdown_requests p) = terminated p ∧ log (shutdown_requests p) = log p.
Proof.
  intros Hw. unfold shutdown_requests.
  assert (∀ l p, terminated (foldl (λ p i, on_worker i set_shutdown [] (on_worker i (on_ctx RequestStop) [] p)) p l) = terminated p ∧
    log (foldl (λ p i, on_worker i set_shutdown [] (on_worker i (on_ctx RequestStop) [] p)) p l) = log p) as Hfr.
  { clear. induction l as [|j l IH]; intros p; simpl; [done|]. destruct (IH (on_worker j set_shutdown [] (on_worker j (on_ctx RequestStop) [] p))) as [-> ->].
    simpl. by rewrite !app_nil_r. }
  split; [|apply Hfr]. clear Hfr.
  assert (∀ l p, NoDup l → workers_ (foldl (λ p i, on_worker i set_shutdown [] (on_worker i (on_ctx RequestStop) [] p)) p l) !! i =
    (if decide (i ∈ l) then λ w, set_shutdown (on_ctx RequestStop w) else id) <$> workers_ p !! i) as H.
  { clear. induction l as [|j l IH]; intros p Hnd; simpl; [by destruct (workers_ p !! i)|].
    apply NoDup_cons in Hnd as [Hj Hnd]. rewrite IH by done. rewrite !lookup_on_worker.
    destruct (workers_ p !! i) as [w|]; [|done]. simpl. f_equal.
    destruct (decide (i = j)) as [->|]; [rewrite (decide_False (P := j ∈ l)), decide_True by (done || left); done|].
    destruct (decide (i ∈ l)); [by rewrite decide_True by (by right)|].
    by rewrite decide_False by (by intros [|]%elem_of_cons). }
  rewrite H, Hw by apply NoDup_seq. rewrite decide_True; [done|].
  apply elem_of_seq. apply lookup_lt_Some in Hw. unfold size. lia.
Qed.

(** The stop request of [shutdown] does not reach queued tasks: a worker
    that takes a task after the request clears the flag first, so the task
    starts with [shouldStop] false although the pool is shutting down. *)
Theorem queued_tasks_miss_shutdown i w t ts p :
  workers_ p !! i = Some w → thread w = Waiting → tasks w = t :: ts → terminated p = false →
  ∃ w', workers_ (steps (shutdown_requests p) [LWorker i; LWorker i]) !! i = Some w' ∧
    thread w' = Running (t i) ∧ shutdown w' = true ∧ shouldStop (ctx w') = false.
Proof.
  intros Hw Ht Hts E. destruct (shutdown_requests_lookup i w p Hw) as (Hw1 & E1 & _).
  destruct w as [th c tk sh]. simpl in Ht, Hts. subst th tk.
  simpl. unfold worker_step at 2. rewrite E1, E, Hw1. simpl.
  unfold worker_step. rewrite lookup_on_worker, Hw1, decide_True by done. simpl.
  rewrite E1, E. rewrite lookup_on_worker, lookup_on_worker, Hw1, !decide_True by done. simpl.
  eexists. split_and!; [done..|]. by destruct c.
Qed.

(** A task that polls until its worker is to stop, queued when the pool shuts
    down, runs forever: the worker clears the request before it runs the task, so
    the join of [shutdown] does not return. *)
Definition poll_until_stop (f : W → W) : Task W := λ i,
  TWhile (λ _ cs, match cs !! i with Some c => negb (shouldStop c) | None => false end) (TWorld f TRet) TRet.
Definition hanging (i : nat) (f : W → W) p : Prop :=
  terminated p = false ∧ ∃ w, workers_ p !! i = Some w ∧
    ((thread w = Waiting ∧ ∃ ts, tasks w = poll_until_stop f :: ts) ∨ thread w = Popped (poll_until_stop f) ∨
     (shouldStop (ctx w) = false ∧ ∃ k, thread w = Running k ∧
       (k = poll_until_stop f i ∨ k = TSeq (TWorld f TRet) (poll_until_stop f i) ∨ k = TSeq TRet (poll_until_stop f i)))).
Lemma hanging_step i f p : hanging i f p → hanging i f (worker_step i p).
Proof.
  intros (Ht & w & Hw & H). unfold worker_step. rewrite Ht, Hw.
  assert (∀ g ev, workers_ (on_worker i g ev p) !! i = Some (g w)) as Hon by (intros; by rewrite lookup_on_worker, decide_True, Hw by done).
  destruct H as [(Hth & ts & Hts)|[Hth|(Hst & k & Hth & Hk)]]; rewrite Hth.
  - rewrite Hts. split; [done|]. eexists. split; [apply Hon|]. right; left. done.
  - split; [done|]. eexists. split; [apply Hon|]. right; right. split; [by destruct w as [? []]|]. eexists. split; [done|by left].
  - assert (contexts p !! i = Some (ctx w)) as Hc by (unfold contexts; by rewrite list_lookup_fmap, Hw).
    unfold run_task. destruct Hk as [->|[->| ->]]; cbn [action poll_until_stop]; rewrite ?Hc, ?Hst; cbn [negb perform].
    + split; [done|]. eexists. split; [apply Hon|]. right; right. split; [exact Hst|]. eexists. split; [done|]. by right; left.
    + split; [done|]. eexists. split; [rewrite lookup_on_worker, decide_True by done; simpl; by rewrite Hw|]. right; right.
      split; [exact Hst|]. eexists. split; [done|]. by right; right.
    + split; [done|]. eexists. split; [apply Hon|]. right; right. split; [exact Hst|]. eexists. split; [done|]. by left.
Qed.
Theorem queued_poll_hangs i w f ts p m :
  workers_ p !! i = Some w → thread w = Waiting → tasks w = poll_until_stop f :: ts → terminated p = false →
  shutdown_returns (steps (shutdown_requests p) (replicate m (LWorker i))) = false.
Proof.
  intros Hw Ht Hts E. destruct (shutdown_requests_lookup i w p Hw) as (Hw1 & E1 & _).
  assert (hanging i f (shutdown_requests p)) as Hh.
  { split; [by rewrite E1|]. eexists. split; [exact Hw1|]. left. by split; [|exists ts]. }
  revert Hh. generalize (shutdown_requests p). clear. induction m as [|m IH]; intros p Hh; [|by apply IH, hanging_step].
  destruct Hh as (_ & w & Hw & H). simpl. destruct (shutdown_returns p) eqn:Hr; [|done].
  unfold shutdown_returns in Hr. rewrite forallb_forall in Hr. specialize (Hr w (proj1 (list_elem_of_In _ _) (list_elem_of_lookup_2 _ _ _ Hw))).
  unfold join_ready in Hr. destruct H as [(Hth & _)|[Hth|(_ & k & Hth & _)]]; by rewrite Hth in Hr.
Qed.
End pool_facts.

(** ** A pool of two workers
    A task that reports what [shouldStop] answers it. *)
Definition polling (name : string) : Task (list (string * bool)) := λ i,
  TRead (λ _ cs, match cs !! i with Some c => shouldStop c | None => false end) (λ b,
    TWorld (λ l, l ++ [(name, b)]) (TCtx i (ReportPoll 0 name) TRet)).
Definition shutdown_labels : list (label (list (string * bool))) :=
  [LCtx 0 RequestStop; LShutdown 0; LCtx 1 RequestStop; LShutdown 1].
(** The request arrives when "a" runs: "a" sees it, the queued "c" does not. *)
Definition demo_labels : list (label (list (string * bool))) :=
  [LSubmitRoundRobin (polling "a"); LSubmitRoundRobin (polling "b"); LSubmitRoundRobin (polling "c");
   LWorker 0; LWorker 0; LWorker 0] ++ shutdown_labels.
Definition demo_pool : ThreadPool (list (string * bool)) := steps (new_ThreadPool 2 []) demo_labels.
Example demo_shutdown :
  let q := steps demo_pool (replicate 12 (LWorker 0) ++ replicate 9 (LWorker 1)) in
  world q = [("a", true); ("c", false); ("b", false)] ∧ shutdown_returns q = true ∧
  (poll_count_ <$> context 0 q) = Some 2%Z.
Proof. by_compute. Qed.
(** A task submitted after the exit is accepted and never taken. *)
Example submit_after_shutdown :
  let q := steps demo_pool (replicate 12 (LWorker 0)) in
  let '(accepted, q') := submit 0 (polling "d") q in
  accepted = true ∧ world (steps q' (replicate 12 (LWorker 0))) = world q.
Proof. by_compute. Qed.

Lemma workers_take_in_order_witness :
  let l := log demo_pool in
  ∃ w, workers_ demo_pool !! 0 = Some w ∧ submitted 0 l = [polling "a"; polling "c"] ∧
    submitted 0 l = taken 0 l ++ tasks w.
Proof.
  eexists. split; [by vm_compute|]. split; [by vm_compute|]. by apply (workers_take_in_order 2 [] demo_labels 0).
Defined.
Lemma polling_ends name i : ends (polling name i).
Proof. apply ends_read. intros b. apply ends_world, ends_ctx, ends_ret. Qed.
Lemma shutdown_drains_witness :
  ∃ m, let q := steps demo_pool (replicate m (LWorker 0)) in
    terminated q = true ∨
    ∃ w', workers_ q !! 0 = Some w' ∧ join_ready w' = true ∧ running_ (ctx w') = false ∧
          taken 0 (log q) = submitted 0 (log demo_pool).
Proof.
  eapply (shutdown_drains 2 [] demo_labels 0); [by vm_compute|done..|]. split; [apply polling_ends|].
  intros t ->%list_elem_of_singleton. apply polling_ends.
Defined.
(** The same with a task that polls until a stop, running when the request
    arrives: it sees the request, and the worker exits. *)
Definition stopped_poll : ThreadPool nat :=
  steps (new_ThreadPool 1 0) ([LSubmit 0 (poll_until_stop S)] ++ replicate 9 (LWorker 0) ++ [LCtx 0 RequestStop; LShutdown 0]).
Example running_poll_ends :
  let q := steps stopped_poll (replicate 9 (LWorker 0)) in shutdown_returns q = true ∧ world q = 2.
Proof. by_compute. Qed.
Lemma queued_poll_hangs_witness : ∀ m,
  shutdown_returns (steps (shutdown_requests (steps (new_ThreadPool 1 0) [LSubmit 0 (poll_until_stop S); LWorker 0])) (replicate m (LWorker 0))) = false.
Proof. intros m. by eapply queued_poll_hangs. Defined.
Lemma queued_tasks_miss_shutdown_witness :
  let p := steps (new_ThreadPool 2 []) [LSubmit 1 (polling "b"); LWorker 1] in
  ∃ w', workers_ (steps (shutdown_requests p) [LWorker 1; LWorker 1]) !! 1 = Some w' ∧
    thread w' = Running (polling "b" 1) ∧ shutdown w' = true ∧ shouldStop (ctx w') = false.
Proof. by eapply queued_tasks_miss_shutdown. Defined.
