(* ===== verification/FloatText.v ===== *)
(** * Floating-point numbers and their text

    IEEE 754 values are those of the Standard Library's executable
    specification; [format_double] is the default format of a stream and
    [format_fixed] the [%.kf] of [printf]. *)
From Stdlib Require Import Ascii Floats.SpecFloat.
From S2P Require Import Prelude.

(** An IEEE 754 interchange format of [ew] exponent and [mw] mantissa bits. *)
Definition decode_float (ew mw bits : Z) : spec_float :=
  let m := Z.land bits (Z.ones mw) in
  let e := Z.land (Z.shiftr bits mw) (Z.ones ew) in
  let s := Z.testbit bits (ew + mw) in
  let bias := (2 ^ (ew - 1) - 1)%Z in
  if bool_decide (e = Z.ones ew) then if bool_decide (m = 0%Z) then S754_infinity s else S754_nan
  else if bool_decide (e = 0%Z) then
    match m with Zpos p => S754_finite s p (1 - bias - mw) | _ => S754_zero s end
  else match (m + 2 ^ mw)%Z with Zpos p => S754_finite s p (e - bias - mw) | _ => S754_zero s end.
Definition decode_float32 := decode_float 8 23.
Definition decode_float64 := decode_float 11 52.

(** [os << d], that is [%g] with six digits: round to six digits, to even on a
    tie, then the fixed or the scientific form without trailing zeros. *)
Fixpoint ilog10 (fuel : nat) (num den x : Z) : Z :=
  match fuel with
  | O => x
  | S fuel =>
      if bool_decide (10 * den ≤ num)%Z then ilog10 fuel num (10 * den) (x + 1)
      else if bool_decide (num < den)%Z then ilog10 fuel (10 * num) den (x - 1)
      else x
  end.
Definition round_half_even (num den : Z) : Z :=
  let q := (num / den)%Z in let r := (2 * (num `mod` den))%Z in
  if bool_decide (r < den)%Z then q
  else if bool_decide (r = den) then if Z.even q then q else q + 1
  else q + 1.
Fixpoint zeros (n : nat) : string := match n with O => "" | S n => "0" +:+ zeros n end.
Fixpoint strip_zeros (rev_digits : list Ascii.ascii) : list Ascii.ascii :=
  match rev_digits with
  | "0"%char :: ds => strip_zeros ds
  | _ => rev_digits
  end.
Definition digits_of (d : Z) : list Ascii.ascii := String.list_ascii_of_string (pretty d).
Definition str := String.string_of_list_ascii.
Definition with_point (int frac : list Ascii.ascii) : string :=
  match strip_zeros (rev frac) with
  | [] => str int
  | f => str int +:+ "." +:+ str (rev f)
  end.
Definition format_positive (m : positive) (e : Z) : string :=
  let num := (Zpos m * 2 ^ Z.max e 0)%Z in let den := (2 ^ Z.max (- e) 0)%Z in
  let x0 := ilog10 400 num den 0 in
  let d0 := round_half_even (num * 10 ^ Z.max (5 - x0) 0) (den * 10 ^ Z.max (x0 - 5) 0) in
  let '(d, x) := if bool_decide (d0 = 10 ^ 6)%Z then ((10 ^ 5)%Z, (x0 + 1)%Z) else (d0, x0) in
  let ds := digits_of d in
  if bool_decide (x < -4)%Z || bool_decide (6 ≤ x)%Z then
    with_point (take 1 ds) (drop 1 ds) +:+ "e" +:+ (if bool_decide (x < 0)%Z then "-" else "+") +:+
      (if bool_decide (Z.abs x < 10)%Z then "0" else "") +:+ pretty (Z.abs x)
  else if bool_decide (x < 0)%Z then
    with_point ["0"%char] (String.list_ascii_of_string (zeros (Z.to_nat (- x - 1))) ++ ds)
  else with_point (take (Z.to_nat (x + 1)) ds) (drop (Z.to_nat (x + 1)) ds).
Definition format_double (d : spec_float) : string :=
  match d with
  | S754_zero s => if s then "-0" else "0"
  | S754_infinity s => if s then "-inf" else "inf"
  | S754_nan => "nan"
  | S754_finite s m e => (if s then "-" else "") +:+ format_positive m e
  end.
Example format_examples :
  format_double <$> [decode_float64 0x3FF8000000000000; decode_float64 0x3FB999999999999A;
                     decode_float64 0x412E848000000000; decode_float64 0xC00921FB54442D18;
                     decode_float64 0x3EE4F8B588E368F1; decode_float64 0x40F86A0000000000;
                     decode_float32 0x41C80000; decode_float64 0x412E847F00000000; decode_float64 0x1]
  = ["1.5"; "0.1"; "1e+06"; "-3.14159"; "1e-05"; "100000"; "25"; "1e+06"; "4.94066e-324"].
Proof. by_compute. Qed.

(** [printf("%.kf", d)]: rounded to [k] decimals, to even on a tie. *)
Definition pad_left (k : nat) (ds : list Ascii.ascii) : list Ascii.ascii :=
  String.list_ascii_of_string (zeros (k - length ds)) ++ ds.
Definition format_fixed (k : nat) (d : spec_float) : string :=
  let text (n : Z) : string :=
    let p := (10 ^ Z.of_nat k)%Z in
    pretty (n / p)%Z +:+ "." +:+ str (pad_left k (digits_of (n `mod` p)%Z)) in
  match d with
  | S754_zero s => (if s then "-" else "") +:+ text 0%Z
  | S754_infinity s => if s then "-inf" else "inf"
  | S754_nan => "nan"
  | S754_finite s m e =>
      (if s then "-" else "") +:+
        text (round_half_even (Zpos m * 2 ^ Z.max e 0 * 10 ^ Z.of_nat k) (2 ^ Z.max (- e) 0))
  end.
Example fixed_examples :
  format_fixed 2 (decode_float64 0x404DFEB851EB851F) = "59.99" ∧ format_fixed 1 (decode_float64 0x4055600000000000) = "85.5" ∧
  format_fixed 2 (decode_float64 0x3F947AE147AE147B) = "0.02" ∧ format_fixed 2 (S754_zero false) = "0.00".
Proof. by_compute. Qed.
