(* ===== verification/UaTypes.v ===== *)
(** * What the OPC UA parsers take from open62541

    The type descriptors, the structures and the constants of open62541 that
    the sources name, with the documented layout of [UA_String], and the memory
    the sources read through pointers, little endian with eight-byte pointers. *)
From Stdlib Require Import Ascii.
From S2P Require Import Prelude.

(** The kinds the parser names.  [UA_TYPES_x] and [UA_DATATYPEKIND_x] are one
    number for the built-in kinds, and the others are different. *)
Inductive Kind :=
  | KBoolean | KSByte | KByte | KInt16 | KUInt16 | KInt32 | KUInt32 | KInt64 | KUInt64
  | KFloat | KDouble | KString | KDateTime | KGuid | KByteString | KNodeId
  | KQualifiedName | KLocalizedText | KStatusCode | KEnum | KStructure | KOptStruct | KOther (k : Z).
#[export] Instance Kind_eq_dec : EqDecision Kind.
Proof. solve_decision. Defined.

Record Member (T : Type) := mkMember {
  memberName : option string; memberType : option T; padding : Z; isArray : bool
}.
Arguments mkMember {T}.
Arguments memberName {T}.
Arguments memberType {T}.
Arguments padding {T}.
Arguments isArray {T}.
(** [UA_DataType]; a type does not contain itself. *)
Inductive UA_DataType := mkDataType {
  typeName : option string; memSize : Z; typeKind : Kind; members : list (Member UA_DataType)
}.

Section type_induction.
Context (P : UA_DataType → Prop).
Context (H : ∀ n s k ms, Forall (λ m, match memberType m with Some t => P t | None => True end) ms → P (mkDataType n s k ms)).
(** Induction over the types of the members. *)
Fixpoint UA_DataType_rect' (t : UA_DataType) : P t.
Proof.
  destruct t as [n s k ms]. apply H. induction ms as [|[mn [t|] pd a] ms IH]; constructor; simpl; auto.
Qed.
End type_induction.

(** ** Memory
    [None] is an address where nothing is: reading there has no defined
    behaviour.  Addresses are not aligned, as on the machines of the demos. *)
Definition Memory := Z → option Z.    (* the byte at an address *)
Definition load_byte (mem : Memory) (a : Z) : outcome Z :=
  match mem a with Some b => Ret (b `mod` 256)%Z | None => Undef end.
Fixpoint load (mem : Memory) (n : nat) (a : Z) : outcome Z :=
  match n with
  | O => Ret 0%Z
  | S n => b ← load_byte mem a; r ← load mem n (a + 1)%Z; Ret (b + 256 * r)%Z
  end.
Definition load_signed (mem : Memory) (n : nat) (a : Z) : outcome Z :=
  z ← load mem n a; Ret (swrap (8 * Z.of_nat n) z).
Fixpoint load_string (mem : Memory) (n : nat) (a : Z) : outcome string :=
  match n with
  | O => Ret ""
  | S n => b ← load_byte mem a; r ← load_string mem n (a + 1)%Z; Ret (String (Ascii.ascii_of_N (Z.to_N b)) r)
  end.
(** The memory of the examples: bytes stored in an empty memory. *)
Definition no_memory : Memory := λ _, None.
Definition store_bytes (a : Z) (bs : list Z) (mem : Memory) : Memory :=
  λ x, if bool_decide (a ≤ x < a + Z.of_nat (length bs))%Z then bs !! Z.to_nat (x - a) else mem x.

(** A read returns where every byte is there, and depends on those bytes only. *)
Definition mapped (mem : Memory) (a n : Z) : Prop := ∀ x, (a ≤ x < a + n)%Z → is_Some (mem x).
Lemma load_mapped mem n a : mapped mem a (Z.of_nat n) → ∃ z, load mem n a = Ret z.
Proof.
  revert a. induction n as [|n IH]; intros a H; [by eexists|]. cbn [load]. unfold load_byte.
  destruct (H a) as [b ->]; [lia|]. destruct (IH (a + 1)%Z) as [z Hz]; [intros x Hx; apply H; lia|]. simpl. rewrite Hz. by eexists.
Qed.
Lemma load_string_mapped mem n a : mapped mem a (Z.of_nat n) → ∃ s, load_string mem n a = Ret s.
Proof.
  revert a. induction n as [|n IH]; intros a H; [by eexists|]. cbn [load_string]. unfold load_byte.
  destruct (H a) as [b ->]; [lia|]. destruct (IH (a + 1)%Z) as [z Hz]; [intros x Hx; apply H; lia|]. simpl. rewrite Hz. by eexists.
Qed.
Lemma load_nothrow mem n a e : load mem n a ≠ Throw e.
Proof.
  revert a. induction n as [|n IH]; intros a; [done|]. cbn [load]. unfold load_byte. destruct (mem a) as [b|]; [|done].
  specialize (IH (a + 1)%Z). simpl. by destruct (load mem n (a + 1)%Z).
Qed.
Lemma load_string_nothrow mem n a e : load_string mem n a ≠ Throw e.
Proof.
  revert a. induction n as [|n IH]; intros a; [done|]. cbn [load_string]. unfold load_byte. destruct (mem a) as [b|]; [|done].
  specialize (IH (a + 1)%Z). simpl. by destruct (load_string mem n (a + 1)%Z).
Qed.
Lemma load_agree mem mem' n a : (∀ x, (a ≤ x < a + Z.of_nat n)%Z → mem x = mem' x) → load mem n a = load mem' n a.
Proof.
  revert a. induction n as [|n IH]; intros a H; [done|]. cbn [load]. unfold load_byte. rewrite (H a) by lia.
  rewrite (IH (a + 1)%Z); [done|]. intros x Hx. apply H. lia.
Qed.
Lemma load_string_agree mem mem' n a : (∀ x, (a ≤ x < a + Z.of_nat n)%Z → mem x = mem' x) → load_string mem n a = load_string mem' n a.
Proof.
  revert a. induction n as [|n IH]; intros a H; [done|]. cbn [load_string]. unfold load_byte. rewrite (H a) by lia.
  rewrite (IH (a + 1)%Z); [done|]. intros x Hx. apply H. lia.
Qed.
