(* ===== verification/StructParser.v ===== *)
(** * [StructParser] of [proto_opcua/parse_project/struct_parser.h/.cpp]

    The type analysis, the recursive reading of a value from memory, and the two
    printers.  [parseValue] recurses on the type as the source does; the union
    [num] is a tagged value whose inactive members cannot be read. *)
From Stdlib Require Import Floats.SpecFloat.
From S2P Require Import Prelude FloatText UaTypes.
Implicit Types (mem : Memory) (dt : UA_DataType).

Inductive FieldType :=
  | BOOL | I8 | U8 | I16 | U16 | I32 | U32 | I64 | U64
  | FLOAT | DOUBLE | STRING | DATETIME | GUID | BYTESTRING
  | NODEID | QN | LT | STATUSCODE
  | STRUCTURE | ENUM | ARRAY | UNKNOWN.
#[export] Instance FieldType_eq_dec : EqDecision FieldType.
Proof. solve_decision. Defined.
Definition FieldType_int (ft : FieldType) : Z :=
  match ft with
  | BOOL => 0 | I8 => 1 | U8 => 2 | I16 => 3 | U16 => 4 | I32 => 5 | U32 => 6 | I64 => 7 | U64 => 8
  | FLOAT => 9 | DOUBLE => 10 | STRING => 11 | DATETIME => 12 | GUID => 13 | BYTESTRING => 14
  | NODEID => 15 | QN => 16 | LT => 17 | STATUSCODE => 18
  | STRUCTURE => 19 | ENUM => 20 | ARRAY => 21 | UNKNOWN => 22
  end.

Record MemberInfo := mkMemberInfo {
  m_name : string; type_name : string; m_ft : FieldType; m_is_array : bool; is_dyn_array : bool;
  fixed_len : Z; offset : Z; ua_type : option UA_DataType
}.
Record TypeLayout := mkTypeLayout { tl_name : string; mem_size : Z; tl_members : list MemberInfo }.
Definition no_layout : TypeLayout := {| tl_name := ""; mem_size := 0; tl_members := [] |}.

(** The union, by the member last written; [num{}] writes [b]. *)
Inductive Num := NumB (b : bool) | NumI64 (z : Z) | NumU64 (z : Z) | NumD (d : spec_float).
Inductive ParsedValue := mkParsedValue {
  field_name : string; ft : FieldType; is_array : bool; num : Num; pstr : string;
  struct_fields : list ParsedValue; array_elems : list ParsedValue
}.
Definition new_ParsedValue (name : string) : ParsedValue := mkParsedValue name UNKNOWN false (NumB false) "" [] [].
Definition scalar (name : string) (ft : FieldType) (n : Num) (s : string) : ParsedValue :=
  mkParsedValue name ft false n s [] [].

(** ** Types *)
Definition typeKindToFieldType (kind : Kind) (dt : option Kind) : FieldType :=
  match kind with
  | KBoolean => BOOL | KSByte => I8 | KByte => U8 | KInt16 => I16 | KUInt16 => U16
  | KInt32 => I32 | KUInt32 => U32 | KInt64 => I64 | KUInt64 => U64
  | KFloat => FLOAT | KDouble => DOUBLE | KString => STRING | KDateTime => DATETIME
  | KGuid => GUID | KByteString => BYTESTRING | KNodeId => NODEID
  | KQualifiedName => QN | KLocalizedText => LT | KStatusCode => STATUSCODE
  | _ => match dt with
         | Some KEnum => ENUM
         | Some KStructure => STRUCTURE
         | _ => UNKNOWN
         end
  end.
Definition kind_ft (k : Kind) : FieldType := typeKindToFieldType k (Some k).
Definition analyze_member (um : Member UA_DataType) : MemberInfo :=
  let mtype := memberType um in
  {| m_name := default "" (memberName um);
     type_name := match mtype with Some t => default "?" (typeName t) | None => "?" end;
     m_ft := match mtype with
             | None => UNKNOWN
             | Some t =>
                 let ft := kind_ft (typeKind t) in
                 if bool_decide (ft = STRUCTURE) || bool_decide (ft = UNKNOWN) then
                   match typeKind t with KStructure => STRUCTURE | KEnum => ENUM | _ => ft end
                 else ft
             end;
     m_is_array := isArray um; is_dyn_array := isArray um; fixed_len := 0;
     offset := padding um; ua_type := mtype |}.
Definition analyzeType (dt : option UA_DataType) : TypeLayout :=
  match dt with
  | None => no_layout
  | Some t => {| tl_name := default "" (typeName t); mem_size := memSize t; tl_members := analyze_member <$> members t |}
  end.
(** [walkTypes]: [read] is the answer of [UA_Client_readValueAttribute], the
    type of the value, if the read was good and there is one. *)
Definition walkTypes {NodeId} (read : NodeId → option UA_DataType) (type_node : NodeId) : TypeLayout :=
  analyzeType (read type_node).

(** ** Reading a value
    A read through an address where nothing is has no defined behaviour. *)
Definition parseScalar mem (data : Z) dt (name : string) : outcome ParsedValue :=
  let v n := scalar name (kind_ft (typeKind dt)) n "" in
  match typeKind dt with
  | KBoolean => z ← load mem 1 data; Ret (v (NumB (negb (bool_decide (z = 0%Z)))))
  | KSByte => z ← load_signed mem 1 data; Ret (v (NumI64 z))
  | KByte => z ← load mem 1 data; Ret (v (NumU64 z))
  | KInt16 => z ← load_signed mem 2 data; Ret (v (NumI64 z))
  | KUInt16 => z ← load mem 2 data; Ret (v (NumU64 z))
  | KInt32 => z ← load_signed mem 4 data; Ret (v (NumI64 z))
  | KUInt32 => z ← load mem 4 data; Ret (v (NumU64 z))
  | KInt64 => z ← load_signed mem 8 data; Ret (v (NumI64 z))
  | KUInt64 => z ← load mem 8 data; Ret (v (NumU64 z))
  | KFloat => z ← load mem 4 data; Ret (v (NumD (decode_float32 z)))
  | KDouble => z ← load mem 8 data; Ret (v (NumD (decode_float64 z)))
  | KString =>
      len ← load mem 8 data;
      ptr ← (if bool_decide (0 < len)%Z then load mem 8 (data + 8)%Z else Ret 0%Z);
      s ← (if bool_decide (0 < len)%Z && negb (bool_decide (ptr = 0%Z)) then load_string mem (Z.to_nat len) ptr else Ret "");
      Ret (scalar name (kind_ft (typeKind dt)) (NumB false) s)
  | KDateTime => z ← load_signed mem 8 data; Ret (v (NumU64 (uwrap 64 z)))
  | _ => Ret (v (NumB false))
  end.
Definition parse_enum mem (data : Z) dt : outcome Num :=
  if bool_decide (memSize dt = 1%Z) then z ← load mem 1 data; Ret (NumI64 z)
  else if bool_decide (memSize dt = 2%Z) then z ← load_signed mem 2 data; Ret (NumI64 z)
  else if bool_decide (memSize dt = 4%Z) then z ← load_signed mem 4 data; Ret (NumI64 z)
  else Ret (NumI64 0).
Definition elem_name (name : string) (i : nat) : string := name +:+ "[" +:+ pretty (Z.of_nat i) +:+ "]".
Fixpoint parseValue mem (data : Z) dt (name : string) {struct dt} : outcome ParsedValue :=
  if bool_decide (data = 0%Z) then Ret (new_ParsedValue name) else
  let pv_ft := kind_ft (typeKind dt) in
  match pv_ft with
  | STRUCTURE =>
      let fields (um : Member UA_DataType) : outcome (list ParsedValue) :=
        let m := analyze_member um in
        let mptr := (data + offset m)%Z in
        if m_is_array m then
          arr_ptr ← load mem 8 mptr;
          count ← (if is_dyn_array m then load mem 8 (mptr + 8)%Z else Ret (fixed_len m));
          match memberType um with                     (* [m.ua_type] *)
          | Some mt =>
              if negb (bool_decide (arr_ptr = 0%Z)) && bool_decide (0 < count)%Z then
                es ← mapM (λ i, parseValue mem (arr_ptr + Z.of_nat i * memSize mt)%Z mt (elem_name (m_name m) i))
                          (seq 0 (Z.to_nat count));
                Ret [mkParsedValue (m_name m) (m_ft m) true (NumB false) "" [] es]
              else Ret []
          | None => Ret []
          end
        else
          match memberType um with
          | None => Ret []
          | Some mt =>
              v ← (if bool_decide (m_ft m = STRUCTURE) then parseValue mem mptr mt (m_name m)
                   else parseScalar mem mptr mt (m_name m));
              Ret [v]
          end in
      fs ← mapM fields (members dt);
      Ret (mkParsedValue name pv_ft false (NumB false) "" (concat fs) [])
  | ENUM => n ← parse_enum mem data dt; Ret (scalar name pv_ft n "")
  | _ => parseScalar mem data dt name
  end.
Definition parse_value_ptr mem (data : Z) (dt : option UA_DataType) (name : string) : outcome ParsedValue :=
  match dt with None => Ret (new_ParsedValue name) | Some t => parseValue mem data t name end.

(** ** The printers *)
Definition read_b (n : Num) : outcome bool := match n with NumB b => Ret b | _ => Undef end.
Definition read_i64 (n : Num) : outcome Z := match n with NumI64 z => Ret z | _ => Undef end.
Definition read_u64 (n : Num) : outcome Z := match n with NumU64 z => Ret z | _ => Undef end.
Definition read_d (n : Num) : outcome spec_float := match n with NumD d => Ret d | _ => Undef end.
Definition bool_text (b : bool) : string := if b then "true" else "false".
Definition newline : string := String (Ascii.ascii_of_nat 10) "".
Fixpoint spaces (n : nat) : string := match n with O => "" | S n => " " +:+ spaces n end.
Definition scalar_text (v : ParsedValue) : option (outcome string) :=
  match ft v with
  | BOOL => Some (b ← read_b (num v); Ret (bool_text b))
  | I8 | I16 | I32 | I64 => Some (z ← read_i64 (num v); Ret (pretty z))
  | U8 | U16 | U32 | U64 => Some (z ← read_u64 (num v); Ret (pretty z))
  | FLOAT | DOUBLE => Some (d ← read_d (num v); Ret (format_double d))
  | _ => None
  end.
Fixpoint concat_texts (l : list (outcome string)) : outcome string :=
  match l with
  | [] => Ret ""
  | o :: l => s ← o; t ← concat_texts l; Ret (s +:+ t)
  end.
Fixpoint print (v : ParsedValue) (depth : nat) : outcome string :=
  let pad := spaces (depth * 2) in
  let head := pad +:+ (if bool_decide (field_name v = "") then "" else field_name v +:+ " = ") in
  if is_array v then
    es ← concat_texts (map (λ e, print e (S depth)) (array_elems v));
    Ret (head +:+ "[Array " +:+ pretty (Z.of_nat (length (array_elems v))) +:+ "]" +:+ newline +:+ es)
  else if negb (bool_decide (length (struct_fields v) = 0)) then
    fs ← concat_texts (map (λ e, print e (S depth)) (struct_fields v));
    Ret (head +:+ "{" +:+ newline +:+ fs +:+ pad +:+ "}" +:+ newline)
  else
    s ← match scalar_text v with
        | Some o => o
        | None => match ft v with
                  | STRING | DATETIME => Ret (pstr v)
                  | ft => Ret ("(type=" +:+ pretty (FieldType_int ft) +:+ ")")
                  end
        end;
    Ret (head +:+ s +:+ newline).

(** The source writes a backslash and an [n], not a line end. *)
Definition backslash_n : string := "\n".
Definition quote : string := String (Ascii.ascii_of_nat 34) "".
(** The items of a body: a comma after each but the last. *)
Fixpoint json_items (l : list (outcome string)) : outcome string :=
  match l with
  | [] => Ret ""
  | o :: l =>
      s ← o; t ← json_items l;
      Ret (s +:+ (if bool_decide (length l = 0) then "" else ",") +:+ backslash_n +:+ t)
  end.
Fixpoint toJson (v : ParsedValue) (indent : nat) : outcome string :=
  let pad := spaces indent in
  let head := if bool_decide (field_name v = "") then "" else pad +:+ quote +:+ field_name v +:+ quote +:+ ": " in
  if is_array v then
    es ← json_items (map (λ e, toJson e (indent + 2)) (array_elems v));
    Ret (head +:+ "[" +:+ backslash_n +:+ es +:+ pad +:+ "]")
  else if negb (bool_decide (length (struct_fields v) = 0)) then
    fs ← json_items (map (λ e, toJson e (indent + 2)) (struct_fields v));
    Ret (head +:+ "{" +:+ backslash_n +:+ fs +:+ pad +:+ "}")
  else
    s ← match scalar_text v with Some o => o | None => Ret (quote +:+ pstr v +:+ quote) end;
    Ret (head +:+ s).

(** ** A parsed value can be printed *)
(** The union member that is active is the one the printers read. *)
Definition tagged (ft : FieldType) (n : Num) : bool :=
  match ft, n with
  | BOOL, NumB _ | (I8 | I16 | I32 | I64), NumI64 _ | (U8 | U16 | U32 | U64), NumU64 _ | (FLOAT | DOUBLE), NumD _ => true
  | (BOOL | I8 | I16 | I32 | I64 | U8 | U16 | U32 | U64 | FLOAT | DOUBLE), _ => false
  | _, _ => true
  end.
(** Every part that is printed is well tagged. *)
Fixpoint printable (v : ParsedValue) : bool :=
  if is_array v then forallb printable (array_elems v)
  else if negb (bool_decide (length (struct_fields v) = 0)) then forallb printable (struct_fields v)
  else tagged (ft v) (num v).

Section parsed_induction.
Context (P : ParsedValue → Prop).
Context (H : ∀ n f a u s fs es, Forall P fs → Forall P es → P (mkParsedValue n f a u s fs es)).
Fixpoint ParsedValue_ind' (v : ParsedValue) : P v.
Proof.
  destruct v as [n f a u s fs es]. apply H; [induction fs|induction es]; constructor; auto.
Qed.
End parsed_induction.

Lemma tagged_scalar_text v : tagged (ft v) (num v) = true → ∀ o, scalar_text v = Some o → ∃ s, o = Ret s.
Proof. unfold scalar_text. intros Ht o Ho. destruct (ft v), (num v); simplify_eq/=; eauto. Qed.
Lemma concat_texts_total {A} (f : A → outcome string) l : Forall (λ x, ∃ s, f x = Ret s) l → ∃ s, concat_texts (map f l) = Ret s.
Proof. induction 1 as [|x l [s Hs] _ [t Ht]]; simpl; [eauto|]. rewrite Hs, Ht. simpl. eauto. Qed.
Lemma json_items_total {A} (f : A → outcome string) l : Forall (λ x, ∃ s, f x = Ret s) l → ∃ s, json_items (map f l) = Ret s.
Proof. induction 1 as [|x l [s Hs] _ [t Ht]]; simpl; [eauto|]. rewrite Hs, Ht. simpl. eauto. Qed.
Lemma forallb_uses {A} (p : A → bool) (Q : A → Prop) l : Forall (λ x, p x = true → Q x) l → forallb p l = true → Forall Q l.
Proof. induction 1; simpl; [constructor|]. intros [??]%andb_true_iff. constructor; auto. Qed.

Lemma forallb_Forall_true {A} (p : A → bool) l : Forall (λ x, p x = true) l → forallb p l = true.
Proof. induction 1; simpl; [done|]. by apply andb_true_iff. Qed.

Lemma printable_print v : printable v = true → ∀ depth, ∃ s, print v depth = Ret s.
Proof.
  induction v as [n f a u s fs es IHf IHe] using ParsedValue_ind'; intros Hp depth; simpl in *.
  destruct a; [|destruct (negb _)].
  - destruct (concat_texts_total (λ e, print e (S depth)) es) as [t ->]; [|simpl; eauto].
    eapply forallb_uses; [|exact Hp]. eapply Forall_impl; [exact IHe|]. simpl. auto.
  - destruct (concat_texts_total (λ e, print e (S depth)) fs) as [t ->]; [|simpl; eauto].
    eapply forallb_uses; [|exact Hp]. eapply Forall_impl; [exact IHf|]. simpl. auto.
  - destruct (scalar_text _) as [o|] eqn:E; [|destruct f; simpl; eauto].
    destruct (tagged_scalar_text (mkParsedValue n f false u s fs es) Hp o E) as [t ->]. simpl. eauto.
Qed.
Lemma printable_json v : printable v = true → ∀ indent, ∃ s, toJson v indent = Ret s.
Proof.
  induction v as [n f a u s fs es IHf IHe] using ParsedValue_ind'; intros Hp indent; simpl in *.
  destruct a; [|destruct (negb _)].
  - destruct (json_items_total (λ e, toJson e (indent + 2)) es) as [t ->]; [|simpl; eauto].
    eapply forallb_uses; [|exact Hp]. eapply Forall_impl; [exact IHe|]. simpl. auto.
  - destruct (json_items_total (λ e, toJson e (indent + 2)) fs) as [t ->]; [|simpl; eauto].
    eapply forallb_uses; [|exact Hp]. eapply Forall_impl; [exact IHf|]. simpl. auto.
  - destruct (scalar_text _) as [o|] eqn:E; [|simpl; eauto].
    destruct (tagged_scalar_text (mkParsedValue n f false u s fs es) Hp o E) as [t ->]. simpl. eauto.
Qed.

Lemma load_unthrown mem n a : unthrown (λ _, True) (load mem n a).
Proof. pose proof (load_nothrow mem n a) as H. destruct (load mem n a) as [z|e|]; [done|by destruct (H e)|done]. Qed.
Lemma load_signed_unthrown mem n a : unthrown (λ _, True) (load_signed mem n a).
Proof. eapply unthrown_bind; [apply load_unthrown|done]. Qed.
Lemma load_string_unthrown mem n a : unthrown (λ _, True) (load_string mem n a).
Proof. pose proof (load_string_nothrow mem n a) as H. destruct (load_string mem n a) as [z|e|]; [done|by destruct (H e)|done]. Qed.
#[local] Hint Resolve load_unthrown load_signed_unthrown load_string_unthrown : outcomes.
(** Through the binds of a reader: its loads, then its conditions. *)
#[local] Ltac reads := repeat first
  [ eapply (unthrown_bind (λ _, True)); [solve [eauto with outcomes]|intros ? _] | case_match | done | solve [eauto with outcomes] ].

Lemma printable_scalar mem data dt name : unthrown (λ v, printable v = true) (parseScalar mem data dt name).
Proof.
  unfold parseScalar. destruct dt as [tn sz k ms]. destruct k; cbn [typeKind]; reads;
    (eapply (unthrown_bind (λ _, True)); [case_match; simpl; eauto with outcomes|intros ? _]); done.
Qed.
Lemma enum_unthrown mem data dt : unthrown (λ _, True) (parse_enum mem data dt).
Proof. unfold parse_enum. reads. Qed.
Lemma kind_ft_structure k : kind_ft k = STRUCTURE → k = KStructure.
Proof. by destruct k. Qed.
Lemma printable_parse mem dt : ∀ data name, unthrown (λ v, printable v = true) (parseValue mem data dt name).
Proof.
  induction dt as [tn sz k ms IH] using UA_DataType_rect'; intros data name.
  cbn [parseValue]. case_bool_decide; [done|]. cbn [typeKind members].
  pose proof (printable_scalar mem data (mkDataType tn sz k ms) name) as Hs.
  destruct (kind_ft k) eqn:Ek; try exact Hs; [|by eapply unthrown_bind; [apply enum_unthrown|]].
  apply (unthrown_bind (Forall (Forall (λ v, printable v = true)))).
  - apply unthrown_mapM. intros um Hum. rewrite Forall_forall in IH. specialize (IH um Hum). destruct (m_is_array _).
    + eapply unthrown_bind; [apply load_unthrown|]. intros p _.
      eapply (unthrown_bind (λ _, True)); [destruct (is_dyn_array _); [apply load_unthrown|done]|]. intros n _.
      destruct (memberType um) as [mt|]; [|by constructor]. destruct (_ && _); [|by constructor].
      eapply unthrown_bind; [apply unthrown_mapM; intros i _; apply IH|]. intros es Hes. constructor; [|constructor].
      cbn [printable is_array array_elems]. by apply forallb_Forall_true.
    + destruct (memberType um) as [mt|]; [|by constructor].
      apply (unthrown_bind (λ v, printable v = true)); [destruct (bool_decide _); [apply IH|apply printable_scalar]|].
      intros v Hv. by repeat constructor.
  - intros fs Hfs. cbn [unthrown printable is_array struct_fields ft num]. destruct (negb _); [|done].
    apply forallb_Forall_true. by apply Forall_concat.
Qed.

(** On a memory where every byte is there, a value is always read. *)
Lemma total_mapped mem a n : (∀ x, is_Some (mem x)) → mapped mem a n.
Proof. intros H x _. apply H. Qed.
Section total.
Context mem (Hmem : ∀ x, is_Some (mem x)).
Lemma total_load n a : defined (load mem n a).
Proof. by apply load_mapped, total_mapped. Qed.
Lemma total_string n a : defined (load_string mem n a).
Proof. by apply load_string_mapped, total_mapped. Qed.
Lemma total_signed n a : defined (load_signed mem n a).
Proof. apply defined_bind; [apply total_load|]. intros z. apply defined_ret. Qed.
#[local] Hint Resolve total_load total_string total_signed : outcomes.
#[local] Ltac readable := repeat first
  [ solve [eauto with outcomes] | apply defined_bind; [solve [eauto with outcomes]|intros ?] | case_match
  | apply defined_bind; [case_match; simpl; eauto with outcomes|intros ?] ].
Lemma total_scalar data dt name : defined (parseScalar mem data dt name).
Proof. unfold parseScalar. destruct (typeKind dt); readable. Qed.
Lemma total_enum data dt : defined (parse_enum mem data dt).
Proof. unfold parse_enum. readable. Qed.
Lemma total_parse dt : ∀ data name, defined (parseValue mem data dt name).
Proof.
  induction dt as [tn sz k ms IH] using UA_DataType_rect'; intros data name.
  cbn [parseValue]. case_bool_decide; [apply defined_ret|]. cbn [typeKind members].
  pose proof (total_scalar data (mkDataType tn sz k ms) name) as Hs.
  destruct (kind_ft k); try exact Hs; [|apply defined_bind; [apply total_enum|by eauto with outcomes]].
  apply defined_bind; [|intros fs; apply defined_ret]. apply defined_mapM. intros um Hum. rewrite Forall_forall in IH.
  specialize (IH um Hum). destruct (m_is_array _).
  - apply defined_bind; [apply total_load|]. intros p.
    apply defined_bind; [destruct (is_dyn_array _); eauto with outcomes|]. intros n.
    destruct (memberType um) as [mt|]; [|apply defined_ret]. destruct (_ && _); [|apply defined_ret].
    apply defined_bind; [|eauto with outcomes]. apply defined_mapM. intros i _. apply IH.
  - destruct (memberType um) as [mt|]; [|apply defined_ret].
    apply defined_bind; [destruct (bool_decide _); [apply IH|apply total_scalar]|eauto with outcomes].
Qed.
End total.

(** C33: whatever the memory holds and whatever the type, both printers accept
    every value [parseValue] returns: the member of the union they read is
    always the one the parser wrote.  The parser throws nothing, and it returns a
    value unless it reads where nothing is. *)
Theorem parsed_values_print mem (data : Z) (dt : option UA_DataType) name :
  (∀ v, parse_value_ptr mem data dt name = Ret v →
    (∀ depth, ∃ s, print v depth = Ret s) ∧ (∀ indent, ∃ s, toJson v indent = Ret s)) ∧
  (∀ e, parse_value_ptr mem data dt name ≠ Throw e) ∧
  ((∀ x, is_Some (mem x)) → ∃ v, parse_value_ptr mem data dt name = Ret v).
Proof.
  assert (unthrown (λ v, printable v = true) (parse_value_ptr mem data dt name)) as H by (destruct dt; [apply printable_parse|done]).
  split_and!.
  - intros v Hv. rewrite Hv in H. split; [by apply printable_print|by apply printable_json].
  - intros e He. by rewrite He in H.
  - intros Hmem. destruct dt; [by apply total_parse|apply defined_ret].
Qed.

(** ** Where the members are read
    The parser takes a member's [padding] for its offset from the start of
    the structure: members of one scalar type that need no padding are all read
    from the first member's bytes, so they get the same value whatever the
    structure holds. *)
Lemma concat_singletons {A} (l : list A) : concat ((λ x, [x]) <$> l) = l.
Proof. induction l as [|x l IH]; simpl; [done|]. f_equal. exact IH. Qed.
Theorem members_read_at_padding mem (data : Z) tn sz (t : UA_DataType) (names : list string) name :
  data ≠ 0%Z → kind_ft (typeKind t) ≠ STRUCTURE → kind_ft (typeKind t) ≠ UNKNOWN →
  parseValue mem data (mkDataType tn sz KStructure ((λ n, mkMember (Some n) (Some t) 0 false) <$> names)) name =
  (fs ← mapM (parseScalar mem data t) names; Ret (mkParsedValue name STRUCTURE false (NumB false) "" fs [])).
Proof.
  intros Hd H1 H2. cbn [parseValue]. rewrite bool_decide_false by done. cbn [typeKind members kind_ft typeKindToFieldType].
  assert (∀ n, m_ft (analyze_member (mkMember (Some n) (Some t) 0 false)) = kind_ft (typeKind t)) as Hft
    by (intros n; cbn; by rewrite !bool_decide_false).
  match goal with |- context [mapM ?f (_ <$> names)] =>
    assert (mapM f ((λ n, mkMember (Some n) (Some t) 0 false) <$> names) =
            (fs ← mapM (parseScalar mem data t) names; Ret ((λ x, [x]) <$> fs))) as -> end.
  - induction names as [|n names IH]; [done|]. cbn [fmap list_fmap mapM]. rewrite IH, Hft, (bool_decide_false (kind_ft (typeKind t) = STRUCTURE)) by done.
    cbn [memberType m_is_array analyze_member isArray offset padding m_name memberName default].
    rewrite Z.add_0_r. change (id n) with n. destruct (parseScalar mem data t n); [|done..]. simpl. by destruct (mapM _ names).
  - destruct (mapM _ names) as [fs|e|]; [|done..]. simpl. by rewrite concat_singletons.
Qed.

(** ** Examples
    A point of two 32-bit members at address 4096, holding 1 and 2. *)
Definition int32_type : UA_DataType := mkDataType (Some "Int32") 4 KInt32 [].
Definition point_type : UA_DataType :=
  mkDataType (Some "Point") 8 KStructure
    [mkMember (Some "x") (Some int32_type) 0 false; mkMember (Some "y") (Some int32_type) 0 false].
Definition point_memory : Memory := store_bytes 4096 [1; 0; 0; 0; 2; 0; 0; 0]%Z no_memory.
Example point_json : (v ← parseValue point_memory 4096 point_type "p"; toJson v 0) =
  let q := quote in
  Ret (q +:+ "p" +:+ q +:+ ": {\n  " +:+ q +:+ "x" +:+ q +:+ ": 1,\n  " +:+ q +:+ "y" +:+ q +:+ ": 1\n}").
Proof. by_compute. Qed.
(** An enumeration and a date keep a value the printers do not show. *)
Definition color_type : UA_DataType := mkDataType (Some "Color") 4 KEnum [].
Definition date_type : UA_DataType := mkDataType (Some "DateTime") 8 KDateTime [].
Example lost_values :
  let e := scalar "" ENUM (NumI64 1) "" in
  let d := scalar "" DATETIME (NumU64 8589934593) "" in
  parseValue point_memory 4096 color_type "" = Ret e ∧ print e 0 = Ret ("(type=20)" +:+ newline) ∧ toJson e 0 = Ret (quote +:+ quote) ∧
  parseValue point_memory 4096 date_type "" = Ret d ∧ print d 0 = Ret newline.
Proof. by_compute. Qed.
(** As a member, the enumeration's value is not even read. *)
Example enum_member :
  parseValue point_memory 4096 (mkDataType None 4 KStructure [mkMember (Some "c") (Some color_type) 0 false]) "" =
  Ret (mkParsedValue "" STRUCTURE false (NumB false) "" [scalar "c" ENUM (NumB false) ""] []).
Proof. by_compute. Qed.
(** Arrays, strings and nesting: the source expects the pointer before the length. *)
Definition string_type : UA_DataType := mkDataType (Some "String") 16 KString [].
Definition message_type : UA_DataType :=
  mkDataType (Some "Message") 32 KStructure
    [mkMember (Some "text") (Some string_type) 0 false; mkMember (Some "ids") (Some int32_type) 16 true].
Definition message_memory : Memory :=
  store_bytes 4096 ([2; 0; 0; 0; 0; 0; 0; 0] ++ [0; 32; 0; 0; 0; 0; 0; 0] ++
                    [16; 32; 0; 0; 0; 0; 0; 0] ++ [2; 0; 0; 0; 0; 0; 0; 0])%Z
    (store_bytes 8192 [104; 105]%Z (store_bytes 8208 [7; 0; 0; 0; 255; 255; 255; 255]%Z no_memory)).
Example message_print : (v ← parseValue message_memory 4096 message_type "m"; print v 0) =
  let n := newline in
  Ret ("m = {" +:+ n +:+ "  text = hi" +:+ n +:+ "  ids = [Array 2]" +:+ n +:+ "    ids[0] = 7" +:+ n +:+
       "    ids[1] = -1" +:+ n +:+ "}" +:+ n).
Proof. by_compute. Qed.

Lemma parsed_values_print_witness :
  let v := mkParsedValue "p" STRUCTURE false (NumB false) "" [scalar "x" I32 (NumI64 1) ""; scalar "y" I32 (NumI64 1) ""] [] in
  parse_value_ptr point_memory 4096 (Some point_type) "p" = Ret v ∧ ∃ s, print v 3 = Ret s.
Proof.
  assert (parse_value_ptr point_memory 4096 (Some point_type) "p" =
    Ret (mkParsedValue "p" STRUCTURE false (NumB false) "" [scalar "x" I32 (NumI64 1) ""; scalar "y" I32 (NumI64 1) ""] [])) as H by by_compute.
  split; [exact H|]. exact (proj1 (proj1 (parsed_values_print point_memory 4096 (Some point_type) "p") _ H) 3).
Defined.
Lemma members_read_at_padding_witness :
  load_signed point_memory 4 4100 = Ret 2%Z ∧
  parseValue point_memory 4096 point_type "p" =
  (fs ← mapM (parseScalar point_memory 4096 int32_type) ["x"; "y"]; Ret (mkParsedValue "p" STRUCTURE false (NumB false) "" fs [])).
Proof.
  split; [by vm_compute|]. by apply (members_read_at_padding point_memory 4096 (Some "Point") 8 int32_type ["x"; "y"]).
Defined.
