(* ===== verification/ParserMemory.v ===== *)
(** * What the parser reads

    open62541 lays a structure out member by member, each after its padding, and
    an array member as a length followed by a pointer.  [StructParser] takes the
    padding for the offset and expects the pointer first.  Here is what that does
    to an object in the documented layout: for which types the parser still stays
    inside the object and behind its strings, and what it does to the others. *)
From S2P Require Import Prelude UaTypes StructParser.
Local Open Scope Z_scope.
Implicit Types (mem : Memory) (t : UA_DataType).
#[local] Arguments load : simpl never.

(** ** The documented layout *)
(** The bytes a scalar of a kind takes at least. *)
Definition width (k : Kind) : Z :=
  match k with
  | KBoolean | KSByte | KByte => 1
  | KInt16 | KUInt16 => 2
  | KInt32 | KUInt32 | KFloat => 4
  | KInt64 | KUInt64 | KDouble | KDateTime => 8
  | KString => 16
  | _ => 0
  end.
(** The bytes of a member, an array being a length and a pointer. *)
Definition extent (um : Member UA_DataType) : Z :=
  if isArray um then 16 else match memberType um with Some mt => memSize mt | None => 0 end.
(** The members with their offsets, the first of them [at] bytes into the object. *)
Fixpoint place (at_ : Z) (ms : list (Member UA_DataType)) : list (Z * Member UA_DataType) :=
  match ms with
  | [] => []
  | um :: ms => (at_ + padding um, um) :: place (at_ + padding um + extent um) ms
  end.
Definition span (ms : list (Member UA_DataType)) : Z := foldr (λ um z, padding um + extent um + z) 0 ms.
(** Scalars fit into their size, members into the object. *)
Fixpoint laid_out t : bool :=
  bool_decide (width (typeKind t) ≤ memSize t) && bool_decide (span (members t) ≤ memSize t) &&
  forallb (λ um : Member UA_DataType,
    bool_decide (0 ≤ padding um) && match memberType um with Some mt => laid_out mt | None => true end) (members t).

(** The bytes of the value of type [t] at [a]: its own, those of its members,
    those behind its strings and those of the elements of its arrays. *)
Section value_bytes.
Context (mem : Memory).
Inductive value_bytes (a : Z) t : Z → Prop :=
  | byte_own x : a ≤ x < a + memSize t → value_bytes a t x
  | byte_char n p x : typeKind t = KString → load mem 8 a = Ret n → load mem 8 (a + 8) = Ret p → p ≠ 0 →
      p ≤ x < p + n → value_bytes a t x
  | byte_member o um mt x : (o, um) ∈ place 0 (members t) → memberType um = Some mt → isArray um = false →
      value_bytes (a + o) mt x → value_bytes a t x
  | byte_element o um mt n p i x : (o, um) ∈ place 0 (members t) → memberType um = Some mt → isArray um = true →
      load mem 8 (a + o) = Ret n → load mem 8 (a + o + 8) = Ret p → p ≠ 0 → 0 ≤ i < n →
      value_bytes (p + i * memSize mt) mt x → value_bytes a t x.
End value_bytes.
Definition agree mem mem' (a : Z) t : Prop := ∀ x, value_bytes mem a t x → mem x = mem' x.
Definition value_mapped mem (a : Z) t : Prop := ∀ x, value_bytes mem a t x → is_Some (mem x).

(** ** The types on which the parser stays inside *)
(** No pointer in it that the parser follows. *)
Fixpoint flat t : bool :=
  negb (bool_decide (typeKind t = KString)) &&
  forallb (λ um : Member UA_DataType,
    negb (isArray um) && match memberType um with Some mt => flat mt | None => true end) (members t).
(** What is not flat comes first in its structure, and no array. *)
Section confined_members.
Context (inside : UA_DataType → bool).
Fixpoint confined_members (at_ : Z) (ms : list (Member UA_DataType)) : bool :=
  match ms with
  | [] => true
  | um :: ms =>
      negb (isArray um) &&
      match memberType um with Some mt => flat mt || (bool_decide (at_ = 0) && inside mt) | None => true end &&
      confined_members (at_ + padding um + extent um) ms
  end.
End confined_members.
Fixpoint confined t : bool := confined_members confined 0 (members t).

(** ** Facts about layouts *)
Lemma width_nonneg k : 0 ≤ width k.
Proof. by destruct k. Qed.
Lemma laid_out_inv t : laid_out t = true →
  width (typeKind t) ≤ memSize t ∧ span (members t) ≤ memSize t ∧
  (∀ um, um ∈ members t → 0 ≤ padding um ∧ ∀ mt, memberType um = Some mt → laid_out mt = true).
Proof.
  destruct t as [tn sz k ms]. cbn [laid_out typeKind memSize members].
  intros [[?%bool_decide_eq_true ?%bool_decide_eq_true]%andb_true_iff Hms]%andb_true_iff. split_and!; [done..|].
  intros um Hum. rewrite forallb_forall in Hms. specialize (Hms um (proj1 (list_elem_of_In _ _) Hum)).
  apply andb_true_iff in Hms as [?%bool_decide_eq_true Hmt]. split; [done|]. intros mt E. by rewrite E in Hmt.
Qed.
Lemma laid_out_size t : laid_out t = true → 0 ≤ memSize t.
Proof. intros (H & _)%laid_out_inv. pose proof (width_nonneg (typeKind t)). lia. Qed.
Definition proper_member (um : Member UA_DataType) : Prop := 0 ≤ padding um ∧ 0 ≤ extent um.
Lemma laid_out_proper t : laid_out t = true → Forall proper_member (members t).
Proof.
  intros (_ & _ & H)%laid_out_inv. apply Forall_forall. intros um Hum. destruct (H um Hum) as [Hp Hm].
  split; [done|]. unfold extent. destruct (isArray um); [done|]. destruct (memberType um) as [mt|]; [|done]. by apply laid_out_size, Hm.
Qed.
Lemma span_nonneg ms : Forall proper_member ms → 0 ≤ span ms.
Proof. induction 1 as [|um ms [??] _ IH]; cbn [span foldr]; [done|]. fold (span ms). lia. Qed.
(** A member ends inside the object, at its offset and at its padding. *)
Lemma member_within ms : Forall proper_member ms → ∀ um, um ∈ ms → padding um + extent um ≤ span ms.
Proof.
  induction 1 as [|um ms [??] Hms IH]; intros u Hu; [by apply elem_of_nil in Hu|]. cbn [span foldr]. fold (span ms).
  pose proof (span_nonneg ms Hms). apply elem_of_cons in Hu as [->|Hu]; [lia|]. specialize (IH u Hu). lia.
Qed.
Lemma flat_inv t : flat t = true → typeKind t ≠ KString ∧
  ∀ um, um ∈ members t → isArray um = false ∧ ∀ mt, memberType um = Some mt → flat mt = true.
Proof.
  destruct t as [tn sz k ms]. cbn [flat typeKind members]. intros [Hk%negb_true_iff%bool_decide_eq_false Hms]%andb_true_iff.
  split; [done|]. intros um Hum. rewrite forallb_forall in Hms. specialize (Hms um (proj1 (list_elem_of_In _ _) Hum)).
  apply andb_true_iff in Hms as [?%negb_true_iff Hmt]. split; [done|]. intros mt E. by rewrite E in Hmt.
Qed.
(** A member of a confined structure is flat, or at its padding and confined. *)
Lemma confined_member ms : ∀ at_ um mt, Forall proper_member ms → 0 ≤ at_ → confined_members confined at_ ms = true → um ∈ ms →
  memberType um = Some mt → flat mt = true ∨ (at_ = 0 ∧ (padding um, um) ∈ place 0 ms ∧ confined mt = true).
Proof.
  induction ms as [|um' ms IH]; intros at_ um mt Hms Hat Hc Hum Hmt; [by apply elem_of_nil in Hum|].
  apply Forall_cons in Hms as [[??] Hms]. cbn [confined_members] in Hc.
  apply andb_true_iff in Hc as [[_ Hm]%andb_true_iff Hc]. apply elem_of_cons in Hum as [->|Hum].
  - rewrite Hmt in Hm. apply orb_true_iff in Hm as [?|[?%bool_decide_eq_true ?]%andb_true_iff]; [by left|right].
    split_and!; [done| |done]. cbn [place]. rewrite Z.add_0_l. apply list_elem_of_here.
  - destruct (IH (at_ + padding um' + extent um') um mt Hms ltac:(lia) Hc Hum Hmt) as [?|(Hz & Hin & ?)]; [by left|right].
    assert (padding um' + extent um' = 0) as Hz' by lia. split_and!; [lia| |done]. cbn [place]. apply list_elem_of_further.
    by rewrite Z.add_0_l, Hz'.
Qed.
Lemma confined_array ms : ∀ at_ um, confined_members confined at_ ms = true → um ∈ ms → isArray um = false.
Proof.
  induction ms as [|um' ms IH]; intros at_ um Hc Hum; [by apply elem_of_nil in Hum|]. cbn [confined_members] in Hc.
  apply andb_true_iff in Hc as [[?%negb_true_iff _]%andb_true_iff Hc]. apply elem_of_cons in Hum as [->|Hum]; [done|by eapply IH].
Qed.

(** ** What the parser reads of an object *)
Section local.
Context (mem mem' : Memory).
Definition same_bytes (a n : Z) : Prop := ∀ x, a ≤ x < a + n → mem x = mem' x.
Lemma same_load a n (k : nat) d : same_bytes a n → 0 ≤ d → d + Z.of_nat k ≤ n → load mem k (a + d) = load mem' k (a + d).
Proof. intros H Hd Hk. apply load_agree. intros x Hx. apply H. lia. Qed.
Lemma same_load0 a n (k : nat) : same_bytes a n → Z.of_nat k ≤ n → load mem k a = load mem' k a.
Proof. intros H Hk. rewrite <- (Z.add_0_r a). by apply (same_load a n). Qed.
Lemma same_signed a n (k : nat) : same_bytes a n → Z.of_nat k ≤ n → load_signed mem k a = load_signed mem' k a.
Proof. intros H Hk. unfold load_signed. by rewrite (same_load0 a n). Qed.
Lemma same_inside a n d k : same_bytes a n → 0 ≤ d → d + k ≤ n → same_bytes (a + d) k.
Proof. intros H Hd Hk x Hx. apply H. lia. Qed.

Lemma parseScalar_same a t name : same_bytes a (memSize t) → width (typeKind t) ≤ memSize t → typeKind t ≠ KString →
  parseScalar mem a t name = parseScalar mem' a t name.
Proof.
  intros H Hw Hk. unfold parseScalar. destruct (typeKind t) eqn:Ek; cbn [width] in Hw; try done;
    first [by rewrite (same_load0 a (memSize t)) by (done || lia) | by rewrite (same_signed a (memSize t)) by (done || lia)].
Qed.
Lemma parse_enum_same a t : same_bytes a (memSize t) → parse_enum mem a t = parse_enum mem' a t.
Proof.
  intros H. unfold parse_enum. repeat case_bool_decide; try done;
    first [by rewrite (same_load0 a (memSize t)) by (done || lia) | by rewrite (same_signed a (memSize t)) by (done || lia)].
Qed.
(** A string: its length and pointer, and its characters. *)
Lemma parseScalar_string a t name : agree mem mem' a t → width (typeKind t) ≤ memSize t → typeKind t = KString →
  parseScalar mem a t name = parseScalar mem' a t name.
Proof.
  intros H Hw Hk. assert (same_bytes a (memSize t)) as Hs by (intros x Hx; by apply H, byte_own).
  unfold parseScalar. rewrite Hk in Hw |- *. cbn [width] in Hw. rewrite <- (same_load0 a (memSize t) 8) by (done || lia).
  destruct (load mem 8 a) as [n|e|] eqn:En; [|done..]. simpl. case_bool_decide as Hn; [|done]. cbn [andb].
  rewrite <- (same_load a (memSize t) 8 8) by (done || lia).
  destruct (load mem 8 (a + 8)) as [p|e|] eqn:Ep; [|done..]. simpl. case_bool_decide as Hp; [done|]. cbn [negb].
  rewrite (load_string_agree mem mem'); [done|]. intros x Hx. apply H, (byte_char mem a t n p); [done..|lia].
Qed.
Lemma scalar_agree a t name : agree mem mem' a t → laid_out t = true → parseScalar mem a t name = parseScalar mem' a t name.
Proof.
  intros H (Hw & _)%laid_out_inv. destruct (decide (typeKind t = KString)); [by apply parseScalar_string|].
  apply parseScalar_same; [|done..]. intros x Hx. by apply H, byte_own.
Qed.

(** A flat type: only the object's own bytes, from whatever address. *)
Lemma flat_same t : ∀ a name, laid_out t = true → flat t = true → same_bytes a (memSize t) →
  parseValue mem a t name = parseValue mem' a t name.
Proof.
  induction t as [tn sz k ms IH] using UA_DataType_rect'; intros a name Hl Hf H.
  set (t := mkDataType tn sz k ms) in *. cbn [parseValue t]. fold t. case_bool_decide as Ha; [done|].
  pose proof (laid_out_inv t Hl) as (Hw & Hspan & Hms). pose proof (flat_inv t Hf) as (Hk & Hfs).
  assert (parseScalar mem a t name = parseScalar mem' a t name) as Hscalar by by apply parseScalar_same.
  destruct (kind_ft (typeKind t)) eqn:Ek; try exact Hscalar; [|by rewrite (parse_enum_same a t)].
  f_equal. apply mapM_same. intros um Hum. destruct (Hms um Hum) as [Hp Hml].
  destruct (Hfs um Hum) as [Harr Hmf]. cbn [m_is_array analyze_member offset]. rewrite Harr.
  destruct (memberType um) as [mt|] eqn:Hmt; [|done].
  pose proof (member_within _ (laid_out_proper t Hl) um Hum) as Hin. unfold extent in Hin. rewrite Harr, Hmt in Hin.
  assert (same_bytes (a + padding um) (memSize mt)) as Hs by (apply (same_inside a (memSize t)); [done|lia..]).
  rewrite Forall_forall in IH. specialize (IH um Hum). rewrite Hmt in IH. f_equal. destruct (bool_decide _); [by apply IH; auto|].
  apply parseScalar_same; [done|by apply laid_out_inv, Hml|by apply flat_inv, Hmf].
Qed.
Lemma confined_agree t : ∀ a name, laid_out t = true → confined t = true → agree mem mem' a t →
  parseValue mem a t name = parseValue mem' a t name.
Proof.
  induction t as [tn sz k ms IH] using UA_DataType_rect'; intros a name Hl Hc H.
  set (t := mkDataType tn sz k ms) in *. cbn [parseValue t]. fold t. case_bool_decide as Ha; [done|].
  pose proof (laid_out_inv t Hl) as (Hw & Hspan & Hms). pose proof (scalar_agree a t name H Hl) as Hscalar.
  change (confined_members confined 0 (members t) = true) in Hc.
  assert (same_bytes a (memSize t)) as Hown by (intros x Hx; by apply H, byte_own).
  destruct (kind_ft (typeKind t)) eqn:Ek; try exact Hscalar; [|by rewrite (parse_enum_same a t)].
  f_equal. apply mapM_same. intros um Hum. destruct (Hms um Hum) as [Hp Hml].
  pose proof (confined_array _ _ um Hc Hum) as Harr. cbn [m_is_array analyze_member offset]. rewrite Harr.
  destruct (memberType um) as [mt|] eqn:Hmt; [|done].
  pose proof (member_within _ (laid_out_proper t Hl) um Hum) as Hin. unfold extent in Hin. rewrite Harr, Hmt in Hin.
  rewrite Forall_forall in IH. specialize (IH um Hum). rewrite Hmt in IH.
  destruct (confined_member (members t) 0 um mt (laid_out_proper t Hl) ltac:(done) Hc Hum Hmt) as [Hf|(_ & Hpl & Hmc)].
  - assert (same_bytes (a + padding um) (memSize mt)) as Hs by (apply (same_inside a (memSize t)); [done|lia..]).
    f_equal. destruct (bool_decide _); [by apply flat_same; auto|].
    apply parseScalar_same; [done|by apply laid_out_inv, Hml|by apply flat_inv].
  - assert (agree mem mem' (a + padding um) mt) as Hm by (intros x Hx; by eapply H, byte_member).
    f_equal. destruct (bool_decide _); [by apply IH; auto|]. by apply scalar_agree; auto.
Qed.
End local.

(** C34: let a type's members lie inside its objects as open62541 documents, and let
    no structure in it have an array, or a string (or a structure with one) other
    than at its start.  Then the parser reads only the object: two memories that
    hold the same bytes in it and behind its strings give the same result, and
    where those bytes are mapped it returns a value.  For other types see
    [string_after_number] and [array_member]. *)
Theorem parse_reads_only_value mem t (data : Z) name : laid_out t = true → confined t = true →
  (∀ mem', agree mem mem' data t → parse_value_ptr mem data (Some t) name = parse_value_ptr mem' data (Some t) name) ∧
  (value_mapped mem data t → ∃ v, parse_value_ptr mem data (Some t) name = Ret v).
Proof.
  intros Hl Hc. split; [intros mem' Ha; by apply confined_agree|]. intros Hmap.
  set (full := λ x, Some (default 0 (mem x))). destruct (total_parse full ltac:(by eexists) t data name) as [v Hv]. exists v.
  rewrite <- Hv. apply confined_agree; [done..|]. intros x Hx. unfold full. by destruct (Hmap x Hx) as [b ->].
Qed.

(** ** Examples
    A structure that begins with a string, in the documented layout: the number
    after it is read from the string's length, the string itself is right. *)
Definition named_type : UA_DataType :=
  mkDataType (Some "Named") 24 KStructure
    [mkMember (Some "text") (Some string_type) 0 false; mkMember (Some "number") (Some int32_type) 0 false].
Definition named_memory (rest : Memory) : Memory :=
  store_bytes 4096 ([2; 0; 0; 0; 0; 0; 0; 0] ++ [0; 32; 0; 0; 0; 0; 0; 0] ++ [7; 0; 0; 0; 0; 0; 0; 0])
    (store_bytes 8192 [104; 105] rest).
Lemma leaf_bytes mem a t x : members t = [] → typeKind t ≠ KString → value_bytes mem a t x → a ≤ x < a + memSize t.
Proof. intros Hm Hk [y Hy|n p y Hs|o um mt y Hum|o um mt n p i y Hum]; [done|done|..]; rewrite Hm in Hum; by apply elem_of_nil in Hum. Qed.
Lemma string_bytes mem a x : value_bytes mem a string_type x →
  a ≤ x < a + 16 ∨ ∃ n p, load mem 8 a = Ret n ∧ load mem 8 (a + 8) = Ret p ∧ p ≤ x < p + n.
Proof. intros [y Hy|n p y Hs ? ? _ Hy|o um mt y Hum|o um mt n p i y Hum]; [by left|right; eauto 6|..]; by apply elem_of_nil in Hum. Qed.
Lemma named_bytes rest x : value_bytes (named_memory rest) 4096 named_type x → 4096 ≤ x < 4120 ∨ 8192 ≤ x < 8194.
Proof.
  intros [y Hy|n p y Hs|o um mt y Hum Hmt Ha Hy|o um mt n p i y Hum Hmt Ha]; [left; exact Hy|done|..];
    cbn in Hum; apply elem_of_cons in Hum as [[= -> ->]|Hum%list_elem_of_singleton]; try (injection Hum as -> ->); try done;
    injection Hmt as <-.
  - apply string_bytes in Hy as [Hy|(n & p & Hn & Hq & Hy)]; [lia|].
    change (Ret 2 = Ret n) in Hn. change (Ret 8192 = Ret p) in Hq. simplify_eq. lia.
  - apply leaf_bytes in Hy; [|done..]. cbn in Hy. lia.
Qed.
Lemma named_agree rest rest' : agree (named_memory rest) (named_memory rest') 4096 named_type.
Proof. intros x Hx%named_bytes. unfold named_memory, store_bytes. cbn [length app]. repeat case_bool_decide; try done. lia. Qed.
Lemma named_mapped rest : value_mapped (named_memory rest) 4096 named_type.
Proof.
  intros x Hx%named_bytes. unfold named_memory, store_bytes. cbn [length app].
  repeat case_bool_decide; try lia; apply lookup_lt_is_Some; cbn [length]; lia.
Qed.
Lemma parse_reads_only_value_witness :
  let ones : Memory := λ _, Some 1 in
  parse_value_ptr (named_memory no_memory) 4096 (Some named_type) "m" = parse_value_ptr (named_memory ones) 4096 (Some named_type) "m" ∧
  ∃ v, parse_value_ptr (named_memory no_memory) 4096 (Some named_type) "m" = Ret v.
Proof.
  destruct (parse_reads_only_value (named_memory no_memory) named_type 4096 "m") as [Hlocal Hret]; [by vm_compute..|].
  split; [apply Hlocal, named_agree|apply Hret, named_mapped].
Defined.
Example named_value : parseValue (named_memory no_memory) 4096 named_type "m" =
  Ret (mkParsedValue "m" STRUCTURE false (NumB false) "" [scalar "text" STRING (NumB false) "hi"; scalar "number" I32 (NumI64 2) ""] []).
Proof. by_compute. Qed.

(** A string after a number, laid out as documented: the parser takes the
    number for the string's length and the length for its address, and reads where
    nothing is. *)
Definition int64_type : UA_DataType := mkDataType (Some "Int64") 8 KInt64 [].
Definition numbered_type : UA_DataType :=
  mkDataType (Some "Numbered") 24 KStructure
    [mkMember (Some "number") (Some int64_type) 0 false; mkMember (Some "text") (Some string_type) 0 false].
Definition numbered_memory : Memory :=
  store_bytes 4096 ([7; 0; 0; 0; 0; 0; 0; 0] ++ [2; 0; 0; 0; 0; 0; 0; 0] ++ [0; 32; 0; 0; 0; 0; 0; 0])
    (store_bytes 8192 [104; 105] no_memory).
Example string_after_number :
  laid_out numbered_type = true ∧ confined numbered_type = false ∧
  (* where the string is *)
  load numbered_memory 8 (4096 + 8) = Ret 2 ∧ load numbered_memory 8 (4096 + 16) = Ret 8192 ∧ load_string numbered_memory 2 8192 = Ret "hi" ∧
  parseValue numbered_memory 4096 numbered_type "n" = Undef.
Proof. by_compute. Qed.
(** An array member, laid out as documented: the parser takes its length for
    the address of the elements. *)
Definition list_type : UA_DataType :=
  mkDataType (Some "List") 16 KStructure [mkMember (Some "ids") (Some int32_type) 0 true].
Definition list_memory : Memory :=
  store_bytes 4096 ([2; 0; 0; 0; 0; 0; 0; 0] ++ [16; 32; 0; 0; 0; 0; 0; 0])
    (store_bytes 8208 [7; 0; 0; 0; 255; 255; 255; 255] no_memory).
Example array_member :
  laid_out list_type = true ∧ confined list_type = false ∧ load_signed list_memory 4 8212 = Ret (-1) ∧
  parseValue list_memory 4096 list_type "l" = Undef.
Proof. by_compute. Qed.
