(* ===== verification/NodeCache.v ===== *)
(** * [NodeCache] of [proto_opcua/parse_project/node_cache.h/.cpp]

    [data_] is the list of the entries in the iteration order of the
    [unordered_map].  That order is unspecified: [rehash], any permutation,
    stands for what an insertion does to it.  The clock is an argument of the
    calls that read it. *)
From S2P Require Import Prelude UaTypes StructParser.

Record NodeKey := mkNodeKey { ns : Z; id : string }.
#[export] Instance NodeKey_eq_dec : EqDecision NodeKey.
Proof. solve_decision. Defined.

Record CachedValue := mkCachedValue {
  parsed : ParsedValue; raw_bytes : list Z; status_code : Z; server_ts : Z; source_ts : Z;
  version : Z; update_time : Z
}.
Definition empty_value : CachedValue := mkCachedValue (new_ParsedValue "") [] 0 0 0 0 0.
Definition valid (v : CachedValue) : bool := bool_decide (status_code v = 0%Z).
Definition stamped (ver time : Z) (v : CachedValue) : CachedValue :=
  {| parsed := parsed v; raw_bytes := raw_bytes v; status_code := status_code v; server_ts := server_ts v;
     source_ts := source_ts v; version := ver; update_time := time |}.

Abbreviation Entries := (list (NodeKey * CachedValue)).
(** The callback may throw; its calls are recorded.  It does not call the cache:
    it runs under the lock of the call, and would take the mutex again. *)
Definition CacheChangeCb := NodeKey → CachedValue → CachedValue → option exn.
Record NodeCache := mkNodeCache {
  data_ : Entries; max_size_ : nat; on_change_ : option CacheChangeCb; seq_ : Z;
  changes : list (NodeKey * CachedValue * CachedValue)
}.
Definition new_NodeCache (max_size : nat) : NodeCache :=
  {| data_ := []; max_size_ := max_size; on_change_ := None; seq_ := 0; changes := [] |}.
Definition set_data (d : Entries) (c : NodeCache) : NodeCache :=
  {| data_ := d; max_size_ := max_size_ c; on_change_ := on_change_ c; seq_ := seq_ c; changes := changes c |}.

Fixpoint find (key : NodeKey) (d : Entries) : option CachedValue :=
  match d with
  | [] => None
  | (k, v) :: d => if decide (k = key) then Some v else find key d
  end.
Fixpoint assign (key : NodeKey) (v : CachedValue) (d : Entries) : Entries :=
  match d with
  | [] => []
  | (k, w) :: d => if decide (k = key) then (k, v) :: d else (k, w) :: assign key v d
  end.
Definition erase (key : NodeKey) (d : Entries) : Entries := filter (λ e, e.1 ≠ key) d.

Section cache.
Context (rehash : Entries → Entries).

(** The scan of [put] for the oldest entry: the first of the least times. *)
Fixpoint find_oldest (oldest : NodeKey * CachedValue) (d : Entries) : NodeKey * CachedValue :=
  match d with
  | [] => oldest
  | e :: d => find_oldest (if bool_decide (update_time e.2 < update_time oldest.2)%Z then e else oldest) d
  end.
Definition notify (key : NodeKey) (old_val new_val : CachedValue) : M NodeCache unit :=
  c ← get;
  match on_change_ c with
  | None => mret tt
  | Some cb =>
      modify (λ c, {| data_ := data_ c; max_size_ := max_size_ c; on_change_ := on_change_ c; seq_ := seq_ c;
                      changes := changes c ++ [(key, old_val, new_val)] |});;
      match cb key old_val new_val with Some e => throw e | None => mret tt end
  end.
(** [put] numbers and dates the value before it takes the lock ... *)
Definition stamp (now : Z) (val : CachedValue) : M NodeCache CachedValue :=
  c ← get;
  let s := uwrap 64 (seq_ c + 1) in
  put {| data_ := data_ c; max_size_ := max_size_ c; on_change_ := on_change_ c; seq_ := s; changes := changes c |};;
  mret (stamped s now val).
Definition evict : M NodeCache unit :=
  c ← get;
  if bool_decide (max_size_ c ≤ length (data_ c)) then
    match data_ c with
    | [] => undef                                        (* [erase(end())] *)
    | e :: d => modify (set_data (erase (find_oldest e (data_ c)).1 (data_ c)))
    end
  else mret tt.
(** ... and does the rest under it. *)
Definition store (key : NodeKey) (val : CachedValue) : M NodeCache unit :=
  c ← get;
  match find key (data_ c) with
  | Some old_val =>
      notify key old_val val;;
      modify (λ c, set_data (assign key val (data_ c)) c)
  | None =>
      evict;;
      notify key empty_value val;;
      modify (λ c, set_data (rehash ((key, val) :: data_ c)) c)
  end.
Definition put (now : Z) (key : NodeKey) (val : CachedValue) : M NodeCache unit :=
  v ← stamp now val; store key v.
End cache.

(** [get]: [None] is [false]. *)
Definition get_value (key : NodeKey) (c : NodeCache) : option CachedValue := find key (data_ c).
Definition has (key : NodeKey) (c : NodeCache) : bool := match find key (data_ c) with Some _ => true | None => false end.
Definition remove (key : NodeKey) : M NodeCache unit := modify (λ c, set_data (erase key (data_ c)) c).
Definition clear : M NodeCache unit := modify (set_data []).
Definition keys (c : NodeCache) : list NodeKey := (data_ c).*1.
Definition size (c : NodeCache) : nat := length (data_ c).
Definition setMaxSize (n : nat) : M NodeCache unit :=
  modify (λ c, {| data_ := data_ c; max_size_ := n; on_change_ := on_change_ c; seq_ := seq_ c; changes := changes c |}).
Definition setOnChange (cb : option CacheChangeCb) : M NodeCache unit :=
  modify (λ c, {| data_ := data_ c; max_size_ := max_size_ c; on_change_ := cb; seq_ := seq_ c; changes := changes c |}).
Definition getVersion (key : NodeKey) (c : NodeCache) : Z :=
  match find key (data_ c) with Some v => version v | None => 0 end.
Definition getStaleKeys (now max_age : Z) (c : NodeCache) : list NodeKey :=
  (filter (λ e, max_age < now - update_time e.2)%Z (data_ c)).*1.
Definition dump_line (e : NodeKey * CachedValue) : string :=
  "  ns=" +:+ pretty (ns e.1) +:+ " id=" +:+ id e.1 +:+ " ver=" +:+ pretty (version e.2) +:+
  " status=" +:+ pretty (status_code e.2) +:+ " type=" +:+ pretty (FieldType_int (ft (parsed e.2))) +:+ newline.
Definition dump (c : NodeCache) : string :=
  "NodeCache: " +:+ pretty (Z.of_nat (size c)) +:+ " entries" +:+ newline +:+ String.concat "" (dump_line <$> data_ c).

#[global] Arguments erase : simpl never.

(** ** Facts on the entries *)
Section entries.
Implicit Types (d : Entries).
Lemma find_Some key v d : NoDup d.*1 → find key d = Some v ↔ (key, v) ∈ d.
Proof.
  induction d as [|[k w] d IH]; simpl; intros Hnd; [by split; [|intros ?%elem_of_nil]|].
  apply NoDup_cons in Hnd as [Hk Hnd]. rewrite elem_of_cons. destruct (decide (k = key)) as [->|Hne].
  - split; [intros [= ->]; by left|]. intros [[= ->]|Hin]; [done|].
    destruct Hk. by apply (list_elem_of_fmap_2 fst _ _ Hin).
  - rewrite IH by done. split; [by right|]. by intros [[= -> ->]|Hin].
Qed.
Lemma find_None key d : find key d = None ↔ key ∉ d.*1.
Proof.
  induction d as [|[k w] d IHd]; simpl; [by split; [intros _ ?%elem_of_nil|]|].
  rewrite not_elem_of_cons. destruct (decide (k = key)) as [->|Hne]; [by split; [|intros []]|].
  rewrite IHd. naive_solver.
Qed.
Lemma find_perm key d1 d2 : NoDup d1.*1 → d1 ≡ₚ d2 → find key d1 = find key d2.
Proof.
  intros Hnd Hp. assert (NoDup d2.*1) as Hnd2 by (by rewrite <- Hp).
  destruct (find key d1) as [v|] eqn:E.
  - apply find_Some in E; [|done]. symmetry. apply find_Some; [done|]. by rewrite <- Hp.
  - symmetry. apply find_None. rewrite <- Hp. by apply find_None.
Qed.
Lemma assign_keys key v d : (assign key v d).*1 = d.*1.
Proof. induction d as [|[k w] d IH]; simpl; [done|]. destruct (decide (k = key)); simpl; by f_equal. Qed.
Lemma find_assign key k v d : find k (assign key v d) = if decide (k = key) then (λ _, v) <$> find key d else find k d.
Proof.
  induction d as [|[k' w] d IH]; simpl; [by destruct (decide _)|].
  destruct (decide (k' = key)) as [->|Hne]; simpl.
  - destruct (decide (key = k)) as [->|]; [by rewrite decide_True by done|by rewrite decide_False by done].
  - rewrite IH. destruct (decide (k' = k)) as [->|]; [by rewrite decide_False by done|done].
Qed.
Lemma erase_NoDup key d : NoDup d.*1 → NoDup (erase key d).*1.
Proof.
  intros Hnd. eapply sublist_NoDup; [exact Hnd|]. apply fmap_sublist. apply sublist_filter.
Qed.
Lemma erase_cons key k w d : erase key ((k, w) :: d) = if decide (k = key) then erase key d else (k, w) :: erase key d.
Proof.
  unfold erase. rewrite filter_cons. simpl. destruct (decide (k ≠ key)) as [Hne|E%dec_stable].
  - by rewrite decide_False.
  - by rewrite decide_True.
Qed.
Lemma erase_absent key d : key ∉ d.*1 → erase key d = d.
Proof.
  induction d as [|[k w] d IH]; [done|]. simpl. rewrite not_elem_of_cons. intros [H1 H2].
  rewrite erase_cons, decide_False by done. f_equal. by apply IH.
Qed.
Lemma find_erase key k d : find k (erase key d) = if decide (k = key) then None else find k d.
Proof.
  induction d as [|[k' w] d IH]; [by destruct (decide _)|].
  rewrite erase_cons. simpl. destruct (decide (k' = key)) as [->|Hne]; simpl.
  - rewrite IH. destruct (decide (k = key)); [done|]. by rewrite decide_False by done.
  - rewrite IH. destruct (decide (k' = k)) as [->|]; [by rewrite decide_False by done|done].
Qed.
Lemma erase_length key v d : NoDup d.*1 → (key, v) ∈ d → S (length (erase key d)) = length d.
Proof.
  induction d as [|[k w] d IH]; intros Hnd Hin; [by apply elem_of_nil in Hin|].
  apply NoDup_cons in Hnd as [Hk Hnd]. rewrite erase_cons. simpl.
  destruct (decide (k = key)) as [->|Hne]; simpl; f_equal.
  - by rewrite erase_absent.
  - apply IH; [done|]. apply elem_of_cons in Hin as [[=]|]; [by subst|done].
Qed.
Lemma find_oldest_spec o d :
  find_oldest o d ∈ o :: d ∧ (update_time (find_oldest o d).2 ≤ update_time o.2)%Z ∧
  ∀ e, e ∈ d → (update_time (find_oldest o d).2 ≤ update_time e.2)%Z.
Proof.
  revert o. induction d as [|e d IH]; intros o; simpl; [split_and!; [by left|done|by intros ? ?%elem_of_nil]|].
  set (o' := if bool_decide _ then e else o). destruct (IH o') as (Hin & Ho & Hd).
  assert (update_time o'.2 ≤ update_time o.2 ∧ update_time o'.2 ≤ update_time e.2)%Z as [H1 H2]
    by (subst o'; case_bool_decide; lia).
  split_and!; [|lia|].
  - apply elem_of_cons in Hin as [->|?]; [|by do 2 right]. subst o'. case_bool_decide; [right|]; left.
  - intros e' [->|He]%elem_of_cons; [lia|]. by apply Hd.
Qed.
End entries.

(** ** The cache *)
Section cache_facts.
Context (rehash : Entries → Entries) (rehash_perm : ∀ d, rehash d ≡ₚ d).

Definition cache_ok (c : NodeCache) : Prop :=
  NoDup (data_ c).*1 ∧ length (data_ c) ≤ max_size_ c ∧ 1 ≤ max_size_ c.

Lemma notify_frame key o n c r c' : notify key o n c = (r, c') →
  data_ c' = data_ c ∧ max_size_ c' = max_size_ c ∧ r ≠ Undef.
Proof.
  unfold notify. autorewrite with monad. destruct (on_change_ c) as [cb|]; [|by intros [= <- <-]].
  autorewrite with monad. by destruct (cb key o n); intros [= <- <-].
Qed.
(** What [evict] does when there is an entry to look at. *)
Lemma evict_spec c : NoDup (data_ c).*1 → data_ c ≠ [] ∨ length (data_ c) < max_size_ c →
  (length (data_ c) < max_size_ c ∧ evict c = (Ret tt, c)) ∨
  (max_size_ c ≤ length (data_ c) ∧ ∃ victim old, find victim (data_ c) = Some old ∧
     (∀ k v, find k (data_ c) = Some v → update_time old ≤ update_time v)%Z ∧
     evict c = (Ret tt, set_data (erase victim (data_ c)) c) ∧ S (length (erase victim (data_ c))) = length (data_ c)).
Proof.
  intros Hnd Hne. unfold evict. autorewrite with monad.
  destruct (decide (max_size_ c ≤ length (data_ c))) as [Hle|Hlt];
    [rewrite bool_decide_true by done; right|rewrite bool_decide_false by done; left; split; [lia|done]].
  split; [done|]. destruct (data_ c) as [|e d] eqn:E; [destruct Hne; [done|simpl in *; lia]|].
  destruct (find_oldest_spec e (e :: d)) as (Hin & He & Hd).
  destruct (find_oldest e (e :: d)) as [victim old]. cbn [fst snd] in He, Hd |- *.
  assert ((victim, old) ∈ e :: d) as Hin' by (apply elem_of_cons in Hin as [<-|?]; [left|done]).
  exists victim, old. split_and!; [by apply find_Some| |done|by apply (erase_length _ old)].
  intros k v Hk. apply find_Some in Hk; [|done]. by apply (Hd (k, v)).
Qed.

Lemma stamp_run now val c : stamp now val c =
  (Ret (stamped (uwrap 64 (seq_ c + 1)) now val),
   {| data_ := data_ c; max_size_ := max_size_ c; on_change_ := on_change_ c; seq_ := uwrap 64 (seq_ c + 1); changes := changes c |}).
Proof. done. Qed.
Lemma store_ok key v c : cache_ok c → cache_ok (store rehash key v c).2 ∧ (store rehash key v c).1 ≠ Undef.
Proof.
  intros (Hnd & Hlen & Hm). unfold store. autorewrite with monad.
  destruct (find key (data_ c)) as [old|] eqn:E.
  - unfold mbind, M_bind. destruct (notify key old v c) as [r c'] eqn:En. apply notify_frame in En as (Hd & Hx & Hr).
    destruct r; [|by unfold cache_ok; simpl; rewrite Hd, Hx|done].
    simpl. split; [|done]. unfold cache_ok. simpl. rewrite Hd, Hx, assign_keys. split_and!; [done| |done].
    rewrite <- (length_fmap fst (assign _ _ _)), assign_keys. by rewrite length_fmap.
  - assert (∀ c1, NoDup (data_ c1).*1 → S (length (data_ c1)) ≤ max_size_ c1 → 1 ≤ max_size_ c1 → find key (data_ c1) = None →
      let m := (notify key empty_value v;; modify (λ c, set_data (rehash ((key, v) :: data_ c)) c)) in
      cache_ok (m c1).2 ∧ (m c1).1 ≠ Undef) as Hlast.
    { intros c1 Hnd1 Hlen1 Hm1 Hf. cbv zeta. unfold mbind, M_bind.
      destruct (notify key empty_value v c1) as [r c'] eqn:En. apply notify_frame in En as (Hd & Hx & Hr).
      destruct r; [|split; [|done]; unfold cache_ok; simpl; rewrite Hd, Hx; split_and!; [done|lia|done]|done].
      simpl. split; [|done]. unfold cache_ok. simpl. rewrite !(rehash_perm _), Hd, Hx. simpl.
      split_and!; [|lia|done]. apply NoDup_cons. split; [by apply find_None|done]. }
    destruct (evict_spec c Hnd) as [[Hlt Hrun]|(Hge & victim & old & Hf & _ & Hrun & Hl)].
    { destruct (data_ c); [right; simpl in *; lia|by left]. }
    + rewrite (M_bind_ret _ _ _ _ _ Hrun). apply Hlast; [done|lia|done|done].
    + rewrite (M_bind_ret _ _ _ _ _ Hrun). apply Hlast; simpl; [by apply erase_NoDup|lia|done|].
      rewrite find_erase. by destruct (decide _).
Qed.

Inductive Op :=
  | OPut (now : Z) (key : NodeKey) (val : CachedValue) | ORemove (key : NodeKey) | OClear
  | OSetOnChange (cb : option CacheChangeCb).
Definition run_op (op : Op) : M NodeCache unit :=
  match op with
  | OPut now key val => put rehash now key val
  | ORemove key => remove key
  | OClear => clear
  | OSetOnChange cb => setOnChange cb
  end.
Lemma run_op_ok op c : cache_ok c → cache_ok (run_op op c).2 ∧ (run_op op c).1 ≠ Undef.
Proof.
  intros Hc. destruct op as [now key val|key| |cb]; simpl.
  - unfold put. rewrite (M_bind_ret _ _ _ _ _ (stamp_run now val c)). by apply store_ok.
  - destruct Hc as (Hnd & Hlen & Hm). split; [|done]. split_and!; simpl; [by apply erase_NoDup| |done].
    etrans; [|exact Hlen]. apply sublist_length, sublist_filter.
  - destruct Hc as (Hnd & Hlen & Hm). split; [|done]. split_and!; simpl; [constructor|lia|done].
  - by split.
Qed.

(** [store] writes the entries and the record of the callbacks only, [put] the
    counter too. *)
Lemma store_frame {A} (f : NodeCache → A) key v c :
  (∀ c d ch, f (mkNodeCache d (max_size_ c) (on_change_ c) (seq_ c) ch) = f c) → f (store rehash key v c).2 = f c.
Proof.
  intros Hf. assert (preserves (λ c', f c' = f c) (store rehash key v)) as H; [|by apply H].
  assert (∀ d, preserves (λ c', f c' = f c) (modify (λ c', set_data (d c') c'))) as Hd.
  { intros d. apply pres_modify. intros c' <-. apply Hf. }
  assert (∀ k o v, preserves (λ c', f c' = f c) (notify k o v)) as Hn.
  { intros k o w. apply pres_get_any. intros c'. destruct (on_change_ c') as [cb|]; [|apply pres_ret].
    apply pres_bind; [apply pres_modify; intros c2 <-; apply Hf|]. intros _. destruct (cb k o w); auto with pres. }
  apply pres_get_any. intros c1.
  destruct (find key (data_ c1)); (apply pres_bind; [|intros _]); [apply Hn|apply Hd| |].
  - apply pres_get_any. intros c2. destruct (bool_decide _); [|apply pres_ret].
    destruct (data_ c2); [apply pres_undef|apply (Hd (λ c3, erase _ _))].
  - apply pres_bind; [apply Hn|]. intros _. apply Hd.
Qed.
Lemma put_frame {A} (f : NodeCache → A) now key val c :
  (∀ c d s ch, f (mkNodeCache d (max_size_ c) (on_change_ c) s ch) = f c) → f (put rehash now key val c).2 = f c.
Proof.
  intros Hf. unfold put. rewrite (M_bind_ret _ _ _ _ _ (stamp_run now val c)).
  rewrite (store_frame f) by (intros c' d ch; apply Hf). apply Hf.
Qed.
Lemma run_op_max op c : max_size_ (run_op op c).2 = max_size_ c.
Proof. destruct op as [now key val|key| |cb]; [by apply put_frame|done..]. Qed.

(** From an empty cache with room for at least one entry, whatever is put,
    removed and cleared, whether or not the change callback throws, no operation
    is undefined, the keys stay distinct and the cache never holds more than
    [max_size] entries. *)
Theorem cache_bounded (n : nat) (ops : list Op) (op : Op) :
  1 ≤ n →
  let c := foldl (λ c op, (run_op op c).2) (new_NodeCache n) ops in
  (run_op op c).1 ≠ Undef ∧ NoDup (keys c) ∧ size c ≤ n.
Proof.
  intros Hn c. assert (cache_ok c ∧ max_size_ c = n) as [Hc Hm].
  { assert (cache_ok (new_NodeCache n) ∧ max_size_ (new_NodeCache n) = n) as H0.
    { split; [|done]. split_and!; simpl; [constructor|lia|done]. }
    subst c. revert H0. generalize (new_NodeCache n). induction ops as [|o ops IH]; intros c [Hc Hm]; simpl; [done|].
    apply IH. split; [by apply run_op_ok|]. rewrite <- Hm. apply run_op_max. }
  split; [by apply run_op_ok|]. destruct Hc as (? & ? & _). rewrite <- Hm. done.
Qed.

Lemma notify_quiet key o n c : (∀ cb, on_change_ c = Some cb → cb key o n = None) →
  ∃ ch, notify key o n c = (Ret tt,
    {| data_ := data_ c; max_size_ := max_size_ c; on_change_ := on_change_ c; seq_ := seq_ c; changes := ch |}).
Proof.
  intros Hcb. unfold notify. autorewrite with monad. destruct (on_change_ c) as [cb|] eqn:E.
  - autorewrite with monad. rewrite (Hcb cb eq_refl), <- E. by eexists.
  - exists (changes c). unfold mret, M_ret. rewrite <- E. by destruct c.
Qed.

Lemma insert_last c key v :
  (∀ cb o, on_change_ c = Some cb → cb key o v = None) → NoDup (data_ c).*1 → find key (data_ c) = None →
  let m := (notify key empty_value v;; modify (λ c, set_data (rehash ((key, v) :: data_ c)) c)) in
  (m c).1 = Ret tt ∧ find key (data_ (m c).2) = Some v ∧ length (data_ (m c).2) = S (length (data_ c)) ∧
  ∀ k, k ≠ key → find k (data_ (m c).2) = find k (data_ c).
Proof.
  intros Hcb Hnd Hf. cbv zeta.
  destruct (notify_quiet key empty_value v c) as [ch Hn]; [intros cb Hc; by apply Hcb|].
  rewrite (M_bind_ret _ _ _ _ _ Hn). cbn [modify fst snd set_data data_].
  assert (∀ k, find k (rehash ((key, v) :: data_ c)) = find k ((key, v) :: data_ c)) as Hfp.
  { intros k. symmetry. apply find_perm; [|by rewrite rehash_perm]. apply NoDup_cons. split; [by apply find_None|done]. }
  split_and!; [done| |by rewrite rehash_perm|].
  - rewrite Hfp. simpl. by rewrite decide_True by done.
  - intros k Hk. rewrite Hfp. simpl. by rewrite decide_False by done.
Qed.

(** What [store] does when the callback does not throw. *)
Definition stored (c c' : NodeCache) (key : NodeKey) : Prop :=
  ((has key c || bool_decide (size c < max_size_ c)) = true ∧ ∀ k, k ≠ key → get_value k c' = get_value k c) ∨
  (has key c = false ∧ size c = max_size_ c ∧ size c' = size c ∧
   ∃ victim old, get_value victim c = Some old ∧
     (∀ k v, get_value k c = Some v → update_time old ≤ update_time v)%Z ∧
     ∀ k, k ≠ key → get_value k c' = if decide (k = victim) then None else get_value k c).
Lemma store_spec c key v : cache_ok c → (∀ cb o, on_change_ c = Some cb → cb key o v = None) →
  let c' := (store rehash key v c).2 in
  (store rehash key v c).1 = Ret tt ∧ get_value key c' = Some v ∧ stored c c' key.
Proof.
  intros (Hnd & Hlen & Hm) Hcb. unfold store, stored, has, get_value, size. autorewrite with monad.
  destruct (find key (data_ c)) as [old|] eqn:E.
  - destruct (notify_quiet key old v c) as [ch Hn]; [intros cb Hc; by apply Hcb|].
    rewrite (M_bind_ret _ _ _ _ _ Hn). simpl. split; [done|]. split.
    + rewrite find_assign, decide_True by done. by rewrite E.
    + left. split; [done|]. intros k Hk. by rewrite find_assign, decide_False by done.
  - destruct (evict_spec c Hnd) as [[Hlt Hrun]|(Hge & victim & old & Hf & Hold & Hrun & Hl)].
    { destruct (data_ c); [right; simpl in *; lia|by left]. }
    + rewrite (M_bind_ret _ _ _ _ _ Hrun). destruct (insert_last c key v) as (H1 & H2 & _ & H4); [done..|].
      split_and!; [done|done|]. left. rewrite bool_decide_true by done. split; [done|exact H4].
    + rewrite (M_bind_ret _ _ _ _ _ Hrun).
      destruct (insert_last (set_data (erase victim (data_ c)) c) key v) as (H1 & H2 & H3 & H4);
        [done|by apply erase_NoDup|simpl; rewrite find_erase; by destruct (decide _)|].
      split_and!; [done|done|]. right. change (data_ (set_data ?d c)) with d in H3.
      split_and!; [done|lia|by rewrite H3|].
      exists victim, old. split_and!; [done|done|]. intros k Hk. rewrite H4 by done. simpl. apply find_erase.
Qed.

(** A [put] stores the value under its key with the next version and the
    current time and changes no other entry, but for one case: a new key in a
    full cache takes the place of an entry whose time is least. *)
Theorem put_evicts_oldest (c : NodeCache) now key val :
  NoDup (keys c) → size c ≤ max_size_ c → 1 ≤ max_size_ c →
  (∀ cb o n, on_change_ c = Some cb → cb key o n = None) →
  let c' := (put rehash now key val c).2 in
  (put rehash now key val c).1 = Ret tt ∧
  get_value key c' = Some (stamped (uwrap 64 (seq_ c + 1)) now val) ∧
  (((has key c || bool_decide (size c < max_size_ c)) = true ∧ ∀ k, k ≠ key → get_value k c' = get_value k c) ∨
   (has key c = false ∧ size c = max_size_ c ∧ size c' = size c ∧
    ∃ victim old, get_value victim c = Some old ∧
      (∀ k v, get_value k c = Some v → update_time old ≤ update_time v)%Z ∧
      ∀ k, k ≠ key → get_value k c' = if decide (k = victim) then None else get_value k c)).
Proof.
  intros Hnd Hlen Hm Hcb c'. subst c'. unfold put. rewrite (M_bind_ret _ _ _ _ _ (stamp_run now val c)).
  set (v := stamped _ now val). set (c1 := mkNodeCache _ _ _ _ _).
  apply (store_spec c1 key v); [by split_and!|]. intros cb o Hc. by apply (Hcb cb).
Qed.

Lemma put_on_change now key v c : on_change_ (put rehash now key v c).2 = on_change_ c.
Proof. by apply put_frame. Qed.
(** A [put] whose callback does not throw returns. *)
Definition calm (c : NodeCache) : Prop := ∀ cb k o n, on_change_ c = Some cb → cb k o n = None.
Lemma put_calm now key v c : cache_ok c → calm c →
  ∃ c', put rehash now key v c = (Ret tt, c') ∧ cache_ok c' ∧ calm c' ∧ on_change_ c' = on_change_ c ∧
    get_value key c' = Some (stamped (uwrap 64 (seq_ c + 1)) now v).
Proof.
  intros Hc Hon. exists (put rehash now key v c).2. unfold calm. rewrite put_on_change.
  unfold put. rewrite (M_bind_ret _ _ _ _ _ (stamp_run now v c)).
  set (c1 := mkNodeCache _ _ _ _ _). set (v1 := stamped _ now v).
  destruct (store_spec c1 key v1) as (H1 & H2 & _); [by destruct Hc as (?&?&?); split_and!|intros cb o; apply Hon|].
  split_and!; [by rewrite <- H1, <- surjective_pairing| |done|done|done].
  apply store_ok. by destruct Hc as (?&?&?); split_and!.
Qed.
(** Without a callback too. *)
Lemma put_quiet now key v c : cache_ok c → on_change_ c = None →
  ∃ c', put rehash now key v c = (Ret tt, c') ∧ cache_ok c' ∧ on_change_ c' = None ∧
    get_value key c' = Some (stamped (uwrap 64 (seq_ c + 1)) now v).
Proof.
  intros Hc Hon. destruct (put_calm now key v c Hc) as (c' & H1 & H2 & _ & H3 & H4); [intros ????; congruence|].
  exists c'. by rewrite H3.
Qed.
End cache_facts.

(** ** Examples *)
Definition val (s : string) : CachedValue := mkCachedValue (scalar s STRING (NumB false) s) [] 0 0 0 0 0.
Definition key (i : Z) : NodeKey := mkNodeKey 0 (pretty i).
(** The order of an insertion at the front, and one that reverses. *)
Definition three_puts : M NodeCache unit :=
  put reverse 10 (key 1) (val "a");; put reverse 20 (key 2) (val "b");; put reverse 30 (key 1) (val "c").
Definition cache2 : NodeCache := (three_puts (new_NodeCache 2)).2.
Example evicts_key2 :
  let c' := (put reverse 40 (key 3) (val "d") cache2).2 in
  has (key 2) c' = false ∧ getVersion (key 1) c' = 3%Z ∧ getVersion (key 3) c' = 4%Z ∧ size c' = 2 ∧
  getStaleKeys 45 10 c' = [key 1].
Proof. by_compute. Qed.
(** With [max_size] 0 the first [put] erases the end iterator; lowering the
    bound does not shrink the cache. *)
Example max_size_zero : (put reverse 1 (key 1) (val "a") (new_NodeCache 0)).1 = Undef.
Proof. by_compute. Qed.
Example lowered_bound :
  size ((setMaxSize 1;; put reverse 40 (key 3) (val "d")) cache2).2 = 2.
Proof. by_compute. Qed.
(** Two writers of one key: the one numbered first may store last, and the
    version goes back. *)
Example version_goes_back :
  let m := (v1 ← stamp 50 (val "x"); v2 ← stamp 51 (val "y");
            store reverse (key 1) v2;; c ← get; store reverse (key 1) v1;; mret (getVersion (key 1) c)) in
  (m cache2).1 = Ret 5%Z ∧ getVersion (key 1) (m cache2).2 = 4%Z.
Proof. by_compute. Qed.

Lemma cache_bounded_witness :
  let c := foldl (λ c op, (run_op reverse op c).2) (new_NodeCache 2)
    [OPut 10 (key 1) (val "a"); OPut 20 (key 2) (val "b"); ORemove (key 5)] in
  (run_op reverse (OPut 40 (key 3) (val "d")) c).1 ≠ Undef ∧ NoDup (keys c) ∧ size c ≤ 2.
Proof. apply (cache_bounded reverse (λ d, reverse_Permutation d) 2); lia. Defined.
Lemma put_evicts_oldest_witness :
  let c' := (put reverse 40 (key 3) (val "d") cache2).2 in
  size cache2 = 2 ∧ has (key 3) cache2 = false ∧
  get_value (key 3) c' = Some (stamped 4 40 (val "d")).
Proof.
  split; [by vm_compute|]. split; [by vm_compute|].
  apply (put_evicts_oldest reverse (λ d, reverse_Permutation d) cache2 40 (key 3) (val "d"));
    [by apply (bool_decide_unpack _)|by apply (bool_decide_unpack _)|by apply (bool_decide_unpack _)|done].
Defined.
