(* ===== verification/CacheSpec.v ===== *)
(** * The cache is a bounded map

    [NodeCache] under concurrent writers.  A [put] takes effect in two steps:
    [stamp] numbers and dates the value, [store] puts it in under the lock; each
    other call is one step.  Whatever the interleaving and the order the hash
    table iterates in, the cache is a finite map of at most [max_size] entries,
    where a store of a new key into a full map takes the place of an entry of
    least time.  A change callback that throws ends the [put] with its exception:
    the value is not stored, but the entry it was to replace is gone. *)
From S2P Require Import Prelude UaTypes StructParser NodeCache.
Local Open Scope prog_scope.

#[export] Instance NodeKey_countable : Countable NodeKey.
Proof. refine (inj_countable' (λ k, (ns k, id k)) (λ p, mkNodeKey p.1 p.2) _). by intros []. Defined.

(** ** The steps of the threads *)
Inductive Step :=
  | SStamp (now : Z) (key : NodeKey) (val : CachedValue) | SStore (i : nat)
  | SRemove (key : NodeKey) | SClear | SSetOnChange (cb : option CacheChangeCb).
(** The cache, and the values their writers have numbered but not yet stored. *)
Record Sys := mkSys { cache : NodeCache; pending : list (NodeKey * CachedValue) }.
Definition on_cache {A} (m : M NodeCache A) : M Sys A := λ s, let '(r, c) := m (cache s) in (r, mkSys c (pending s)).
Definition set_pending (l : list (NodeKey * CachedValue)) (s : Sys) : Sys := mkSys (cache s) l.
Definition do_step (rehash : Entries → Entries) (st : Step) : M Sys unit :=
  match st with
  | SStamp now key val => v ← on_cache (stamp now val); modify (λ s, set_pending (pending s ++ [(key, v)]) s)
  | SStore i =>
      s ← get;
      match pending s !! i with
      | Some (key, v) => modify (λ s, set_pending (delete i (pending s)) s);; on_cache (store rehash key v)
      | None => mret tt
      end
  | SRemove key => on_cache (remove key)
  | SClear => on_cache clear
  | SSetOnChange cb => on_cache (setOnChange cb)
  end.
Definition new_sys (n : nat) : Sys := mkSys (new_NodeCache n) [].
(** The steps of a run, and what each call ends with: an exception ends the call
    of its thread only. *)
Fixpoint run_steps (rehash : Entries → Entries) (sts : list Step) (s : Sys) : list (outcome unit) * Sys :=
  match sts with
  | [] => ([], s)
  | st :: sts => let '(r, s1) := do_step rehash st s in let '(rs, s2) := run_steps rehash sts s1 in (r :: rs, s2)
  end.

(** ** The specification *)
Record Spec := mkSpec {
  entries : gmap NodeKey CachedValue; waiting : list (NodeKey * CachedValue); counter : Z; watcher : option CacheChangeCb
}.
Definition new_spec : Spec := mkSpec ∅ [] 0 None.
(** An entry of the least time in the map. *)
Definition oldest (m : gmap NodeKey CachedValue) (victim : NodeKey) : Prop :=
  ∃ old, m !! victim = Some old ∧ ∀ k v, m !! k = Some v → (update_time old ≤ update_time v)%Z.
(** What the watcher throws at a change, and how a call then ends. *)
Definition objects (w : option CacheChangeCb) (key : NodeKey) (old v : CachedValue) : option exn :=
  match w with Some cb => cb key old v | None => None end.
Definition result (e : option exn) : outcome unit := match e with None => Ret tt | Some x => Throw x end.
Definition commit (e : option exn) (key : NodeKey) (v : CachedValue) (m : gmap NodeKey CachedValue) : gmap NodeKey CachedValue :=
  match e with None => <[key := v]> m | Some _ => m end.
Inductive stores (n : nat) (w : option CacheChangeCb) (m : gmap NodeKey CachedValue) (key : NodeKey) (v : CachedValue) :
    option exn → gmap NodeKey CachedValue → Prop :=
  | store_known old : m !! key = Some old →
      stores n w m key v (objects w key old v) (commit (objects w key old v) key v m)
  | store_room : m !! key = None → base.size m < n →
      stores n w m key v (objects w key empty_value v) (commit (objects w key empty_value v) key v m)
  | store_full victim : m !! key = None → base.size m = n → oldest m victim →
      stores n w m key v (objects w key empty_value v) (commit (objects w key empty_value v) key v (delete victim m)).
Inductive spec_step (n : nat) : Step → Spec → option exn → Spec → Prop :=
  | spec_stamp now key val m l c w : let c' := uwrap 64 (c + 1) in
      spec_step n (SStamp now key val) (mkSpec m l c w) None (mkSpec m (l ++ [(key, stamped c' now val)]) c' w)
  | spec_store i key v e m m' l c w : l !! i = Some (key, v) → stores n w m key v e m' →
      spec_step n (SStore i) (mkSpec m l c w) e (mkSpec m' (delete i l) c w)
  | spec_idle i m l c w : l !! i = None → spec_step n (SStore i) (mkSpec m l c w) None (mkSpec m l c w)
  | spec_remove key m l c w : spec_step n (SRemove key) (mkSpec m l c w) None (mkSpec (delete key m) l c w)
  | spec_clear m l c w : spec_step n SClear (mkSpec m l c w) None (mkSpec ∅ l c w)
  | spec_on_change cb m l c w : spec_step n (SSetOnChange cb) (mkSpec m l c w) None (mkSpec m l c cb).
Inductive spec_run (n : nat) : list Step → Spec → list (option exn) → Spec → Prop :=
  | run_nil sp : spec_run n [] sp [] sp
  | run_cons st sts e es sp1 sp2 sp3 : spec_step n st sp1 e sp2 → spec_run n sts sp2 es sp3 → spec_run n (st :: sts) sp1 (e :: es) sp3.

(** What the queries answer. *)
Record answers (c : NodeCache) (m : gmap NodeKey CachedValue) : Prop := {
  ans_get k : get_value k c = m !! k;
  ans_has k : has k c = bool_decide (is_Some (m !! k));
  ans_size : NodeCache.size c = base.size m;
  ans_keys : keys c ≡ₚ (map_to_list m).*1;
  ans_version k : getVersion k c = from_option version 0%Z (m !! k);
  ans_stale now age : getStaleKeys now age c ≡ₚ (filter (λ e, age < now - update_time e.2)%Z (map_to_list m)).*1
}.

Lemma find_map d k : find k d = (list_to_map d : gmap NodeKey CachedValue) !! k.
Proof.
  induction d as [|[k' v] d IH]; simpl; [by rewrite lookup_empty|]. rewrite lookup_insert.
  destruct (decide (k' = k)); [by subst|done].
Qed.
Lemma answers_intro c m : NoDup (data_ c).*1 → (∀ k, get_value k c = m !! k) → answers c m.
Proof.
  intros Hnd Hget. assert (m = list_to_map (data_ c)) as Hm.
  { apply map_eq. intros k. by rewrite <- Hget, <- find_map. }
  assert (map_to_list m ≡ₚ data_ c) as Hp by (rewrite Hm; by apply map_to_list_to_map).
  split; [done|..].
  - intros k. unfold has. change (find k (data_ c)) with (get_value k c). rewrite Hget. by destruct (m !! k).
  - unfold NodeCache.size. by rewrite <- Hp, length_map_to_list.
  - unfold keys. by rewrite Hp.
  - intros k. unfold getVersion. change (find k (data_ c)) with (get_value k c). rewrite Hget. by destruct (m !! k).
  - intros now age. unfold getStaleKeys. by rewrite Hp.
Qed.

Section refinement.
Context (rehash : Entries → Entries) (rehash_perm : ∀ d, rehash d ≡ₚ d).
Record refines (n : nat) (s : Sys) (sp : Spec) : Prop := {
  ref_ok : cache_ok (cache s);
  ref_max : max_size_ (cache s) = n;
  ref_watch : on_change_ (cache s) = watcher sp;
  ref_get k : get_value k (cache s) = entries sp !! k;
  ref_pending : pending s = waiting sp;
  ref_counter : seq_ (cache s) = counter sp
}.
Lemma refines_answers n s sp : refines n s sp → answers (cache s) (entries sp).
Proof. intros Hr. apply answers_intro; [apply (ref_ok _ _ _ Hr)|apply (ref_get _ _ _ Hr)]. Qed.

(** *** A store *)
Lemma notify_result key o v c : ∃ ch, notify key o v c = (result (objects (on_change_ c) key o v),
  mkNodeCache (data_ c) (max_size_ c) (on_change_ c) (seq_ c) ch).
Proof.
  unfold notify, objects. autorewrite with monad. destruct (on_change_ c) as [cb|] eqn:E.
  - autorewrite with monad. rewrite <- E. eexists. destruct (cb key o v); reflexivity.
  - exists (changes c). rewrite <- E. by destruct c.
Qed.
(** The notice, then the change of the entries if it did not throw. *)
Lemma notify_then key o v f c : ∃ c',
  (notify key o v;; modify (λ c, set_data (f (data_ c)) c)) c = (result (objects (on_change_ c) key o v), c') ∧
  data_ c' = match objects (on_change_ c) key o v with None => f (data_ c) | Some _ => data_ c end.
Proof.
  destruct (notify_result key o v c) as [ch Hn]. unfold mbind, M_bind. rewrite Hn.
  destruct (objects _ _ _ _); simpl; by eexists.
Qed.
Lemma find_insert_new key v k d : NoDup d.*1 → find key d = None →
  find k (rehash ((key, v) :: d)) = if decide (key = k) then Some v else find k d.
Proof.
  intros Hnd Hf. rewrite <- (find_perm k ((key, v) :: d)); [done| |by rewrite rehash_perm].
  apply NoDup_cons. split; [by apply find_None|done].
Qed.
Lemma store_result n w m key v c : cache_ok c → max_size_ c = n → on_change_ c = w → (∀ k, get_value k c = m !! k) →
  ∃ e m' c', store rehash key v c = (result e, c') ∧ stores n w m key v e m' ∧ ∀ k, get_value k c' = m' !! k.
Proof.
  intros Hok <- <- Hget. pose proof (ans_size c m (answers_intro c m (proj1 Hok) Hget)) as Hsize. destruct Hok as (Hnd & Hlen & Hm).
  unfold store. autorewrite with monad. change (find key (data_ c)) with (get_value key c). rewrite Hget.
  destruct (m !! key) as [old|] eqn:E.
  - destruct (notify_then key old v (assign key v) c) as (c' & Hrun & Hd). eexists _, _, c'. split; [exact Hrun|].
    split; [by apply store_known|]. intros k. unfold get_value. rewrite Hd. unfold commit.
    destruct (objects _ _ _ _); [apply Hget|]. rewrite find_assign, lookup_insert.
    change (find ?k (data_ c)) with (get_value k c). rewrite !Hget.
    destruct (decide (k = key)) as [->|Hne]; [by rewrite decide_True, E by done|by rewrite decide_False by done].
  - destruct (evict_spec c Hnd) as [[Hlt Hrun]|(Hge & victim & old & Hf & Hold & Hrun & _)].
    { destruct (data_ c); [right; simpl in *; lia|by left]. }
    + rewrite (M_bind_ret _ _ _ _ _ Hrun).
      destruct (notify_then key empty_value v (λ d, rehash ((key, v) :: d)) c) as (c' & Hrun' & Hd).
      eexists _, _, c'. split; [exact Hrun'|]. split; [apply store_room; [done|unfold NodeCache.size in Hsize; lia]|].
      intros k. unfold get_value. rewrite Hd. unfold commit. destruct (objects _ _ _ _); [apply Hget|].
      rewrite lookup_insert, <- Hget. apply find_insert_new; [done|]. by rewrite <- Hget in E.
    + rewrite (M_bind_ret _ _ _ _ _ Hrun). set (c1 := set_data (erase victim (data_ c)) c).
      assert (∀ k, find k (data_ c1) = delete victim m !! k) as Hget1.
      { intros k. unfold c1. simpl. rewrite find_erase, lookup_delete.
        change (find k (data_ c)) with (get_value k c). rewrite Hget. repeat case_decide; congruence. }
      destruct (notify_then key empty_value v (λ d, rehash ((key, v) :: d)) c1) as (c' & Hrun' & Hd).
      eexists _, _, c'. split; [exact Hrun'|]. split.
      * apply store_full; [done|unfold NodeCache.size in Hsize; lia|]. exists old. rewrite <- Hget. split; [done|].
        intros k u. rewrite <- Hget. apply Hold.
      * intros k. unfold get_value. rewrite Hd. change (on_change_ c1) with (on_change_ c). unfold commit.
        destruct (objects _ _ _ _); [apply Hget1|]. rewrite lookup_insert, <- Hget1. apply find_insert_new; [by apply erase_NoDup|].
        rewrite Hget1, lookup_delete. by case_decide.
Qed.

(** *** Steps and runs *)
Lemma step_refines n st s sp : refines n s sp →
  ∃ e s' sp', do_step rehash st s = (result e, s') ∧ spec_step n st sp e sp' ∧ refines n s' sp'.
Proof.
  intros Hr. pose proof Hr as [Hok Hmax Hw Hget Hpend Hseq]. destruct sp as [m l c w]. simpl in *.
  destruct st as [now key val|i|key| |cb]; simpl.
  - eexists None, _, _. split; [reflexivity|]. split; [apply spec_stamp|].
    split; simpl; [done|done|done|done|by rewrite Hpend, Hseq|by rewrite Hseq].
  - autorewrite with monad. rewrite Hpend. destruct (l !! i) as [[key v]|] eqn:Hi.
    2:{ exists None, s, (mkSpec m l c w). split; [done|]. split; [by apply spec_idle|done]. }
    destruct (store_result n w m key v (cache s) Hok Hmax Hw Hget) as (e & m' & c' & E & Hs & Hget').
    pose proof (store_ok rehash rehash_perm key v (cache s) Hok) as [Hok' _]. rewrite E in Hok'.
    assert (∀ A (f : NodeCache → A), (∀ c d ch, f (mkNodeCache d (max_size_ c) (on_change_ c) (seq_ c) ch) = f c) → f c' = f (cache s)) as Hframe.
    { intros A f Hf. pose proof (store_frame rehash f key v (cache s) Hf) as H. by rewrite E in H. }
    exists e, (mkSys c' (delete i l)), (mkSpec m' (delete i l) c w). split.
    { autorewrite with monad. unfold on_cache, set_pending. simpl. by rewrite E, Hpend. }
    split; [by eapply spec_store|].
    split; simpl; [done|by rewrite (Hframe _ max_size_)|by rewrite (Hframe _ on_change_)|done|done|by rewrite (Hframe _ seq_)].
  - eexists None, _, _. split; [reflexivity|]. split; [apply spec_remove|].
    destruct (run_op_ok rehash rehash_perm (ORemove key) (cache s) Hok) as [Hok' _].
    split; simpl; [exact Hok'|done|done| |done|done]. intros k. unfold get_value. simpl. rewrite find_erase, lookup_delete.
    change (find k (data_ (cache s))) with (get_value k (cache s)). rewrite Hget. repeat case_decide; congruence.
  - eexists None, _, _. split; [reflexivity|]. split; [apply spec_clear|].
    destruct (run_op_ok rehash rehash_perm OClear (cache s) Hok) as [Hok' _].
    split; simpl; [exact Hok'|done|done| |done|done]. intros k. by rewrite lookup_empty.
  - eexists None, _, _. split; [reflexivity|]. split; [apply spec_on_change|]. by split.
Qed.
Lemma run_refines n sts : ∀ s sp, refines n s sp →
  ∃ es s' sp', run_steps rehash sts s = (result <$> es, s') ∧ spec_run n sts sp es sp' ∧ refines n s' sp'.
Proof.
  induction sts as [|st sts IH]; intros s sp Hr; [exists [], s, sp; split; [done|]; split; [apply run_nil|done]|].
  destruct (step_refines n st s sp Hr) as (e & s1 & sp1 & H1 & H2 & H3).
  destruct (IH s1 sp1 H3) as (es & s2 & sp2 & H4 & H5 & H6). exists (e :: es), s2, sp2.
  split; [|split; [by eapply run_cons|done]]. cbn [run_steps]. by rewrite H1, H4.
Qed.

(** C35: from an empty cache with room for an entry, in any interleaving of
    writers, removals, clears and changes of the callback, whatever the callbacks
    throw, every call returns or ends with the callback's exception, just as the
    specification says, the cache answers every query as the finite map of the
    specification does, and that map has at most [n] entries. *)
Theorem cache_refines (n : nat) (sts : list Step) : 1 ≤ n →
  ∃ es s sp, run_steps rehash sts (new_sys n) = (result <$> es, s) ∧ spec_run n sts new_spec es sp ∧
    answers (cache s) (entries sp) ∧ base.size (entries sp) ≤ n.
Proof.
  intros Hn. destruct (run_refines n sts (new_sys n) new_spec) as (es & s & sp & H1 & H2 & H3).
  { split; simpl; [|done|done|intros k; by rewrite lookup_empty|done|done]. split_and!; simpl; [constructor|lia|done]. }
  exists es, s, sp. split; [done|]. split; [done|]. pose proof (refines_answers n s sp H3) as Ha. split; [done|].
  rewrite <- (ans_size _ _ Ha), <- (ref_max _ _ _ H3). apply (ref_ok _ _ _ H3).
Qed.
End refinement.

(** Two writers of one key, numbered and stored in opposite orders, a third key
    that does not fit, and a callback that throws at a fourth. *)
Definition two_writers : list Step :=
  [SStamp 10 (key 1) (val "a"); SStamp 11 (key 1) (val "b"); SStore 1; SStore 0; SStamp 12 (key 2) (val "c"); SStore 0;
   SStamp 13 (key 3) (val "d"); SStore 0; SSetOnChange (Some (λ _ _ _, Some (LogicError "full"))); SStamp 14 (key 4) (val "e"); SStore 0].
Lemma cache_refines_witness : ∃ es s sp, run_steps reverse two_writers (new_sys 2) = (result <$> es, s) ∧
  spec_run 2 two_writers new_spec es sp ∧ answers (cache s) (entries sp) ∧ base.size (entries sp) ≤ 2.
Proof. apply (cache_refines reverse (λ d, reverse_Permutation d) 2 two_writers). lia. Defined.
(** The last store throws, and has taken an entry away. *)
Example objected_store :
  let '(rs, s) := run_steps reverse two_writers (new_sys 2) in
  last rs = Some (Throw (LogicError "full")) ∧ keys (cache s) = [key 3].
Proof. by_compute. Qed.
