(* ===== verification/PlcClient.v ===== *)
(** * [PlcClient] and [PlcPoller] of [proto_opcua/parse_project/]

    The services of open62541 are parameters: what they answer, with the memory the
    values lie in, and the state [W] of the other side.  A read is undefined where
    the parser's is.  The callbacks of the poller do not throw; their calls are
    recorded.  The poller's calls and the rounds of its thread hold
    [groups_mtx_], so a round is one step. *)
From Stdlib Require Import Ascii.
From S2P Require Import Prelude UaTypes StructParser NodeCache.

(** ** [std::stoul], base 10: [None] when it throws *)
Definition is_space (a : ascii) : bool :=
  let n := nat_of_ascii a in bool_decide (9 ≤ n ≤ 13) || bool_decide (n = 32).
Definition digit_value (a : ascii) : option Z :=
  let n := Z.of_nat (nat_of_ascii a) in if bool_decide (48 ≤ n ≤ 57)%Z then Some (n - 48)%Z else None.
Fixpoint skip_spaces (s : string) : string :=
  match s with String a s' => if is_space a then skip_spaces s' else s | "" => "" end.
(** The longest prefix of digits, read after [acc]. *)
Fixpoint read_digits (acc : Z) (s : string) : Z :=
  match s with
  | String a s' => match digit_value a with Some d => read_digits (acc * 10 + d) s' | None => acc end
  | "" => acc
  end.
Definition starts_with_digit (s : string) : bool :=
  match s with String a _ => match digit_value a with Some _ => true | None => false end | "" => false end.
Definition stoul (s : string) : option Z :=
  let s := skip_spaces s in
  let '(neg, s) := match s with
                   | String "-" s' => (true, s')
                   | String "+" s' => (false, s')
                   | _ => (false, s)
                   end in
  if negb (starts_with_digit s) then None                          (* invalid_argument *)
  else let n := read_digits 0 s in
       if bool_decide (2 ^ 64 ≤ n)%Z then None                     (* out_of_range *)
       else Some (if neg : bool then uwrap 64 (- n) else n).

(** ** What the services exchange *)
Inductive UA_NodeId := NumericId (ns id : Z) | StringId (ns : Z) (id : string).
#[export] Instance UA_NodeId_eq_dec : EqDecision UA_NodeId.
Proof. solve_decision. Defined.
(** The namespace of a [UA_NodeId] has 16 bits; a C string ends at its first NUL. *)
Fixpoint c_str (s : string) : string :=
  match s with
  | String a s' => if decide (a = ascii_of_nat 0) then "" else String a (c_str s')
  | "" => ""
  end.
Definition UA_NODEID_NUMERIC (ns id : Z) : UA_NodeId := NumericId (uwrap 16 ns) id.
Definition UA_NODEID_STRING_ALLOC (ns : Z) (id : string) : UA_NodeId := StringId (uwrap 16 ns) (c_str id).
Record DataValue := mkDataValue {
  dv_status : Z; dv_serverTimestamp : Z; dv_sourceTimestamp : Z; dv_type : option UA_DataType; dv_data : Z
}.
(** A response, with the memory its pointers point into. *)
Record ReadResponse := mkReadResponse { serviceResult : Z; results : list DataValue; resp_mem : Memory }.
Record Reference := mkReference { ref_node : UA_NodeId }.
Record BrowseResponse := mkBrowseResponse { browseResult : Z; browse_results : list (list Reference) }.

Record PlcClient := mkPlcClient { endpoint_ : string; client_ : bool }.
Definition new_PlcClient (endpoint : string) : PlcClient := {| endpoint_ := endpoint; client_ := false |}.
Definition disconnect (c : PlcClient) : PlcClient := {| endpoint_ := endpoint_ c; client_ := false |}.
Definition connected (c : PlcClient) : bool := client_ c.
(** [connect]: [allocated] and [status] are what [UA_Client_new] and
    [UA_Client_connect] answer; the time-out is not used. *)
Definition connect (allocated : bool) (status : string → Z) (timeout_ms : Z) (c : PlcClient) : bool * PlcClient :=
  if negb allocated then (false, disconnect c)
  else if negb (bool_decide (status (endpoint_ c) = 0%Z)) then (false, disconnect c)
  else (true, {| endpoint_ := endpoint_ c; client_ := true |}).

Section services.
Context {W : Type}.
Context (service_read : list UA_NodeId → W → ReadResponse * W).
Context (service_browse : UA_NodeId → W → BrowseResponse * W).

Definition unread (name : string) : CachedValue := mkCachedValue (new_ParsedValue name) [] 0 0 0 0 0.
Definition with_status (st : Z) (v : CachedValue) : CachedValue :=
  mkCachedValue (parsed v) (raw_bytes v) st (server_ts v) (source_ts v) (version v) (update_time v).
(** A [UA_DataValue] into a [CachedValue]; the parser may read where nothing is. *)
Definition take_value (mem : Memory) (name : string) (dv : DataValue) (v : CachedValue) : outcome CachedValue :=
  p ← match dv_type dv with
      | Some t => if bool_decide (dv_data dv = 0%Z) then Ret (parsed v) else parseValue mem (dv_data dv) t name
      | None => Ret (parsed v)
      end;
  Ret (mkCachedValue p (raw_bytes v) (dv_status dv) (dv_serverTimestamp dv) (dv_sourceTimestamp dv) (version v) (update_time v)).
(** A service is called in a state of the other side and leaves another. *)
Definition call {A} (service : W → A * W) : M W A := λ w, let '(a, w') := service w in (Ret a, w').
Definition read_one (c : PlcClient) (node : UA_NodeId) (name : string) : M W CachedValue :=
  let cv := unread name in
  if negb (client_ c) then mret cv
  else resp ← call (service_read [node]);
       if negb (bool_decide (serviceResult resp = 0%Z)) then mret (with_status (serviceResult resp) cv)
       else match results resp with
            | dv :: _ => lift_outcome (take_value (resp_mem resp) name dv cv)
            | [] => mret cv
            end.
Definition readNode (c : PlcClient) (ns id : Z) (name : string) : M W CachedValue :=
  read_one c (UA_NODEID_NUMERIC ns id) name.
Definition readNodeString (c : PlcClient) (ns : Z) (id : string) (name : string) : M W CachedValue :=
  read_one c (UA_NODEID_STRING_ALLOC ns id) name.
Definition batchRead (c : PlcClient) (nodes : list (Z * Z)) : M W (list CachedValue) :=
  if negb (client_ c) || bool_decide (length nodes = 0) then mret []
  else resp ← call (service_read ((λ n, UA_NODEID_NUMERIC n.1 n.2) <$> nodes));
       lift_outcome (mapM (λ i, let cv := with_status (2 ^ 31) (unread "") in
                                match results resp !! i with
                                | Some dv => take_value (resp_mem resp) "" dv cv
                                | None => Ret cv
                                end) (seq 0 (length nodes))).
Definition browseVariables (c : PlcClient) (ns root_id : Z) : M W (list (Z * Z)) :=
  if negb (client_ c) then mret []
  else resp ← call (service_browse (UA_NODEID_NUMERIC ns root_id));
       mret (if bool_decide (browseResult resp = 0%Z)
             then omap (λ r, match ref_node r with NumericId n i => Some (n, i) | StringId _ _ => None end)
                       (concat (browse_results resp))
             else []).

(** ** [PlcPoller] *)
Record PollItem := mkPollItem { item_key : NodeKey; item_name : string; description : string; is_struct : bool }.
Record PollGroup := mkPollGroup { g_name : string; interval : Z; items : list PollItem; enabled : bool }.
Inductive PollEvent := PollDone (group : string) (count : nat) | PollError (key : NodeKey) (status : Z).
Record PlcPoller := mkPlcPoller {
  client : PlcClient; cache : NodeCache; net : W; groups_ : list PollGroup; running_ : bool;
  on_poll_done_ : bool; on_error_ : bool; events : list PollEvent
}.
Definition new_PlcPoller (c : PlcClient) (k : NodeCache) (w : W) : PlcPoller :=
  mkPlcPoller c k w [] false false false [].
Definition set_groups (gs : list PollGroup) (p : PlcPoller) : PlcPoller :=
  mkPlcPoller (client p) (cache p) (net p) gs (running_ p) (on_poll_done_ p) (on_error_ p) (events p).
Definition set_net (w : W) (p : PlcPoller) : PlcPoller :=
  mkPlcPoller (client p) (cache p) w (groups_ p) (running_ p) (on_poll_done_ p) (on_error_ p) (events p).
Definition set_cache (k : NodeCache) (p : PlcPoller) : PlcPoller :=
  mkPlcPoller (client p) k (net p) (groups_ p) (running_ p) (on_poll_done_ p) (on_error_ p) (events p).
Definition set_running (b : bool) (p : PlcPoller) : PlcPoller :=
  mkPlcPoller (client p) (cache p) (net p) (groups_ p) b (on_poll_done_ p) (on_error_ p) (events p).
Definition emit (e : PollEvent) (p : PlcPoller) : PlcPoller :=
  mkPlcPoller (client p) (cache p) (net p) (groups_ p) (running_ p) (on_poll_done_ p) (on_error_ p) (events p ++ [e]).

Definition addGroup (g : PollGroup) : M PlcPoller unit := modify (λ p, set_groups (groups_ p ++ [g]) p).
Definition removeGroup (name : string) : M PlcPoller unit :=
  modify (λ p, set_groups (filter (λ g, g_name g ≠ name) (groups_ p)) p).
(** The first group of the name. *)
Fixpoint update_first (name : string) (f : PollGroup → PollGroup) (gs : list PollGroup) : list PollGroup :=
  match gs with
  | [] => []
  | g :: gs => if decide (g_name g = name) then f g :: gs else g :: update_first name f gs
  end.
Definition setGroupInterval (name : string) (ms : Z) : M PlcPoller unit :=
  modify (λ p, set_groups (update_first name (λ g, mkPollGroup (g_name g) ms (items g) (enabled g)) (groups_ p)) p).
Definition setGroupEnabled (name : string) (on : bool) : M PlcPoller unit :=
  modify (λ p, set_groups (update_first name (λ g, mkPollGroup (g_name g) (interval g) (items g) on) (groups_ p)) p).
(** [start] and [stop]: whether the thread runs. *)
Definition start : M PlcPoller unit := p ← get; if running_ p then mret tt else modify (set_running true).
Definition stop : M PlcPoller unit := modify (set_running false).
Definition setOnPollDone (b : bool) : M PlcPoller unit :=
  modify (λ p, mkPlcPoller (client p) (cache p) (net p) (groups_ p) (running_ p) b (on_error_ p) (events p)).
Definition setOnError (b : bool) : M PlcPoller unit :=
  modify (λ p, mkPlcPoller (client p) (cache p) (net p) (groups_ p) (running_ p) (on_poll_done_ p) b (events p)).

Definition node_number (s : string) : Z := default 0%Z (uwrap 32 <$> stoul s).
(** A call of the client. *)
Definition on_net {A} (m : M W A) : M PlcPoller A := λ p, let '(r, w) := m (net p) in (r, set_net w p).
Definition poller_readNode (item : PollItem) : M PlcPoller CachedValue :=
  p ← get;
  let num_id := node_number (id (item_key item)) in
  cv ← on_net (if bool_decide (0 < num_id)%Z then readNode (client p) (ns (item_key item)) num_id (item_name item)
               else readNodeString (client p) (ns (item_key item)) (id (item_key item)) (item_name item));
  when (negb (valid cv) && on_error_ p) (modify (emit (PollError (item_key item) (status_code cv))));;
  mret cv.

Context (rehash : Entries → Entries) (steady_clock_now : W → Z * W).
Definition now : M PlcPoller Z :=
  p ← get; let '(t, w) := steady_clock_now (net p) in modify (set_net w);; mret t.
(** A call on the cache. *)
Definition on_cache {A} (m : M NodeCache A) : M PlcPoller A :=
  λ p, let '(r, k) := m (cache p) in (r, set_cache k p).
Fixpoint poll_items (its : list PollItem) (ok : nat) : M PlcPoller nat :=
  match its with
  | [] => mret ok
  | item :: its =>
      cv ← poller_readNode item;
      t ← now;
      on_cache (put rehash t (item_key item) cv);;
      poll_items its (if valid cv then S ok else ok)
  end.
Definition pollGroup (grp : PollGroup) : M PlcPoller unit :=
  ok ← poll_items (items grp) 0;
  p ← get; when (on_poll_done_ p) (modify (emit (PollDone (g_name grp) ok))).
Definition pollOnce (group_name : string) : M PlcPoller unit :=
  p ← get;
  for_each (λ g, when ((bool_decide (group_name = "") || bool_decide (g_name g = group_name)) && enabled g) (pollGroup g))
           (groups_ p).
Definition pollAll : M PlcPoller unit := pollOnce "".
(** One round of [pollThread]: the groups it polls, and the time it sleeps
    until; [None] is the sleep of 100 ms. *)
Definition due (g : PollGroup) : bool := enabled g && negb (bool_decide (length (items g) = 0)).
Definition earliest (a : option Z) (b : Z) : option Z :=
  match a with None => Some b | Some a => Some (if bool_decide (b < a)%Z then b else a) end.
Fixpoint round_groups (t : Z) (gs : list PollGroup) (next : option Z) : M PlcPoller (option Z) :=
  match gs with
  | [] => mret next
  | g :: gs =>
      if due g then pollGroup g;; round_groups t gs (earliest next (t + interval g))
      else round_groups t gs next
  end.
Definition poll_round : M PlcPoller (option Z) :=
  t ← now; p ← get; round_groups t (groups_ p) None.
End services.

(** ** Numeric identifiers *)
Lemma digit_value_char (d : N) : (d < 10)%N → digit_value (pretty_N_char d) = Some (Z.of_N d) ∧ is_space (pretty_N_char d) = false.
Proof.
  revert d. apply digit_cases. by repeat constructor.
Qed.
Lemma read_digits_go (n : N) s : read_digits 0 (pretty_N_go n s) = read_digits (Z.of_N n) s.
Proof.
  revert s. induction (N.lt_wf_0 n) as [n _ IH]. intros s.
  destruct (decide (n = 0)%N) as [->|Hn]; [by rewrite pretty_N_go_0|].
  rewrite pretty_N_go_step by lia. rewrite IH by (apply N.div_lt; lia). simpl.
  pose proof (N.mod_lt n 10 ltac:(done)) as Hd.
  destruct (digit_value_char _ Hd) as [-> _].
  f_equal. pose proof (N.div_mod n 10 ltac:(done)). lia.
Qed.
Lemma read_digits_stop acc s : starts_with_digit s = false → read_digits acc s = acc.
Proof. destruct s as [|a s]; [done|]. simpl. by destruct (digit_value a). Qed.
Lemma head_cases a : (∃ d, digit_value a = Some d) → a ≠ "-"%char ∧ a ≠ "+"%char.
Proof. intros [d Hd]. by split; intros ->. Qed.

Lemma stoul_pretty (n : Z) rest : (0 < n < 2 ^ 64)%Z → starts_with_digit rest = false → stoul (pretty n +:+ rest) = Some n.
Proof.
  intros Hn Hr. destruct n as [|p|p]; [lia| |lia].
  pose proof (pretty_pos_app p rest) as E.
  pose proof (read_digits_go (N.pos p) rest) as Hread. rewrite (read_digits_stop _ _ Hr) in Hread.
  destruct (pretty_go_head (N.pos p) rest) as (d & t & Hd & _ & Eh); [lia|].
  rewrite E. rewrite Eh in Hread |- *. destruct (digit_value_char d Hd) as [Hv Hs].
  unfold stoul. cbn [skip_spaces]. rewrite Hs.
  destruct (head_cases (pretty_N_char d)) as [H1 H2]; [eauto|].
  assert (∀ (A : Type) (x y z : A), match pretty_N_char d with "-"%char => x | "+"%char => y | _ => z end = z) as Hm.
  { intros A x y z. clear -Hd. revert d Hd. apply digit_cases. by repeat constructor. }
  change (match String (pretty_N_char d) t with String "-" s' => (true, s') | String "+" s' => (false, s') | _ => (false, String (pretty_N_char d) t) end)
    with (match pretty_N_char d with "-"%char => (true, t) | "+"%char => (false, t) | _ => (false, String (pretty_N_char d) t) end).
  rewrite Hm. cbn [starts_with_digit]. rewrite Hv. cbn [negb]. rewrite Hread.
  rewrite bool_decide_false by lia. done.
Qed.

(** ** What a poll does *)
Section poller_facts.
Context {W : Type}.
Context (service_read : list UA_NodeId → W → ReadResponse * W).
Context (rehash : Entries → Entries) (rehash_perm : ∀ d, rehash d ≡ₚ d).
Context (steady_clock_now : W → Z * W).
Implicit Types (p : @PlcPoller W).
Local Abbreviation group_poll := (pollGroup service_read rehash steady_clock_now).
Local Abbreviation items_poll := (poll_items service_read rehash steady_clock_now).
Local Abbreviation round_poll := (poll_round service_read rehash steady_clock_now).
Local Abbreviation item_read := (poller_readNode service_read).

(** A client whose reads return: one that is not connected, or one that is only
    sent values the parser can read. *)
Definition reads_return (c : PlcClient) : Prop := ∀ node name w, ∃ cv w', read_one service_read c node name w = (Ret cv, w').
Lemma offline_reads c : client_ c = false → reads_return c.
Proof. intros Hc node name w. unfold read_one. rewrite Hc. by exists (unread name), w. Qed.
Definition sends_readable : Prop := ∀ node w dv rest name, results (service_read [node] w).1 = dv :: rest →
  ∃ cv, take_value (resp_mem (service_read [node] w).1) name dv (unread name) = Ret cv.
Lemma parsed_reads c : sends_readable → reads_return c.
Proof.
  intros H node name w. unfold read_one, call. destruct (client_ c); [|by exists (unread name), w]. cbn [negb].
  specialize (H node w). unfold mbind at 1, M_bind at 1. destruct (service_read [node] w) as [resp w']. cbn [fst] in H.
  destruct (negb _); [by eexists _, w'|]. destruct (results resp) as [|dv rest]; [by eexists _, w'|].
  destruct (H dv rest name eq_refl) as [cv Hcv]. exists cv, w'. unfold lift_outcome. by rewrite Hcv.
Qed.
(** A poller whose cache has room and no callback, and whose reads return. *)
Definition quiet p : Prop := cache_ok (cache p) ∧ on_change_ (cache p) = None ∧ reads_return (client p).
(** What a call leaves alone. *)
Definition same_setup p p' : Prop :=
  client p' = client p ∧ groups_ p' = groups_ p ∧ on_poll_done_ p' = on_poll_done_ p ∧ on_error_ p' = on_error_ p.
Definition errors_only (es : list PollEvent) : Prop :=
  Forall (λ e, match e with PollError _ st => st ≠ 0%Z | PollDone _ _ => False end) es.

Lemma now_run p : ∃ t w, now steady_clock_now p = (Ret t, set_net w p).
Proof. unfold now. autorewrite with monad. destruct (steady_clock_now (net p)) as [t w]. by exists t, w. Qed.

Lemma poller_readNode_run item p : reads_return (client p) → ∃ cv w es,
  item_read item p =
    (Ret cv, mkPlcPoller (client p) (cache p) w (groups_ p) (running_ p) (on_poll_done_ p) (on_error_ p) (events p ++ es)) ∧
  errors_only es ∧ (client_ (client p) = false → valid cv = true ∧ es = [] ∧ w = net p).
Proof.
  intros Hreads. unfold poller_readNode. autorewrite with monad.
  set (node := if bool_decide (0 < node_number (id (item_key item)))%Z then UA_NODEID_NUMERIC (ns (item_key item)) (node_number (id (item_key item)))
               else UA_NODEID_STRING_ALLOC (ns (item_key item)) (id (item_key item))).
  destruct (Hreads node (item_name item) (net p)) as (cv & w & Hr).
  assert (client_ (client p) = false → valid cv = true ∧ w = net p) as Hoff.
  { intros Hc. revert Hr. unfold read_one. rewrite Hc. by intros [= <- <-]. }
  match goal with |- context [on_net ?m] => assert (on_net m p = (Ret cv, set_net w p)) as Hn end.
  { unfold on_net, readNode, readNodeString. subst node. destruct (bool_decide _); by rewrite Hr. }
  rewrite (M_bind_ret _ _ _ _ _ Hn). destruct (valid cv) eqn:Ev; cbn [negb andb when].
  - exists cv, w, []. rewrite app_nil_r. split_and!; [done|constructor|]. intros Hc. by destruct (Hoff Hc).
  - destruct (on_error_ p) eqn:Eo.
    + exists cv, w, [PollError (item_key item) (status_code cv)]. cbn [when]. autorewrite with monad.
      split_and!; [by rewrite <- Eo|constructor; [|constructor]|intros Hc; by destruct (Hoff Hc)].
      unfold valid in Ev. by apply bool_decide_eq_false in Ev.
    + exists cv, w, []. cbn [when]. autorewrite with monad. rewrite app_nil_r.
      split_and!; [by rewrite <- Eo|constructor|intros Hc; by destruct (Hoff Hc)].
Qed.

Lemma poll_items_run its : ∀ ok p, quiet p →
  ∃ n p' es, items_poll its ok p = (Ret n, p') ∧ quiet p' ∧ same_setup p p' ∧ events p' = events p ++ es ∧
    errors_only es ∧ (client_ (client p) = false → n = ok + length its ∧ es = []).
Proof.
  induction its as [|item its IH]; intros ok p Hq; simpl.
  { exists ok, p, []. rewrite app_nil_r. split_and!; [done|done|by split_and!|done|constructor|]. intros _. split; [lia|done]. }
  destruct (poller_readNode_run item p) as (cv & w & es & Hr & He & Hoff); [apply Hq|].
  rewrite (M_bind_ret _ _ _ _ _ Hr). set (p1 := mkPlcPoller _ _ _ _ _ _ _ _).
  destruct (now_run p1) as (t & w' & Ht). rewrite (M_bind_ret _ _ _ _ _ Ht).
  destruct (put_quiet rehash rehash_perm t (item_key item) cv (cache p)) as (c' & Hput & Hc' & Hon' & _); [apply Hq..|].
  assert (on_cache (put rehash t (item_key item) cv) (set_net w' p1) = (Ret tt, set_cache c' (set_net w' p1))) as Hpc.
  { unfold on_cache. change (cache (set_net w' p1)) with (cache p). by rewrite Hput. }
  rewrite (M_bind_ret _ _ _ _ _ Hpc).
  destruct (IH (if valid cv then S ok else ok) (set_cache c' (set_net w' p1))) as (n & p' & es' & -> & Hq' & Hs & Hev & He' & Hoff');
    [split_and!; [done|done|apply Hq]|].
  exists n, p', (es ++ es'). split_and!; [done|done|exact Hs|rewrite Hev; simpl; by rewrite (assoc_L (++))|by apply Forall_app|].
  intros Hc. destruct (Hoff Hc) as (Hv & -> & _). destruct (Hoff' Hc) as [-> ->]. rewrite Hv. split; [lia|done].
Qed.

Lemma pollGroup_run g p : quiet p →
  ∃ n p' es, group_poll g p = (Ret tt, p') ∧ quiet p' ∧ same_setup p p' ∧ errors_only es ∧
    events p' = events p ++ es ++ (if on_poll_done_ p then [PollDone (g_name g) n] else []) ∧
    (client_ (client p) = false → n = length (items g) ∧ es = []).
Proof.
  intros Hq. destruct (poll_items_run (items g) 0 p Hq) as (n & p' & es & Hr & Hq' & Hs & Hev & He & Hoff).
  destruct Hs as (H1 & H2 & H3 & H4). unfold pollGroup. rewrite (M_bind_ret _ _ _ _ _ Hr). autorewrite with monad.
  rewrite H3. destruct (on_poll_done_ p) eqn:E; cbn [when].
  - exists n, (emit (PollDone (g_name g) n) p'), es. split_and!; [done|done|repeat split; simpl; congruence|done| |by apply Hoff].
    simpl. by rewrite Hev, (assoc_L (++)).
  - exists n, p', es. rewrite app_nil_r. split_and!; [done|done|repeat split; congruence|done|done|by apply Hoff].
Qed.

(** The earliest of the next polls of the groups. *)
Definition next_wake (t : Z) (gs : list PollGroup) : option Z := foldl (λ a g, earliest a (t + interval g)) None (filter (λ g, due g = true) gs).
(** The groups reported as done. *)
Definition done_groups (es : list PollEvent) : list string :=
  omap (λ e, match e with PollDone g _ => Some g | PollError _ _ => None end) es.
Lemma done_groups_errors es : errors_only es → done_groups es = [].
Proof. induction 1 as [|[]]; done. Qed.

Lemma round_groups_run t gs : ∀ next p, quiet p → on_poll_done_ p = true →
  ∃ p' es, round_groups service_read rehash steady_clock_now t gs next p =
    (Ret (foldl (λ a g, earliest a (t + interval g)) next (filter (λ g, due g = true) gs)), p') ∧
    quiet p' ∧ on_poll_done_ p' = true ∧ events p' = events p ++ es ∧ done_groups es = g_name <$> filter (λ g, due g = true) gs.
Proof.
  induction gs as [|g gs IH]; intros next p Hq Ho; simpl.
  { exists p, []. by rewrite app_nil_r. }
  rewrite filter_cons. destruct (due g) eqn:Ed.
  - rewrite decide_True by done. destruct (pollGroup_run g p Hq) as (n & p' & es & Hr & Hq' & Hs & He & Hev & _).
    rewrite (M_bind_ret _ _ _ _ _ Hr). destruct Hs as (_ & _ & Hd & _). rewrite Ho in Hd, Hev.
    destruct (IH (earliest next (t + interval g)) p' Hq' Hd) as (p2 & es2 & -> & Hq2 & Ho2 & Hev2 & Hd2).
    exists p2, (es ++ [PollDone (g_name g) n] ++ es2). split_and!; [done|done|done|rewrite Hev2, Hev; by rewrite <- !app_assoc|].
    unfold done_groups in *. rewrite !omap_app, Hd2. fold (done_groups es). by rewrite done_groups_errors.
  - rewrite decide_False by done. by apply IH.
Qed.

(** A round returns, and leaves the cache fit for the next one. *)
Lemma poll_round_run p : quiet p → on_poll_done_ p = true →
  ∃ t p' es, round_poll p = (Ret (next_wake t (groups_ p)), p') ∧ quiet p' ∧ on_poll_done_ p' = true ∧
    events p' = events p ++ es ∧ done_groups es = g_name <$> filter (λ g, due g = true) (groups_ p).
Proof.
  intros Hq Ho. unfold poll_round. destruct (now_run p) as (t & w & Ht). rewrite (M_bind_ret _ _ _ _ _ Ht).
  autorewrite with monad. destruct (round_groups_run t (groups_ p) None (set_net w p)) as (p' & es & Hr & Hq' & Ho' & Hev & Hd); [done..|].
  by exists t, p', es.
Qed.
(** One round of the polling thread polls every enabled group that has
    items, in their order, and next wakes after the shortest of their intervals:
    the interval of a group does not delay its own polls. *)
Theorem round_polls_every_group p :
  cache_ok (cache p) → on_change_ (cache p) = None → on_poll_done_ p = true → reads_return (client p) →
  ∃ t p' es, round_poll p = (Ret (next_wake t (groups_ p)), p') ∧ events p' = events p ++ es ∧
    done_groups es = g_name <$> filter (λ g, due g = true) (groups_ p).
Proof.
  intros Hc Hon Ho Hreads. destruct (poll_round_run p) as (t & p' & es & H1 & _ & _ & H2 & H3); [by split|done|].
  by exists t, p', es.
Qed.

(** A poll through a client that is not connected counts every item as read
    and reports no error: [readNode] returns an empty value whose status is good. *)
Theorem offline_poll_counts_ok p g :
  cache_ok (cache p) → on_change_ (cache p) = None → on_poll_done_ p = true → connected (client p) = false →
  ∃ p', group_poll g p = (Ret tt, p') ∧ events p' = events p ++ [PollDone (g_name g) (length (items g))].
Proof.
  intros Hc Hon Ho Hoff. destruct (pollGroup_run g p) as (n & p' & es & Hr & _ & _ & _ & Hev & Hn); [split_and!; [done|done|by apply offline_reads]|].
  destruct (Hn Hoff) as [-> ->]. rewrite Ho in Hev. by exists p'.
Qed.

(** A key that is a decimal number below 2^32 followed by anything but a
    digit is read as that numeric node, the rest of the key dropped. *)
Theorem numeric_prefix_decides item p (n : Z) rest :
  (0 < n < 2 ^ 32)%Z → id (item_key item) = pretty n +:+ rest → starts_with_digit rest = false →
  connected (client p) = true →
  let '(resp, w) := service_read [NumericId (uwrap 16 (ns (item_key item))) n] (net p) in
  net (item_read item p).2 = w ∧
  (serviceResult resp ≠ 0%Z → ∃ cv, (item_read item p).1 = Ret cv ∧ status_code cv = serviceResult resp).
Proof.
  intros Hn Hid Hr Hc. unfold poller_readNode. autorewrite with monad.
  assert (node_number (id (item_key item)) = n) as ->.
  { unfold node_number. rewrite Hid, stoul_pretty; [|lia|done]. simpl. apply uwrap_small; lia. }
  rewrite bool_decide_true by lia. unfold readNode, read_one. change (client_ (client p)) with (connected (client p)). rewrite Hc.
  cbn [negb]. unfold UA_NODEID_NUMERIC, on_net, call, mbind, M_bind.
  destruct (service_read _ _) as [resp w]. destruct (decide (serviceResult resp = 0%Z)) as [E|E].
  - rewrite bool_decide_true by done. cbn [negb]. split; [|done].
    destruct (results resp) as [|dv ?]; [by destruct (on_error_ p)|]. unfold lift_outcome.
    destruct (take_value _ _ _ _) as [cv|e|]; [|done..]. by destruct (negb (valid cv) && on_error_ p).
  - rewrite bool_decide_false by done. cbn [negb mret M_ret]. unfold with_status, valid. cbn [status_code].
    rewrite bool_decide_false by done. split; [by destruct (on_error_ p)|]. intros _. by destruct (on_error_ p); eexists.
Qed.
End poller_facts.

(** ** Examples: a world that only has a clock *)
Definition no_service (_ : list UA_NodeId) (t : Z) : ReadResponse * Z := (mkReadResponse 0 [] no_memory, t).
Definition tick (t : Z) : Z * Z := (t, t + 1)%Z.
(** A server on which every node is an 32-bit 7, but for those of namespace 9. *)
Definition sevens (nodes : list UA_NodeId) (t : Z) : ReadResponse * Z :=
  (mkReadResponse 0
     ((λ n, match n with
            | NumericId 9 _ => mkDataValue 2150891520 0 0 None 0
            | _ => mkDataValue 0 100 200 (Some int32_type) 4096
            end) <$> nodes) (store_bytes 4096 [7; 0; 0; 0]%Z no_memory), t).
Definition item (ns : Z) (id name : string) : PollItem := mkPollItem (mkNodeKey ns id) name "" false.
Definition demo_poller (c : bool) (gs : list PollGroup) : PlcPoller :=
  ((for_each addGroup gs;; setOnPollDone true;; setOnError true)
    (new_PlcPoller (mkPlcClient "opc.tcp://192.168.1.100:4840" c) (new_NodeCache 1000) 0%Z)).2.

Example stoul_examples : stoul <$> ["1001"; " +12abc"; "TempSensor"; "-1"; "18446744073709551616"; "007"; ""]
  = [Some 1001; Some 12; None; Some 18446744073709551615; None; Some 7; None]%Z.
Proof. by_compute. Qed.
Example online_poll :
  let p := demo_poller true [mkPollGroup "g" 100 [item 0 "1001" "MotorSpeed"; item 9 "1002" "Gone"; item 1 "12abc" "Odd"] true] in
  let p' := (pollAll sevens (λ d, d) tick p).2 in
  events p' = [PollError (mkNodeKey 9 "1002") 2150891520; PollDone "g" 2] ∧
  (num ∘ parsed <$> get_value (mkNodeKey 0 "1001") (cache p')) = Some (NumI64 7) ∧
  (server_ts <$> get_value (mkNodeKey 1 "12abc") (cache p')) = Some 100%Z.
Proof. by_compute. Qed.
Lemma sevens_readable : sends_readable sevens.
Proof.
  intros node w dv rest name. cbn [sevens fmap list_fmap results fst resp_mem].
  intros [= <- _]. destruct node as [ns i|ns i]; [|by eexists]. by repeat (case_match; try by eexists).
Qed.
Lemma round_polls_every_group_witness :
  let p := demo_poller true [mkPollGroup "fast" 100 [item 0 "1001" ""] true; mkPollGroup "slow" 1000 [item 0 "2001" ""] true] in
  ∃ t p' es, poll_round sevens (λ d, d) tick p = (Ret (next_wake t (groups_ p)), p') ∧ events p' = events p ++ es ∧
    done_groups es = ["fast"; "slow"].
Proof.
  refine (round_polls_every_group sevens (λ d, d) (λ d, Permutation_refl d) tick (demo_poller true
    [mkPollGroup "fast" 100 [item 0 "1001" ""] true; mkPollGroup "slow" 1000 [item 0 "2001" ""] true]) _ _ _ (parsed_reads sevens _ sevens_readable)); try done.
  split_and!; simpl; [constructor|lia|lia].
Defined.
Lemma offline_poll_counts_ok_witness :
  let g := mkPollGroup "fast" 100 [item 0 "1001" ""; item 0 "1002" ""] true in
  ∃ p', pollGroup no_service (λ d, d) tick g (demo_poller false [g]) = (Ret tt, p') ∧ events p' = [PollDone "fast" 2].
Proof.
  cbv zeta. eapply (offline_poll_counts_ok no_service (λ d, d) (λ d, Permutation_refl d) tick
    (demo_poller false [mkPollGroup "fast" 100 [item 0 "1001" ""; item 0 "1002" ""] true])); try done.
  split_and!; simpl; [constructor|lia|lia].
Defined.
Lemma numeric_prefix_decides_witness :
  let '(resp, w) := sevens [NumericId 1 12] 0 in
  net (poller_readNode sevens (item 1 "12abc" "Odd") (demo_poller true [])).2 = w ∧
  (serviceResult resp ≠ 0%Z → ∃ cv, (poller_readNode sevens (item 1 "12abc" "Odd") (demo_poller true [])).1 = Ret cv ∧
    status_code cv = serviceResult resp).
Proof. apply (numeric_prefix_decides sevens (item 1 "12abc" "Odd") (demo_poller true []) 12 "abc"); [lia|done..]. Defined.
