(* ===== verification/PollerMirror.v ===== *)
(** * The cache after a round of the poller

    [PlcPoller] end to end: client, poller and cache together.  Against a server
    whose answers stand still for a round, and whose values the parser can read, a
    round leaves in the cache, under the key of every polled item, the status, the
    times and the parser's reading of the value the server answers for that node,
    and reports exactly the items whose status is bad.  The parser's reading is
    [StructParser]'s, with what it gets wrong. *)
From S2P Require Import Prelude UaTypes StructParser NodeCache CacheSpec PlcClient.
Local Open Scope prog_scope.

(** ** What a round reads *)
(** The last of the items with a key, and its position. *)
Fixpoint last_read (key : NodeKey) (its : list PollItem) : option (nat * PollItem) :=
  match its with
  | [] => None
  | it :: its =>
      match last_read key its with
      | Some (i, it') => Some (S i, it')
      | None => if decide (item_key it = key) then Some (0, it) else None
      end
  end.
Lemma last_read_app key l1 l2 : last_read key (l1 ++ l2) =
  match last_read key l2 with Some (i, it) => Some (length l1 + i, it) | None => last_read key l1 end.
Proof.
  induction l1 as [|it l1 IH]; simpl; [by destruct (last_read key l2) as [[]|]|].
  rewrite IH. by destruct (last_read key l2) as [[]|].
Qed.
(** The node an item's key names. *)
Definition node_of (key : NodeKey) : UA_NodeId :=
  if bool_decide (0 < node_number (id key))%Z then UA_NODEID_NUMERIC (ns key) (node_number (id key))
  else UA_NODEID_STRING_ALLOC (ns key) (id key).
Definition polled (gs : list PollGroup) : list PollItem := concat (items <$> filter (λ g, due g = true) gs).

Section mirror.
Context {W : Type} (service_read : list UA_NodeId → W → ReadResponse * W).
Context (rehash : Entries → Entries) (rehash_perm : ∀ d, rehash d ≡ₚ d) (steady_clock_now : W → Z * W).
(** What an answer reads as: a failed service's status, or the first result's
    status, times and parsed value. *)
Definition reading_of (resp : ReadResponse) (name : string) : outcome CachedValue :=
  if bool_decide (serviceResult resp = 0%Z) then
    match results resp with dv :: _ => take_value (resp_mem resp) name dv (unread name) | [] => Ret (unread name) end
  else Ret (with_status (serviceResult resp) (unread name)).
(** The server: whenever a node is read, the answer can be parsed, and reads the same. *)
Context (reading : UA_NodeId → string → CachedValue).
Context (server : ∀ node name w, reading_of (service_read [node] w).1 name = Ret (reading node name)).
Implicit Types (p : @PlcPoller W) (it : PollItem) (its : list PollItem) (K : gset NodeKey).

Definition shown it : CachedValue := reading (node_of (item_key it)) (item_name it).
(** The events of an item, and of a group. *)
Definition item_events (on_error : bool) it : list PollEvent :=
  if on_error && negb (valid (shown it)) then [PollError (item_key it) (status_code (shown it))] else [].
Definition good_items its : nat := length (filter (λ it, valid (shown it) = true) its).
Definition group_events (on_error on_done : bool) (g : PollGroup) : list PollEvent :=
  concat (item_events on_error <$> items g) ++ (if on_done then [PollDone (g_name g) (good_items (items g))] else []).

(** The cache after the items were read in order. *)
Record mirrors its (c c' : NodeCache) : Prop := {
  mir_seq : uwrap 64 (seq_ c') = uwrap 64 (seq_ c + Z.of_nat (length its));
  mir_get key :
    match last_read key its with
    | Some (i, it) => ∃ t, get_value key c' = Some (stamped (uwrap 64 (seq_ c + Z.of_nat i + 1)) t (shown it))
    | None => get_value key c' = get_value key c
    end
}.
Lemma mirrors_nil c : mirrors [] c c.
Proof. split; simpl; [by rewrite Z.add_0_r|done]. Qed.
Lemma mirrors_app l1 l2 c c1 c2 : mirrors l1 c c1 → mirrors l2 c1 c2 → mirrors (l1 ++ l2) c c2.
Proof.
  intros [Hs1 Hg1] [Hs2 Hg2].
  assert (∀ z, uwrap 64 (seq_ c1 + z) = uwrap 64 (seq_ c + Z.of_nat (length l1) + z)) as Hz.
  { intros z. revert Hs1. unfold uwrap. intros Hs1. by rewrite Zplus_mod, Hs1, <- Zplus_mod. }
  split.
  - rewrite Hs2, Hz, length_app. f_equal. lia.
  - intros key. rewrite last_read_app. specialize (Hg2 key). destruct (last_read key l2) as [[i it]|].
    + destruct Hg2 as [t Hg2]. exists t. rewrite Hg2. do 2 f_equal. rewrite <- Z.add_assoc, Hz. f_equal. lia.
    + specialize (Hg1 key). by rewrite Hg2.
Qed.

(** A connected poller whose cache has room for the keys of [K]. *)
Record ready K p : Prop := {
  rdy_connected : connected (client p) = true;
  rdy_ok : cache_ok (cache p);
  rdy_calm : calm (cache p);
  rdy_keys key : is_Some (get_value key (cache p)) → key ∈ K;
  rdy_room : base.size K ≤ max_size_ (cache p)
}.

(** ** Reading an item *)
Lemma one_read c node name w : connected c = true → ∃ w', read_one service_read c node name w = (Ret (reading node name), w').
Proof.
  intros Hc. unfold read_one. change (client_ c) with (connected c). rewrite Hc. cbn [negb].
  pose proof (server node name w) as Hs. unfold reading_of in Hs. unfold call, mbind at 1, M_bind at 1.
  destruct (service_read [node] w) as [resp w']. exists w'. cbn [fst] in Hs. case_bool_decide; cbn [negb].
  - destruct (results resp); [by injection Hs as <-|]. unfold lift_outcome. by rewrite Hs.
  - by injection Hs as <-.
Qed.
Lemma item_read it p : connected (client p) = true →
  ∃ w, poller_readNode service_read it p =
    (Ret (shown it), mkPlcPoller (client p) (cache p) w (groups_ p) (running_ p) (on_poll_done_ p) (on_error_ p)
                       (events p ++ item_events (on_error_ p) it)).
Proof.
  intros Hc. unfold poller_readNode, item_events. autorewrite with monad.
  destruct (one_read (client p) (node_of (item_key it)) (item_name it) (net p) Hc) as [w Hw]. exists w.
  match goal with |- context [on_net ?m] => assert (on_net m p = (Ret (shown it), set_net w p)) as Hn end.
  { unfold on_net, readNode, readNodeString. unfold node_of in Hw. unfold shown, node_of. destruct (bool_decide _); by rewrite Hw. }
  rewrite (M_bind_ret _ _ _ _ _ Hn), (andb_comm (on_error_ p)).
  destruct (negb (valid (shown it)) && on_error_ p); cbn [when]; autorewrite with monad; [done|by rewrite app_nil_r].
Qed.
Lemma put_seq t key v c : seq_ (put rehash t key v c).2 = uwrap 64 (seq_ c + 1).
Proof. unfold put. rewrite (M_bind_ret _ _ _ _ _ (stamp_run t v c)). by rewrite (store_frame rehash seq_). Qed.
Lemma keys_get key c : key ∈ keys c ↔ is_Some (get_value key c).
Proof.
  unfold get_value, keys. rewrite <- not_eq_None_Some, find_None. destruct (decide (key ∈ (data_ c).*1)); tauto.
Qed.
(** Putting a value into a cache that has room for its key. *)
Lemma put_room K t it c : cache_ok c → calm c → (∀ key, is_Some (get_value key c) → key ∈ K) → base.size K ≤ max_size_ c →
  item_key it ∈ K → ∃ c', put rehash t (item_key it) (shown it) c = (Ret tt, c') ∧ cache_ok c' ∧ calm c' ∧
    (∀ key, is_Some (get_value key c') → key ∈ K) ∧ max_size_ c' = max_size_ c ∧ mirrors [it] c c'.
Proof.
  intros Hok Hcalm Hkeys Hroom Hin. pose proof Hok as (Hnd & Hlen & Hm).
  destruct (put_calm rehash rehash_perm t (item_key it) (shown it) c Hok Hcalm) as (c' & Hput & Hok' & Hcalm' & _ & Hget).
  destruct (put_evicts_oldest rehash rehash_perm c t (item_key it) (shown it)) as (_ & _ & Hsame); [done..|by intros; eapply Hcalm|].
  rewrite Hput in Hsame. cbn [snd] in Hsame.
  assert (∀ k, k ≠ item_key it → get_value k c' = get_value k c) as Hother.
  { destruct Hsame as [[_ Hsame]|(Hnew & Hfull & _)]; [exact Hsame|]. exfalso.
    assert (base.size (list_to_set (keys c) : gset NodeKey) < base.size K) as Hlt.
    { apply subset_size. split.
      - intros k Hk%elem_of_list_to_set. by apply Hkeys, keys_get.
      - intros Hsub. specialize (Hsub _ Hin). apply elem_of_list_to_set, keys_get in Hsub as [v Hv].
        revert Hnew. unfold has. change (find ?k (data_ c)) with (get_value k c). by rewrite Hv. }
    rewrite size_list_to_set in Hlt by done. revert Hlt. unfold keys. rewrite length_fmap.
    change (length (data_ c)) with (NodeCache.size c). lia. }
  exists c'. split_and!; [done..| | |].
  - intros k Hk. destruct (decide (k = item_key it)) as [->|Hne]; [done|]. apply Hkeys. by rewrite <- Hother.
  - pose proof (put_frame rehash max_size_ t (item_key it) (shown it) c) as Hf. rewrite Hput in Hf. by apply Hf.
  - split.
    + pose proof (put_seq t (item_key it) (shown it) c) as Hs. rewrite Hput in Hs. cbn [snd] in Hs. rewrite Hs. simpl.
      unfold uwrap. by rewrite Zmod_mod.
    + intros k. simpl. destruct (decide (item_key it = k)) as [<-|Hne]; [|by apply Hother].
      exists t. by rewrite Z.add_0_r.
Qed.

(** ** Items, groups, rounds *)
(** What a poll of items leaves behind, its events apart. *)
Record polls K its p p' : Prop := {
  pol_ready : ready K p';
  pol_setup : same_setup p p';
  pol_mirrors : mirrors its (cache p) (cache p')
}.
Lemma polls_nil K p : ready K p → polls K [] p p.
Proof. intros Hp. split; [done|by split_and!|apply mirrors_nil]. Qed.
Lemma polls_app K l1 l2 p p1 p2 : polls K l1 p p1 → polls K l2 p1 p2 → polls K (l1 ++ l2) p p2.
Proof.
  intros [_ (?&?&?&?) Hm1] [Hr (?&?&?&?) Hm2]. split; [done|split_and!; congruence|by eapply mirrors_app].
Qed.

Lemma poll_items_mirror K its : ∀ ok p, ready K p → (∀ it, it ∈ its → item_key it ∈ K) →
  ∃ p', poll_items service_read rehash steady_clock_now its ok p = (Ret (ok + good_items its), p') ∧ polls K its p p' ∧
    events p' = events p ++ concat (item_events (on_error_ p) <$> its).
Proof.
  induction its as [|it its IH]; intros ok p Hp Hin; cbn [poll_items].
  { exists p. rewrite app_nil_r. split; [by rewrite Nat.add_0_r|]. split; [by apply polls_nil|done]. }
  destruct (item_read it p (rdy_connected _ _ Hp)) as [w Hr]. rewrite (M_bind_ret _ _ _ _ _ Hr). set (p1 := mkPlcPoller _ _ _ _ _ _ _ _).
  destruct (now_run steady_clock_now p1) as (t & w' & Ht). rewrite (M_bind_ret _ _ _ _ _ Ht).
  destruct Hp as [Hcon Hok Hcalm Hkeys Hroom].
  destruct (put_room K t it (cache p) Hok Hcalm Hkeys Hroom) as (c' & Hput & Hok' & Hcalm' & Hkeys' & Hmax & Hm); [apply Hin; by left|].
  assert (on_cache (put rehash t (item_key it) (shown it)) (set_net w' p1) = (Ret tt, set_cache c' (set_net w' p1))) as Hpc.
  { unfold on_cache. change (cache (set_net w' p1)) with (cache p). by rewrite Hput. }
  rewrite (M_bind_ret _ _ _ _ _ Hpc). set (p2 := set_cache c' _).
  assert (polls K [it] p p2) as H1 by (split; [split; try done; simpl; by rewrite Hmax|by split_and!|exact Hm]).
  destruct (IH (if valid (shown it) then S ok else ok) p2) as (p' & -> & H2 & He);
    [apply H1|intros it' Hit; apply Hin; by right|].
  exists p'. split_and!; [|by apply (polls_app K [it] its p p2)|rewrite He; simpl; by rewrite <- (assoc_L (++))].
  unfold good_items. rewrite filter_cons. destruct (valid (shown it)); [rewrite decide_True by done|rewrite decide_False by done]; do 2 f_equal; simpl; lia.
Qed.
Lemma pollGroup_mirror K g p : ready K p → (∀ it, it ∈ items g → item_key it ∈ K) →
  ∃ p', pollGroup service_read rehash steady_clock_now g p = (Ret tt, p') ∧ polls K (items g) p p' ∧
    events p' = events p ++ group_events (on_error_ p) (on_poll_done_ p) g.
Proof.
  intros Hp Hin. destruct (poll_items_mirror K (items g) 0 p Hp Hin) as (p1 & Hr & Hpol & He).
  unfold pollGroup. rewrite (M_bind_ret _ _ _ _ _ Hr). autorewrite with monad. unfold group_events.
  pose proof (pol_setup _ _ _ _ Hpol) as (_ & _ & Hdone & _). rewrite Hdone, (assoc_L (++)), <- He.
  destruct (on_poll_done_ p) eqn:Ed; cbn [when].
  - eexists. split; [reflexivity|]. split; [|done]. destruct Hpol as [[] (?&?&?&?) ?]. split; [by split|by split_and!; simpl; congruence|done].
  - exists p1. by rewrite app_nil_r.
Qed.
Lemma round_groups_mirror K t gs : ∀ next p, ready K p → (∀ it, it ∈ polled gs → item_key it ∈ K) →
  ∃ p', round_groups service_read rehash steady_clock_now t gs next p =
      (Ret (foldl (λ a g, earliest a (t + interval g)) next (filter (λ g, due g = true) gs)), p') ∧ polls K (polled gs) p p' ∧
    events p' = events p ++ concat (group_events (on_error_ p) (on_poll_done_ p) <$> filter (λ g, due g = true) gs).
Proof.
  induction gs as [|g gs IH]; intros next p Hp Hin; simpl.
  { exists p. rewrite app_nil_r. split; [done|]. split; [by apply polls_nil|done]. }
  revert Hin. unfold polled. rewrite filter_cons. destruct (due g) eqn:Ed; [rewrite decide_True by done|rewrite decide_False by done; by apply IH].
  cbn [fmap list_fmap concat]. intros Hin. destruct (pollGroup_mirror K g p Hp) as (p1 & Hr & Hpol & He).
  { intros it Hit. apply Hin, elem_of_app. by left. }
  rewrite (M_bind_ret _ _ _ _ _ Hr). destruct (IH (earliest next (t + interval g)) p1 (pol_ready _ _ _ _ Hpol)) as (p2 & -> & Hpol2 & He2).
  { intros it Hit. apply Hin, elem_of_app. by right. }
  exists p2. split; [done|]. split; [by eapply polls_app|].
  pose proof (pol_setup _ _ _ _ Hpol) as (_ & _ & Hd1 & Hd2). rewrite He2, He, Hd1, Hd2. by rewrite <- (assoc_L (++)).
Qed.

(** C36: against a server whose answers stand still and whose values can all be
    parsed, when the client is connected, the change callback never throws and
    the cache has room for the polled keys besides its own, a round of the polling
    thread returns.  Under every polled key the cache then has the status, the
    times and the parser's reading of the value the server answers for that node,
    for the last item of the key, with the version the order of the reads gives
    it; every other entry is as it was.  The events are the bad statuses, item by
    item, and each due group's name with the number of its good items. *)
Theorem round_mirrors_server p :
  connected (client p) = true → cache_ok (cache p) → calm (cache p) →
  base.size (list_to_set (keys (cache p) ++ (item_key <$> polled (groups_ p))) : gset NodeKey) ≤ max_size_ (cache p) →
  ∃ t p', poll_round service_read rehash steady_clock_now p = (Ret (next_wake t (groups_ p)), p') ∧
    (∀ key, match last_read key (polled (groups_ p)) with
            | Some (i, it) => ∃ u, get_value key (cache p') = Some (stamped (uwrap 64 (seq_ (cache p) + Z.of_nat i + 1)) u (shown it))
            | None => get_value key (cache p') = get_value key (cache p)
            end) ∧
    events p' = events p ++ concat (group_events (on_error_ p) (on_poll_done_ p) <$> filter (λ g, due g = true) (groups_ p)).
Proof.
  intros Hcon Hok Hcalm Hroom. unfold poll_round. destruct (now_run steady_clock_now p) as (t & w & Ht).
  rewrite (M_bind_ret _ _ _ _ _ Ht). autorewrite with monad. set (K := list_to_set _ : gset NodeKey) in Hroom.
  destruct (round_groups_mirror K t (groups_ p) None (set_net w p)) as (p' & Hr & Hpol & He).
  - split; [done..| |done]. intros key Hk. apply elem_of_list_to_set, elem_of_app. left. by apply keys_get.
  - intros it Hit. apply elem_of_list_to_set, elem_of_app. right. by apply list_elem_of_fmap_2.
  - exists t, p'. split; [exact Hr|]. split; [apply (mir_get _ _ _ (pol_mirrors _ _ _ _ Hpol))|exact He].
Qed.
End mirror.

(** A server with a 32-bit 7 in the nodes of namespace 0, a bad value in those of
    namespace 9, and a service that fails on the others. *)
Definition sevens_server (nodes : list UA_NodeId) (t : Z) : ReadResponse * Z :=
  (match nodes with
   | [NumericId 0 _] | [StringId 0 _] =>
       mkReadResponse 0 [mkDataValue 0 100 200 (Some int32_type) 4096] (store_bytes 4096 [7; 0; 0; 0]%Z no_memory)
   | [NumericId 9 _] => mkReadResponse 0 [mkDataValue 2150891520 0 0 None 0] no_memory
   | _ => mkReadResponse 2148204544 [] no_memory
   end, t + 5)%Z.
Definition sevens_reading (node : UA_NodeId) (name : string) : CachedValue :=
  match node with
  | NumericId 0 _ | StringId 0 _ => mkCachedValue (scalar name I32 (NumI64 7) "") [] 0 100 200 0 0
  | NumericId 9 _ => with_status 2150891520 (unread name)
  | _ => with_status 2148204544 (unread name)
  end.
Lemma sevens_reads_as node name w : reading_of (sevens_server [node] w).1 name = Ret (sevens_reading node name).
Proof. unfold sevens_server, sevens_reading. destruct node as [ns i|ns i]; by repeat case_match. Qed.
Definition mirror_poller : PlcPoller :=
  demo_poller true
    [mkPollGroup "fast" 100 [item 0 "1001" "Speed"; item 9 "1002" "Gone"] true;
     mkPollGroup "off" 10 [item 0 "7" "Never"] false;
     mkPollGroup "slow" 1000 [item 1 "Text" "Odd"; item 0 "1001" "Again"] true].
Lemma round_mirrors_server_witness : ∃ t p', poll_round sevens_server reverse tick mirror_poller = (Ret (next_wake t (groups_ mirror_poller)), p') ∧
  (∀ key, match last_read key (polled (groups_ mirror_poller)) with
          | Some (i, it) => ∃ u, get_value key (cache p') = Some (stamped (uwrap 64 (seq_ (cache mirror_poller) + Z.of_nat i + 1)) u (shown sevens_reading it))
          | None => get_value key (cache p') = get_value key (cache mirror_poller)
          end) ∧
  events p' = events mirror_poller ++
    concat (group_events sevens_reading (on_error_ mirror_poller) (on_poll_done_ mirror_poller) <$> filter (λ g, due g = true) (groups_ mirror_poller)).
Proof.
  apply (round_mirrors_server sevens_server reverse (λ d, reverse_Permutation d) tick sevens_reading sevens_reads_as mirror_poller);
    [done|split_and!; [constructor|simpl; lia..]|done|vm_compute; lia].
Defined.
(** The events of that round, and the value of the key polled twice. *)
Example mirrored_round :
  let p' := (poll_round sevens_server reverse tick mirror_poller).2 in
  events p' = [PollError (mkNodeKey 9 "1002") 2150891520; PollDone "fast" 1; PollError (mkNodeKey 1 "Text") 2148204544; PollDone "slow" 1] ∧
  (λ v, (num (parsed v), field_name (parsed v), version v)) <$> get_value (mkNodeKey 0 "1001") (cache p') = Some (NumI64 7, "Again", 4%Z).
Proof. by_compute. Qed.
