(* ===== verification/PlcDemo.v ===== *)
(** * The data of the offline demos of [proto_opcua/parse_project/main.cpp]

    The demos that need no server: what they print.  A literal is given by the
    bits of the [double] or [float] it denotes. *)
From Stdlib Require Import Floats.SpecFloat.
From S2P Require Import Prelude FloatText UaTypes StructParser NodeCache PlcClient.

Definition leaf (name : string) (ft : FieldType) (n : Num) : ParsedValue := scalar name ft n "".
Definition structure (name : string) (fields : list ParsedValue) : ParsedValue :=
  mkParsedValue name STRUCTURE false (NumB false) "" fields [].
Definition array (name : string) (ft : FieldType) (elems : list ParsedValue) : ParsedValue :=
  mkParsedValue name ft true (NumB false) "" [] elems.
Definition print_both (v : ParsedValue) : outcome string :=
  p ← print v 0; j ← toJson v 0; Ret (p +:+ "JSON:" +:+ newline +:+ j +:+ newline).

(** ** Demo 4: a flat structure, its layout written by hand *)
Definition manual_member (name type_name : string) (ft : FieldType) (offset : Z) : MemberInfo :=
  {| m_name := name; StructParser.type_name := type_name; m_ft := ft; m_is_array := false; is_dyn_array := false;
     fixed_len := 0; StructParser.offset := offset; ua_type := None |}.
Definition CustomAxis_layout : TypeLayout :=
  {| tl_name := "CustomAxis"; mem_size := 16;
     tl_members := [manual_member "position" "Float" FLOAT 0; manual_member "velocity" "Float" FLOAT 4;
                    manual_member "torque" "Float" FLOAT 8; manual_member "enabled" "Boolean" BOOL 12] |}.
Definition parse_manual_member (mem : Memory) (base : Z) (m : MemberInfo) : outcome ParsedValue :=
  let ptr := (base + offset m)%Z in
  n ← match m_ft m with
      | FLOAT => z ← load mem 4 ptr; Ret (NumD (decode_float32 z))
      | DOUBLE => z ← load mem 8 ptr; Ret (NumD (decode_float64 z))
      | BOOL => z ← load mem 1 ptr; Ret (NumB (negb (bool_decide (z = 0%Z))))
      | I32 => z ← load_signed mem 4 ptr; Ret (NumI64 z)
      | U32 => z ← load mem 4 ptr; Ret (NumU64 z)
      | _ => Ret (NumB false)
      end;
  Ret (leaf (m_name m) (m_ft m) n).
(** [CustomAxis axis{123.45f, 67.89f, 0.95f, true}]. *)
Definition axis_memory : Memory :=
  store_bytes 4096 [102; 230; 246; 66; 174; 199; 135; 66; 51; 51; 115; 63; 1]%Z no_memory.
Definition demo_parse_custom_struct : outcome ParsedValue :=
  fs ← mapM (parse_manual_member axis_memory 4096) (tl_members CustomAxis_layout); Ret (structure "Axis1" fs).
Example custom_struct_output : (demo_parse_custom_struct ≫= print_both) =
  let n := newline in let q := quote in
  Ret ("Axis1 = {" +:+ n +:+ "  position = 123.45" +:+ n +:+ "  velocity = 67.89" +:+ n +:+ "  torque = 0.95" +:+ n +:+
       "  enabled = true" +:+ n +:+ "}" +:+ n +:+ "JSON:" +:+ n +:+
       q +:+ "Axis1" +:+ q +:+ ": {\n  " +:+ q +:+ "position" +:+ q +:+ ": 123.45,\n  " +:+ q +:+ "velocity" +:+ q +:+ ": 67.89,\n  " +:+
       q +:+ "torque" +:+ q +:+ ": 0.95,\n  " +:+ q +:+ "enabled" +:+ q +:+ ": true\n}" +:+ n).
Proof. by_compute. Qed.

(** ** Demo 5: fixed arrays *)
Definition float_elems (name : string) (bits : list Z) : list ParsedValue :=
  imap (λ i b, leaf (elem_name name i) FLOAT (NumD (decode_float32 b))) bits.
Definition demo_parse_struct_with_arrays : ParsedValue :=
  structure "MultiAxisNode"
    [array "setpoints" FLOAT (float_elems "setpoints" [0x41200000; 0x41a00000; 0x41f00000]%Z);
     array "actual" FLOAT (float_elems "actual" [0x411ccccd; 0x41a0cccd; 0x41ef3333]%Z);
     leaf "count" I32 (NumI64 42)].
Example arrays_output : print demo_parse_struct_with_arrays 0 =
  let n := newline in
  Ret ("MultiAxisNode = {" +:+ n +:+ "  setpoints = [Array 3]" +:+ n +:+ "    setpoints[0] = 10" +:+ n +:+
       "    setpoints[1] = 20" +:+ n +:+ "    setpoints[2] = 30" +:+ n +:+ "  actual = [Array 3]" +:+ n +:+
       "    actual[0] = 9.8" +:+ n +:+ "    actual[1] = 20.1" +:+ n +:+ "    actual[2] = 29.9" +:+ n +:+
       "  count = 42" +:+ n +:+ "}" +:+ n).
Proof. by_compute. Qed.

(** ** Demo 6: the cache and its callback *)
Definition number (ft : FieldType) (bits : Z) : CachedValue :=
  mkCachedValue (leaf "" ft (NumD (decode_float64 bits))) [] 0 0 0 0 0.
Definition change_line (ch : NodeKey * CachedValue * CachedValue) : string :=
  let '(k, old_v, new_v) := ch in
  "  [CHANGE] ns=" +:+ pretty (ns k) +:+ " id=" +:+ id k +:+
  (if valid old_v then " old_ver=" +:+ pretty (version old_v) else " (new)") +:+
  " -> ver=" +:+ pretty (version new_v).
Definition k1 : NodeKey := mkNodeKey 1 "TempSensor".
Definition k2 : NodeKey := mkNodeKey 1 "Pressure".
Definition demo_node_cache (rehash : Entries → Entries) (t1 t2 t3 : Z) : M NodeCache unit :=
  setOnChange (Some (λ _ _ _, None));;
  put rehash t1 k1 (number FLOAT 0x40394ccccccccccd);;                (* 25.3 *)
  put rehash t2 k2 (number DOUBLE 0x3ff0353f7ced9168);;               (* 1.013 *)
  put rehash t3 k1 (number FLOAT 0x403a19999999999a).                 (* 26.1 *)
(** A new key is announced as an old version 0: a [CachedValue] is valid until
    a status is set, so the branch of the "(new)" text is never taken. *)
Example node_cache_output :
  let c := (demo_node_cache (λ d, d) 10 20 30 (new_NodeCache 100)).2 in
  change_line <$> changes c =
    ["  [CHANGE] ns=1 id=TempSensor old_ver=0 -> ver=1"; "  [CHANGE] ns=1 id=Pressure old_ver=0 -> ver=2";
     "  [CHANGE] ns=1 id=TempSensor old_ver=1 -> ver=3"] ∧
  (version <$> get_value k1 c) = Some 3%Z ∧ length (getStaleKeys 40 0 c) = 2.
Proof. by_compute. Qed.

(** ** Demo 7: two groups, offline *)
Definition fast : PollGroup :=
  mkPollGroup "fast_100ms" 100
    [mkPollItem (mkNodeKey 0 "1001") "MotorSpeed" "Motor RPM" false;
     mkPollItem (mkNodeKey 0 "1002") "Temperature" "Current temp" false;
     mkPollItem (mkNodeKey 0 "1003") "Pressure" "Tank pressure" false] true.
Definition slow : PollGroup :=
  mkPollGroup "slow_1000ms" 1000
    [mkPollItem (mkNodeKey 0 "2001") "SerialNumber" "Device serial" false;
     mkPollItem (mkNodeKey 0 "2002") "FirmwareVer" "FW version" false] true.
Definition PLC_URL : string := "opc.tcp://192.168.1.100:4840".
Definition demo_plc_poller_config {W} (w : W) : PlcPoller :=
  ((addGroup fast;; addGroup slow;; setOnPollDone true;; setOnError true)
    (new_PlcPoller (new_PlcClient PLC_URL) (new_NodeCache 1000) w)).2.
(** Three rounds at 100 ms poll the slow group three times too. *)
Example poller_output :
  let round := poll_round no_service (λ d, d) tick in
  let p' := ((round;; round;; round) (demo_plc_poller_config 0%Z)).2 in
  events p' = [PollDone "fast_100ms" 3; PollDone "slow_1000ms" 2; PollDone "fast_100ms" 3; PollDone "slow_1000ms" 2;
               PollDone "fast_100ms" 3; PollDone "slow_1000ms" 2].
Proof. by_compute. Qed.

(** ** Demo 10: through the cache and back *)
Definition axis_value : ParsedValue :=
  structure "J1_Axis" [leaf "position" FLOAT (NumD (decode_float64 0x4045000000000000));   (* 42.0 *)
                       leaf "velocity" FLOAT (NumD (decode_float64 0x40091eb851eb851f));   (* 3.14 *)
                       leaf "enabled" BOOL (NumB true)].
Definition demo_full_roundtrip (rehash : Entries → Entries) (t : Z) : outcome string :=
  let key := mkNodeKey 2 "3001" in
  let c := (put rehash t key (mkCachedValue axis_value [] 0 0 0 0 0) (new_NodeCache 100)).2 in
  match get_value key c with
  | Some out =>
      b ← print_both (parsed out);
      Ret ("Cached value (ver=" +:+ pretty (version out) +:+ "):" +:+ newline +:+ b)
  | None => Ret ""
  end.
Example full_roundtrip_output : demo_full_roundtrip (λ d, d) 10 =
  let n := newline in let q := quote in
  Ret ("Cached value (ver=1):" +:+ n +:+ "J1_Axis = {" +:+ n +:+ "  position = 42" +:+ n +:+ "  velocity = 3.14" +:+ n +:+
       "  enabled = true" +:+ n +:+ "}" +:+ n +:+ "JSON:" +:+ n +:+
       q +:+ "J1_Axis" +:+ q +:+ ": {\n  " +:+ q +:+ "position" +:+ q +:+ ": 42,\n  " +:+ q +:+ "velocity" +:+ q +:+ ": 3.14,\n  " +:+
       q +:+ "enabled" +:+ q +:+ ": true\n}" +:+ n).
Proof. by_compute. Qed.

(** ** Demo 11: a structure in a structure *)
Definition demo_deep_nested_struct : ParsedValue :=
  structure "OuterData"
    [structure "sensor" [leaf "temperature" FLOAT (NumD (decode_float64 0x4037800000000000));   (* 23.5 *)
                         leaf "humidity" FLOAT (NumD (decode_float64 0x40504ccccccccccd))];     (* 65.2 *)
     leaf "zone_id" I32 (NumI64 7); scalar "label" STRING (NumB false) "Zone-7-Sensor"].
Example deep_nested_output : print demo_deep_nested_struct 0 =
  let n := newline in
  Ret ("OuterData = {" +:+ n +:+ "  sensor = {" +:+ n +:+ "    temperature = 23.5" +:+ n +:+ "    humidity = 65.2" +:+ n +:+
       "  }" +:+ n +:+ "  zone_id = 7" +:+ n +:+ "  label = Zone-7-Sensor" +:+ n +:+ "}" +:+ n).
Proof. by_compute. Qed.
