(* ===== verification/OpcuaClient.v ===== *)
(** * [OPCUAClient] of [proto_opcua/opcua_client.h/.cpp]

    Messages are records; a getter of a [oneof] returns the default unless its
    member is set.  The services of open62541 and the state [W] of the other
    side are parameters: what they answer is decoded into the fields the source
    reads.  Using a service without a client handle is undefined.  A float is
    its bit pattern. *)
From Stdlib Require Import Ascii.
From S2P Require Import Prelude PlcClient.

(** ** Messages *)
Inductive DataTypeId :=
  | DBOOL | DINT8 | DINT16 | DINT32 | DINT64 | DUINT8 | DUINT16 | DUINT32 | DUINT64 | DFLOAT | DDOUBLE | DSTRING
  | DBYTESTRING | DDATETIME | DNODEID | DVARIANT | DARRAY_BOOL | DARRAY_INT32 | DARRAY_FLOAT | DARRAY_DOUBLE
  | DARRAY_STRING | DLOCALIZEDTEXT | DQUALIFIEDNAME | DSTRUCTURED.
#[export] Instance DataTypeId_eq_dec : EqDecision DataTypeId.
Proof. solve_decision. Defined.
Inductive ValueCase :=
  | NotSet | BoolVal (b : bool) | Int32Val (z : Z) | Int64Val (z : Z) | Uint32Val (z : Z) | Uint64Val (z : Z)
  | FloatVal (bits : Z) | DoubleVal (bits : Z) | StringVal (s : string) | BytesVal (s : string) | DatetimeVal (z : Z).
Record VariantValue := mkVariantValue {
  vv_type : DataTypeId; vv_value : ValueCase;
  bool_array : list bool; int32_array : list Z; float_array : list Z; double_array : list Z; string_array : list string
}.
Definition scalar_value (t : DataTypeId) (v : ValueCase) : VariantValue := mkVariantValue t v [] [] [] [] [].
Definition new_VariantValue : VariantValue := scalar_value DBOOL NotSet.
Definition bool_val (v : VariantValue) : bool := match vv_value v with BoolVal b => b | _ => false end.
Definition int32_val (v : VariantValue) : Z := match vv_value v with Int32Val z => z | _ => 0 end.
Definition int64_val (v : VariantValue) : Z := match vv_value v with Int64Val z => z | _ => 0 end.
Definition uint32_val (v : VariantValue) : Z := match vv_value v with Uint32Val z => z | _ => 0 end.
Definition uint64_val (v : VariantValue) : Z := match vv_value v with Uint64Val z => z | _ => 0 end.
Definition float_val (v : VariantValue) : Z := match vv_value v with FloatVal z => z | _ => 0 end.
Definition double_val (v : VariantValue) : Z := match vv_value v with DoubleVal z => z | _ => 0 end.
Definition string_val (v : VariantValue) : string := match vv_value v with StringVal s => s | _ => "" end.
Definition bytes_val (v : VariantValue) : string := match vv_value v with BytesVal s => s | _ => "" end.
Definition datetime_val (v : VariantValue) : Z := match vv_value v with DatetimeVal z => z | _ => 0 end.

Inductive IdCase := IdNotSet | NumericIdCase (i : Z) | StringIdCase (s : string).
Record NodeId := mkNodeId { namespace_index : Z; id_case : IdCase }.
Definition new_NodeId : NodeId := mkNodeId 0 IdNotSet.
Definition numeric_id (n : NodeId) : Z := match id_case n with NumericIdCase i => i | _ => 0 end.
Definition numericNodeId (ns id : Z) : NodeId := mkNodeId ns (NumericIdCase id).
Definition stringNodeId (ns : Z) (id : string) : NodeId := mkNodeId ns (StringIdCase id).

(** ** Variants of open62541 *)
Inductive Builtin :=
  | BBoolean | BSByte | BByte | BInt16 | BUInt16 | BInt32 | BUInt32 | BInt64 | BUInt64
  | BFloat | BDouble | BString | BDateTime.
Definition carrier (b : Builtin) : Type := match b with BBoolean => bool | BString => string | _ => Z end.
(** Without data, with or without a type; a scalar; an array, whose data is a
    sentinel that cannot be read when it is empty; a type the source does not name. *)
Inductive UA_Variant :=
  | VNull (typed : bool)
  | VScalar (b : Builtin) (x : carrier b)
  | VArray (b : Builtin) (xs : list (carrier b))
  | VOther.
Definition has_type (v : UA_Variant) : bool := match v with VNull typed => typed | _ => true end.

Definition scalar_proto (b : Builtin) : carrier b → VariantValue :=
  match b with
  | BBoolean => λ x, scalar_value DBOOL (BoolVal x)
  | BSByte => λ x, scalar_value DINT8 (Int32Val x)
  | BInt16 => λ x, scalar_value DINT16 (Int32Val x)
  | BInt32 => λ x, scalar_value DINT32 (Int32Val x)
  | BInt64 => λ x, scalar_value DINT64 (Int64Val x)
  | BByte => λ x, scalar_value DUINT8 (Uint32Val x)
  | BUInt16 => λ x, scalar_value DUINT16 (Uint32Val x)
  | BUInt32 => λ x, scalar_value DUINT32 (Uint32Val x)
  | BUInt64 => λ x, scalar_value DUINT64 (Uint64Val x)
  | BFloat => λ x, scalar_value DFLOAT (FloatVal x)
  | BDouble => λ x, scalar_value DDOUBLE (DoubleVal x)
  | BString => λ x, scalar_value DSTRING (if bool_decide (x = "") then NotSet else StringVal x)
  | BDateTime => λ x, scalar_value DDATETIME (DatetimeVal (uwrap 64 x))
  end.
(** An array that is not empty: the branches without an array case read its
    first element. *)
Definition array_proto (b : Builtin) : carrier b → list (carrier b) → VariantValue :=
  match b with
  | BBoolean => λ x xs, mkVariantValue DARRAY_BOOL NotSet (x :: xs) [] [] [] []
  | BInt32 => λ x xs, mkVariantValue DARRAY_INT32 NotSet [] (x :: xs) [] [] []
  | BFloat => λ x xs, mkVariantValue DARRAY_FLOAT NotSet [] [] (x :: xs) [] []
  | BDouble => λ x xs, mkVariantValue DARRAY_DOUBLE NotSet [] [] [] (x :: xs) []
  | BString => λ x xs, mkVariantValue DARRAY_STRING NotSet [] [] [] [] (x :: xs)
  | b => λ x _, scalar_proto b x
  end.
Definition variantToProto (v : UA_Variant) : outcome VariantValue :=
  match v with
  | VNull _ => Ret (scalar_value DINT32 NotSet)
  | VOther => Ret new_VariantValue
  | VScalar b x => Ret (scalar_proto b x)
  | VArray b [] => Undef                                  (* the sentinel is read as a scalar *)
  | VArray b (x :: xs) => Ret (array_proto b x xs)
  end.
(** [None] is the null pointer. *)
Definition protoToVariant (v : VariantValue) : option UA_Variant :=
  match vv_type v with
  | DBOOL => Some (VScalar BBoolean (bool_val v))
  | DINT32 => Some (VScalar BInt32 (int32_val v))
  | DINT64 => Some (VScalar BInt64 (int64_val v))
  | DUINT32 => Some (VScalar BUInt32 (uint32_val v))
  | DUINT64 => Some (VScalar BUInt64 (uint64_val v))
  | DFLOAT => Some (VScalar BFloat (float_val v))
  | DDOUBLE => Some (VScalar BDouble (double_val v))
  | DSTRING => Some (VScalar BString (c_str (string_val v)))
  | DARRAY_INT32 => Some (VArray BInt32 (int32_array v))
  | DARRAY_FLOAT => Some (VArray BFloat (float_array v))
  | DARRAY_DOUBLE => Some (VArray BDouble (double_array v))
  | DARRAY_BOOL => Some (VArray BBoolean (bool_array v))
  | DARRAY_STRING => Some (VArray BString (c_str <$> string_array v))
  | _ => None
  end.

(** ** What the services exchange *)
Record UA_DataValue := mkDataValue {
  dv_status : Z; dv_value : UA_Variant; dv_hasValue : bool; dv_serverTimestamp : Z; dv_sourceTimestamp : Z
}.
Record UA_Reference := mkUAReference { ua_displayName : string; ua_browseName : string; ua_nodeClass : Z; ua_nodeId : UA_NodeId }.
Record BrowseParams := mkBrowseParams { bp_node : UA_NodeId; bp_max : Z; bp_mask : Z }.
Record MonitorParams := mkMonitorParams { mp_node : UA_NodeId; mp_sampling : option Z; mp_queue : option Z; mp_discardOldest : bool }.
(** Each service answers a status and what comes with it; the results of a
    write are the statuses of the nodes written. *)
Record Services (W : Type) := mkServices {
  svc_new : bool;
  svc_connect : string → W → Z * W;
  svc_disconnect : W → W;
  svc_read : UA_NodeId → Z → W → (Z * list UA_DataValue) * W;
  svc_write : UA_NodeId → Z → option UA_Variant → W → (Z * list Z) * W;
  svc_browse : BrowseParams → W → (Z * list (list UA_Reference)) * W;
  svc_subscribe : W → (Z * Z) * W;
  svc_monitor : Z → MonitorParams → W → (Z * Z) * W;
  svc_unmonitor : Z → Z → W → W;
  svc_call : UA_NodeId → UA_NodeId → list (option UA_Variant) → W → (Z * list (Z * list UA_Variant)) * W;
  svc_history : UA_NodeId → Z → Z → Z → W → (Z * list (Z * list UA_DataValue)) * W
}.
Arguments svc_new {W}.
Arguments svc_connect {W}.
Arguments svc_disconnect {W}.
Arguments svc_read {W}.
Arguments svc_write {W}.
Arguments svc_browse {W}.
Arguments svc_subscribe {W}.
Arguments svc_monitor {W}.
Arguments svc_unmonitor {W}.
Arguments svc_call {W}.
Arguments svc_history {W}.

Record ReadRequest := mkReadRequest { rq_node : NodeId; rq_attribute : Z; rq_include_timestamp : bool }.
Record ReadResponse := mkReadResponse { rs_status : Z; rs_value : VariantValue; rs_server_timestamp : Z; rs_source_timestamp : Z }.
Record WriteRequest := mkWriteRequest { wq_node : NodeId; wq_value : VariantValue; wq_attribute : Z }.
Record BrowseRequest := mkBrowseRequest { bq_node : NodeId; bq_max_references : Z; bq_node_class_mask : Z }.
Record ReferenceDescription := mkReference { rf_node : NodeId; rf_browse_name : string; rf_display_name : string; rf_node_class : Z }.
Record BrowseResponse := mkBrowseResponse { bs_status : Z; bs_references : list ReferenceDescription }.
Record SubscribeRequest := mkSubscribeRequest { sq_node : NodeId; sq_sampling_ms : Z; sq_queue_size : Z; sq_discard_oldest : bool }.
Record SubscribeResponse := mkSubscribeResponse { ss_status : Z; ss_item : Z; ss_subscription : Z }.
Record Notification := mkNotification { nt_item : Z; nt_status : Z; nt_value : VariantValue }.
Record CallMethodRequest := mkCallMethodRequest { cq_object : NodeId; cq_method : NodeId; cq_args : list VariantValue }.
Record CallMethodResponse := mkCallMethodResponse { cs_status : Z; cs_args : list VariantValue }.
Record HistoryReadRequest := mkHistoryReadRequest { hq_node : NodeId; hq_start : Z; hq_end : Z; hq_max : Z }.
Record HistoryReadResponse := mkHistoryReadResponse { hs_status : Z; hs_values : list VariantValue; hs_timestamps : list Z }.

(** The client handle: null, or created and connected or not. *)
Inductive Handle := Null | Created (session : bool).
(** A callback is named by a number; its calls are recorded. *)
Record OPCUAClient (W : Type) := mkClient {
  endpoint_url_ : string; client_ : Handle; callbacks_ : gmap Z nat; net : W; notified : list (nat * Notification)
}.
Arguments mkClient {W}.
Arguments endpoint_url_ {W}.
Arguments client_ {W}.
Arguments callbacks_ {W}.
Arguments net {W}.
Arguments notified {W}.

Section client.
Context {W : Type} (svc : Services W).
Local Abbreviation Client := (OPCUAClient W).
Definition new_OPCUAClient (url : string) (w : W) : Client := mkClient url Null ∅ w [].
Definition set_client (h : Handle) (c : Client) : Client := mkClient (endpoint_url_ c) h (callbacks_ c) (net c) (notified c).
Definition set_net (w : W) (c : Client) : Client := mkClient (endpoint_url_ c) (client_ c) (callbacks_ c) w (notified c).
Definition set_callbacks (cbs : gmap Z nat) (c : Client) : Client :=
  mkClient (endpoint_url_ c) (client_ c) cbs (net c) (notified c).
Definition notify (n : nat) (e : Notification) (c : Client) : Client :=
  mkClient (endpoint_url_ c) (client_ c) (callbacks_ c) (net c) (notified c ++ [(n, e)]).

(** ** Connection; the time-out is not used *)
Definition connect (timeout_ms : Z) : M Client bool :=
  modify (set_client (if svc_new svc then Created false else Null));;
  if negb (svc_new svc) then mret false else
  c ← get;
  let '(status, w) := svc_connect svc (endpoint_url_ c) (net c) in
  modify (set_net w);;
  if negb (bool_decide (status = 0%Z)) then modify (set_client Null);; mret false
  else modify (set_client (Created true));; mret true.
Definition disconnect : M Client unit :=
  c ← get;
  match client_ c with
  | Null => mret tt
  | Created _ => modify (set_net (svc_disconnect svc (net c)));; modify (set_client (Created false))
  end.
Definition isConnected (c : Client) : bool := match client_ c with Null => false | Created _ => true end.
(** A service call through the handle. *)
Definition call {A} (f : W → A * W) : M Client A :=
  c ← get;
  match client_ c with
  | Null => undef
  | Created _ => let '(a, w) := f (net c) in modify (set_net w);; mret a
  end.

(** ** Reads and writes *)
Definition native_id (n : NodeId) : UA_NodeId :=
  match id_case n with
  | StringIdCase s => UA_NODEID_STRING_ALLOC (namespace_index n) s
  | _ => UA_NODEID_NUMERIC (namespace_index n) (numeric_id n)
  end.
Definition numeric_native (n : NodeId) : UA_NodeId := UA_NODEID_NUMERIC (namespace_index n) (numeric_id n).
Definition attribute_or_value (a : Z) : Z := if bool_decide (a = 0%Z) then 13 else a.
Definition read (req : ReadRequest) : M Client ReadResponse :=
  '(status, results) ← call (svc_read svc (native_id (rq_node req)) (attribute_or_value (rq_attribute req)));
  match bool_decide (status = 0%Z), results with
  | true, r :: _ =>
      v ← if has_type (dv_value r) then lift_outcome (variantToProto (dv_value r)) else mret new_VariantValue;
      mret (if rq_include_timestamp req then mkReadResponse (dv_status r) v (dv_serverTimestamp r) (dv_sourceTimestamp r)
            else mkReadResponse (dv_status r) v 0 0)
  | _, _ => mret (mkReadResponse status new_VariantValue 0 0)
  end.
Definition readValue (node : NodeId) : M Client ReadResponse := read (mkReadRequest node 13 false).
Definition readAttribute (node : NodeId) (attribute_id : Z) : M Client ReadResponse := read (mkReadRequest node attribute_id false).
Definition read_field {A} (f : VariantValue → A) (node : NodeId) : M Client A := resp ← readValue node; mret (f (rs_value resp)).
Definition readBool := read_field bool_val.
Definition readInt32 := read_field int32_val.
Definition readInt64 := read_field int64_val.
Definition readUInt32 := read_field uint32_val.
Definition readFloat := read_field float_val.
Definition readDouble := read_field double_val.
Definition readString := read_field string_val.
Definition readInt32Array := read_field int32_array.
Definition readFloatArray := read_field float_array.
Definition readDoubleArray := read_field double_array.
(** The results of the write, one per node, are not looked at. *)
Definition writeAttribute (node : NodeId) (val : VariantValue) (attr_id : Z) : M Client Z :=
  '(status, results) ← call (svc_write svc (native_id node) attr_id (protoToVariant val));
  mret status.
Definition write (req : WriteRequest) : M Client Z :=
  writeAttribute (wq_node req) (wq_value req) (attribute_or_value (wq_attribute req)).
Definition write_value (node : NodeId) (v : VariantValue) : M Client bool :=
  status ← writeAttribute node v 13; mret (bool_decide (status = 0%Z)).
Definition writeBool (node : NodeId) (val : bool) := write_value node (scalar_value DBOOL (BoolVal val)).
Definition writeInt32 (node : NodeId) (val : Z) := write_value node (scalar_value DINT32 (Int32Val val)).
Definition writeInt64 (node : NodeId) (val : Z) := write_value node (scalar_value DINT64 (Int64Val val)).
Definition writeUInt32 (node : NodeId) (val : Z) := write_value node (scalar_value DUINT32 (Uint32Val val)).
Definition writeFloat (node : NodeId) (val : Z) := write_value node (scalar_value DFLOAT (FloatVal val)).
Definition writeDouble (node : NodeId) (val : Z) := write_value node (scalar_value DDOUBLE (DoubleVal val)).
Definition writeString (node : NodeId) (val : string) := write_value node (scalar_value DSTRING (StringVal val)).
Definition writeInt32Array (node : NodeId) (vals : list Z) := write_value node (mkVariantValue DARRAY_INT32 NotSet [] vals [] [] []).
Definition writeFloatArray (node : NodeId) (vals : list Z) := write_value node (mkVariantValue DARRAY_FLOAT NotSet [] [] vals [] []).
Fixpoint collect {A B} (f : A → M Client B) (xs : list A) : M Client (list B) :=
  match xs with [] => mret [] | x :: xs => y ← f x; ys ← collect f xs; mret (y :: ys) end.
Definition batchRead (reqs : list ReadRequest) : M Client (list ReadResponse) := collect read reqs.
Definition batchWrite (reqs : list WriteRequest) : M Client (list Z) := collect write reqs.

(** ** Browsing *)
Definition reference_proto (r : UA_Reference) : ReferenceDescription :=
  mkReference (match ua_nodeId r with NumericId n i => numericNodeId n i | StringId _ _ => new_NodeId end)
    (ua_browseName r) (ua_displayName r) (ua_nodeClass r).
Definition browse (req : BrowseRequest) : M Client BrowseResponse :=
  '(status, results) ← call (svc_browse svc (mkBrowseParams (native_id (bq_node req)) (bq_max_references req) (bq_node_class_mask req)));
  mret (if bool_decide (status = 0%Z) then mkBrowseResponse 0 (reference_proto <$> concat results)
        else mkBrowseResponse status []).
Definition browse_mask (mask : Z) (node : NodeId) : M Client (list ReferenceDescription) :=
  resp ← browse (mkBrowseRequest node 0 mask); mret (bs_references resp).
Definition browseChildren := browse_mask 0.
Definition browseObjects := browse_mask 1.
Definition browseVariables := browse_mask 2.
Fixpoint browse_depth (depth : nat) (node : NodeId) : M Client BrowseResponse :=
  match depth with
  | O => mret (mkBrowseResponse 0 [])
  | S depth =>
      children ← browseChildren node;
      subs ← collect (λ child, sub ← browse_depth depth (rf_node child); mret (child :: bs_references sub)) children;
      mret (mkBrowseResponse 0 (concat subs))
  end.
Definition browseRecursive (node : NodeId) (depth : Z) : M Client BrowseResponse := browse_depth (Z.to_nat depth) node.

(** ** Subscriptions *)
Definition subscribe (req : SubscribeRequest) (cb : nat) : M Client SubscribeResponse :=
  '(st1, sub) ← call (svc_subscribe svc);
  if negb (bool_decide (st1 = 0%Z)) then mret (mkSubscribeResponse st1 0 0) else
  '(st2, mon) ← call (svc_monitor svc sub (mkMonitorParams (numeric_native (sq_node req))
                        (if bool_decide (0 < sq_sampling_ms req)%Z then Some (sq_sampling_ms req) else None)
                        (if bool_decide (0 < sq_queue_size req)%Z then Some (sq_queue_size req) else None)
                        (sq_discard_oldest req)));
  if negb (bool_decide (st2 = 0%Z)) then mret (mkSubscribeResponse st2 0 sub) else
  modify (λ c, set_callbacks (<[mon := cb]> (callbacks_ c)) c);;
  mret (mkSubscribeResponse 0 mon sub).
Definition unsubscribe (sub mon : Z) : M Client unit :=
  call (λ w, (tt, svc_unmonitor svc sub mon w));;
  modify (λ c, set_callbacks (delete mon (callbacks_ c)) c).
Definition isSubscribed (mon : Z) (c : Client) : bool := match callbacks_ c !! mon with Some _ => true | None => false end.
(** A data change the library reports for an item. *)
Definition dataChangeHandler (mon_id : Z) (dv : UA_DataValue) : M Client unit :=
  c ← get;
  match callbacks_ c !! mon_id with
  | None => mret tt
  | Some cb =>
      v ← if dv_hasValue dv && has_type (dv_value dv) then lift_outcome (variantToProto (dv_value dv)) else mret new_VariantValue;
      modify (notify cb (mkNotification mon_id (dv_status dv) v))
  end.

(** ** Methods and history *)
Definition callMethod (req : CallMethodRequest) : M Client CallMethodResponse :=
  '(status, results) ← call (svc_call svc (numeric_native (cq_object req)) (numeric_native (cq_method req)) (protoToVariant <$> cq_args req));
  match bool_decide (status = 0%Z), results with
  | true, (st, outs) :: _ =>
      args ← collect (λ o, lift_outcome (variantToProto o)) outs; mret (mkCallMethodResponse st args)
  | _, _ => mret (mkCallMethodResponse status [])
  end.
Definition historyReadRaw (req : HistoryReadRequest) : M Client HistoryReadResponse :=
  '(status, results) ← call (svc_history svc (numeric_native (hq_node req)) (hq_start req) (hq_end req)
                               (if bool_decide (0 < hq_max req)%Z then hq_max req else 100));
  match bool_decide (status = 0%Z), results with
  | true, (st, dvs) :: _ =>
      vals ← collect (λ dv, lift_outcome (variantToProto (dv_value dv)))
                     (filter (λ dv, dv_hasValue dv && has_type (dv_value dv) = true) dvs);
      mret (mkHistoryReadResponse st vals (dv_sourceTimestamp <$> dvs))
  | _, _ => mret (mkHistoryReadResponse status [] [])
  end.
End client.



(** ** Recursive browsing *)
Section browsing.
Context {W : Type} (svc : Services W) (results_of : BrowseParams → list (list UA_Reference)).
Context (browse_pure : ∀ p w, svc_browse svc p w = ((0%Z, results_of p), w)).

(** The references of a node on the server, and those met from it in preorder,
    down to a depth. *)
Definition references_of (node : UA_NodeId) : list UA_Reference := concat (results_of (mkBrowseParams node 0 0)).
Fixpoint preorder (depth : nat) (node : UA_NodeId) : list UA_Reference :=
  match depth with
  | O => []
  | S depth => concat ((λ r, r :: preorder depth (ua_nodeId r)) <$> references_of node)
  end.
(** An identifier that survives the message: a number in a 16-bit namespace. *)
Definition numeric (node : UA_NodeId) : Prop := ∃ ns i, node = NumericId ns i ∧ (0 ≤ ns < 2 ^ 16)%Z.
Fixpoint size_bound (b depth : nat) : nat := match depth with O => 0 | S d => b * S (size_bound b d) end.

Lemma call_run {A} (f : W → A * W) (c : OPCUAClient W) a : client_ c ≠ Null → f (net c) = (a, net c) → call f c = (Ret a, c).
Proof.
  intros Hc Hf. unfold call. autorewrite with monad. destruct (client_ c) eqn:E; [done|]. rewrite Hf.
  autorewrite with monad. destruct c; simpl in *. unfold mret, M_ret, set_net. simpl. by subst.
Qed.
Lemma browseChildren_run node (c : OPCUAClient W) : client_ c ≠ Null →
  browseChildren svc node c = (Ret (reference_proto <$> references_of (native_id node)), c).
Proof.
  intros Hc. unfold browseChildren, browse_mask, browse. autorewrite with monad.
  by rewrite (M_bind_ret _ _ _ _ _ (call_run _ c (0%Z, results_of _) Hc (browse_pure _ _))).
Qed.
Lemma native_reference r : numeric (ua_nodeId r) → native_id (rf_node (reference_proto r)) = ua_nodeId r.
Proof. intros (ns & i & E & Hns). unfold reference_proto, native_id. rewrite E. simpl. unfold UA_NODEID_NUMERIC. by rewrite uwrap_small. Qed.
Lemma collect_run {A B} (f : A → M (OPCUAClient W) B) (g : A → B) c xs :
  (∀ x, x ∈ xs → f x c = (Ret (g x), c)) → collect f xs c = (Ret (g <$> xs), c).
Proof.
  induction xs as [|x xs IH]; intros Hf; [done|]. simpl.
  rewrite (M_bind_ret _ _ _ _ _ (Hf x (list_elem_of_here _ _))).
  rewrite (M_bind_ret _ _ _ _ _ (IH (λ y Hy, Hf y (list_elem_of_further _ _ _ Hy)))). done.
Qed.
Context (ids_numeric : ∀ p r, r ∈ concat (results_of p) → numeric (ua_nodeId r)).
Lemma browse_depth_run depth : ∀ node (c : OPCUAClient W), client_ c ≠ Null →
  browse_depth svc depth node c = (Ret (mkBrowseResponse 0 (reference_proto <$> preorder depth (native_id node))), c).
Proof.
  induction depth as [|depth IH]; intros node c Hc; [done|]. cbn [browse_depth preorder].
  rewrite (M_bind_ret _ _ _ _ _ (browseChildren_run node c Hc)).
  erewrite M_bind_ret; [|apply (collect_run _ (λ x, x :: (reference_proto <$> preorder depth (native_id (rf_node x)))))].
  - rewrite <- list_fmap_compose. unfold mret, M_ret. do 3 f_equal. symmetry.
    etrans; [apply (concat_map reference_proto)|]. f_equal. etrans; [symmetry; apply (list_fmap_compose _ (fmap reference_proto))|]. symmetry.
    apply list_fmap_ext. intros i r Hr. unfold compose. rewrite native_reference by (by eapply ids_numeric, list_elem_of_lookup_2). done.
  - intros r _. by rewrite (M_bind_ret _ _ _ _ _ (IH (rf_node r) c Hc)).
Qed.
Lemma preorder_length b depth : ∀ node, (∀ n, length (references_of n) ≤ b) → length (preorder depth node) ≤ size_bound b depth.
Proof.
  induction depth as [|depth IH]; intros node Hb; [done|]. cbn [preorder size_bound].
  etrans; [|apply Nat.mul_le_mono_r, (Hb node)].
  induction (references_of node) as [|r rs IHrs]; [done|]. rewrite fmap_cons. cbn [concat length]. rewrite length_app. cbn [length Nat.mul]. specialize (IH (ua_nodeId r) Hb). lia.
Qed.

(** C39: through a live handle, against a server that answers every browse with a
    good status and the same references, all of them to nodes with numeric
    identifiers, [browseRecursive] returns the server's references in preorder down
    to the given depth, a child before what is below it, and nothing for a depth
    that is not positive; it ends on cyclic address spaces too, with at most
    b + b^2 + ... + b^depth references when no node has more than b.  Below a child
    with another identifier it lists what is below node 0: [lost_string_child]. *)
Theorem browseRecursive_preorder node (depth : Z) (c : OPCUAClient W) (b : nat) :
  client_ c ≠ Null → (∀ n, length (references_of n) ≤ b) →
  browseRecursive svc node depth c =
    (Ret (mkBrowseResponse 0 (reference_proto <$> preorder (Z.to_nat depth) (native_id node))), c) ∧
  length (preorder (Z.to_nat depth) (native_id node)) ≤ size_bound b (Z.to_nat depth).
Proof. intros Hc Hb. split; [by apply browse_depth_run|by apply preorder_length]. Qed.
End browsing.

(** ** Examples: a server with a cycle *)
Definition loop_refs (p : BrowseParams) : list (list UA_Reference) :=
  match bp_node p with
  | NumericId _ 1 => [[mkUAReference "two" "2" 1 (NumericId 0 2); mkUAReference "self" "1" 1 (NumericId 0 1)]]
  | _ => []
  end.
(** Every read is of the array [[5; 6]], every write is refused for the node. *)
Definition demo_services : Services unit := {|
  svc_new := true;
  svc_connect _ w := (0%Z, w);
  svc_disconnect w := w;
  svc_read _ _ w := ((0%Z, [mkDataValue 0 (VArray BInt32 [5; 6]%Z) true 7 8]), w);
  svc_write _ _ _ w := ((0%Z, [2151350272%Z]), w);
  svc_browse p w := ((0%Z, loop_refs p), w);
  svc_subscribe w := ((0%Z, 1%Z), w);
  svc_monitor _ _ w := ((0%Z, 1%Z), w);
  svc_unmonitor _ _ w := w;
  svc_call _ _ _ w := ((0%Z, []), w);
  svc_history _ _ _ _ w := ((0%Z, []), w)
|}.
Definition demo_client : OPCUAClient unit := (connect demo_services 5000 (new_OPCUAClient "opc.tcp://192.168.1.100:4840" ())).2.
(** The refusal of the node is not reported. *)
Example write_refused : (writeInt32 demo_services (numericNodeId 0 1) 3 demo_client).1 = Ret true.
Proof. by_compute. Qed.
Example reads :
  (readInt32Array demo_services (numericNodeId 0 1) demo_client).1 = Ret [5; 6]%Z ∧
  (readInt32 demo_services (numericNodeId 0 1) demo_client).1 = Ret 0%Z.
Proof. by_compute. Qed.
(** After [disconnect] the handle is kept, and the client says it is connected. *)
Example connected_after_disconnect : isConnected (disconnect demo_services demo_client).2 = true.
Proof. by_compute. Qed.
(** Item identifiers are unique within a subscription only; a second
    subscription's item takes over the first's callback. *)
Example callback_overwritten :
  let sub := mkSubscribeRequest (stringNodeId 2 "Motor") 0 0 true in
  let c := ((subscribe demo_services sub 1;; subscribe demo_services sub 2;; dataChangeHandler 1 (mkDataValue 0 (VScalar BInt32 4%Z) true 0 0))
              demo_client).2 in
  notified c = [(2, mkNotification 1 0 (scalar_value DINT32 (Int32Val 4)))].
Proof. by_compute. Qed.

(** A child with a string identifier: its identifier is not copied into the
    message, so the references listed after it are those of node 0. *)
Definition string_refs (p : BrowseParams) : list (list UA_Reference) :=
  match bp_node p with
  | NumericId 0 0 => [[mkUAReference "Root" "Root" 1 (NumericId 0 84)]]
  | NumericId 0 85 => [[mkUAReference "Motor" "Motor" 1 (StringId 2 "Motor")]]
  | StringId 2 "Motor" => [[mkUAReference "Speed" "Speed" 2 (NumericId 2 7)]]
  | _ => []
  end.
Definition string_services : Services unit := {|
  svc_new := true; svc_connect _ w := (0%Z, w); svc_disconnect w := w; svc_read _ _ w := ((0%Z, []), w);
  svc_write _ _ _ w := ((0%Z, []), w); svc_browse p w := ((0%Z, string_refs p), w); svc_subscribe w := ((0%Z, 1%Z), w);
  svc_monitor _ _ w := ((0%Z, 1%Z), w); svc_unmonitor _ _ w := w; svc_call _ _ _ w := ((0%Z, []), w);
  svc_history _ _ _ _ w := ((0%Z, []), w)
|}.
Example lost_string_child :
  (resp ← browseRecursive string_services (numericNodeId 0 85) 2; mret (rf_display_name <$> bs_references resp)) demo_client =
    (Ret ["Motor"; "Root"], demo_client) ∧
  ua_displayName <$> preorder string_refs 2 (NumericId 0 85) = ["Motor"; "Speed"].
Proof. by_compute. Qed.

Lemma loop_numeric p r : r ∈ concat (loop_refs p) → numeric (ua_nodeId r).
Proof.
  unfold loop_refs. destruct (bp_node p) as [a [|[q|q|]|]|]; simpl; rewrite ?elem_of_nil; try done.
  intros [->|[->|[]%elem_of_nil]%elem_of_cons]%elem_of_cons; by eexists 0%Z, _.
Qed.
Lemma browseRecursive_preorder_witness :
  browseRecursive demo_services (numericNodeId 0 1) 3 demo_client =
    (Ret (mkBrowseResponse 0 (reference_proto <$> preorder loop_refs 3 (NumericId 0 1))), demo_client) ∧
  length (preorder loop_refs 3 (NumericId 0 1)) = 6 ∧
  length (preorder loop_refs 3 (NumericId 0 1)) ≤ size_bound 2 3.
Proof.
  destruct (browseRecursive_preorder demo_services loop_refs (λ p w, eq_refl) loop_numeric (numericNodeId 0 1) 3 demo_client 2) as [H1 H2].
  - done.
  - intros n. unfold references_of, loop_refs. simpl. destruct n as [a [|[]|]|]; simpl; lia.
  - split; [exact H1|]. split; [by vm_compute|exact H2].
Defined.
