(* ===== verification/FloatFacts.v ===== *)
(** * Integers in binary64 arithmetic

    An integer below 2^53 is represented exactly; the sum and the product of two
    such integers are exact when they are below 2^53 too.  One below a million is
    printed in full. *)
From Stdlib Require Import Ascii Floats.SpecFloat.
From S2P Require Import Prelude FloatText.
Local Open Scope Z_scope.

Definition prec : Z := 53.
Definition emax : Z := 1024.
Definition of_int (z : Z) : spec_float := binary_normalize prec emax z 0 false.
(** The exponent of an integer of magnitude [z], and its mantissa. *)
Definition exponent_of (z : Z) : Z := Z.log2 z + 1 - prec.
Definition int_float (s : bool) (p : positive) : spec_float :=
  S754_finite s (Z.to_pos (Zpos p * 2 ^ (- exponent_of (Zpos p)))) (exponent_of (Zpos p)).

Lemma digits2_log2 p : Zpos (digits2_pos p) = Z.log2 (Zpos p) + 1.
Proof.
  assert (digits2_pos p = Pos.size p) as -> by (induction p; simpl; congruence).
  destruct p; simpl; lia.
Qed.
Lemma log2_scaled z j : 0 < z → 0 ≤ j → Z.log2 (z * 2 ^ j) = Z.log2 z + j.
Proof. intros Hz Hj. rewrite Z.log2_mul_pow2 by lia. lia. Qed.
Lemma Zdigits2_log2 z : 0 < z → Zdigits2 z = Z.log2 z + 1.
Proof. intros Hz. destruct z as [|p|p]; [lia| |lia]. exact (digits2_log2 p). Qed.
(** A bound by a number of digits. *)
Definition small (z : Z) : Prop := Z.abs z < 2 ^ 53.
Lemma log2_small z : 0 < z < 2 ^ 53 → 0 ≤ Z.log2 z < 53.
Proof. intros Hz. split; [apply Z.log2_nonneg|]. apply Z.log2_lt_pow2; lia. Qed.
Lemma fexp_small d : 0 ≤ d ≤ 53 → fexp prec emax d = d - 53.
Proof. intros Hd. unfold fexp, SpecFloat.emin, prec, emax. lia. Qed.

Lemma shr_1_double z : 0 < z → shr_1 (Build_shr_record (z * 2) false false) = Build_shr_record z false false.
Proof. destruct z as [|p|p]; [lia| |lia]. intros _. by rewrite Z.mul_comm. Qed.
Lemma shr_exact n : ∀ z, 0 < z → SpecFloat.iter_pos shr_1 n (Build_shr_record (z * 2 ^ Zpos n) false false) = Build_shr_record z false false.
Proof.
  induction n as [n IH|n IH|]; intros z Hz; cbn [SpecFloat.iter_pos].
  - assert (2 ^ Zpos n~1 = 2 ^ Zpos n * 2 ^ Zpos n * 2) as ->
      by (rewrite <- Z.pow_add_r, Z.mul_comm, <- Z.pow_succ_r by lia; f_equal; lia).
    rewrite !Z.mul_assoc, shr_1_double by lia. by rewrite !IH by lia.
  - assert (2 ^ Zpos n~0 = 2 ^ Zpos n * 2 ^ Zpos n) as -> by (rewrite <- Z.pow_add_r by lia; f_equal; lia).
    rewrite Z.mul_assoc. by rewrite !IH by lia.
  - by apply shr_1_double.
Qed.
Lemma shr_run z e j : 0 < z → 0 ≤ j → shr (Build_shr_record (z * 2 ^ j) false false) e j = (Build_shr_record z false false, e + j).
Proof.
  intros Hz Hj. destruct j as [|n|n]; [by rewrite Z.mul_1_r, Z.add_0_r| |lia]. unfold shr. by rewrite shr_exact.
Qed.

(** A small integer written with an exponent is shifted to its own. *)
Lemma shr_fexp_exact z e : 0 < z < 2 ^ 53 → e ≤ exponent_of z →
  shr_fexp prec emax (z * 2 ^ (- e)) e loc_Exact =
    (Build_shr_record (z * 2 ^ (- exponent_of z)) false false, exponent_of z).
Proof.
  intros Hz He. pose proof (log2_small z Hz) as Hl. set (k := exponent_of z) in *.
  assert (k = Z.log2 z + 1 - 53) as Hk by done.
  unfold shr_fexp. cbn [shr_record_of_loc]. rewrite Zdigits2_log2, log2_scaled by lia.
  replace (Z.log2 z + - e + 1 + e) with (Z.log2 z + 1) by lia. rewrite (fexp_small (Z.log2 z + 1)) by lia.
  replace (z * 2 ^ (- e)) with (z * 2 ^ (- k) * 2 ^ (k - e)) by (rewrite <- Z.mul_assoc, <- Z.pow_add_r by lia; do 2 f_equal; lia).
  replace (Z.log2 z + 1 - 53 - e) with (k - e) by lia. rewrite shr_run by lia. f_equal. lia.
Qed.
(** Its rounding is the integer. *)
Lemma round_aux_exact s z e : 0 < z < 2 ^ 53 → e ≤ exponent_of z →
  binary_round_aux prec emax s (z * 2 ^ (- e)) e loc_Exact = int_float s (Z.to_pos z).
Proof.
  intros Hz He. pose proof (log2_small z Hz) as Hl. unfold binary_round_aux.
  rewrite shr_fexp_exact by done. cbn [shr_m loc_of_shr_record round_nearest_even].
  rewrite shr_fexp_exact by done. cbn [shr_m]. unfold int_float. rewrite Z2Pos.id by lia.
  assert (exponent_of z = Z.log2 z + 1 - 53) as Hk by done. set (k := exponent_of z) in *.
  destruct (z * 2 ^ (- k)) as [|p|p] eqn:E; [lia| |lia].
  by rewrite (proj2 (Z.leb_le k (emax - prec))) by (unfold emax, prec; lia).
Qed.
Definition float_of (z : Z) : spec_float :=
  match z with Z0 => S754_zero false | Zpos p => int_float false p | Zneg p => int_float true p end.
Lemma pos_iter_xO d m : Zpos (Pos.iter xO m d) = Zpos m * 2 ^ Zpos d.
Proof.
  induction d as [|d IH] using Pos.peano_ind; [simpl; lia|].
  rewrite Pos.iter_succ, Pos2Z.inj_xO, IH, Pos2Z.inj_succ, Z.pow_succ_r by lia. lia.
Qed.
(** Aligned to a lower exponent, an integer keeps its value. *)
Lemma shl_align_run m e e' : e' ≤ e → Zpos (fst (shl_align m e e')) = Zpos m * 2 ^ (e - e').
Proof.
  intros He. unfold shl_align. destruct (e' - e) as [|d|d] eqn:E; [|lia|].
  - replace (e - e') with 0 by lia. simpl. lia.
  - simpl fst. rewrite pos_iter_xO. f_equal. f_equal. lia.
Qed.
Lemma round_exact s z e : 0 < z < 2 ^ 53 → e ≤ 0 →
  binary_round prec emax s (Z.to_pos (z * 2 ^ (- e))) e = int_float s (Z.to_pos z).
Proof.
  intros Hz He. pose proof (log2_small z Hz) as Hl. unfold binary_round.
  rewrite digits2_log2, Z2Pos.id, log2_scaled by lia.
  replace (Z.log2 z + - e + 1 + e) with (Z.log2 z + 1) by lia. rewrite (fexp_small (Z.log2 z + 1)) by lia.
  change (Z.log2 z + 1 - 53) with (exponent_of z).
  destruct (shl_align (Z.to_pos (z * 2 ^ (- e))) e (exponent_of z)) as [m' e'] eqn:E.
  assert (e' ≤ exponent_of z ∧ Zpos m' = z * 2 ^ (- e')) as [H1 H2].
  { assert (exponent_of z = Z.log2 z + 1 - 53) as Hk by done. unfold shl_align in E. destruct (exponent_of z - e) as [|d|d] eqn:Ed; injection E as <- <-.
    - rewrite Z2Pos.id by lia. lia.
    - rewrite Z2Pos.id by lia. lia.
    - rewrite pos_iter_xO, Z2Pos.id by lia. split; [lia|]. rewrite <- Z.mul_assoc, <- Z.pow_add_r by lia. do 2 f_equal. lia. }
  rewrite H2. by apply round_aux_exact.
Qed.
(** Normalizing a small integer at any exponent. *)
Lemma normalize_exact z e : small z → e ≤ 0 → binary_normalize prec emax (z * 2 ^ (- e)) e false = float_of z.
Proof.
  unfold small. intros Hz He. destruct z as [|p|p]; [done| |].
  - assert (∃ m, Zpos p * 2 ^ (- e) = Zpos m ∧ m = Z.to_pos (Zpos p * 2 ^ (- e))) as (m & Hm & ->)
      by (exists (Z.to_pos (Zpos p * 2 ^ (- e))); rewrite Z2Pos.id by lia; done).
    rewrite Hm. cbn [binary_normalize]. apply round_exact; lia.
  - assert (Zneg p * 2 ^ (- e) = Zneg (Z.to_pos (Zpos p * 2 ^ (- e)))) as -> by (rewrite <- !Pos2Z.opp_pos, Z2Pos.id by lia; lia).
    cbn [binary_normalize]. apply round_exact; lia.
Qed.
Lemma of_int_exact z : small z → of_int z = float_of z.
Proof. intros Hz. unfold of_int. rewrite <- (normalize_exact z 0 Hz) by lia. by rewrite Z.mul_1_r. Qed.

(** ** Arithmetic on small integers *)
Lemma int_float_parts s p : small (Zpos p) → ∃ m, int_float s p = S754_finite s m (exponent_of (Zpos p)) ∧
  Zpos m = Zpos p * 2 ^ (- exponent_of (Zpos p)) ∧ exponent_of (Zpos p) ≤ 0.
Proof.
  unfold small. intros Hp. pose proof (log2_small (Zpos p)) as Hl. unfold int_float.
  assert (exponent_of (Zpos p) ≤ 0) as He by (unfold exponent_of, prec; lia).
  eexists. split; [done|]. rewrite Z2Pos.id by lia. done.
Qed.
(** A finite number that is the integer [z]: a sign, a mantissa, an exponent. *)
Lemma aligned s p ez : small (Zpos p) → ez ≤ exponent_of (Zpos p) →
  match int_float s p with
  | S754_finite s' m e => cond_Zopp s' (Zpos (fst (shl_align m e ez))) = cond_Zopp s (Zpos p) * 2 ^ (- ez)
  | _ => False
  end.
Proof.
  intros Hp He. destruct (int_float_parts s p Hp) as (m & -> & Hm & H0). rewrite shl_align_run, Hm by done.
  rewrite <- Z.mul_assoc, <- Z.pow_add_r by lia.
  replace (- exponent_of (Zpos p) + (exponent_of (Zpos p) - ez)) with (- ez) by lia. destruct s; simpl; lia.
Qed.
Lemma float_of_pos z : z ≠ 0 → ∃ s p, float_of z = int_float s p ∧ z = cond_Zopp s (Zpos p).
Proof. destruct z as [|p|p]; [done| |]; intros _; [by exists false, p|by exists true, p]. Qed.
Lemma small_opp s p : small (cond_Zopp s (Zpos p)) → small (Zpos p).
Proof. unfold small. destruct s; simpl; lia. Qed.

Theorem add_exact a b : small a → small b → small (a + b) → SFadd prec emax (float_of a) (float_of b) = float_of (a + b).
Proof.
  intros Ha Hb Hab. destruct (decide (a = 0)) as [->|Hna].
  { rewrite Z.add_0_l. by destruct b as [|q|q]; simpl; unfold int_float. }
  destruct (decide (b = 0)) as [->|Hnb].
  { rewrite Z.add_0_r. by destruct a as [|q|q]; simpl; unfold int_float. }
  destruct (float_of_pos a Hna) as (s & p & -> & Ea), (float_of_pos b Hnb) as (t & q & -> & Eb).
  rewrite Ea in Ha. rewrite Eb in Hb. apply small_opp in Ha, Hb.
  destruct (int_float_parts s p Ha) as (m & E1 & _ & H1), (int_float_parts t q Hb) as (n & E2 & _ & H2).
  set (ez := Z.min (exponent_of (Zpos p)) (exponent_of (Zpos q))).
  pose proof (aligned s p ez Ha ltac:(lia)) as A1. pose proof (aligned t q ez Hb ltac:(lia)) as A2.
  rewrite E1 in A1 |- *. rewrite E2 in A2 |- *. cbn [SFadd]. fold ez. rewrite A1, A2, <- Z.mul_add_distr_r, <- Ea, <- Eb.
  apply normalize_exact; [done|lia].
Qed.
Theorem mul_exact a b : small a → small b → small (a * b) → a * b ≠ 0 → SFmul prec emax (float_of a) (float_of b) = float_of (a * b).
Proof.
  intros Ha Hb Hab Hn. destruct (float_of_pos a) as (s & p & -> & Ea); [lia|]. destruct (float_of_pos b) as (t & q & -> & Eb); [lia|].
  rewrite Ea in Ha. rewrite Eb in Hb. apply small_opp in Ha, Hb.
  destruct (int_float_parts s p Ha) as (m & -> & Hm & H1), (int_float_parts t q Hb) as (n & -> & Hk & H2).
  cbn [SFmul]. rewrite Pos2Z.inj_mul, Hm, Hk.
  replace (Zpos p * 2 ^ (- exponent_of (Zpos p)) * (Zpos q * 2 ^ (- exponent_of (Zpos q)))) with
    (Zpos (p * q) * 2 ^ (- (exponent_of (Zpos p) + exponent_of (Zpos q)))) by
    (rewrite Z.opp_add_distr, Z.pow_add_r by lia; lia).
  assert (small (Zpos (p * q))) as Hpq by (unfold small in *; subst; destruct s, t; simpl in *; lia).
  rewrite round_aux_exact; [|unfold small in Hpq; lia|].
  - subst. by destruct s, t.
  - rewrite Pos2Z.inj_mul. pose proof (Z.log2_mul_below (Zpos p) (Zpos q)). unfold exponent_of, prec in *. unfold small in *. 
    pose proof (log2_small (Zpos p)). pose proof (log2_small (Zpos q)). lia.
Qed.
Lemma sub_add x y : SFsub prec emax x y = SFadd prec emax x (SFopp y).
Proof. destruct x as [[]|[]| |sx mx ex], y as [[]|[]| |sy my ey]; try done. cbn [SFsub SFadd SFopp]. f_equal. destruct sy; simpl; lia. Qed.
Theorem sub_exact a b : small a → small b → small (a - b) → SFsub prec emax (float_of a) (float_of b) = float_of (a - b).
Proof.
  intros Ha Hb Hab. rewrite sub_add. destruct (decide (b = 0)) as [->|Hb0].
  - rewrite Z.sub_0_r. by destruct a as [|p|p]; simpl; unfold int_float.
  - assert (SFopp (float_of b) = float_of (- b)) as -> by by destruct b. rewrite add_exact; [by rewrite Z.add_opp_r|done| |done].
    unfold small in *. lia.
Qed.
(** A quotient without remainder. *)
Theorem div_exact q b : small q → small b → small (q * b) → q * b ≠ 0 → SFdiv prec emax (float_of (q * b)) (float_of b) = float_of q.
Proof.
  intros Hq Hb Ha Hn. destruct (float_of_pos (q * b)) as (s & p & -> & Ea); [lia|]. destruct (float_of_pos b) as (t & r & -> & Eb); [lia|].
  rewrite Ea in Ha. rewrite Eb in Hb. apply small_opp in Ha, Hb.
  destruct (int_float_parts s p Ha) as (m & -> & Hm & H1), (int_float_parts t r Hb) as (n & -> & Hk & H2).
  set (ea := exponent_of (Zpos p)) in *. set (eb := exponent_of (Zpos r)) in *.
  assert (Zpos p = Z.abs q * Zpos r) as Hp by (destruct s, t; simpl in *; subst; nia).
  assert (0 < Z.abs q) as Hq0 by lia.
  cbn [SFdiv]. unfold SFdiv_core_binary.
  assert (Zdigits2 (Zpos m) + ea = Z.log2 (Zpos p) + 1) as -> by (rewrite Zdigits2_log2, Hm, log2_scaled by lia; lia).
  assert (Zdigits2 (Zpos n) + eb = Z.log2 (Zpos r) + 1) as -> by (rewrite Zdigits2_log2, Hk, log2_scaled by lia; lia).
  pose proof (Z.log2_mul_above (Z.abs q) (Zpos r)) as Hlog. rewrite <- Hp in Hlog.
  pose proof (Z.log2_mul_below (Z.abs q) (Zpos r)) as Hlog2. rewrite <- Hp in Hlog2.
  pose proof (log2_small (Zpos p)) as Lp. pose proof (log2_small (Zpos r)) as Lr. pose proof (log2_small (Z.abs q)) as Lq. unfold small in *.
  rewrite fexp_small by lia. set (e := Z.min _ _).
  assert (0 ≤ ea - eb - e) as Hs by lia.
  assert (match ea - eb - e with 0 => Zpos m | Zpos _ => Z.shiftl (Zpos m) (ea - eb - e) | Zneg _ => 0 end =
    Z.abs q * 2 ^ (- e) * Zpos n) as ->.
  { transitivity (Zpos m * 2 ^ (ea - eb - e)).
    - destruct (ea - eb - e) as [|d|d]; [by rewrite Z.mul_1_r|by rewrite Z.shiftl_mul_pow2|lia].
    - rewrite Hm, Hk, Hp. replace (Z.abs q * 2 ^ (- e) * (Zpos r * 2 ^ (- eb))) with (Z.abs q * Zpos r * (2 ^ (- e) * 2 ^ (- eb))) by lia.
      rewrite <- Z.mul_assoc, <- !Z.pow_add_r by lia. do 2 f_equal. lia. }
  destruct (Z.div_eucl _ (Zpos n)) as [d k] eqn:E.
  assert (d = Z.abs q * 2 ^ (- e) ∧ k = 0) as [-> ->].
  { pose proof (Z.div_mul (Z.abs q * 2 ^ (- e)) (Zpos n)) as Hd. pose proof (Z.mod_mul (Z.abs q * 2 ^ (- e)) (Zpos n)) as Hr.
    unfold Z.div, Z.modulo in Hd, Hr. rewrite E in Hd, Hr. split; [apply Hd|apply Hr]; lia. }
  assert (new_location (Zpos n) 0 = loc_Exact) as -> by (unfold new_location; by destruct (Z.even _)).
  rewrite round_aux_exact; [|lia|unfold exponent_of, prec; lia].
  destruct s, t, q as [|u|u]; simpl in *; try lia; done.
Qed.

(** ** The text of a small integer
    Six significant digits are all the digits of an integer below a million. *)
Local Abbreviation L := String.list_ascii_of_string.
Lemma L_app a b : L (a +:+ b) = L a ++ L b.
Proof. induction a as [|c a IH]; [done|]. change (String c a +:+ b) with (String c (a +:+ b)). simpl. by rewrite IH. Qed.
Lemma digits_step p : 10 ≤ Zpos p → ∃ q, Zpos p = 10 * Zpos q + Z.of_N (N.pos p `mod` 10) ∧
  digits_of (Zpos p) = digits_of (Zpos q) ++ [pretty_N_char (N.pos p `mod` 10)].
Proof.
  intros Hp. pose proof (N.div_mod (N.pos p) 10 ltac:(done)) as Hdm. pose proof (N.mod_lt (N.pos p) 10 ltac:(done)) as Hm.
  destruct (N.pos p `div` 10)%N as [|q] eqn:Eq; [lia|]. exists q. split; [lia|]. unfold digits_of.
  change (pretty (Zpos p)) with (pretty_N_go (N.pos p) "").
  rewrite pretty_N_go_step, Eq, <- (pretty_pos_app q), L_app by lia. done.
Qed.
Lemma digits_scaled p (j : nat) : digits_of (Zpos p * 10 ^ Z.of_nat j) = digits_of (Zpos p) ++ replicate j "0"%char.
Proof.
  induction j as [|j IH]; [by rewrite Z.mul_1_r, app_nil_r|].
  rewrite Nat2Z.inj_succ, Z.pow_succ_r by lia.
  destruct (Zpos p * 10 ^ Z.of_nat j) as [|r|r] eqn:E; [lia| |lia].
  replace (Zpos p * (10 * 10 ^ Z.of_nat j)) with (Zpos (10 * r)) by lia.
  destruct (digits_step (10 * r)) as (q & Hq & ->); [lia|].
  assert (N.pos (10 * r) `mod` 10 = 0)%N as Hz by (replace (N.pos (10 * r)) with (N.pos r * 10)%N by lia; apply N.Div0.mod_mul).
  rewrite Hz in Hq |- *. assert (q = r) as -> by lia. rewrite IH. rewrite <- app_assoc. f_equal.
  change [pretty_N_char 0] with (replicate 1 "0"%char). by rewrite <- replicate_add, Nat.add_comm.
Qed.
Lemma digits_length (x : nat) : ∀ p, 10 ^ Z.of_nat x ≤ Zpos p < 10 ^ (Z.of_nat x + 1) → length (digits_of (Zpos p)) = S x.
Proof.
  induction x as [|x IH]; intros p Hp.
  - assert (p = 1 ∨ p = 2 ∨ p = 3 ∨ p = 4 ∨ p = 5 ∨ p = 6 ∨ p = 7 ∨ p = 8 ∨ p = 9)%positive as Hc by (simpl in Hp; lia).
    by destruct_or! Hc; subst p.
  - rewrite Nat2Z.inj_succ, Z.pow_add_r, Z.pow_succ_r in Hp by lia. change (10 ^ 1) with 10 in Hp.
    assert (0 < 10 ^ Z.of_nat x) as Hpos by (apply Z.pow_pos_nonneg; lia).
    destruct (digits_step p) as (q & Hq & ->); [lia|]. pose proof (N.mod_lt (N.pos p) 10 ltac:(done)) as Hr.
    revert Hq Hr. generalize (N.pos p `mod` 10)%N as r. intros r Hq Hr. set (P := 10 ^ Z.of_nat x) in *.
    rewrite length_app, IH; [simpl; lia|]. rewrite Z.pow_add_r by lia. change (10 ^ 1) with 10. fold P. lia.
Qed.
Lemma ilog10_up (fuel : nat) p den x k : 0 < den → 0 ≤ k ≤ x → 10 ^ x ≤ p < 10 ^ (x + 1) → x - k < Z.of_nat fuel →
  ilog10 fuel (p * den) (10 ^ k * den) k = x.
Proof.
  intros Hd. revert k. induction fuel as [|fuel IH]; intros k Hk Hp Hf; [lia|]. cbn [ilog10].
  rewrite Z.mul_assoc, <- Z.pow_succ_r by lia. destruct (decide (k = x)) as [->|Hne].
  - rewrite bool_decide_false by (rewrite Z.add_1_r in Hp; nia). by rewrite bool_decide_false by nia.
  - assert (10 ^ Z.succ k ≤ 10 ^ x) by (apply Z.pow_le_mono_r; lia). rewrite bool_decide_true by nia.
    rewrite <- Z.add_1_r. apply IH; lia.
Qed.
Lemma round_whole q den : 0 < den → round_half_even (q * den) den = q.
Proof. intros Hd. unfold round_half_even. rewrite Z.div_mul, Z_mod_mult by lia. by rewrite bool_decide_true by lia. Qed.
Lemma strip_replicate n : strip_zeros (rev (replicate n "0"%char)) = [].
Proof.
  assert (∀ l, Forall (λ c, c = "0"%char) l → strip_zeros l = []) as H by (induction 1 as [|c l -> _ IH]; [done|exact IH]).
  apply H, Forall_rev. by apply Forall_replicate.
Qed.
Lemma magnitude p : 0 < p < 10 ^ 6 → ∃ x, 0 ≤ x ≤ 5 ∧ 10 ^ x ≤ p < 10 ^ (x + 1).
Proof.
  intros Hp. destruct (decide (p < 10)); [by exists 0; lia|]. destruct (decide (p < 100)); [by exists 1; lia|].
  destruct (decide (p < 1000)); [by exists 2; lia|]. destruct (decide (p < 10000)); [by exists 3; lia|].
  destruct (decide (p < 100000)); [by exists 4; lia|]. by exists 5; lia.
Qed.
Lemma format_integer m e p : e ≤ 0 → Zpos m = Zpos p * 2 ^ (- e) → Zpos p < 10 ^ 6 → format_positive m e = pretty (Zpos p).
Proof.
  intros He Hm Hp. destruct (magnitude (Zpos p)) as (x & Hx & Hlog); [lia|]. unfold format_positive.
  rewrite (Z.max_r e 0), (Z.max_l (- e) 0) by lia. cbv zeta. rewrite Z.mul_1_r, Hm. set (den := 2 ^ (- e)). assert (0 < den) as Hd by (apply Z.pow_pos_nonneg; lia).
  pose proof (ilog10_up 400 (Zpos p) den x 0 Hd ltac:(lia) Hlog ltac:(lia)) as Hi. rewrite Z.mul_1_l in Hi. rewrite Hi.
  rewrite (Z.max_l (5 - x) 0), (Z.max_r (x - 5) 0) by lia. rewrite Z.mul_1_r.
  replace (Zpos p * den * 10 ^ (5 - x)) with (Zpos p * 10 ^ (5 - x) * den) by ring. rewrite round_whole by done.
  assert (Zpos p * 10 ^ (5 - x) < 10 ^ 6) as Hlt.
  { replace (10 ^ 6) with (10 ^ (x + 1) * 10 ^ (5 - x)) by (rewrite <- Z.pow_add_r by lia; f_equal; lia).
    apply Z.mul_lt_mono_pos_r; [apply Z.pow_pos_nonneg; lia|lia]. }
  rewrite bool_decide_false by lia. rewrite !bool_decide_false by lia. cbn [orb].
  replace (5 - x) with (Z.of_nat (Z.to_nat (5 - x))) by lia. rewrite digits_scaled.
  assert (length (digits_of (Zpos p)) = Z.to_nat (x + 1)) as Hlen.
  { rewrite (digits_length (Z.to_nat x)); [lia|]. by rewrite Z2Nat.id by lia. }
  rewrite <- Hlen, take_app_length, drop_app_length. unfold with_point. rewrite strip_replicate.
  unfold str, digits_of. apply String.string_of_list_ascii_of_string.
Qed.
(** An integer below a million is printed in full. *)
Theorem format_small z : Z.abs z < 10 ^ 6 → format_double (float_of z) = pretty z.
Proof.
  intros Hz. destruct z as [|p|p]; [done|..].
  - destruct (int_float_parts false p) as (m & Em & Hm & He); [unfold small; lia|]. cbn [float_of]. rewrite Em. by apply format_integer.
  - destruct (int_float_parts true p) as (m & Em & Hm & He); [unfold small; lia|]. cbn [float_of]. rewrite Em. cbn [format_double].
    rewrite (format_integer _ _ p) by done. done.
Qed.
