(* ===== verification/DoubleText.v ===== *)
(** * Reading a [double]: [std::stod]

    The texts [strtod] accepts in the C locale: white space, a sign, then a
    decimal or hexadecimal number, an infinity or a NaN; what follows is not
    looked at.  The value is rounded once, from the exact ratio. *)
From Stdlib Require Import Ascii Floats.SpecFloat.
From S2P Require Import Prelude FloatText FloatFacts.
Local Open Scope prog_scope.
Abbreviation Text := (list ascii).

Definition is_space (a : ascii) : bool := let n := nat_of_ascii a in (n =? 32) || ((9 <=? n) && (n <=? 13)).
Definition lower (a : ascii) : ascii := let n := nat_of_ascii a in if (65 <=? n) && (n <=? 90) then ascii_of_nat (n + 32) else a.
Definition digit (base : Z) (a : ascii) : option Z :=
  let n := nat_of_ascii (lower a) in
  let d := if (48 <=? n) && (n <=? 57) then Z.of_nat (n - 48) else if (97 <=? n) && (n <=? 102) then Z.of_nat (n - 87) else base in
  if (d <? base)%Z then Some d else None.
Definition starts (c : ascii) (l : Text) : bool := match l with a :: _ => Ascii.eqb (lower a) c | [] => false end.
Fixpoint skip_spaces (l : Text) : Text := match l with a :: l' => if is_space a then skip_spaces l' else l | [] => [] end.
Definition sign (l : Text) : bool * Text :=
  if starts "-" l then (true, tail l) else if starts "+" l then (false, tail l) else (false, l).
(** The digits at the front: the number they continue, how many, and the rest. *)
Fixpoint digits (base : Z) (l : Text) (v : Z) (n : nat) : Z * nat * Text :=
  match l with
  | a :: l' => match digit base a with Some d => digits base l' (base * v + d) (S n) | None => (v, n, l) end
  | [] => (v, n, [])
  end.
(** Digits with a point: all the digits as one number, how many there are, how
    many after the point. *)
Definition mantissa (base : Z) (l : Text) : Z * nat * nat * Text :=
  let '(v, n, l1) := digits base l 0 0 in
  if starts "." l1 then let '(v', k, l2) := digits base (tail l1) v 0 in (v', n + k, k, l2)
  else (v, n, 0, l1).
(** An exponent counts when it has a digit. *)
Definition exponent (mark : ascii) (l : Text) : Z :=
  if starts mark l then
    let '(s, l1) := sign (tail l) in
    let '(v, n, _) := digits 10 l1 0 0 in
    if n =? 0 then 0%Z else if s then (- v)%Z else v
  else 0%Z.
Fixpoint has_prefix (p l : Text) : bool :=
  match p, l with
  | [], _ => true
  | c :: p', a :: l' => Ascii.eqb (lower a) c && has_prefix p' l'
  | _, [] => false
  end.

(** *** Values *)
Definition of_integer (s : bool) (n : Z) : spec_float := binary_normalize prec emax (if s then - n else n) 0 s.
Definition of_ratio (s : bool) (num den : positive) : spec_float :=
  SFdiv prec emax (S754_finite s num 0) (S754_finite false den 0).
(** [m * base^x], rounded.  [m] has [n] digits of base 16 or less, so outside the
    bounds the number is above every finite value or below half of the least. *)
Definition scaled (base : Z) (s : bool) (m : Z) (n : nat) (x : Z) : spec_float :=
  match m with
  | Zpos num =>
      if (2000 <? x)%Z then S754_infinity s
      else if (4 * Z.of_nat n + x <? - 2000)%Z then S754_zero s
      else if (0 <=? x)%Z then of_integer s (m * base ^ x)
      else of_ratio s num (Z.to_pos (base ^ (- x)))
  | _ => of_integer s m
  end.
(** Is [r] the number itself? *)
Definition exact (r : spec_float) (base m x : Z) : bool :=
  match r with
  | S754_finite _ mr e => bool_decide (Zpos mr * 2 ^ Z.max e 0 * base ^ Z.max (- x) 0 = m * base ^ Z.max x 0 * 2 ^ Z.max (- e) 0)%Z
  | _ => bool_decide (m = 0%Z)
  end.
(** Below the least normal number. *)
Definition tiny (r : spec_float) : bool :=
  match r with S754_zero _ => true | S754_finite _ m _ => (Zpos m <? 2 ^ 52)%Z | _ => false end.
Definition is_infinite (r : spec_float) : bool := match r with S754_infinity _ => true | _ => false end.

Section stod.
(** Whether an inexact result below the normal numbers sets [errno], and the
    text of the exceptions: both are the implementation's. *)
Context (reports_underflow : bool) (stod_what : string).

(** [strtod] on what follows the sign: the value and whether it is out of range;
    [None] when there is no number. *)
Definition read_number (base scale : Z) (per : Z) (mark : ascii) (s : bool) (l : Text) : option (spec_float * bool) :=
  let '(m, n, k, l1) := mantissa base l in
  if n =? 0 then None
  else
    let x := (exponent mark l1 - per * Z.of_nat k)%Z in
    let r := scaled scale s m n x in
    Some (r, is_infinite r || (reports_underflow && tiny r && negb (exact r scale m x))).
Definition strtod (l : Text) : option (spec_float * bool) :=
  let '(s, l1) := sign (skip_spaces l) in
  if has_prefix ["i"; "n"; "f"]%char l1 then Some (S754_infinity s, false)
  else if has_prefix ["n"; "a"; "n"]%char l1 then Some (S754_nan, false)
  else match (if has_prefix ["0"; "x"]%char l1 then read_number 16 2 4 "p" s (drop 2 l1) else None) with
       | Some r => Some r
       | None => read_number 10 10 1 "e" s l1
       end.
Definition stod (t : string) : outcome spec_float :=
  match strtod (String.list_ascii_of_string t) with
  | None => Throw (InvalidArgument stod_what)
  | Some (_, true) => Throw (OutOfRange stod_what)
  | Some (r, false) => Ret r
  end.
End stod.

(** ** An integer is read as itself *)
Lemma numeral_char (d : N) : (d < 10)%N → digit 10 (pretty_N_char d) = Some (Z.of_N d) ∧ is_space (pretty_N_char d) = false ∧
  lower (pretty_N_char d) = pretty_N_char d ∧ (pretty_N_char d ∉ ["-"; "+"; "."; "i"; "n"; "e"; "x"]%char) ∧
  (pretty_N_char d = "0"%char → d = 0%N).
Proof.
  revert d. apply digit_cases. repeat constructor; try done;
    by intros H; repeat (apply elem_of_cons in H as [H|H]; [discriminate|]); apply elem_of_nil in H.
Qed.
Abbreviation L := String.list_ascii_of_string.
Lemma list_app s t : L (s +:+ t) = L s ++ L t.
Proof. induction s as [|a s IH]; [done|]. simpl. by f_equal. Qed.
(** The digits of a positive number, before the text [s]. *)
Lemma digits_go n : ∃ k, ∀ s, digits 10 (L (pretty_N_go n s)) 0 0 = digits 10 (L s) (Z.of_N n) k ∧ (n ≠ 0%N → k ≠ 0).
Proof.
  induction (N.lt_wf_0 n) as [n _ IH]. destruct (decide (n = 0)%N) as [->|Hn].
  { exists 0. intros s. by rewrite pretty_N_go_0. }
  destruct (IH (n `div` 10)%N) as [k Hk]; [apply N.div_lt; lia|]. exists (S k). intros s.
  rewrite pretty_N_go_step by lia. destruct (Hk (String (pretty_N_char (n `mod` 10)) s)) as [-> _]. split; [|done]. simpl.
  pose proof (N.mod_lt n 10 ltac:(done)) as Hd. destruct (numeral_char _ Hd) as (-> & _).
  f_equal. pose proof (N.div_mod n 10 ltac:(done)). lia.
Qed.
(** A text that does not go on with a number. *)
Definition ends_number (t : string) : bool :=
  match t with
  | EmptyString => true
  | String a _ => match digit 10 a with Some _ => false | None => negb (bool_decide (lower a ∈ ["."; "e"; "x"]%char)) end
  end.
Lemma stops t v k : ends_number t = true → digits 10 (L t) v k = (v, k, L t).
Proof. destruct t as [|a t]; [done|]. simpl. by destruct (digit 10 a). Qed.
Lemma starts_not c t : ends_number t = true → c ∈ ["."; "e"; "x"]%char → starts c (L t) = false.
Proof.
  destruct t as [|a t]; [done|]. simpl. destruct (digit 10 a); [done|]. intros H Hc. apply negb_true_iff, bool_decide_eq_false in H.
  apply Ascii.eqb_neq. by intros <-.
Qed.
(** The front of a number's text. *)
Lemma pretty_front (n : Z) rest : (0 ≤ n)%Z → ends_number rest = true → ∃ d t k,
  L (pretty n +:+ rest) = pretty_N_char d :: t ∧ (d < 10)%N ∧ (d = 0%N → t = L rest) ∧
  digits 10 (L (pretty n +:+ rest)) 0 0 = (n, k, L rest) ∧ k ≠ 0.
Proof.
  intros Hn Hr. destruct n as [|p|p]; [| |lia].
  - exists 0%N, (L rest), 1. split_and!; try done. change (L (pretty 0%Z +:+ rest)) with ("0"%char :: L rest). cbn [digits].
    change (digit 10 "0") with (Some 0%Z). by apply (stops rest).
  - rewrite pretty_pos_app.
    destruct (digits_go (N.pos p)) as [k Hk]. destruct (Hk rest) as [E Hk0]. rewrite (stops rest) in E by done.
    destruct (pretty_go_head (N.pos p) rest) as (d & t & Hd & Hd0 & Eh); [done|].
    exists d, (L t), k. rewrite E, Eh. split_and!; try done. by apply Hk0.
Qed.
Definition signed_int (s : bool) (n : Z) : Z := if s then - n else n.
Lemma of_integer_small s n : (0 ≤ n < 2 ^ 53)%Z → (s = true → n ≠ 0%Z) → let z := signed_int s n in
  of_integer s n = float_of z ∧ is_infinite (float_of z) = false ∧ (tiny (float_of z) = true → exact (float_of z) 10 n 0 = true).
Proof.
  intros Hn Hs z. assert (of_integer s n = of_int z) as ->.
  { unfold of_integer, of_int, z, signed_int. destruct s; [|done]. destruct n as [|p|p]; [by destruct Hs|done|lia]. }
  split; [apply of_int_exact; unfold small, z, signed_int; destruct s; lia|].
  destruct n as [|p|p]; [destruct s; [by destruct Hs|by split]| |lia].
  assert (float_of z = int_float s p) as -> by (unfold z, signed_int; by destruct s).
  split; [done|]. unfold int_float. simpl. intros H. apply Z.ltb_lt in H. exfalso. revert H.
  destruct (int_float_parts s p) as (m & E & Hm & _); [unfold small; lia|]. unfold int_float in E. injection E as ->. rewrite Hm.
  pose proof (Z.log2_spec (Zpos p)) as [H1 _]; [lia|]. pose proof (log2_small (Zpos p) ltac:(lia)) as Hl.
  assert (2 ^ 52 = 2 ^ Z.log2 (Zpos p) * 2 ^ (- exponent_of (Zpos p)))%Z as ->
    by (rewrite <- Z.pow_add_r by (unfold exponent_of, prec; lia); f_equal; unfold exponent_of, prec; lia).
  pose proof (Z.pow_nonneg 2 (- exponent_of (Zpos p))). nia.
Qed.
(** The digits of an integer are no other form of number. *)
Lemma digits_read reports (s : bool) (n : Z) rest l : (0 ≤ n < 2 ^ 53)%Z → (s = true → n ≠ 0%Z) → ends_number rest = true →
  sign (skip_spaces l) = (s, L (pretty n +:+ rest)) → strtod reports l = Some (float_of (signed_int s n), false).
Proof.
  intros Hn Hs Hr Hl. destruct (pretty_front n rest) as (d & t & k & Ef & Hd & Ht & Ek & Hk); [lia|done|].
  destruct (numeral_char d Hd) as (_ & _ & Hlow & Hout & H0). unfold strtod. rewrite Hl, Ef.
  assert (∀ c p, c ∈ ["-"; "+"; "."; "i"; "n"; "e"; "x"]%char → has_prefix (c :: p) (pretty_N_char d :: t) = false) as Hpre.
  { intros c p Hc. simpl. rewrite Hlow. destruct (Ascii.eqb_spec (pretty_N_char d) c) as [<-|]; done. }
  rewrite !Hpre by (repeat constructor).
  assert (has_prefix ["0"; "x"]%char (pretty_N_char d :: t) = false) as ->.
  { simpl. rewrite Hlow. destruct (Ascii.eqb_spec (pretty_N_char d) "0") as [E|]; [|done]. simpl.
    rewrite (Ht (H0 E)). pose proof (starts_not "x" rest Hr) as Hx. destruct rest as [|a r]; [done|]. simpl in Hx |- *.
    rewrite Hx; [done|repeat constructor]. }
  rewrite <- Ef. unfold read_number, mantissa. rewrite Ek, (starts_not "." rest Hr) by (repeat constructor).
  rewrite (proj2 (Nat.eqb_neq k 0)) by done. unfold exponent. rewrite (starts_not "e" rest Hr) by (repeat constructor).
  destruct (of_integer_small s n Hn Hs) as (H1 & H2 & H3).
  assert (scaled 10 s n k (0 - 1 * Z.of_nat 0) = float_of (signed_int s n)) as ->.
  { unfold scaled. destruct n as [|p|p]; [exact H1| |lia]. rewrite (proj2 (Z.ltb_ge _ _)) by lia. rewrite (proj2 (Z.ltb_ge _ _)) by lia.
    cbn [Z.leb]. rewrite Z.mul_1_r. exact H1. }
  rewrite H2. cbn [orb]. destruct (tiny (float_of _)) eqn:E; [|by rewrite andb_false_r].
  change (0 - 1 * Z.of_nat 0)%Z with 0%Z. rewrite (H3 eq_refl). by rewrite andb_false_r.
Qed.
Lemma digits_no_sign (n : Z) rest : (0 ≤ n)%Z → ends_number rest = true →
  sign (skip_spaces (L (pretty n +:+ rest))) = (false, L (pretty n +:+ rest)).
Proof.
  intros Hn Hr. destruct (pretty_front n rest Hn Hr) as (d & t & k & -> & Hd & _).
  destruct (numeral_char d Hd) as (_ & Hs & Hlow & Hout & _). cbn [skip_spaces]. rewrite Hs. unfold sign, starts. rewrite Hlow.
  destruct (Ascii.eqb_spec (pretty_N_char d) "-") as [E|_]; [rewrite E in Hout; destruct Hout; repeat constructor|].
  destruct (Ascii.eqb_spec (pretty_N_char d) "+") as [E|_]; [rewrite E in Hout; destruct Hout; repeat constructor|done].
Qed.
(** The decimal text of an integer within 2^53 is read as that integer exactly,
    whatever follows that does not go on with a number. *)
Lemma stod_integer reports what (n : Z) rest : small n → ends_number rest = true →
  stod reports what (pretty n +:+ rest) = Ret (float_of n).
Proof.
  intros Hn Hr. unfold small in Hn. unfold stod. destruct (decide (0 ≤ n)%Z) as [H0|H0].
  - pose proof (digits_no_sign n rest H0 Hr) as Hs. by rewrite (digits_read reports false n rest _ ltac:(lia) ltac:(done) Hr Hs).
  - destruct n as [|p|p]; [lia|lia|].
    assert (sign (skip_spaces (L (pretty (Zneg p) +:+ rest))) = (true, L (pretty (Zpos p) +:+ rest))) as Hs by done.
    by rewrite (digits_read reports true (Zpos p) rest _ ltac:(lia) ltac:(done) Hr Hs).
Qed.

Definition shown_as (t : string) : option string :=
  match stod true "stod" t with Ret r => Some (format_double r) | _ => None end.
Example stod_numbers : shown_as <$>
  ["2.5"; "  -0.1"; "+7"; "1e3"; "1E-3x"; "0x1.8p1"; "0x"; "12abc"; "-inf"; "NaN"; ".5"; "5."; "1e"; "9007199254740993"; "4.9e-324"; "0x1p-1074"; "-0"] =
  [Some "2.5"; Some "-0.1"; Some "7"; Some "1000"; Some "0.001"; Some "3"; Some "0"; Some "12"; Some "-inf"; Some "nan"; Some "0.5";
   Some "5"; Some "1"; Some "9.0072e+15"; None; Some "4.94066e-324"; Some "-0"].
Proof. by_compute. Qed.
(** One rounding: the ties go to even, and the largest finite value is kept. *)
Example stod_rounds :
  stod true "stod" "9007199254740993" = Ret (decode_float64 0x4340000000000000) ∧
  stod true "stod" "0.1" = Ret (decode_float64 0x3FB999999999999A) ∧
  stod true "stod" "1.7976931348623157e308" = Ret (decode_float64 0x7FEFFFFFFFFFFFFF) ∧
  stod true "stod" "1e309" = Throw (OutOfRange "stod") ∧ stod true "stod" "1e99999999" = Throw (OutOfRange "stod") ∧
  stod true "stod" "1e-400" = Throw (OutOfRange "stod") ∧ stod false "stod" "1e-400" = Ret (S754_zero false) ∧
  (stod true "stod" <$> [""; "-"; "."; "e5"; "x"]) = replicate 5 (Throw (InvalidArgument "stod")).
Proof. by_compute. Qed.
