(* ===== verification/Calculator.v ===== *)
(** * The calculator of [auto/]: [calculator.h], [calculator.cpp] and the
    operation names of [main.cpp]

    A [double] is an IEEE 754 binary64 value of the Standard Library's
    executable specification, rounding to nearest, ties to even. *)
From Stdlib Require Import Floats.SpecFloat.
From S2P Require Import Prelude FloatFacts.

Definition double := spec_float.
(** A value cast to the enumeration may be none of its constants. *)
Inductive Operation := Add | Subtract | Multiply | Divide | Unnamed (code : Z).
Record Calculator := mkCalculator { last_result_ : double }.
Definition new_Calculator : Calculator := {| last_result_ := S754_zero false |}.

Definition result (r : double) : M Calculator double := put {| last_result_ := r |};; mret r.
Definition add (a b : double) : M Calculator double := result (SFadd prec emax a b).
Definition subtract (a b : double) : M Calculator double := result (SFsub prec emax a b).
Definition multiply (a b : double) : M Calculator double := result (SFmul prec emax a b).
Definition divide (a b : double) : M Calculator double :=
  if SFeqb b (S754_zero false) then throw (InvalidArgument "divide by zero") else result (SFdiv prec emax a b).
Definition apply_op (op : Operation) (a b : double) : M Calculator double :=
  match op with
  | Add => add a b
  | Subtract => subtract a b
  | Multiply => multiply a b
  | Divide => divide a b
  | Unnamed _ => throw (InvalidArgument "unknown operation")
  end.
Definition last_result (c : Calculator) : double := last_result_ c.

Definition parse_op (name : string) : outcome Operation :=
  if decide (name = "add") then Ret Add
  else if decide (name = "sub") then Ret Subtract
  else if decide (name = "mul") then Ret Multiply
  else if decide (name = "div") then Ret Divide
  else Throw (InvalidArgument ("unknown operation: " +:+ name)).

Lemma divides_by_zero b : SFeqb b (S754_zero false) = true ↔ ∃ s, b = S754_zero s.
Proof. destruct b as [s|s| |s m e]; cbn; split; try done; try (by intros [? ?]); [by exists s|by destruct s..]. Qed.

(** An operation fails exactly on a division by a zero of either sign or an
    operation without a name, and leaves the last result alone; otherwise the
    last result is what it returns. *)
Theorem apply_outcomes op a b c :
  match apply_op op a b c with
  | (Ret r, c') => last_result c' = r
  | (Throw e, c') => c' = c ∧
      ((op = Divide ∧ (∃ s, b = S754_zero s) ∧ e = InvalidArgument "divide by zero") ∨
       (∃ n, op = Unnamed n ∧ e = InvalidArgument "unknown operation"))
  | (Undef, _) => False
  end.
Proof.
  destruct op as [| | | |n]; simpl; try done; [|by split; [done|right; eexists]].
  unfold divide. destruct (SFeqb _ _) eqn:E; simpl; [|done].
  apply divides_by_zero in E. split; [done|by left].
Qed.

(** Small integers, as in [tests/test_calculator.cpp]. *)
Example calculator_tests :
  let run op a b := (apply_op op (of_int a) (of_int b) new_Calculator).1 in
  run Add 2%Z 3%Z = Ret (of_int 5) ∧ run Subtract 5%Z 8%Z = Ret (of_int (-3)) ∧
  run Multiply 4%Z (-2)%Z = Ret (of_int (-8)) ∧ run Divide 9%Z 3%Z = Ret (of_int 3) ∧
  run Divide 1%Z 0%Z = Throw (InvalidArgument "divide by zero").
Proof. by_compute. Qed.
