(* ===== verification/CalcMain.v ===== *)
(** * [auto/src/main.cpp] and [auto/tests/test_calculator.cpp]

    The command line of the calculator, and the tests of its class. *)
From Stdlib Require Import Floats.SpecFloat.
From S2P Require Import Prelude FloatText FloatFacts DoubleText Calculator.
Local Open Scope prog_scope.

Record Process := mkProcess { exit_code : Z; cout : string; cerr : string }.
Definition newline : string := String (Ascii.ascii_of_nat 10) "".

(** [e.what()] of a [std::exception]. *)
Definition what (e : exn) : option string :=
  match e with LogicError m | InvalidArgument m | OutOfRange m => Some m | UserError _ => None end.

Section main.
Context (reports_underflow : bool) (stod_what : string).
(** The [try] block: what is printed. *)
Definition calculate (name a b : string) : outcome double :=
  op ← parse_op name;
  lhs ← stod reports_underflow stod_what a;
  rhs ← stod reports_underflow stod_what b;
  (apply_op op lhs rhs new_Calculator).1.
(** [argv], the program's name first; without one it is null. *)
Definition main (argv : list string) : outcome Process :=
  match argv with
  | [_; name; a; b] =>
      match calculate name a b with
      | Ret r => Ret (mkProcess 0 (format_double r +:+ newline) "")
      | Throw e => match what e with Some m => Ret (mkProcess 1 "" ("error: " +:+ m +:+ newline)) | None => Throw e end
      | Undef => Undef
      end
  | [] => Undef
  | prog :: _ => Ret (mkProcess 1 "" ("usage: " +:+ prog +:+ " <add|sub|mul|div> <a> <b>" +:+ newline))
  end.

(** *** What the command line does *)
(** The exceptions it catches. *)
Definition failure (e : exn) : Prop := ∃ m, what e = Some m.
Lemma stod_fails t e : stod reports_underflow stod_what t = Throw e → failure e.
Proof. unfold stod, failure. destruct (strtod _ _) as [[r []]|]; intros H; simplify_eq; simpl; eauto. Qed.
Lemma calculate_defined name a b :
  (∃ op x y, parse_op name = Ret op ∧ stod reports_underflow stod_what a = Ret x ∧ stod reports_underflow stod_what b = Ret y ∧
    (op = Divide → ∀ s, y ≠ S754_zero s) ∧ ∃ r, calculate name a b = Ret r) ∨
  (∃ e, failure e ∧ calculate name a b = Throw e).
Proof.
  unfold calculate. destruct (parse_op name) as [op|e|] eqn:Eo.
  - simpl. destruct (stod _ _ a) as [x|e|] eqn:Ea; [|right; exists e; split; [by eapply stod_fails|done]|].
    + simpl. destruct (stod _ _ b) as [y|e|] eqn:Eb; [|right; exists e; split; [by eapply stod_fails|done]|].
      * simpl. unfold apply_op, divide. destruct op as [| | | |n]; simpl;
          try (left; eexists _, x, y; split_and!; [done..|by eexists]).
        -- destruct (SFeqb y (S754_zero false)) eqn:E; [right; eexists; split; [|done]; by eexists|].
           left. eexists _, x, y. split_and!; [done..| |by eexists]. intros _ s ->. by destruct s.
        -- right. eexists. split; [|done]. by eexists.
      * unfold stod in Eb. by destruct (strtod _ _) as [[? []]|].
    + unfold stod in Ea. by destruct (strtod _ _) as [[? []]|].
  - right. exists e. split; [|done]. unfold parse_op in Eo. repeat case_decide; simplify_eq. by eexists.
  - unfold parse_op in Eo. by repeat case_decide.
Qed.

(** Started with any arguments, the program ends: it exits with 0 and prints a
    number, nothing on the error stream, exactly when there are three arguments,
    the first names an operation, the others are read as numbers, and it is not
    a division by a zero; otherwise it exits with 1 and prints only a message. *)
Theorem main_exits prog args : ∃ p, main (prog :: args) = Ret p ∧
  ((exit_code p = 0%Z ∧ cerr p = "" ∧ cout p ≠ "" ∧ ∃ name a b op x y, args = [name; a; b] ∧ parse_op name = Ret op ∧
      stod reports_underflow stod_what a = Ret x ∧ stod reports_underflow stod_what b = Ret y ∧ (op = Divide → ∀ s, y ≠ S754_zero s)) ∨
   (exit_code p = 1%Z ∧ cout p = "" ∧ cerr p ≠ "")).
Proof.
  assert (∀ q t, ∃ p, Ret (mkProcess 1 "" (q +:+ t)) = Ret p ∧ exit_code p = 1%Z ∧ cout p = "" ∧ cerr p = q +:+ t) as Herr by eauto.
  assert (∀ q t, t ≠ "" → q +:+ t ≠ "") as Happ by (intros [|??] t Ht; done).
  destruct args as [|name [|a [|b [|c args]]]]; simpl;
    try (eexists; split; [done|right; split_and!; [done..|]; apply Happ; by apply Happ]).
  destruct (calculate_defined name a b) as [(op & x & y & Ho & Ha & Hb & Hz & r & ->)|(e & [m He] & ->)].
  - eexists. split; [done|]. left. split_and!; [done..|by apply Happ|]. by exists name, a, b, op, x, y.
  - rewrite He. eexists. split; [done|]. right. split_and!; [done..|]. by apply Happ, Happ.
Qed.

(** The operation on integers. *)
Definition integer_result (op : Operation) (a b : Z) : option Z :=
  match op with
  | Add => Some (a + b) | Subtract => Some (a - b) | Multiply => Some (a * b)
  | Divide => if (b =? 0) || negb (a mod b =? 0) then None else Some (a / b)
  | Unnamed _ => None
  end%Z.
(** A zero product or quotient has the sign of its operands. *)
Definition minus_zero (op : Operation) (a b r : Z) : bool :=
  (r =? 0)%Z && match op with Multiply | Divide => xorb (a <? 0)%Z (b <? 0)%Z | _ => false end.
Definition shown (op : Operation) (a b r : Z) : string :=
  if minus_zero op a b r then "-0" else format_double (float_of r).
Lemma apply_integers op a b r : small a → small b → integer_result op a b = Some r → small r →
  ∃ d, (apply_op op (float_of a) (float_of b) new_Calculator).1 = Ret d ∧ format_double d = shown op a b r.
Proof.
  intros Ha Hb Hr Hs. unfold shown, minus_zero.
  destruct op; simpl in Hr |- *; rewrite ?andb_false_r; try done.
  - injection Hr as <-. eexists. split; [done|]. by rewrite add_exact.
  - injection Hr as <-. eexists. split; [done|]. by rewrite sub_exact.
  - injection Hr as <-. eexists. split; [done|]. destruct (Z.eqb_spec (a * b) 0) as [Hz|]; [|by rewrite mul_exact].
    by destruct a as [|p|p], b as [|q|q].
  - destruct (Z.eqb_spec b 0) as [|Hb0]; [done|]. destruct (Z.eqb_spec (a mod b) 0) as [Hm|]; [|done]. injection Hr as <-.
    assert (a = a / b * b)%Z as Hq by (pose proof (Z.div_mod a b Hb0); lia).
    unfold divide. destruct (SFeqb (float_of b) (S754_zero false)) eqn:E.
    { apply divides_by_zero in E as [sg E]. by destruct b. }
    eexists. split; [done|]. destruct (Z.eqb_spec (a / b) 0) as [Hz|Hz].
    + rewrite Hz in Hq |- *. subst a. by destruct b.
    + rewrite Hq at 1. rewrite div_exact by (done || nia || by rewrite <- Hq). done.
Qed.
(** C31: two integers between -2^53 and 2^53, each followed by nothing or by text
    that does not go on with the number, are added, subtracted, multiplied and,
    without remainder, divided exactly as long as the result is in those bounds
    too: what is printed is the result in the default format of a stream, all its
    digits below a million, six significant digits from there on.  A zero that is
    the product or the quotient of numbers of different signs is printed as -0. *)
Theorem integers_exact prog name op (a b r : Z) resta restb :
  parse_op name = Ret op → small a → small b →
  ends_number resta = true → ends_number restb = true → integer_result op a b = Some r → small r →
  main [prog; name; pretty a +:+ resta; pretty b +:+ restb] = Ret (mkProcess 0 (shown op a b r +:+ newline) "") ∧
  (Z.abs r < 10 ^ 6 → shown op a b r = if minus_zero op a b r then "-0" else pretty r)%Z.
Proof.
  intros Ho Ha Hb Hra Hrb Hr Hs. split.
  - unfold main, calculate. rewrite Ho. simpl. rewrite !stod_integer by done. simpl.
    destruct (apply_integers op a b r) as (d & -> & <-); done.
  - intros Hlt. unfold shown. by destruct (minus_zero op a b r); [|apply format_small].
Qed.
End main.

(** ** Runs *)
Definition run (args : list string) : outcome Process := main true "stod" ("calc" :: args).
Example calc_runs : run <$> [["add"; "2"; "3"]; ["div"; "1"; "-0"]; ["mul"; "0.1x"; "3"]; ["pow"; "1"; "2"]; ["sub"; "two"; "1"]; ["add"; "1e999"; "1"]; ["add"]] =
  [Ret (mkProcess 0 ("5" +:+ newline) ""); Ret (mkProcess 1 "" ("error: divide by zero" +:+ newline));
   Ret (mkProcess 0 ("0.3" +:+ newline) ""); Ret (mkProcess 1 "" ("error: unknown operation: pow" +:+ newline));
   Ret (mkProcess 1 "" ("error: stod" +:+ newline)); Ret (mkProcess 1 "" ("error: stod" +:+ newline));
   Ret (mkProcess 1 "" ("usage: calc <add|sub|mul|div> <a> <b>" +:+ newline))].
Proof. by_compute. Qed.
Lemma integers_exact_witness :
  run ["div"; "-54apples"; "3"] = Ret (mkProcess 0 ("-18" +:+ newline) "").
Proof.
  destruct (integers_exact true "stod" "calc" "div" Divide (-54) 3 (-18) "apples" "") as [H Ht]; [done..|].
  rewrite Ht in H by done. exact H.
Defined.
Example seven_digits : run <$> [["add"; "1234567"; "0"]; ["mul"; "0"; "-7"]] =
  [Ret (mkProcess 0 ("1.23457e+06" +:+ newline) ""); Ret (mkProcess 0 ("-0" +:+ newline) "")].
Proof. by_compute. Qed.

(** ** The tests of the class *)
(** A check: whether its condition holds; the failures are counted. *)
Definition check (condition : bool) (failures : nat) : nat := if condition then failures else S failures.
(** [check_close], with the tolerance 1e-9. *)
Definition eps : double := decode_float64 0x3E112E0BE826D695.
Definition close (actual : outcome double) (expected : Z) : bool :=
  match actual with
  | Ret r => negb (SFltb eps (SFabs (SFsub prec emax r (of_int expected))))
  | _ => false
  end.
Definition halves (z : Z) : double := binary_normalize prec emax z (-1) false.
Definition result_of (m : M Calculator double) : outcome double := (m new_Calculator).1.
Definition test_arithmetic : list bool := [
  close (result_of (add (of_int 2) (of_int 3))) 5; close (result_of (subtract (of_int 5) (of_int 3))) 2;
  close (result_of (multiply (of_int 4) (halves 5))) 10; close (result_of (divide (of_int 9) (of_int 3))) 3].
Definition test_apply : list bool := [
  close (result_of (apply_op Add (of_int 1) (of_int 1))) 2; close (result_of (apply_op Subtract (of_int 1) (of_int 1))) 0;
  close (result_of (apply_op Multiply (of_int 3) (of_int 3))) 9; close (result_of (apply_op Divide (of_int 8) (of_int 2))) 4].
Definition test_last_result : list bool :=
  let '(unused, c) := multiply (of_int 6) (of_int 7) new_Calculator in
  [match unused with Ret r => SFeqb r (of_int 42) | _ => false end; close (Ret (last_result c)) 42].
Definition test_divide_by_zero : list bool :=
  [match result_of (divide (of_int 1) (of_int 0)) with Throw (InvalidArgument _) => true | _ => false end].
Definition failures : nat := foldr check 0 (test_arithmetic ++ test_apply ++ test_last_result ++ test_divide_by_zero).
Definition test_exit : Z * string := if failures =? 0 then (0%Z, "all tests passed") else (1%Z, "").
Example tests_pass : test_exit = (0%Z, "all tests passed").
Proof. by_compute. Qed.
