(* ===== verification/HfsmCore.v ===== *)
(** * The runtime state-machine engine of [state_machine/include/hfsm/core]

    [event.hpp] (the envelope), [state.hpp] (identifiers and flags) and
    [machine.hpp] (the engine).  The members that registration fills
    ([rules_], the callback tables, the names, the logger, the configuration)
    form an [EngineDef]; the members a running machine changes form an
    [EngineState], together with the [world], the objects the callbacks
    capture.  A callback is a monadic call on that state, so it may read and
    write the engine's own members, throw, or have no behaviour. *)
From S2P Require Import Prelude.

(** ** Identifiers: [state.hpp] *)
Module StateIds.
(** [using StateId = std::size_t], 64 bits wide. *)
Abbreviation StateId := N.
Definition INVALID_STATE : StateId := 18446744073709551615%N.
Definition ROOT_STATE : StateId := 0%N.

(** [StateFlag]: an [enum class : uint8_t] of single bits. *)
Inductive StateFlag := flag (bits : Z).
Definition flag_bits (f : StateFlag) : Z := let 'flag b := f in b.
Definition None_ : StateFlag := flag 0.
Definition Initial : StateFlag := flag (Z.shiftl 1 0).
Definition Final : StateFlag := flag (Z.shiftl 1 1).
Definition History : StateFlag := flag (Z.shiftl 1 2).
Definition DeepHistory : StateFlag := flag (Z.shiftl 1 3).
Definition Parallel : StateFlag := flag (Z.shiftl 1 4).
Definition Orthogonal : StateFlag := flag (Z.shiftl 1 5).
(** [operator|] casts the promoted result back to [uint8_t]. *)
Definition flag_or (a b : StateFlag) : StateFlag :=
  flag (uwrap 8 (Z.lor (flag_bits a) (flag_bits b))).
Definition has_flag (flags f : StateFlag) : bool :=
  negb (Z.land (flag_bits flags) (flag_bits f) =? 0)%Z.

(** [StateInstance]: the identifier of a runtime state object. *)
Record StateInstance := { inst_id : StateId }.
Definition default_instance : StateInstance := {| inst_id := INVALID_STATE |}.
Definition inst_valid (i : StateInstance) : bool := negb (inst_id i =? INVALID_STATE)%N.
End StateIds.
Export StateIds.

(** ** Events: [event.hpp] *)

(** The event structs of a program: a tagged union with the [std::type_info] of
    each of its members. *)
Class Events (Ev : Type) := {
  EvType : Type;
  ev_typeid : Ev → EvType;
  EvType_dec :: EqDecision EvType
}.

Section event.
Context {Ev : Type} `{!Events Ev}.

(** The value a [std::any] holds: one of the program's events, or the [int] of
    the envelope the engine makes up for entry and exit callbacks. *)
Inductive any_value :=
  | any_int (z : Z)
  | any_ev (e : Ev).
Inductive type_index :=
  | type_int
  | type_ev (t : EvType).
#[export] Instance type_index_eq_dec : EqDecision type_index.
Proof. solve_decision. Defined.

Definition type_of (v : any_value) : type_index :=
  match v with any_int _ => type_int | any_ev e => type_ev (ev_typeid e) end.

Record EventEnvelope := { data_ : any_value; type_ : type_index }.

(** [EventEnvelope(E&& evt)] *)
Definition envelope (v : any_value) : EventEnvelope :=
  {| data_ := v; type_ := type_of v |}.
(** What the constructor guarantees: the type is that of the data. *)
Definition wf_env (e : EventEnvelope) : Prop := type_ e = type_of (data_ e).
(** [is<E>()] *)
Definition envelope_is (t : type_index) (e : EventEnvelope) : bool :=
  bool_decide (type_ e = t).
(** [get<E>()]: [std::any_cast] gives a null pointer on another type, and the
    code dereferences it. *)
Definition envelope_get {A} (sel : Ev → option A) (e : EventEnvelope) : outcome A :=
  match data_ e with
  | any_ev v => match sel v with Some a => Ret a | None => Undef end
  | any_int _ => Undef
  end.
End event.
Arguments any_value Ev : clear implicits.
Arguments type_index Ev {_}.
Arguments EventEnvelope Ev {_}.

(** ** The engine: [machine.hpp] *)
Inductive EventResult := Handled | Unhandled | Deferred | Rejected | Error.
#[export] Instance EventResult_eq_dec : EqDecision EventResult.
Proof. solve_decision. Defined.

Record ActiveState := {
  as_id : StateId;
  active_children : list StateId;
  as_history : StateId;
  history_stack : list StateId
}.
(** [ActiveState{}] and [ActiveState{id, {}, INVALID_STATE, {}}] *)
Definition default_ActiveState : ActiveState :=
  {| as_id := INVALID_STATE; active_children := []; as_history := INVALID_STATE; history_stack := [] |}.
Definition mk_ActiveState (id : StateId) : ActiveState :=
  {| as_id := id; active_children := []; as_history := INVALID_STATE; history_stack := [] |}.

Record MachineConfig := {
  enable_logging : bool;
  throw_on_invalid_event : bool;
  defer_unhandled_events : bool
}.
Definition default_MachineConfig : MachineConfig :=
  {| enable_logging := false; throw_on_invalid_event := false; defer_unhandled_events := false |}.

Section engine.
Context {Ev : Type} `{!Events Ev} {W : Type}.

Record EngineState := {
  initial_state_ : StateId;
  active_state_ : ActiveState;
  states_ : gmap StateId ActiveState;
  deferred_events_ : list (EventEnvelope Ev);
  world : W
}.

Definition set_active (a : ActiveState) (s : EngineState) : EngineState :=
  {| initial_state_ := initial_state_ s; active_state_ := a; states_ := states_ s;
     deferred_events_ := deferred_events_ s; world := world s |}.
Definition set_states (m : gmap StateId ActiveState) (s : EngineState) : EngineState :=
  {| initial_state_ := initial_state_ s; active_state_ := active_state_ s; states_ := m;
     deferred_events_ := deferred_events_ s; world := world s |}.
Definition set_deferred (l : list (EventEnvelope Ev)) (s : EngineState) : EngineState :=
  {| initial_state_ := initial_state_ s; active_state_ := active_state_ s; states_ := states_ s;
     deferred_events_ := l; world := world s |}.
Definition set_world (w : W) (s : EngineState) : EngineState :=
  {| initial_state_ := initial_state_ s; active_state_ := active_state_ s; states_ := states_ s;
     deferred_events_ := deferred_events_ s; world := w |}.

Definition Callback (A : Type) : Type := EventEnvelope Ev → M EngineState A.

(** An empty [std::function] is [None]. *)
Record RuntimeTransition := {
  src_id : StateId;
  event_type : type_index Ev;
  dst_id : StateId;
  is_any : bool;
  is_internal : bool;
  guard : option (Callback bool);
  action : option (Callback unit)
}.

Record EngineDef := {
  config_ : MachineConfig;
  rules_ : list RuntimeTransition;
  state_names_ : gmap StateId string;
  entry_actions_ : gmap StateId (Callback unit);
  exit_actions_ : gmap StateId (Callback unit);
  logger_ : option (string → M EngineState unit)
}.

Record StateMachineEngine := { engine_def : EngineDef; engine_state : EngineState }.

(** [StateMachineEngine(MachineConfig cfg)] *)
Definition new_engine (cfg : MachineConfig) (w : W) : StateMachineEngine :=
  {| engine_def := {| config_ := cfg; rules_ := []; state_names_ := ∅; entry_actions_ := ∅;
                      exit_actions_ := ∅; logger_ := None |};
     engine_state := {| initial_state_ := INVALID_STATE; active_state_ := default_ActiveState;
                        states_ := ∅; deferred_events_ := []; world := w |} |}.

(** *** Registration *)
Definition with_state (f : EngineState → EngineState) (m : StateMachineEngine) : StateMachineEngine :=
  {| engine_def := engine_def m; engine_state := f (engine_state m) |}.
Definition with_def (f : EngineDef → EngineDef) (m : StateMachineEngine) : StateMachineEngine :=
  {| engine_def := f (engine_def m); engine_state := engine_state m |}.

Definition register_state_st (id : StateId) (s : EngineState) : EngineState :=
  match states_ s !! id with
  | Some _ => s
  | None => set_states (<[id := mk_ActiveState id]> (states_ s)) s
  end.
Definition register_state (id : StateId) : StateMachineEngine → StateMachineEngine :=
  with_state (register_state_st id).

(** [states_[id]]: a missing key is inserted with a default value. *)
Definition index_states (id : StateId) (s : EngineState) : ActiveState * EngineState :=
  match states_ s !! id with
  | Some a => (a, s)
  | None => (default_ActiveState, set_states (<[id := default_ActiveState]> (states_ s)) s)
  end.

Definition set_initial_st (id : StateId) (s : EngineState) : EngineState :=
  let s := register_state_st id s in
  let s := {| initial_state_ := id; active_state_ := active_state_ s; states_ := states_ s;
              deferred_events_ := deferred_events_ s; world := world s |} in
  if (as_id (active_state_ s) =? INVALID_STATE)%N then
    let '(a, s) := index_states id s in set_active a s
  else s.
Definition set_initial (id : StateId) : StateMachineEngine → StateMachineEngine :=
  with_state (set_initial_st id).

Definition add_rule (r : RuntimeTransition) : StateMachineEngine → StateMachineEngine :=
  with_def (λ d, {| config_ := config_ d; rules_ := rules_ d ++ [r]; state_names_ := state_names_ d;
                    entry_actions_ := entry_actions_ d; exit_actions_ := exit_actions_ d;
                    logger_ := logger_ d |}).
Definition set_state_name (id : StateId) (name : string) : StateMachineEngine → StateMachineEngine :=
  with_def (λ d, {| config_ := config_ d; rules_ := rules_ d;
                    state_names_ := <[id := name]> (state_names_ d);
                    entry_actions_ := entry_actions_ d; exit_actions_ := exit_actions_ d;
                    logger_ := logger_ d |}).
Definition on_entry (id : StateId) (cb : Callback unit) : StateMachineEngine → StateMachineEngine :=
  with_def (λ d, {| config_ := config_ d; rules_ := rules_ d; state_names_ := state_names_ d;
                    entry_actions_ := <[id := cb]> (entry_actions_ d);
                    exit_actions_ := exit_actions_ d; logger_ := logger_ d |}).
Definition on_exit (id : StateId) (cb : Callback unit) : StateMachineEngine → StateMachineEngine :=
  with_def (λ d, {| config_ := config_ d; rules_ := rules_ d; state_names_ := state_names_ d;
                    entry_actions_ := entry_actions_ d;
                    exit_actions_ := <[id := cb]> (exit_actions_ d); logger_ := logger_ d |}).
Definition set_logger (f : string → M EngineState unit) : StateMachineEngine → StateMachineEngine :=
  with_def (λ d, {| config_ := config_ d; rules_ := rules_ d; state_names_ := state_names_ d;
                    entry_actions_ := entry_actions_ d; exit_actions_ := exit_actions_ d;
                    logger_ := Some f |}).
Definition get_state_name (d : EngineDef) (id : StateId) : string :=
  default "unknown" (state_names_ d !! id).

(** *** Queries *)
Definition is_in (id : StateId) (s : EngineState) : bool := (as_id (active_state_ s) =? id)%N.
Definition current_state (s : EngineState) : StateId := as_id (active_state_ s).

(** *** Running *)
Definition log (d : EngineDef) (msg : string) : M EngineState unit :=
  match logger_ d with
  | Some f => f ("[hfsm] " +:+ msg)
  | None => mret tt
  end.

Definition run_entry (d : EngineDef) (id : StateId) : M EngineState unit :=
  match entry_actions_ d !! id with
  | Some cb => cb (envelope (any_int 0))
  | None => mret tt
  end.
Definition run_exit (d : EngineDef) (id : StateId) : M EngineState unit :=
  match exit_actions_ d !! id with
  | Some cb => cb (envelope (any_int 0))
  | None => mret tt
  end.

(** [rule.event_type != evt.type_info()], then [is_any], then the source. *)
Definition matches (r : RuntimeTransition) (e : EventEnvelope Ev) (s : EngineState) : bool :=
  if decide (event_type r = type_ e) then
    if is_any r then true else (src_id r =? as_id (active_state_ s))%N
  else false.

(** [active_state_ = states_[id]] *)
Definition enter_active (id : StateId) : M EngineState unit :=
  λ s, let '(a, s) := index_states id s in (Ret tt, set_active a s).

Definition run_action (a : option (Callback unit)) (e : EventEnvelope Ev) : M EngineState unit :=
  match a with Some f => f e | None => mret tt end.
Definition run_guard (g : option (Callback bool)) (e : EventEnvelope Ev) : M EngineState bool :=
  match g with Some f => f e | None => mret true end.

Definition execute_transition (d : EngineDef) (r : RuntimeTransition) (e : EventEnvelope Ev) :
    M EngineState unit :=
  if is_internal r then run_action (action r) e
  else
    s ← get;
    let exit_id := as_id (active_state_ s) in
    let enter_id := dst_id r in
    run_exit d exit_id ;;
    enter_active enter_id ;;
    run_action (action r) e ;;
    run_entry d enter_id ;;
    log d (get_state_name d exit_id +:+ " -> " +:+ get_state_name d enter_id).

Definition defer_event (e : EventEnvelope Ev) : M EngineState unit :=
  modify (λ s, set_deferred (deferred_events_ s ++ [e]) s).

Fixpoint handle_rules (d : EngineDef) (rs : list RuntimeTransition) (e : EventEnvelope Ev) :
    M EngineState EventResult :=
  match rs with
  | [] =>
      if defer_unhandled_events (config_ d) then defer_event e ;; mret Deferred
      else mret Unhandled
  | r :: rs' =>
      s ← get;
      if matches r e s then
        ok ← run_guard (guard r) e;
        if (ok : bool) then execute_transition d r e ;; mret Handled
        else log d "guard rejected" ;; handle_rules d rs' e
      else handle_rules d rs' e
  end.
Definition handle_envelope (d : EngineDef) (e : EventEnvelope Ev) : M EngineState EventResult :=
  handle_rules d (rules_ d) e.
(** [handle<E>(raw_event)] *)
Definition handle (d : EngineDef) (e : Ev) : M EngineState EventResult :=
  handle_envelope d (envelope (any_ev e)).

Fixpoint process_events (d : EngineDef) (es : list (EventEnvelope Ev)) (result : EventResult) :
    M EngineState EventResult :=
  match es with
  | [] => mret result
  | e :: es' =>
      r ← handle_envelope d e;
      process_events d es' (if decide (r = Unhandled) then Unhandled else result)
  end.
(** The queue is moved out first, so a throwing handler loses what is left. *)
Definition process_deferred (d : EngineDef) : M EngineState EventResult :=
  s ← get;
  modify (set_deferred []) ;;
  process_events d (deferred_events_ s) Handled.

Definition reset (d : EngineDef) : M EngineState unit :=
  s ← get;
  when (negb (as_id (active_state_ s) =? INVALID_STATE)%N &&
        negb (as_id (active_state_ s) =? initial_state_ s)%N)
    (run_exit d (as_id (active_state_ s))) ;;
  (s ← get; enter_active (initial_state_ s)) ;;
  (s ← get; when (negb (as_id (active_state_ s) =? INVALID_STATE)%N)
    (run_entry d (as_id (active_state_ s)))) ;;
  modify (set_deferred []).

(** A sequence of [handle] calls, as a program makes them: an exception that
    leaves one call does not stop the next. *)
Fixpoint handle_all (d : EngineDef) (es : list Ev) (s : EngineState) : EngineState :=
  match es with
  | [] => s
  | e :: es' => handle_all d es' (handle d e s).2
  end.
End engine.
Arguments EngineState Ev {_} W.
Arguments RuntimeTransition Ev {_} W.
Arguments EngineDef Ev {_} W.
Arguments StateMachineEngine Ev {_} W.
Arguments Callback Ev {_} W A.

(** ** The control automaton an engine implements

    With callbacks that touch only the world and guards that are functions of
    the event, the engine is the automaton [next_control] over state
    identifiers: the first enabled rule in registration order fires. *)
Section control_spec.
Context {Ev : Type} `{!Events Ev} {W : Type}.
Implicit Types (d : EngineDef Ev W) (r : RuntimeTransition Ev W) (s : EngineState Ev W).

(** A call that succeeds and writes nothing but the world. *)
Definition world_only (m : M (EngineState Ev W) unit) : Prop :=
  ∀ s, ∃ w, m s = (Ret tt, set_world w s).

Record passive (d : EngineDef Ev W) : Prop := {
  passive_entry i cb : entry_actions_ d !! i = Some cb → world_only (cb (envelope (any_int 0)));
  passive_exit i cb : exit_actions_ d !! i = Some cb → world_only (cb (envelope (any_int 0)));
  passive_action r a e :
    r ∈ rules_ d → action r = Some a → wf_env e → event_type r = type_ e → world_only (a e);
  passive_log f msg : logger_ d = Some f → world_only (f msg)
}.

(** [p] is what the guard of [r] computes, on the events it is called with. *)
Definition guard_is (r : RuntimeTransition Ev W) (p : EventEnvelope Ev → bool) : Prop :=
  ∀ e s, wf_env e → event_type r = type_ e → run_guard (guard r) e s = (Ret (p e), s).
(** The value of a guard on a sample state: what it computes, when it does not
    look at the state. *)
Definition guard_value s0 (r : RuntimeTransition Ev W) (e : EventEnvelope Ev) : bool :=
  match run_guard (guard r) e s0 with (Ret b, _) => b | _ => false end.

Definition enabled (gp : RuntimeTransition Ev W → EventEnvelope Ev → bool)
    (cur : StateId) (e : EventEnvelope Ev) (r : RuntimeTransition Ev W) : bool :=
  bool_decide (event_type r = type_ e) && (is_any r || (src_id r =? cur)%N) && gp r e.
Definition select (gp : RuntimeTransition Ev W → EventEnvelope Ev → bool) d
    (cur : StateId) (e : EventEnvelope Ev) : option (RuntimeTransition Ev W) :=
  List.find (enabled gp cur e) (rules_ d).
Definition target (cur : StateId) (r : RuntimeTransition Ev W) : StateId :=
  if is_internal r then cur else dst_id r.

(** The automaton: its next state, its answer, and what it defers. *)
Definition next_control gp d (cur : StateId) (e : EventEnvelope Ev) : StateId :=
  match select gp d cur e with Some r => target cur r | None => cur end.
Definition verdict gp d (cur : StateId) (e : EventEnvelope Ev) : EventResult :=
  match select gp d cur e with
  | Some _ => Handled
  | None => if defer_unhandled_events (config_ d) then Deferred else Unhandled
  end.
Definition deferral gp d (cur : StateId) (e : EventEnvelope Ev) : list (EventEnvelope Ev) :=
  match select gp d cur e with
  | Some _ => []
  | None => if defer_unhandled_events (config_ d) then [e] else []
  end.

(** The events left over when a queue is fed to the automaton. *)
Fixpoint drain (gp : RuntimeTransition Ev W → EventEnvelope Ev → bool) d
    (cur : StateId) (es : list (EventEnvelope Ev)) : StateId * list (EventEnvelope Ev) :=
  match es with
  | [] => (cur, [])
  | e :: es' =>
      match select gp d cur e with
      | Some r => drain gp d (target cur r) es'
      | None => let '(c, rest) := drain gp d cur es' in (c, e :: rest)
      end
  end.

(** Every state a rule can enter is registered, under its own identifier, and
    so are the initial and the active one. *)
Record engine_ok d s : Prop := {
  ok_ids i a : states_ s !! i = Some a → as_id a = i;
  ok_dst r : r ∈ rules_ d → is_internal r = false → is_Some (states_ s !! dst_id r);
  ok_initial : is_Some (states_ s !! initial_state_ s);
  ok_active : is_Some (states_ s !! current_state s)
}.

(** The same, as a test a concrete machine can run. *)
Definition engine_check d s : bool :=
  bool_decide (map_Forall (λ i a, as_id a = i) (states_ s)) &&
  forallb (λ r, is_internal r || bool_decide (is_Some (states_ s !! dst_id r))) (rules_ d) &&
  bool_decide (is_Some (states_ s !! initial_state_ s)) &&
  bool_decide (is_Some (states_ s !! current_state s)).

Definition callbacks_ok d : Prop :=
  (∀ i cb e, entry_actions_ d !! i = Some cb → preserves (engine_ok d) (cb e)) ∧
  (∀ i cb e, exit_actions_ d !! i = Some cb → preserves (engine_ok d) (cb e)) ∧
  (∀ r e, r ∈ rules_ d → preserves (engine_ok d) (run_guard (guard r) e)) ∧
  (∀ r e, r ∈ rules_ d → preserves (engine_ok d) (run_action (action r) e)) ∧
  (∀ msg, preserves (engine_ok d) (log d msg)).
End control_spec.

(** ** [TypedStateId<T>]

    It keeps its counter in a static local of a member of the template, so
    there is one counter per instantiation. *)
Section typed_ids.
Context {T : Type} `{Countable T}.

Record Statics := { counters : gmap T StateId; sids : gmap T StateId }.
Definition no_statics : Statics := {| counters := ∅; sids := ∅ |}.

(** [next_id()]: [static StateId counter = 1; return counter++;] *)
Definition next_id (t : T) (m : Statics) : StateId * Statics :=
  let c := default 1%N (counters m !! t) in
  (c, {| counters := <[t := Z.to_N (uwrap 64 (Z.of_N c + 1))]> (counters m); sids := sids m |}).
(** [TypedStateId<T>::id()] *)
Definition typed_id (t : T) (m : Statics) : StateId * Statics :=
  match sids m !! t with
  | Some sid => (sid, m)
  | None => let '(c, m) := next_id t m in (c, {| counters := counters m; sids := <[t := c]> (sids m) |})
  end.
Fixpoint typed_ids (ts : list T) (m : Statics) : list StateId * Statics :=
  match ts with
  | [] => ([], m)
  | t :: ts' => let '(i, m) := typed_id t m in let '(l, m) := typed_ids ts' m in (i :: l, m)
  end.
End typed_ids.
Arguments Statics T {_ _}.

(** ** Facts about the engine *)
Section engine_facts.
Context {Ev : Type} `{!Events Ev} {W : Type}.
Implicit Types (d : EngineDef Ev W) (r : RuntimeTransition Ev W) (s : EngineState Ev W).

Lemma matches_current r e s :
  matches r e s = bool_decide (event_type r = type_ e) && (is_any r || (src_id r =? current_state s)%N).
Proof. unfold matches, current_state. case_decide; destruct (is_any r); by case_bool_decide. Qed.

Lemma find_enabled gp cur e rs r :
  List.find (enabled gp cur e) rs = Some r → r ∈ rs ∧ event_type r = type_ e.
Proof.
  intros [Hr Hen]%List.find_some. split; [by apply list_elem_of_In|].
  unfold enabled in Hen. apply andb_prop in Hen as [Hen _]. apply andb_prop in Hen as [Hen _].
  by apply bool_decide_eq_true in Hen.
Qed.

Lemma engine_check_ok d s : engine_check d s = true → engine_ok d s.
Proof.
  unfold engine_check. rewrite !andb_true_iff, !bool_decide_eq_true, forallb_forall.
  intros [[[Hids Hdst] Hini] Hact]. constructor; [done| |done..].
  intros r Hr%list_elem_of_In Hint. specialize (Hdst r Hr).
  rewrite Hint in Hdst. by apply bool_decide_eq_true in Hdst.
Qed.

Lemma world_only_ret : world_only (mret tt : M (EngineState Ev W) unit).
Proof. intros s. exists (world s). by destruct s. Qed.

Lemma world_only_bind (m1 m2 : M (EngineState Ev W) unit) :
  world_only m1 → world_only m2 → world_only (m1 ;; m2).
Proof.
  intros H1 H2 s. destruct (H1 s) as [w1 E1]. destruct (H2 (set_world w1 s)) as [w2 E2].
  exists w2. by rewrite (M_bind_ret _ _ _ _ _ E1), E2.
Qed.

Lemma world_only_modify (f : EngineState Ev W → EngineState Ev W) (g : W → W) :
  (∀ s, f s = set_world (g (world s)) s) → world_only (modify f).
Proof. intros Hf s. exists (g (world s)). unfold modify. by rewrite Hf. Qed.

Section with_passive.
Context (d : EngineDef Ev W) (Hp : passive d).

Lemma passive_run_entry i : world_only (run_entry d i).
Proof.
  unfold run_entry. destruct (entry_actions_ d !! i) eqn:E; [by eapply passive_entry|].
  apply world_only_ret.
Qed.
Lemma passive_run_exit i : world_only (run_exit d i).
Proof.
  unfold run_exit. destruct (exit_actions_ d !! i) eqn:E; [by eapply passive_exit|].
  apply world_only_ret.
Qed.
Lemma passive_run_action r e :
  r ∈ rules_ d → wf_env e → event_type r = type_ e → world_only (run_action (action r) e).
Proof.
  intros Hr He Ht. unfold run_action. destruct (action r) eqn:E; [by eapply passive_action|].
  apply world_only_ret.
Qed.
Lemma passive_run_log msg : world_only (log d msg).
Proof.
  unfold log. destruct (logger_ d) eqn:E; [by eapply passive_log|]. apply world_only_ret.
Qed.

(** A transition is its effect on the control part, up to the world. *)
Lemma execute_passive r e s :
  r ∈ rules_ d → wf_env e → event_type r = type_ e →
  ∃ w, execute_transition d r e s =
    (Ret tt, if is_internal r then set_world w s
             else let '(a, s') := index_states (dst_id r) s in set_active a (set_world w s')).
Proof.
  intros Hr He Ht. unfold execute_transition. destruct (is_internal r).
  { apply (passive_run_action r e Hr He Ht s). }
  rewrite M_bind_get.
  destruct (passive_run_exit (as_id (active_state_ s)) s) as [w1 E1].
  rewrite (M_bind_ret _ _ _ _ _ E1).
  set (s2 := (enter_active (dst_id r) (set_world w1 s)).2).
  assert (enter_active (dst_id r) (set_world w1 s) = (Ret tt, s2)) as E2.
  { unfold s2, enter_active, index_states. simpl. by destruct (states_ s !! dst_id r). }
  rewrite (M_bind_ret _ _ _ _ _ E2).
  assert (world_only (run_action (action r) e ;; run_entry d (dst_id r) ;;
    log d (get_state_name d (as_id (active_state_ s)) +:+ " -> " +:+ get_state_name d (dst_id r)))) as H3.
  { apply world_only_bind, world_only_bind; auto using passive_run_action, passive_run_entry, passive_run_log. }
  destruct (H3 s2) as [w2 ->]. exists w2. f_equal.
  unfold s2, enter_active, index_states. simpl. by destruct (states_ s !! dst_id r).
Qed.

Context (gp : RuntimeTransition Ev W → EventEnvelope Ev → bool).
Context (Hg : ∀ r, r ∈ rules_ d → guard_is r (gp r)).

Lemma handle_rules_select rs e s :
  wf_env e → (∀ r, r ∈ rs → r ∈ rules_ d) →
  ∃ w, handle_rules d rs e s =
    match List.find (enabled gp (current_state s) e) rs with
    | Some r => (execute_transition d r e ;; mret Handled) (set_world w s)
    | None => handle_rules d [] e (set_world w s)
    end.
Proof.
  intros He. revert s. induction rs as [|r rs IH]; intros s Hin.
  { exists (world s). by destruct s. }
  change (handle_rules d (r :: rs) e s) with
    ((if matches r e s then
        ok ← run_guard (guard r) e;
        if (ok : bool) then execute_transition d r e ;; mret Handled
        else log d "guard rejected" ;; handle_rules d rs e
      else handle_rules d rs e) s).
  simpl List.find. unfold enabled at 1. rewrite matches_current.
  assert (r ∈ r :: rs) as Hr by left.
  destruct (bool_decide _ && _) eqn:Hm; simpl; [|apply IH; intros; apply Hin; by right].
  apply andb_prop in Hm as [Ht%bool_decide_eq_true _].
  rewrite (M_bind_ret _ _ _ _ _ (Hg r (Hin r Hr) e s He Ht)).
  destruct (gp r e).
  { exists (world s). by destruct s. }
  destruct (passive_run_log "guard rejected" s) as [w1 E1].
  rewrite (M_bind_ret _ _ _ _ _ E1).
  destruct (IH (set_world w1 s)) as [w2 E2]; [intros; apply Hin; by right|].
  exists w2. by rewrite E2.
Qed.

(** One event, on the control part. *)
Lemma handle_envelope_control e s :
  wf_env e → engine_ok d s →
  ∃ s', handle_envelope d e s =
    (Ret (verdict gp d (current_state s) e), s') ∧
    engine_ok d s' ∧
    current_state s' = next_control gp d (current_state s) e ∧
    states_ s' = states_ s ∧ initial_state_ s' = initial_state_ s ∧
    deferred_events_ s' = deferred_events_ s ++ deferral gp d (current_state s) e.
Proof.
  intros He [Hids Hdst Hini Hact]. unfold handle_envelope, verdict, next_control, deferral, select.
  destruct (handle_rules_select (rules_ d) e s He) as [w ->]; [done|].
  destruct (List.find _ _) as [r|] eqn:Hf; simpl.
  - apply find_enabled in Hf as [Hr Ht].
    destruct (execute_passive r e (set_world w s) Hr He Ht) as [w' E].
    rewrite (M_bind_ret _ _ _ _ _ E). unfold target.
    destruct (is_internal r) eqn:Hint; eexists; (split; [reflexivity|]); simpl.
    { rewrite app_nil_r. by split_and!. }
    destruct (Hdst r Hr Hint) as [a Ha]. unfold index_states; simpl; rewrite Ha; simpl.
    rewrite app_nil_r. pose proof (Hids _ _ Ha) as Hid.
    split_and!; try done. constructor; simpl; [done..|].
    unfold current_state; simpl. rewrite Hid. eauto.
  - destruct (defer_unhandled_events _); eexists; (split; [reflexivity|]); simpl;
      rewrite ?app_nil_r; by split_and!.
Qed.
End with_passive.

Lemma engine_ok_frame d s s' :
  engine_ok d s → states_ s' = states_ s → initial_state_ s' = initial_state_ s →
  current_state s' = current_state s → engine_ok d s'.
Proof. intros [????] E1 E2 E3. constructor; rewrite ?E1, ?E2, ?E3; done. Qed.

Lemma enter_active_ok d i : preserves (λ s, engine_ok d s ∧ is_Some (states_ s !! i)) (enter_active i).
Proof.
  intros s [Hok [a Ha]]. unfold enter_active, index_states. rewrite Ha; simpl.
  split; [|eauto]. destruct Hok as [Hids ???]. constructor; try done.
  unfold current_state; simpl. rewrite (Hids _ _ Ha). eauto.
Qed.

Section with_callbacks_ok.
Context (d : EngineDef Ev W) (Hcb : callbacks_ok d).

Lemma run_entry_ok i : preserves (engine_ok d) (run_entry d i).
Proof. destruct Hcb as (H1 & _). unfold run_entry. destruct (_ !! i) eqn:E; [by eapply H1|apply pres_ret]. Qed.
Lemma run_exit_ok i : preserves (engine_ok d) (run_exit d i).
Proof. destruct Hcb as (_ & H1 & _). unfold run_exit. destruct (_ !! i) eqn:E; [by eapply H1|apply pres_ret]. Qed.

Lemma enter_dst_ok r : r ∈ rules_ d → is_internal r = false → preserves (engine_ok d) (enter_active (dst_id r)).
Proof.
  intros Hr Hi s Hs. apply (enter_active_ok d (dst_id r) s). split; [done|].
  by apply (ok_dst d s Hs).
Qed.

Lemma execute_ok r e : r ∈ rules_ d → preserves (engine_ok d) (execute_transition d r e).
Proof.
  intros Hr. destruct Hcb as (_ & _ & _ & Ha & Hl). unfold execute_transition.
  destruct (is_internal r) eqn:Hi; [by apply Ha|].
  apply pres_get_any. intros s0.
  apply pres_bind; [apply run_exit_ok|]. intros _.
  apply pres_bind; [by apply enter_dst_ok|]. intros _.
  apply pres_bind; [by apply Ha|]. intros _.
  apply pres_bind; [apply run_entry_ok|]. auto.
Qed.

Lemma handle_rules_ok rs e : (∀ r, r ∈ rs → r ∈ rules_ d) → preserves (engine_ok d) (handle_rules d rs e).
Proof.
  destruct Hcb as (_ & _ & Hgd & _ & Hl).
  induction rs as [|r rs IH]; intros Hin; simpl.
  - destruct (defer_unhandled_events _); [|apply pres_ret].
    apply pres_bind; [|intros; apply pres_ret].
    apply pres_modify. intros s Hs. by eapply engine_ok_frame.
  - apply pres_get_any. intros s0. destruct (matches r e s0); [|apply IH; intros; apply Hin; by right].
    apply pres_bind; [apply Hgd, Hin; left|]. intros [].
    + apply pres_bind; [apply execute_ok, Hin; left|]. intros; apply pres_ret.
    + apply pres_bind; [apply Hl|]. intros _. apply IH. intros; apply Hin; by right.
Qed.
End with_callbacks_ok.

(** A pure step function that follows the table follows the machine. *)
Lemma handle_all_simulates {A} d (Hp : passive d) gp
    (Hg : ∀ r, r ∈ rules_ d → guard_is r (gp r)) (st : A → StateId) (next : A → Ev → A) :
  (∀ a e, next_control gp d (st a) (envelope (any_ev e)) = st (next a e)) →
  ∀ es s a, engine_ok d s → current_state s = st a →
    current_state (handle_all d es s) = st (foldl next a es).
Proof.
  intros Hn es. induction es as [|e es IH]; intros s a Hok Hs; [done|]. simpl. unfold handle.
  destruct (handle_envelope_control d Hp gp Hg (envelope (any_ev e)) s eq_refl Hok)
    as (s' & E & Hok' & Hc & _).
  rewrite E. simpl. apply IH; [done|]. by rewrite Hc, Hs, Hn.
Qed.

Lemma process_events_control d (Hp : passive d) gp (Hg : ∀ r, r ∈ rules_ d → guard_is r (gp r)) es s res :
  Forall wf_env es → engine_ok d s →
  ∃ s', process_events d es res s =
      (Ret (if defer_unhandled_events (config_ d) then res
            else if bool_decide ((drain gp d (current_state s) es).2 = []) then res else Unhandled), s') ∧
    engine_ok d s' ∧
    current_state s' = (drain gp d (current_state s) es).1 ∧
    deferred_events_ s' = deferred_events_ s ++
      (if defer_unhandled_events (config_ d) then (drain gp d (current_state s) es).2 else []).
Proof.
  intros Hes. revert s res. induction Hes as [|e es He Hes IH]; intros s res Hok.
  { exists s. simpl. destruct (defer_unhandled_events _); by rewrite app_nil_r. }
  destruct (handle_envelope_control d Hp gp Hg e s He Hok) as (s1 & E & Hok1 & Hc & _ & _ & Hd).
  set (res' := if decide (verdict gp d (current_state s) e = Unhandled) then Unhandled else res).
  destruct (IH s1 res' Hok1) as (s2 & E2 & Hok2 & Hc2 & Hd2).
  exists s2. simpl process_events. rewrite (M_bind_ret _ _ _ _ _ E). fold res'. rewrite E2.
  split; [|split; [done|]].
  - f_equal. unfold res', verdict. simpl drain. rewrite Hc. unfold next_control.
    destruct (select gp d (current_state s) e); simpl; [done|].
    destruct (drain gp d (current_state s) es) as [c rest]; simpl.
    destruct (defer_unhandled_events _); simpl; [done|]. by repeat case_bool_decide.
  - rewrite Hc2, Hd2, Hd, Hc. simpl drain. unfold next_control, deferral.
    destruct (select gp d (current_state s) e); simpl; [by rewrite app_nil_r|].
    destruct (drain gp d (current_state s) es) as [c rest]; simpl.
    destruct (defer_unhandled_events _); simpl; [by rewrite <-app_assoc|by rewrite !app_nil_r].
Qed.
End engine_facts.

(** Goes through the rules of a concrete table. *)
Ltac rule_cases H :=
  repeat (apply elem_of_cons in H as [->|H]); [..|by apply not_elem_of_nil in H].

(** ** Properties *)
Section properties.
Context {Ev : Type} `{!Events Ev} {W : Type}.
Implicit Types (d : EngineDef Ev W) (r : RuntimeTransition Ev W) (s : EngineState Ev W).

(** C1: the engine refines its transition table.  With callbacks that touch
    only the world and guards that depend only on the event, feeding any list
    of events to [handle] moves the active state exactly as the control
    automaton does: the first rule in registration order whose event type,
    source and guard accept fires, an internal rule keeps the state, and no
    rule keeps it too. *)
Theorem handle_all_refines_control d gp s es :
  passive d → (∀ r, r ∈ rules_ d → guard_is r (gp r)) → engine_ok d s →
  current_state (handle_all d es s) =
    foldl (λ c e, next_control gp d c (envelope (any_ev e))) (current_state s) es ∧
  engine_ok d (handle_all d es s).
Proof.
  intros Hp Hg. revert s. induction es as [|e es IH]; intros s Hok; [done|].
  simpl. unfold handle.
  destruct (handle_envelope_control d Hp gp Hg (envelope (any_ev e)) s eq_refl Hok) as (s' & E & Hok' & Hc & _).
  rewrite E. simpl. rewrite <-Hc. by apply IH.
Qed.

(** C2: no registered machine can reach an unregistered state.  Whatever the
    callbacks do (throw, write the engine's members), as long as each keeps
    the registration invariant, after any list of events the active state is
    a registered one. *)
Theorem handle_all_registered d s es :
  callbacks_ok d → engine_ok d s →
  is_Some (states_ (handle_all d es s) !! current_state (handle_all d es s)).
Proof.
  intros Hcb Hok. cut (engine_ok d (handle_all d es s)); [apply ok_active|].
  revert s Hok. induction es as [|e es IH]; intros s Hok; [done|].
  simpl. apply IH. by apply (handle_rules_ok d Hcb).
Qed.

(** A transition to a state that was never registered loses the machine.
    [states_[enter_id]] inserts a default entry, so the active state becomes
    [INVALID_STATE], not the destination, while the entry callback of the
    destination has run and the transition counts as handled. *)
Theorem unregistered_destination_invalid d gp s e r :
  passive d → (∀ r, r ∈ rules_ d → guard_is r (gp r)) → wf_env e →
  select gp d (current_state s) e = Some r → is_internal r = false →
  states_ s !! dst_id r = None →
  ∃ s', handle_envelope d e s = (Ret Handled, s') ∧
    current_state s' = INVALID_STATE ∧ is_Some (states_ s' !! dst_id r).
Proof.
  intros Hp Hg He Hsel Hint Hdst. unfold handle_envelope.
  destruct (handle_rules_select d Hp gp Hg (rules_ d) e s He) as [w ->]; [done|].
  unfold select in Hsel. rewrite Hsel.
  apply find_enabled in Hsel as [Hr Ht].
  destruct (execute_passive d Hp r e (set_world w s) Hr He Ht) as [w' E].
  rewrite (M_bind_ret _ _ _ _ _ E), Hint. unfold index_states. simpl. rewrite Hdst. simpl.
  eexists. split; [reflexivity|]. simpl. split; [done|]. rewrite lookup_insert_eq. eauto.
Qed.

(** C3: let no callback throw or touch the engine, only the variables it captures
    ([passive]), let the guards depend on the event only, and let the active state
    and the destinations be registered and the queue hold well-formed events.  Then
    [process_deferred] replays the queue once, in order: the machine ends
    where the control automaton ends on the queue.  A machine that defers
    unhandled events is left with exactly the events the automaton did not
    accept, in their order, and the call always answers [Handled], even when
    some are still queued; one that does not defer drops them and answers
    [Unhandled] exactly when there was one.  A callback that throws loses the rest of
    the queue (Example [throw_loses_queue] of TrafficLight). *)
Theorem process_deferred_drains d gp s :
  passive d → (∀ r, r ∈ rules_ d → guard_is r (gp r)) → engine_ok d s →
  Forall wf_env (deferred_events_ s) →
  let queue := deferred_events_ s in
  let final := drain gp d (current_state s) queue in
  ∃ s', process_deferred d s =
      (Ret (if defer_unhandled_events (config_ d) then Handled
            else if bool_decide (final.2 = []) then Handled else Unhandled), s') ∧
    current_state s' = final.1 ∧
    deferred_events_ s' = (if defer_unhandled_events (config_ d) then final.2 else []).
Proof.
  intros Hp Hg Hok Hq queue final. unfold process_deferred.
  assert (engine_ok d (set_deferred [] s)) as Hok' by (by eapply engine_ok_frame).
  destruct (process_events_control d Hp gp Hg queue (set_deferred [] s) Handled Hq Hok')
    as (s' & E & _ & Hc & Hd).
  exists s'. split; [exact E|]. split; [exact Hc|]. rewrite Hd. done.
Qed.

(** C4: [reset] returns a machine whose callbacks neither throw nor touch the
    engine, and whose active, initial and destination states are registered, to its
    initial state with an empty deferred queue and the same state table.  A callback
    that throws leaves it on the way (Example [throw_stops_reset] of TrafficLight). *)
Theorem reset_restores_initial d s :
  passive d → engine_ok d s →
  ∃ s', reset d s = (Ret tt, s') ∧ current_state s' = initial_state_ s ∧
    deferred_events_ s' = [] ∧ states_ s' = states_ s ∧ engine_ok d s'.
Proof.
  intros Hp [Hids Hdst [a Ha] Hact]. unfold reset.
  rewrite M_bind_get.
  assert (∀ b i, world_only (when b (run_exit d i))) as Hx.
  { intros [] i; [by apply passive_run_exit|apply world_only_ret]. }
  assert (∀ b i, world_only (when b (run_entry d i))) as He.
  { intros [] i; [by apply passive_run_entry|apply world_only_ret]. }
  match goal with |- context [when ?b (run_exit d ?i)] => destruct (Hx b i s) as [w1 E1] end.
  rewrite (M_bind_ret _ _ _ _ _ E1).
  assert ((s0 ← get; enter_active (initial_state_ s0)) (set_world w1 s) =
    (Ret tt, set_active a (set_world w1 s))) as E2.
  { unfold get, mbind, M_bind, enter_active, index_states. simpl. by rewrite Ha. }
  rewrite (M_bind_ret _ _ _ _ _ E2). pose proof (Hids _ _ Ha) as Hid.
  set (s2 := set_active a (set_world w1 s)).
  destruct (He (negb (as_id (active_state_ s2) =? INVALID_STATE)%N) (as_id (active_state_ s2)) s2)
    as [w3 E3].
  assert ((s0 ← get; when (negb (as_id (active_state_ s0) =? INVALID_STATE)%N)
    (run_entry d (as_id (active_state_ s0)))) s2 = (Ret tt, set_world w3 s2)) as E3' by exact E3.
  rewrite (M_bind_ret _ _ _ _ _ E3'). eexists. split; [reflexivity|]. simpl.
  split_and!; try done. constructor; try done. unfold current_state; simpl. rewrite Hid. eauto.
Qed.
End properties.

Section typed_id_properties.
Context {T : Type} `{Countable T}.

Definition all_one (m : gmap T StateId) : Prop := ∀ t i, m !! t = Some i → i = 1%N.

Lemma typed_id_one t (m : Statics T) :
  all_one (sids m) → (∀ t, sids m !! t = None → counters m !! t = None) →
  (typed_id t m).1 = 1%N ∧ all_one (sids (typed_id t m).2) ∧
  (∀ t', sids (typed_id t m).2 !! t' = None → counters (typed_id t m).2 !! t' = None).
Proof.
  intros H1 H2. unfold typed_id. destruct (sids m !! t) as [i|] eqn:E; simpl.
  { split_and!; [by eapply H1|done..]. }
  unfold next_id. rewrite (H2 _ E). simpl. split_and!; [done| |].
  - intros t' i. rewrite lookup_insert. case_decide; [congruence|apply H1].
  - intros t'. rewrite !lookup_insert. case_decide; [done|apply H2].
Qed.

(** [TypedStateId] does not tell types apart.  The counter is a static of
    each instantiation, so in any sequence of [id()] calls every type gets
    the identifier 1. *)
Theorem typed_ids_collide (ts : list T) :
  (typed_ids ts no_statics).1 = replicate (length ts) 1%N.
Proof.
  cut (∀ m : Statics T, all_one (sids m) → (∀ t, sids m !! t = None → counters m !! t = None) →
    (typed_ids ts m).1 = replicate (length ts) 1%N).
  { intros Hm. apply Hm; [|done]. intros t i. simpl. by rewrite lookup_empty. }
  induction ts as [|t ts IH]; intros m H1 H2; [done|]. simpl.
  destruct (typed_id_one t m H1 H2) as (Hi & H1' & H2').
  destruct (typed_id t m) as [i m1]; simpl in *. specialize (IH m1 H1' H2').
  destruct (typed_ids ts m1) as [l m2]; simpl in *. by subst.
Qed.
End typed_id_properties.
