(* ===== verification/HfsmExt.v ===== *)
(** * Regions, history, action and event queues, statistics and the logger

    [core/guard.hpp], [core/action.hpp], [core/region.hpp], [core/history.hpp],
    [ext/defer.hpp], [ext/visitor.hpp], [ext/logger.hpp] and the transition
    builder of [core/transition.hpp]. *)
From S2P Require Import Prelude HfsmCore.

(** ** Guards: [guard.hpp] *)
Module Guards.
Record GuardResult := { allowed : bool; reason : option string }.
Definition accepted : GuardResult := {| allowed := true; reason := None |}.
Definition rejected : GuardResult := {| allowed := false; reason := Some "guard rejected" |}.

Section guards.
Context {Event Machine : Type}.
(** The signatures [FunctionGuard] tells apart with [std::is_invocable_v];
    a callable with none of them always allows. *)
Inductive GuardFn :=
  | guard_event_machine (f : Event → Machine → bool)
  | guard_event (f : Event → bool)
  | guard_nullary (f : unit → bool)
  | guard_other.
Definition check (g : GuardFn) (evt : Event) (sm : Machine) : GuardResult :=
  let ok := match g with
            | guard_event_machine f => f evt sm
            | guard_event f => f evt
            | guard_nullary f => f tt
            | guard_other => true
            end in
  if ok then accepted else rejected.
End guards.
End Guards.

(** ** Action queue: [action.hpp] *)
Module ActionQueues.
Section action_queue.
(** [A] names the queued closures, [exec] is what calling one does; it may
    push to the queue. *)
Context {A W : Type}.
Record ActionQueue := { queue_ : list A; aq_world : W }.
Context (exec : A → M ActionQueue unit).

Definition push (a : A) : M ActionQueue unit :=
  modify (λ q, {| queue_ := queue_ q ++ [a]; aq_world := aq_world q |}).
Definition clear : M ActionQueue unit :=
  modify (λ q, {| queue_ := []; aq_world := aq_world q |}).
Definition empty (q : ActionQueue) : bool := bool_decide (queue_ q = []).
(** [auto q = std::move(queue_); for (auto& f : q) f();] *)
Definition execute_all : M ActionQueue unit :=
  q ← get;
  clear ;;
  for_each exec (queue_ q).
End action_queue.
Arguments ActionQueue A W : clear implicits.
End ActionQueues.

(** ** Orthogonal regions: [region.hpp] *)
Module Regions.
Record RegionState := {
  parent_id : StateId;
  active_child : StateId;
  initial_child : StateId;
  history : StateId;
  is_active : bool
}.
Abbreviation RegionManager := (gmap StateId RegionState).

Definition add_region (parent initial : StateId) (rs : RegionManager) : RegionManager :=
  <[parent := {| parent_id := parent; active_child := initial; initial_child := initial;
                 history := INVALID_STATE; is_active := false |}]> rs.
Definition activate_region (parent : StateId) (rs : RegionManager) : RegionManager :=
  match rs !! parent with
  | Some r =>
      <[parent := {| parent_id := parent_id r;
                     active_child := if (active_child r =? INVALID_STATE)%N
                                     then initial_child r else active_child r;
                     initial_child := initial_child r; history := history r;
                     is_active := true |}]> rs
  | None => rs
  end.
Definition deactivate_region (parent : StateId) (rs : RegionManager) : RegionManager :=
  match rs !! parent with
  | Some r =>
      <[parent := {| parent_id := parent_id r; active_child := active_child r;
                     initial_child := initial_child r; history := active_child r;
                     is_active := false |}]> rs
  | None => rs
  end.
Definition get_active_child (parent : StateId) (rs : RegionManager) : StateId :=
  match rs !! parent with Some r => active_child r | None => INVALID_STATE end.
Definition set_active_child (parent child : StateId) (rs : RegionManager) : RegionManager :=
  match rs !! parent with
  | Some r =>
      <[parent := {| parent_id := parent_id r; active_child := child;
                     initial_child := initial_child r; history := history r;
                     is_active := is_active r |}]> rs
  | None => rs
  end.
Definition is_region_active (parent : StateId) (rs : RegionManager) : bool :=
  match rs !! parent with Some r => is_active r | None => false end.

(** The calls a client makes, for statements over any history of them. *)
Inductive call :=
  | Add (parent initial : StateId)
  | Activate (parent : StateId)
  | Deactivate (parent : StateId)
  | SetActive (parent child : StateId)
  | Clear.
Definition apply (c : call) (rs : RegionManager) : RegionManager :=
  match c with
  | Add p i => add_region p i rs
  | Activate p => activate_region p rs
  | Deactivate p => deactivate_region p rs
  | SetActive p c => set_active_child p c rs
  | Clear => ∅
  end.
Definition run (cs : list call) : RegionManager := foldl (λ rs c, apply c rs) ∅ cs.
End Regions.

(** ** History: [history.hpp] *)
Module Histories.
Inductive HistoryMode := NoHistory | Shallow | Deep.
#[export] Instance HistoryMode_eq_dec : EqDecision HistoryMode.
Proof. solve_decision. Defined.

Record HistoryEntry := {
  state_id : StateId;
  mode : HistoryMode;
  last_active : StateId;
  last_active_stack : list StateId
}.
Abbreviation HistoryManager := (gmap StateId HistoryEntry).

Definition configure (s : StateId) (m : HistoryMode) (h : HistoryManager) : HistoryManager :=
  <[s := {| state_id := s; mode := m; last_active := INVALID_STATE; last_active_stack := [] |}]> h.
Definition record (s child : StateId) (h : HistoryManager) : HistoryManager :=
  match h !! s with
  | None => h
  | Some e =>
      <[s := {| state_id := state_id e; mode := mode e; last_active := child;
                last_active_stack := if decide (mode e = Deep)
                                     then last_active_stack e ++ [child]
                                     else last_active_stack e |}]> h
  end.
Definition recall (s : StateId) (h : HistoryManager) : StateId :=
  match h !! s with
  | None => INVALID_STATE
  | Some e =>
      if (last_active e =? INVALID_STATE)%N then INVALID_STATE
      else if decide (mode e = Deep) then
        match last_active_stack e with
        | front :: _ => front
        | [] => last_active e
        end
      else last_active e
  end.
Definition clear (s : StateId) (h : HistoryManager) : HistoryManager :=
  match h !! s with
  | None => h
  | Some e =>
      <[s := {| state_id := state_id e; mode := mode e; last_active := INVALID_STATE;
                last_active_stack := [] |}]> h
  end.
Definition clear_all (_ : HistoryManager) : HistoryManager := ∅.
Definition has_history (s : StateId) (h : HistoryManager) : bool :=
  match h !! s with Some e => negb (last_active e =? INVALID_STATE)%N | None => false end.
End Histories.

(** ** Deferred events: [defer.hpp] *)
Module Defers.
Section deferred.
Context {Ev : Type} `{!Events Ev} {W : Type}.
Record DeferredEventQueue := { queue_ : list (EventEnvelope Ev); dq_world : W }.
Definition with_queue (f : list (EventEnvelope Ev) → list (EventEnvelope Ev)) :
    M DeferredEventQueue unit :=
  modify (λ q, {| queue_ := f (queue_ q); dq_world := dq_world q |}).

Definition defer (e : EventEnvelope Ev) : M DeferredEventQueue unit := with_queue (λ l, l ++ [e]).
Definition defer_front (e : EventEnvelope Ev) : M DeferredEventQueue unit := with_queue (λ l, e :: l).
Definition clear : M DeferredEventQueue unit := with_queue (λ _, []).
Definition size (q : DeferredEventQueue) : nat := length (queue_ q).
Definition empty (q : DeferredEventQueue) : bool := bool_decide (queue_ q = []).

(** [handler]: a [std::function], which may defer again. *)
Context (handler : EventEnvelope Ev → M DeferredEventQueue EventResult).
Fixpoint process_loop (es : list (EventEnvelope Ev)) (all_handled : bool) : M DeferredEventQueue bool :=
  match es with
  | [] => mret all_handled
  | e :: es' =>
      result ← handler e;
      process_loop es' (if decide (result = Unhandled) then false else all_handled)
  end.
Definition process_all : M DeferredEventQueue bool :=
  q ← get;
  clear ;;
  process_loop (queue_ q) true.
Definition process_one : M DeferredEventQueue EventResult :=
  q ← get;
  match queue_ q with
  | [] => mret Handled
  | e :: rest => with_queue (λ _, rest) ;; handler e
  end.
End deferred.
Arguments DeferredEventQueue Ev {_} W.
End Defers.

(** ** Statistics: [visitor.hpp] *)
Module Visitors.
(** Counters of type [std::size_t]; the running average is never written. *)
Record MachineStats := {
  total_transitions : Z;
  handled_events : Z;
  unhandled_events : Z;
  rejected_guards : Z;
  deferred_count : Z;
  error_count : Z
}.
Definition stats_reset : MachineStats :=
  {| total_transitions := 0; handled_events := 0; unhandled_events := 0;
     rejected_guards := 0; deferred_count := 0; error_count := 0 |}.
Definition inc (z : Z) : Z := uwrap 64 (z + 1).

Definition visit_state (st : MachineStats) : MachineStats := st.
Definition visit_transition (st : MachineStats) : MachineStats :=
  {| total_transitions := inc (total_transitions st); handled_events := handled_events st;
     unhandled_events := unhandled_events st; rejected_guards := rejected_guards st;
     deferred_count := deferred_count st; error_count := error_count st |}.
Definition visit_event (r : EventResult) (st : MachineStats) : MachineStats :=
  {| total_transitions := total_transitions st;
     handled_events := if decide (r = Handled) then inc (handled_events st) else handled_events st;
     unhandled_events := if decide (r = Unhandled) then inc (unhandled_events st) else unhandled_events st;
     rejected_guards := if decide (r = Rejected) then inc (rejected_guards st) else rejected_guards st;
     deferred_count := if decide (r = Deferred) then inc (deferred_count st) else deferred_count st;
     error_count := if decide (r = Error) then inc (error_count st) else error_count st |}.
End Visitors.

(** ** Logger: [logger.hpp] *)
Module Loggers.
(** [LogLevel : uint8_t], in the order of its values 0..5. *)
Inductive LogLevel := Trace | Debug | Info | Warn | LError | LNone.
Definition level_value (l : LogLevel) : Z :=
  match l with Trace => 0 | Debug => 1 | Info => 2 | Warn => 3 | LError => 4 | LNone => 5 end.
Definition level_label (l : LogLevel) : string :=
  match l with
  | Trace => "TRACE" | Debug => "DEBUG" | Info => "INFO"
  | Warn => "WARN" | LError => "ERROR" | LNone => "NONE"
  end.

(** The singleton: its level, whether an output function is set, and the lines
    that function has received. *)
Record Logger := { min_level_ : LogLevel; output_set : bool; emitted : list string }.
Definition instance : Logger := {| min_level_ := Info; output_set := true; emitted := [] |}.
Definition set_level (l : LogLevel) (lg : Logger) : Logger :=
  {| min_level_ := l; output_set := output_set lg; emitted := emitted lg |}.
Definition set_output (some : bool) (lg : Logger) : Logger :=
  {| min_level_ := min_level_ lg; output_set := some; emitted := emitted lg |}.

(** [now]: the clock, already formatted as [%H:%M:%S.mmm], which is
    [clock_text] of [LoggerText]. *)
Definition log (now : string) (level : LogLevel) (module msg : string) (lg : Logger) : Logger :=
  if (level_value level <? level_value (min_level_ lg))%Z then lg
  else if output_set lg then
    {| min_level_ := min_level_ lg; output_set := output_set lg;
       emitted := emitted lg ++
         ["[" +:+ level_label level +:+ "][" +:+ now +:+ "][" +:+ module +:+ "] " +:+ msg] |}
  else lg.
Definition trace now := log now Trace.
Definition debug now := log now Debug.
Definition info now := log now Info.
Definition warn now := log now Warn.
Definition error now := log now LError.
End Loggers.

(** ** The transition builder: [transition.hpp] *)
Module Transitions.
Inductive TransitionKind := External | Internal | Local.

Section builders.
(** [G] and [A] stand for the guard and action callables of a rule. *)
Context {S E G A : Type}.

(** [std::true_type], [std::false_type] or a callable. *)
Inductive slot (F : Type) := slot_true | slot_false | slot_fn (f : F).
Arguments slot_true {F}.
Arguments slot_false {F}.
Arguments slot_fn {F} f.

Record Transition := {
  tr_src : S; tr_event : E; tr_dst : S;
  tr_kind : TransitionKind;
  tr_is_initial : bool;
  tr_is_any : bool;
  guard_fn : slot G;
  action_fn : slot A
}.
(** [Transition(GuardFn g, ActionFn a, TransitionKind k)]: the flags keep
    their default member initialisers. *)
Definition mk_Transition (src : S) (evt : E) (dst : S) (g : slot G) (a : slot A)
    (k : TransitionKind) : Transition :=
  {| tr_src := src; tr_event := evt; tr_dst := dst; tr_kind := k;
     tr_is_initial := false; tr_is_any := false; guard_fn := g; action_fn := a |}.

Record TransitionBuilder := {
  tb_src : S; tb_event : E; tb_kind : TransitionKind; tb_is_any : bool }.
Record GuardedBuilder := {
  gb_src : S; gb_event : E; gb_kind : TransitionKind; gb_is_any : bool; gb_guard : slot G }.
Record ActionBuilder := {
  ab_src : S; ab_event : E; ab_kind : TransitionKind; ab_is_any : bool;
  ab_guard : slot G; ab_action : slot A }.

(** [operator[]], [operator/] and [operator=] *)
Definition tb_guard (b : TransitionBuilder) (g : G) : GuardedBuilder :=
  {| gb_src := tb_src b; gb_event := tb_event b; gb_kind := tb_kind b;
     gb_is_any := tb_is_any b; gb_guard := slot_fn g |}.
Definition tb_act (b : TransitionBuilder) (a : A) : ActionBuilder :=
  {| ab_src := tb_src b; ab_event := tb_event b; ab_kind := tb_kind b;
     ab_is_any := tb_is_any b; ab_guard := slot_false; ab_action := slot_fn a |}.
Definition tb_to (b : TransitionBuilder) (dst : S) : Transition :=
  mk_Transition (tb_src b) (tb_event b) dst slot_true slot_false (tb_kind b).
Definition gb_act (b : GuardedBuilder) (a : A) : ActionBuilder :=
  {| ab_src := gb_src b; ab_event := gb_event b; ab_kind := gb_kind b;
     ab_is_any := gb_is_any b; ab_guard := gb_guard b; ab_action := slot_fn a |}.
Definition gb_to (b : GuardedBuilder) (dst : S) : Transition :=
  mk_Transition (gb_src b) (gb_event b) dst (gb_guard b) slot_false (gb_kind b).
Definition ab_to (b : ActionBuilder) (dst : S) : Transition :=
  mk_Transition (ab_src b) (ab_event b) dst (ab_guard b) (ab_action b) (ab_kind b).

(** [TransitionTable] and [make_transition_table] *)
Record TransitionTable := { rules_ : list Transition }.
Definition make_transition_table (rules : list Transition) : TransitionTable := {| rules_ := rules |}.
Definition table_size (t : TransitionTable) : nat := length (rules_ t).
Definition table_get (t : TransitionTable) (i : nat) : option Transition := rules_ t !! i.
End builders.
Arguments TransitionBuilder S E : clear implicits.
End Transitions.

(** ** Facts *)
Module RegionFacts.
Import Regions.
(** A call whose child, where it has one, is a state. *)
Definition valid_call (c : call) : Prop :=
  match c with
  | Add _ i => i ≠ INVALID_STATE
  | SetActive _ c => c ≠ INVALID_STATE
  | _ => True
  end.
Definition region_ok (rs : RegionManager) : Prop :=
  ∀ p r, rs !! p = Some r → parent_id r = p ∧ active_child r ≠ INVALID_STATE.

Lemma apply_ok c rs : valid_call c → region_ok rs → region_ok (apply c rs).
Proof.
  intros Hc Hrs. destruct c as [q i|q|q|q k|]; simpl in *;
    [unfold add_region|unfold activate_region|unfold deactivate_region|unfold set_active_child|];
    [| | | |intros p r; by rewrite lookup_empty].
  { intros p r. rewrite lookup_insert. case_decide; [|apply Hrs]. intros [= <-]. by subst. }
  all: destruct (rs !! q) as [r0|] eqn:E; [|done];
    destruct (Hrs q r0 E) as [Hp Ha];
    intros p r; rewrite lookup_insert; case_decide as Hd; [|apply Hrs];
    intros [= <-]; subst; simpl; split; try done.
  case_match eqn:Hn; [|done]. by apply N.eqb_eq in Hn.
Qed.
#[export] Hint Resolve apply_ok : hfsm.

Lemma run_ok cs : Forall valid_call cs → region_ok (run cs).
Proof.
  intros Hcs. unfold run.
  cut (∀ rs, region_ok rs → region_ok (foldl (λ rs c, apply c rs) rs cs)).
  { intros H. apply H. intros p r. by rewrite lookup_empty. }
  induction Hcs as [|c cs Hc _ IH]; intros rs Hrs; simpl; [done|]. auto using apply_ok.
Qed.
End RegionFacts.

Module HistoryFacts.
Import Histories.

Lemma record_entry s c h e :
  h !! s = Some e →
  record s c h !! s = Some {| state_id := state_id e; mode := mode e; last_active := c;
    last_active_stack := if decide (mode e = Deep) then last_active_stack e ++ [c]
                         else last_active_stack e |}.
Proof. intros He. unfold record. by rewrite He, lookup_insert_eq. Qed.

Lemma records_entry s cs h e c0 :
  h !! s = Some e → last_active e = c0 →
  ∃ e', foldl (λ h c, record s c h) h cs !! s = Some e' ∧ mode e' = mode e ∧
    last_active e' = default c0 (last cs) ∧
    last_active_stack e' = if decide (mode e = Deep) then last_active_stack e ++ cs
                           else last_active_stack e.
Proof.
  revert h e c0. induction cs as [|c cs IH]; intros h e c0 He Hc; simpl.
  { exists e. split_and!; try done. case_decide; [by rewrite app_nil_r|done]. }
  destruct (IH _ _ c (record_entry s c h e He) eq_refl) as (e' & H1 & H2 & H3 & H4).
  exists e'. split_and!; [done|done| |].
  - by rewrite H3, default_last_cons.
  - rewrite H4. simpl. repeat case_decide; by rewrite <-?app_assoc.
Qed.

(** What a history state recalls.  After [configure] and any non-empty
    sequence of [record] calls, a deep history recalls the first child that
    was recorded, because the stack is only ever pushed at the back and read
    at the front; a shallow one recalls the last, and so does one configured
    with [HistoryMode::None], whose entry records all the same. *)
Theorem recall_after_records h s m c cs :
  Forall (λ c, c ≠ INVALID_STATE) (c :: cs) →
  recall s (foldl (λ h c, record s c h) (configure s m h) (c :: cs)) =
    (if decide (m = Deep) then c else default c (last cs)).
Proof.
  intros Hv. unfold recall.
  assert (configure s m h !! s = Some {| state_id := s; mode := m; last_active := INVALID_STATE;
    last_active_stack := [] |}) as He by apply lookup_insert_eq.
  destruct (records_entry s (c :: cs) _ _ INVALID_STATE He eq_refl) as (e & -> & Hm & Hl & Hs).
  simpl in Hm, Hs. rewrite Hm, Hl.
  rewrite default_last_cons.
  assert (default c (last cs) ≠ INVALID_STATE) as Hn.
  { destruct (last cs) as [x|] eqn:E; simpl; [|by inversion Hv].
    apply last_Some_elem_of in E. rewrite Forall_forall in Hv. apply Hv. by right. }
  apply N.eqb_neq in Hn. rewrite Hn. case_decide; [|done]. by rewrite Hs.
Qed.

Lemma recall_after_records_witness :
  recall 2%N (foldl (λ h c, record 2%N c h) (configure 2%N Deep ∅) [6%N; 7%N; 8%N]) = 6%N.
Proof.
  refine (recall_after_records ∅ 2%N Deep 6%N [7%N; 8%N] _).
  repeat constructor; vm_compute; discriminate.
Defined.
End HistoryFacts.

Module DeferFacts.
Import Defers.
Section facts.
Context {Ev : Type} `{!Events Ev} {W : Type}.
Implicit Types q : DeferredEventQueue Ev W.

(** A handler that answers [answer e], changes the world by [effect e] and
    defers the events [again e]. *)
Definition handler_of (answer : EventEnvelope Ev → EventResult)
    (effect : EventEnvelope Ev → W → W) (again : EventEnvelope Ev → list (EventEnvelope Ev))
    (e : EventEnvelope Ev) : M (DeferredEventQueue Ev W) EventResult :=
  modify (λ q, {| queue_ := queue_ q; dq_world := effect e (dq_world q) |}) ;;
  for_each defer (again e) ;;
  mret (answer e).

Lemma for_each_defer es q :
  for_each defer es q = (Ret tt, {| queue_ := queue_ q ++ es; dq_world := dq_world q |}).
Proof.
  revert q. induction es as [|e es IH]; intros q; simpl.
  { rewrite app_nil_r. by destruct q. }
  unfold mbind, M_bind, defer, with_queue, modify. rewrite IH. simpl. by rewrite <-app_assoc.
Qed.

Lemma process_loop_handler answer effect again es b q :
  process_loop (handler_of answer effect again) es b q =
    (Ret (b && forallb (λ e, bool_decide (answer e ≠ Unhandled)) es),
     {| queue_ := queue_ q ++ (es ≫= again);
        dq_world := foldl (λ w e, effect e w) (dq_world q) es |}).
Proof.
  revert b q. induction es as [|e es IH]; intros b q; simpl.
  { rewrite andb_true_r, app_nil_r. by destruct q. }
  assert (handler_of answer effect again e q =
    (Ret (answer e), {| queue_ := queue_ q ++ again e; dq_world := effect e (dq_world q) |})) as E.
  { unfold handler_of.
    erewrite M_bind_ret; [|reflexivity]. erewrite M_bind_ret; [|apply for_each_defer]. done. }
  rewrite (M_bind_ret _ _ _ _ _ E), IH. simpl. rewrite <-app_assoc. f_equal. f_equal.
  case_decide; case_bool_decide; try done; destruct b; done.
Qed.

(** [process_all] works on a snapshot.  Every queued event is handled
    exactly once, oldest first; what the handler defers meanwhile is not
    handled in this round but kept, in order, as the next round's queue; the
    result says whether no event came back [Unhandled]. *)
Theorem process_all_snapshot answer effect again q :
  process_all (handler_of answer effect again) q =
    (Ret (forallb (λ e, bool_decide (answer e ≠ Unhandled)) (queue_ q)),
     {| queue_ := queue_ q ≫= again;
        dq_world := foldl (λ w e, effect e w) (dq_world q) (queue_ q) |}).
Proof.
  unfold process_all, clear, with_queue. autorewrite with monad.
  by rewrite process_loop_handler.
Qed.
End facts.
End DeferFacts.

Module StatsFacts.
Import Visitors.
Definition handled_of (rs : list EventResult) : Z := Z.of_nat (length (filter (λ r, r = Handled) rs)).

Lemma handled_count rs st :
  uwrap 64 (handled_events (foldl (λ st r, visit_event r st) st rs)) =
  uwrap 64 (handled_events st + handled_of rs).
Proof.
  unfold handled_of. revert st. induction rs as [|r rs IH]; intros st; simpl.
  { by rewrite Z.add_0_r. }
  rewrite IH, filter_cons. destruct r; simpl; try done.
  unfold inc, uwrap. rewrite Zplus_mod_idemp_l. f_equal. lia.
Qed.
End StatsFacts.

Module BuilderFacts.
Import Transitions.
(** However a rule is written in the DSL, its [is_any] mark is lost. *)
Lemma builder_drops_any {S E G A} (b : TransitionBuilder S E) (g : G) (a : A) dst :
  tr_is_any (tb_to (G:=G) (A:=A) b dst) = false ∧
  tr_is_any (gb_to (A:=A) (tb_guard b g) dst) = false ∧
  tr_is_any (ab_to (tb_act (G:=G) b a) dst) = false ∧
  tr_is_any (ab_to (gb_act (tb_guard b g) a) dst) = false.
Proof. done. Qed.
(** A rule with an action and no guard carries [std::false_type] as its guard,
    where a rule with neither carries [std::true_type]. *)
Lemma builder_action_guard {S E G A} (b : TransitionBuilder S E) (a : A) dst :
  guard_fn (ab_to (tb_act (G:=G) b a) dst) = slot_false G ∧
  guard_fn (tb_to (G:=G) (A:=A) b dst) = slot_true G.
Proof. done. Qed.
End BuilderFacts.
