(* ===== verification/TrafficLight.v ===== *)
(** * The traffic light of [state_machine/examples/01_traffic_light.cpp]

    An instance of the engine of [HfsmCore].  Standard output is not part of the
    model: the entry and exit members of the state structs and the override's
    action only print, and the constructor registers no entry callback. *)
From S2P Require Import Prelude HfsmCore.
Local Open Scope prog_scope.

Inductive Event :=
  | PedestrianRequest
  | TimerExpired
  | EmergencyOverride (priority : Z).
Inductive EventTag := TPedestrianRequest | TTimerExpired | TEmergencyOverride.
#[export] Instance EventTag_eq_dec : EqDecision EventTag.
Proof. solve_decision. Defined.
#[export] Instance traffic_events : Events Event := {|
  EvType := EventTag;
  ev_typeid e := match e with
                 | PedestrianRequest => TPedestrianRequest
                 | TimerExpired => TTimerExpired
                 | EmergencyOverride _ => TEmergencyOverride
                 end
|}.
(** [evt.get<EmergencyOverride>()] *)
Definition as_EmergencyOverride (e : Event) : option Z :=
  match e with EmergencyOverride p => Some p | _ => None end.

Inductive TrafficLightState := Red | Green | Yellow | BlinkingRed.
Definition sid (s : TrafficLightState) : StateId :=
  match s with Red => 0 | Green => 1 | Yellow => 2 | BlinkingRed => 3 end%N.

Definition timer_rule (src dst : TrafficLightState) : RuntimeTransition Event unit :=
  {| src_id := sid src; event_type := type_ev TTimerExpired; dst_id := sid dst;
     is_any := false; is_internal := false; guard := None; action := None |}.
Definition emergency_guard : Callback Event unit bool := λ evt,
  e ← lift_outcome (envelope_get as_EmergencyOverride evt); mret (0 <? e)%Z.
Definition emergency_action : Callback Event unit unit := λ evt,
  lift_outcome (envelope_get as_EmergencyOverride evt) ;; mret tt.
Definition emergency_rule : RuntimeTransition Event unit :=
  {| src_id := INVALID_STATE; event_type := type_ev TEmergencyOverride; dst_id := sid BlinkingRed;
     is_any := true; is_internal := false; guard := Some emergency_guard;
     action := Some emergency_action |}.

(** The constructor of [TrafficLightController]. *)
Definition TrafficLightController : StateMachineEngine Event unit :=
  new_engine default_MachineConfig tt
  |> set_state_name (sid Red) "Red"
  |> set_state_name (sid Green) "Green"
  |> set_state_name (sid Yellow) "Yellow"
  |> set_state_name (sid BlinkingRed) "BlinkingRed"
  |> register_state (sid Red)
  |> register_state (sid Green)
  |> register_state (sid Yellow)
  |> register_state (sid BlinkingRed)
  |> set_initial (sid Red)
  |> add_rule (timer_rule Red Green)
  |> add_rule (timer_rule Green Yellow)
  |> add_rule (timer_rule Yellow Red)
  |> add_rule emergency_rule
  |> add_rule (timer_rule BlinkingRed Red).

(** [run()]: the events the demo feeds to the engine. *)
Definition run_events : list Event :=
  [TimerExpired; TimerExpired; TimerExpired; EmergencyOverride 5; TimerExpired].
Definition run (s : EngineState Event unit) : EngineState Event unit :=
  handle_all (engine_def TrafficLightController) run_events s.

(** ** The intended light *)
Definition next (s : TrafficLightState) (e : Event) : TrafficLightState :=
  match e, s with
  | TimerExpired, Red => Green
  | TimerExpired, Green => Yellow
  | TimerExpired, Yellow => Red
  | TimerExpired, BlinkingRed => Red
  | EmergencyOverride p, _ => if (0 <? p)%Z then BlinkingRed else s
  | PedestrianRequest, _ => s
  end.

Abbreviation tdef := (engine_def TrafficLightController).
Abbreviation tinit := (engine_state TrafficLightController).

Lemma traffic_ok : engine_ok tdef tinit.
Proof. apply engine_check_ok. by vm_compute. Qed.

Lemma traffic_passive : passive tdef.
Proof.
  constructor; try done.
  intros r a e Hr Ha He Ht.
  rule_cases Hr; try discriminate Ha.
  injection Ha as <-. unfold emergency_action, wf_env, envelope_get in *.
  destruct (data_ e) as [|[]]; rewrite He in Ht; try discriminate Ht. apply world_only_ret.
Qed.

Lemma traffic_guards r : r ∈ rules_ tdef → guard_is r (guard_value tinit r).
Proof.
  intros Hr. rule_cases Hr; try done.
  intros e s He Ht. unfold guard_value, wf_env in *. simpl in *.
  unfold emergency_guard, envelope_get.
  destruct (data_ e) as [|[]]; rewrite He in Ht; try discriminate Ht. done.
Qed.

(** C6: the controller is the intended light: on any list of events its active
    state is the one obtained by cycling red, green, yellow on the timer,
    blinking red on an override of positive priority from any state, and
    returning from there to red on the timer. *)
Theorem traffic_light_refines es :
  current_state (handle_all tdef es tinit) = sid (foldl next Red es).
Proof.
  apply (handle_all_simulates tdef traffic_passive _ traffic_guards sid next);
    [|apply traffic_ok|done].
  intros a e. destruct a, e as [| |p]; try reflexivity;
    unfold next_control, select; simpl; unfold enabled, guard_value; simpl;
    by destruct (0 <? p)%Z.
Qed.

Example run_ends_red : current_state (run tinit) = sid Red.
Proof. reflexivity. Qed.

(** *** Instances of the engine's own properties *)
Lemma handle_all_refines_control_witness :
  current_state (handle_all tdef run_events tinit) = sid Red ∧
  engine_ok tdef (handle_all tdef run_events tinit).
Proof.
  exact (handle_all_refines_control tdef (guard_value tinit) tinit run_events
    traffic_passive traffic_guards traffic_ok).
Defined.

Lemma traffic_callbacks_ok : callbacks_ok tdef.
Proof.
  split_and!; try done.
  - intros r e Hr. rule_cases Hr; simpl; unfold emergency_guard; pres.
  - intros r e Hr. rule_cases Hr; simpl; unfold emergency_action; pres.
  - intros msg. apply pres_ret.
Qed.

Lemma handle_all_registered_witness :
  is_Some (states_ (handle_all tdef run_events tinit) !! current_state (handle_all tdef run_events tinit)).
Proof. exact (handle_all_registered tdef tinit run_events traffic_callbacks_ok traffic_ok). Defined.

(** The light after one timer event. *)
Definition green_state : EngineState Event unit := set_active (mk_ActiveState (sid Green)) tinit.

Lemma green_ok : engine_ok tdef green_state.
Proof. apply engine_check_ok. by vm_compute. Qed.

Lemma reset_restores_initial_witness :
  ∃ s', reset tdef green_state = (Ret tt, s') ∧ current_state s' = sid Red ∧
    deferred_events_ s' = [] ∧ states_ s' = states_ green_state ∧ engine_ok tdef s'.
Proof. exact (reset_restores_initial tdef green_state traffic_passive green_ok). Defined.

(** A light that defers what it cannot handle, with a queue to replay. *)
Definition deferring : EngineDef Event unit :=
  {| config_ := {| enable_logging := false; throw_on_invalid_event := false; defer_unhandled_events := true |};
     rules_ := rules_ tdef; state_names_ := state_names_ tdef; entry_actions_ := ∅;
     exit_actions_ := ∅; logger_ := None |}.
Definition queued_state : EngineState Event unit :=
  set_deferred (envelope ∘ any_ev <$> [PedestrianRequest; TimerExpired; PedestrianRequest]) tinit.

Lemma deferring_passive : passive deferring.
Proof. destruct traffic_passive. by constructor. Qed.

Lemma queued_ok : engine_ok deferring queued_state.
Proof. apply engine_check_ok. by vm_compute. Qed.

Lemma process_deferred_drains_witness :
  ∃ s', process_deferred deferring queued_state = (Ret Handled, s') ∧
    current_state s' = sid Green ∧
    deferred_events_ s' = envelope ∘ any_ev <$> [PedestrianRequest; PedestrianRequest].
Proof.
  refine (process_deferred_drains deferring (guard_value tinit) queued_state
    deferring_passive traffic_guards queued_ok _).
  repeat constructor.
Defined.

(** The same with callbacks that throw.  The event that raises the exception
    and those after it are lost: the queue was emptied before the replay.  A reset
    that throws keeps the queue. *)
Definition throwing : EngineDef Event unit :=
  {| config_ := config_ deferring; rules_ := rules_ tdef; state_names_ := state_names_ tdef;
     entry_actions_ := {[ sid Green := λ _, throw (UserError 1) ]};
     exit_actions_ := {[ sid Green := λ _, throw (UserError 2) ]}; logger_ := None |}.
Example throw_loses_queue :
  let '(r, s) := process_deferred throwing queued_state in
  length (deferred_events_ queued_state) = 3 ∧
  r = Throw (UserError 1) ∧ deferred_events_ s = [envelope (any_ev PedestrianRequest)].
Proof. by_compute. Qed.
Example throw_stops_reset :
  let '(r, s) := reset throwing (set_deferred (deferred_events_ queued_state) green_state) in
  r = Throw (UserError 2) ∧ current_state s = sid Green ∧ length (deferred_events_ s) = 3.
Proof. by_compute. Qed.

(** The same light with a rule to a state nobody registered. *)
Definition broken : EngineDef Event unit :=
  engine_def (TrafficLightController |> add_rule
    {| src_id := sid Red; event_type := type_ev TPedestrianRequest; dst_id := 9%N;
       is_any := false; is_internal := false; guard := None; action := None |}).

Lemma broken_passive : passive broken.
Proof.
  destruct traffic_passive as [He Hx Ha Hl]. constructor; [done..| |done].
  intros r a e Hr. change (rules_ broken) with (rules_ tdef ++
    [{| src_id := sid Red; event_type := type_ev TPedestrianRequest; dst_id := 9%N;
        is_any := false; is_internal := false; guard := None; action := None |}]) in Hr.
  apply elem_of_app in Hr as [Hr|Hr]; [by apply Ha|]. rule_cases Hr. done.
Qed.

Lemma broken_guards r : r ∈ rules_ broken → guard_is r (guard_value tinit r).
Proof.
  intros Hr. change (rules_ broken) with (rules_ tdef ++
    [{| src_id := sid Red; event_type := type_ev TPedestrianRequest; dst_id := 9%N;
        is_any := false; is_internal := false; guard := None; action := None |}]) in Hr.
  apply elem_of_app in Hr as [Hr|Hr]; [by apply traffic_guards|]. rule_cases Hr. done.
Qed.

Lemma unregistered_destination_invalid_witness :
  ∃ s', handle_envelope broken (envelope (any_ev PedestrianRequest)) tinit = (Ret Handled, s') ∧
    current_state s' = INVALID_STATE ∧ is_Some (states_ s' !! 9%N).
Proof.
  refine (unregistered_destination_invalid broken (guard_value tinit) tinit
    (envelope (any_ev PedestrianRequest)) _ broken_passive broken_guards eq_refl eq_refl eq_refl eq_refl).
Defined.
