(* ===== verification/HfsmClient.v ===== *)
(** * What the example machines on [HfsmCore] share

    Their callbacks change the captured variables, as a function of the event
    they are called with, and their guards test the event alone.  What is printed
    is a list of texts, each without its final line end; a logged line is kept
    without the time and the name of the module, its message as formatted
    ([LoggerText] has the whole line). *)
From S2P Require Import Prelude HfsmCore HfsmExt.

(** The captured variables of an example: its data, its log lines and what it
    prints.  [ModuleLogger] prints a line when its level is high enough. *)
Record Captured (D : Type) := mkCaptured { data : D; out : list string }.
Arguments mkCaptured {D}.
Arguments data {D}.
Arguments out {D}.
Definition prints {D} (line : D → string) (w : Captured D) : Captured D := mkCaptured (data w) (out w ++ [line (data w)]).
Definition updates {D} (f : D → D) (w : Captured D) : Captured D := mkCaptured (f (data w)) (out w).
Definition logs {D} (min level : Loggers.LogLevel) (line : D → string) (w : Captured D) : Captured D :=
  if (Loggers.level_value level <? Loggers.level_value min)%Z then w
  else prints (λ d, "[" +:+ Loggers.level_label level +:+ "] " +:+ line d) w.

(** Printing outside the callbacks. *)
Definition newline : string := String (Ascii.ascii_of_nat 10) "".
Definition banner (t : string) : string := newline +:+ "=== " +:+ t +:+ " ===" +:+ newline.
Definition say {Ev D} `{!Events Ev} (line : string) (s : EngineState Ev (Captured D)) : EngineState Ev (Captured D) :=
  set_world (prints (λ _, line) (world s)) s.

Section client.
Context {Ev : Type} `{!Events Ev} {W : Type}.

Definition on_world (f : W → W) : M (EngineState Ev W) unit := modify (λ s, set_world (f (world s)) s).
(** A callback that does not look at its event, one that does, and a guard. *)
Definition plainly (f : W → W) : Callback Ev W unit := λ _, on_world f.
Definition with_event {A} (sel : Ev → option A) (f : A → W → W) : Callback Ev W unit := λ evt,
  a ← lift_outcome (envelope_get sel evt); on_world (f a).
Definition guard_event {A} (sel : Ev → option A) (p : A → bool) : Callback Ev W bool := λ evt,
  a ← lift_outcome (envelope_get sel evt); mret (p a).
(** [{src, typeid(evt), dst, false, false, guard, action}] *)
Definition rule (src : StateId) (evt : EvType) (dst : StateId) (g : option (Callback Ev W bool))
    (a : option (Callback Ev W unit)) : RuntimeTransition Ev W :=
  {| src_id := src; event_type := type_ev evt; dst_id := dst; is_any := false; is_internal := false; guard := g; action := a |}.

Lemma world_only_on_world f : world_only (on_world f).
Proof. by apply (world_only_modify _ f). Qed.
Lemma world_only_plainly f e : world_only (plainly f e).
Proof. apply world_only_on_world. Qed.
(** [sel] selects the events of type [t]. *)
Definition selects {A} (sel : Ev → option A) (t : EvType) : Prop := ∀ v, ev_typeid v = t → is_Some (sel v).
Lemma envelope_get_some {A} (sel : Ev → option A) t e : selects sel t → wf_env e → type_ev t = type_ e →
  ∃ a, envelope_get sel e = Ret a.
Proof.
  intros Hs He Ht. unfold wf_env in He. rewrite He in Ht. unfold envelope_get. destruct (data_ e) as [z|v]; [done|].
  simpl in Ht. injection Ht as Ht. destruct (Hs v (eq_sym Ht)) as [a ->]. by exists a.
Qed.
Lemma world_only_with_event {A} (sel : Ev → option A) f t e : selects sel t → wf_env e → type_ev t = type_ e →
  world_only (with_event sel f e).
Proof.
  intros Hs He Ht. destruct (envelope_get_some sel t e Hs He Ht) as [a Ha]. unfold with_event. rewrite Ha.
  intros s. destruct (world_only_on_world (f a) s) as [w E]. exists w. exact E.
Qed.
Lemma guard_event_is {A} (sel : Ev → option A) p src t dst a s0 : selects sel t →
  guard_is (rule src t dst (Some (guard_event sel p)) a) (guard_value s0 (rule src t dst (Some (guard_event sel p)) a)).
Proof.
  intros Hs e s He Ht. destruct (envelope_get_some sel t e Hs He Ht) as [x Hx].
  unfold guard_value. simpl. unfold guard_event. by rewrite Hx.
Qed.
Lemma no_guard_is src t dst a s0 : guard_is (rule src t dst None a) (guard_value s0 (rule src t dst None a)).
Proof. done. Qed.
(** What the callbacks of the live rules keep holds of the captured variables
    from then on, when the live states are closed under these rules. *)
Section kept.
Context (d : EngineDef Ev W) (P : W → Prop) (live : StateId → Prop).
Abbreviation keeps := (preserves (λ s : EngineState Ev W, P (world s))).
Context (Hp : passive d) (Hentry : ∀ i cb, entry_actions_ d !! i = Some cb → live i → keeps (cb (envelope (any_int 0)))).
Context (Hexit : ∀ i cb, exit_actions_ d !! i = Some cb → live i → keeps (cb (envelope (any_int 0)))).
Context (Hlog : ∀ f msg, logger_ d = Some f → keeps (f msg)).
Context (Hrules : ∀ r, r ∈ rules_ d → guard r = None ∧ is_any r = false ∧
  (live (src_id r) → live (dst_id r) ∧ ∀ a e, action r = Some a → wf_env e → event_type r = type_ e → keeps (a e))).

Lemma keeps_on_world f : (∀ w, P w → P (f w)) → keeps (on_world f).
Proof. intros H. apply pres_modify. intros s. apply H. Qed.
Lemma execute_keeps r e s : r ∈ rules_ d → live (current_state s) → src_id r = current_state s → wf_env e → event_type r = type_ e →
  P (world s) → P (world (execute_transition d r e s).2).
Proof.
  intros Hr Hs Hsrc He Ht. destruct (Hrules r Hr) as (_ & _ & [Hd Ha]); [congruence|].
  assert (keeps (run_action (action r) e)) as Hact.
  { unfold run_action. destruct (action r) eqn:E; [by apply Ha|apply pres_ret]. }
  unfold execute_transition. destruct (is_internal r); [apply Hact|]. rewrite M_bind_get.
  unfold current_state in *. set (i := as_id (active_state_ s)) in *. clearbody i. clear Hsrc. intros HP. apply (λ m (Hm : keeps m), Hm s HP).
  apply pres_bind; [|intros _].
  { unfold run_exit. destruct (_ !! _) eqn:E; [by eapply Hexit|apply pres_ret]. }
  apply pres_bind; [|intros _; apply pres_bind; [exact Hact|intros _; apply pres_bind; [|intros _]]].
  - intros s0. unfold enter_active, index_states. by destruct (_ !! _).
  - unfold run_entry. destruct (_ !! _) eqn:E; [by eapply Hentry|apply pres_ret].
  - unfold log. destruct (logger_ d) eqn:E; [by eapply Hlog|apply pres_ret].
Qed.
Lemma handle_keeps rs e s : (∀ r, r ∈ rs → r ∈ rules_ d) → live (current_state s) → wf_env e →
  P (world s) → P (world (handle_rules d rs e s).2).
Proof.
  intros Hin Hs He HP. induction rs as [|r rs IH]; simpl.
  { by destruct (defer_unhandled_events _). }
  assert (r ∈ rules_ d) as Hr by (apply Hin; left). destruct (Hrules r Hr) as (Hg & Hany & _).
  rewrite M_bind_get, matches_current, Hany. simpl.
  destruct (bool_decide (event_type r = type_ e)) eqn:Ht; simpl; [|apply IH; intros; apply Hin; by right].
  destruct (N.eqb_spec (src_id r) (current_state s)); [|apply IH; intros; apply Hin; by right].
  rewrite Hg. apply bool_decide_eq_true in Ht.
  pose proof (execute_keeps r e s Hr Hs ltac:(done) He Ht HP) as Hx. revert Hx. unfold mbind, M_bind. simpl.
  by destruct (execute_transition d r e s) as [[] s1].
Qed.
Lemma handle_all_keeps es s : engine_ok d s → live (current_state s) → P (world s) →
  live (current_state (handle_all d es s)) ∧ P (world (handle_all d es s)).
Proof.
  revert s. induction es as [|e es IH]; intros s Hok Hs HP; [done|]. cbn [handle_all].
  assert (∀ r, r ∈ rules_ d → guard_is r (λ _, true)) as Hg.
  { intros r Hr e' s' _ _. by destruct (Hrules r Hr) as (-> & _). }
  destruct (handle_envelope_control d Hp (λ _ _, true) Hg (envelope (any_ev e)) s eq_refl Hok) as (s1 & E & Hok1 & Hc & _).
  pose proof (handle_keeps (rules_ d) (envelope (any_ev e)) s ltac:(done) Hs eq_refl HP) as HP1.
  unfold handle. unfold handle_envelope in *. rewrite E in HP1 |- *. cbn [snd] in *. apply IH; [done| |done].
  rewrite Hc. unfold next_control, select. destruct (List.find _ _) as [r|] eqn:Hf; [|done]. simpl.
  apply List.find_some in Hf as [Hr%list_elem_of_In Hen]. unfold target. destruct (is_internal r); [done|].
  apply (Hrules r Hr). destruct (Hrules r Hr) as (_ & Hany & _).
  revert Hen. unfold enabled. rewrite Hany. simpl. rewrite andb_true_r. intros [_ ->%N.eqb_eq]%andb_prop. done.
Qed.
End kept.
End client.

Lemma data_logs {D} min level line (w : Captured D) : data (logs min level line w) = data w.
Proof. unfold logs. by destruct (_ <? _)%Z. Qed.
Lemma data_updates {D} (f : D → D) w : data (updates f w) = f (data w).
Proof. done. Qed.

(** Goals about the rules of a concrete table. *)
Ltac selects_event := let v := fresh in intros v; destruct v; intros E; first [discriminate E | by eexists].
Ltac passive_actions Hr Ha :=
  rule_cases Hr; first [discriminate Ha | injection Ha as <-; first [apply world_only_plainly
    | eapply world_only_with_event; [|eassumption|match goal with H : event_type _ = type_ _ |- _ => exact H end]; selects_event]].
Ltac event_guards Hr := rule_cases Hr; first [apply no_guard_is | apply guard_event_is; selects_event].
Ltac passive_entries H :=
  repeat (rewrite lookup_insert_Some in H; destruct H as [[_ <-]|[_ H]]); first [apply world_only_plainly | by rewrite lookup_empty in H].
