(* ===== verification/TcpConnection.v ===== *)
(** * The TCP connection of [state_machine/examples/02_tcp_connection.cpp] *)
From S2P Require Import Prelude HfsmCore HfsmExt HfsmClient.
Local Open Scope prog_scope.

Inductive Event :=
  | PassiveOpen | ActiveOpen | SendSYN | ReceiveSYN (seq_num : Z) | ReceiveSYNACK (seq_num ack_num : Z)
  | ReceiveACK (ack_num : Z) | Close | ReceiveFIN | Timeout | SendRST.
Inductive EventTag :=
  | TPassiveOpen | TActiveOpen | TSendSYN | TReceiveSYN | TReceiveSYNACK | TReceiveACK | TClose | TReceiveFIN
  | TTimeout | TSendRST.
#[export] Instance EventTag_eq_dec : EqDecision EventTag.
Proof. solve_decision. Defined.
#[export] Instance tcp_events : Events Event := {|
  EvType := EventTag;
  ev_typeid e := match e with
                 | PassiveOpen => TPassiveOpen | ActiveOpen => TActiveOpen | SendSYN => TSendSYN
                 | ReceiveSYN _ => TReceiveSYN | ReceiveSYNACK _ _ => TReceiveSYNACK | ReceiveACK _ => TReceiveACK
                 | Close => TClose | ReceiveFIN => TReceiveFIN | Timeout => TTimeout | SendRST => TSendRST
                 end
|}.
Definition as_ReceiveSYN (e : Event) : option Z := match e with ReceiveSYN s => Some s | _ => None end.
Definition as_ReceiveSYNACK (e : Event) : option (Z * Z) := match e with ReceiveSYNACK s a => Some (s, a) | _ => None end.
Definition as_ReceiveACK (e : Event) : option Z := match e with ReceiveACK a => Some a | _ => None end.

(** 32-bit sequence numbers. *)
Record ConnectionInfo := mkInfo { seq_num : Z; ack_num : Z; retransmit_count : Z; has_data : bool }.
Definition new_info : ConnectionInfo := mkInfo 1000 0 0 false.
Definition set_ack (a : Z) (i : ConnectionInfo) : ConnectionInfo := mkInfo (seq_num i) a (retransmit_count i) (has_data i).
Definition inc_seq (i : ConnectionInfo) : ConnectionInfo :=
  mkInfo (uwrap 32 (seq_num i + 1)) (ack_num i) (retransmit_count i) (has_data i).

Inductive TCPState :=
  | Closed | Listen | SYN_Sent | SYN_RCVD | Established | FIN_Wait_1 | FIN_Wait_2 | Time_Wait | Close_Wait | Last_ACK.
Definition sid (s : TCPState) : StateId :=
  match s with
  | Closed => 0 | Listen => 1 | SYN_Sent => 2 | SYN_RCVD => 3 | Established => 4 | FIN_Wait_1 => 5
  | FIN_Wait_2 => 6 | Time_Wait => 7 | Close_Wait => 8 | Last_ACK => 9
  end%N.
Definition tcp_states : list TCPState :=
  [Closed; Listen; SYN_Sent; SYN_RCVD; Established; FIN_Wait_1; FIN_Wait_2; Time_Wait; Close_Wait; Last_ACK].
Definition tcp_state_name (s : TCPState) : string :=
  match s with
  | Closed => "CLOSED" | Listen => "LISTEN" | SYN_Sent => "SYN_SENT" | SYN_RCVD => "SYN_RCVD"
  | Established => "ESTABLISHED" | FIN_Wait_1 => "FIN_WAIT_1" | FIN_Wait_2 => "FIN_WAIT_2"
  | Time_Wait => "TIME_WAIT" | Close_Wait => "CLOSE_WAIT" | Last_ACK => "LAST_ACK"
  end.

Definition World := Captured ConnectionInfo.
Definition print_line (s : string) : World → World := prints (λ _, s).
Definition tcp_rule (src : TCPState) (evt : EventTag) (dst : TCPState) (a : option (Callback Event World unit)) :
  RuntimeTransition Event World := rule (sid src) evt (sid dst) None a.
Definition active_open (w : World) : World :=
  prints (λ i, "[TCP] Active open: sending SYN (seq=" +:+ pretty (seq_num i) +:+ ")") w.
Definition on_syn (seq : Z) (w : World) : World :=
  print_line ("[TCP] LISTEN: received SYN (seq=" +:+ pretty seq +:+ "), sending SYN-ACK") (updates (set_ack (uwrap 32 (seq + 1))) w).
Definition on_synack (e : Z * Z) (w : World) : World :=
  print_line ("[TCP] SYN_SENT: received SYN-ACK (seq=" +:+ pretty e.1 +:+ ", ack=" +:+ pretty e.2 +:+ "), connection established")
    (updates (set_ack (uwrap 32 (e.1 + 1))) w).
Definition on_ack (ack : Z) : World → World :=
  print_line ("[TCP] SYN_RCVD: received ACK (" +:+ pretty ack +:+ "), connection established").
Definition saying (s : string) : option (Callback Event World unit) := Some (plainly (print_line s)).

Definition tcp_rules : list (RuntimeTransition Event World) := [
  tcp_rule Closed TPassiveOpen Listen None;
  tcp_rule Closed TActiveOpen SYN_Sent (Some (plainly active_open));
  tcp_rule Listen TReceiveSYN SYN_RCVD (Some (with_event as_ReceiveSYN on_syn));
  tcp_rule SYN_Sent TReceiveSYNACK Established (Some (with_event as_ReceiveSYNACK on_synack));
  tcp_rule SYN_RCVD TReceiveACK Established (Some (with_event as_ReceiveACK on_ack));
  tcp_rule Established TClose FIN_Wait_1 (saying "[TCP] Close requested: sending FIN");
  tcp_rule Established TReceiveFIN Close_Wait (saying "[TCP] Received FIN: entering CLOSE_WAIT");
  tcp_rule FIN_Wait_1 TReceiveACK FIN_Wait_2 None;
  tcp_rule FIN_Wait_1 TReceiveFIN Time_Wait None;
  tcp_rule FIN_Wait_2 TReceiveFIN Time_Wait (saying "[TCP] Received FIN in FIN_WAIT_2: entering TIME_WAIT");
  tcp_rule Time_Wait TTimeout Closed (saying "[TCP] TIME_WAIT expired: connection closed");
  tcp_rule Close_Wait TClose Last_ACK (saying "[TCP] CLOSE_WAIT: close requested, sending FIN (LAST_ACK)");
  tcp_rule Last_ACK TReceiveACK Closed (saying "[TCP] LAST_ACK: received ACK, connection closed")].
(** The constructor of [TCPConnection]. *)
Definition TCPConnection : StateMachineEngine Event World :=
  let e := new_engine default_MachineConfig (mkCaptured new_info []) in
  let e := foldl (λ e s, e |> register_state (sid s) |> set_state_name (sid s) (tcp_state_name s)) e tcp_states in
  let e := e |> set_initial (sid Closed) in
  foldl (λ e r, e |> add_rule r) e tcp_rules.
Abbreviation cdef := (engine_def TCPConnection).
Abbreviation cinit := (engine_state TCPConnection).

Definition bump_seq (s : EngineState Event World) : EngineState Event World := set_world (updates inc_seq (world s)) s.
Definition run_active_open (s : EngineState Event World) : EngineState Event World :=
  let s := handle_all cdef [ActiveOpen; ReceiveSYNACK 2000 1001] (say (banner "TCP Active Open Scenario") s) in
  let s := handle_all cdef [ReceiveACK 2001] (bump_seq s) in
  let s := handle_all cdef [Close; ReceiveACK 2002; ReceiveFIN] (say (newline +:+ "--- Data transfer phase ---") s) in
  handle_all cdef [Timeout] (say (newline +:+ "--- Waiting for TIME_WAIT timeout ---") s).
Definition run_passive_open (s : EngineState Event World) : EngineState Event World :=
  let s := (reset cdef (say (banner "TCP Passive Open Scenario") s)).2 in
  let s := handle_all cdef [PassiveOpen; ReceiveSYN 5000; ReceiveACK 5001] s in
  handle_all cdef [ReceiveFIN; Close; ReceiveACK 5002] (say (newline +:+ "--- Passive close ---") s).
Example both_runs :
  let s1 := run_active_open cinit in let s2 := run_passive_open s1 in
  current_state s1 = sid Closed ∧ current_state s2 = sid Closed ∧
  seq_num (data (world s2)) = 1001%Z ∧ ack_num (data (world s2)) = 5001%Z ∧
  out (world s2) = [
    banner "TCP Active Open Scenario";
    "[TCP] Active open: sending SYN (seq=1000)";
    "[TCP] SYN_SENT: received SYN-ACK (seq=2000, ack=1001), connection established";
    newline +:+ "--- Data transfer phase ---";
    "[TCP] Close requested: sending FIN";
    "[TCP] Received FIN in FIN_WAIT_2: entering TIME_WAIT";
    newline +:+ "--- Waiting for TIME_WAIT timeout ---";
    "[TCP] TIME_WAIT expired: connection closed";
    banner "TCP Passive Open Scenario";
    "[TCP] LISTEN: received SYN (seq=5000), sending SYN-ACK";
    "[TCP] SYN_RCVD: received ACK (5001), connection established";
    newline +:+ "--- Passive close ---";
    "[TCP] Received FIN: entering CLOSE_WAIT";
    "[TCP] CLOSE_WAIT: close requested, sending FIN (LAST_ACK)";
    "[TCP] LAST_ACK: received ACK, connection closed"].
Proof. by_compute. Qed.

(** ** The protocol *)
Definition next (s : TCPState) (e : Event) : TCPState :=
  match s, e with
  | Closed, PassiveOpen => Listen
  | Closed, ActiveOpen => SYN_Sent
  | Listen, ReceiveSYN _ => SYN_RCVD
  | SYN_Sent, ReceiveSYNACK _ _ => Established
  | SYN_RCVD, ReceiveACK _ => Established
  | Established, Close => FIN_Wait_1
  | Established, ReceiveFIN => Close_Wait
  | FIN_Wait_1, ReceiveACK _ => FIN_Wait_2
  | (FIN_Wait_1 | FIN_Wait_2), ReceiveFIN => Time_Wait
  | Time_Wait, Timeout => Closed
  | Close_Wait, Close => Last_ACK
  | Last_ACK, ReceiveACK _ => Closed
  | _, _ => s
  end.
(** Whether a handshake has completed and no final state has been reached since. *)
Definition open_state (s : TCPState) : bool :=
  match s with Closed | Listen | SYN_Sent | SYN_RCVD => false | _ => true end.
Definition opens (s : TCPState) (e : Event) : bool :=
  match s, e with SYN_Sent, ReceiveSYNACK _ _ | SYN_RCVD, ReceiveACK _ => true | _, _ => false end.

Lemma tcp_ok : engine_ok cdef cinit.
Proof. apply engine_check_ok. by vm_compute. Qed.
Lemma tcp_def : rules_ cdef = tcp_rules ∧ entry_actions_ cdef = ∅ ∧ exit_actions_ cdef = ∅ ∧ logger_ cdef = None.
Proof. done. Qed.
Lemma tcp_passive : passive cdef.
Proof.
  destruct tcp_def as (Hr & He & Hx & Hl). constructor; try done.
  intros r a e Hin Ha Hwf Ht. rewrite Hr in Hin. passive_actions Hin Ha.
Qed.
Lemma tcp_guards r : r ∈ rules_ cdef → guard_is r (guard_value cinit r).
Proof. destruct tcp_def as (-> & _). intros Hin. event_guards Hin. Qed.

(** C7: The connection follows the protocol: on any events its state is the run of
    [next], and it is open only after a completed handshake. *)
Theorem tcp_refines es :
  current_state (handle_all cdef es cinit) = sid (foldl next Closed es) ∧
  (open_state (foldl next Closed es) = true → ∃ es1 e es2, es = es1 ++ e :: es2 ∧ opens (foldl next Closed es1) e = true).
Proof.
  split.
  - apply (handle_all_simulates cdef tcp_passive _ tcp_guards sid next); [|apply tcp_ok|done].
    intros a e. by destruct a, e.
  - assert (∀ s, open_state s = false → open_state (foldl next s es) = true →
      ∃ es1 e es2, es = es1 ++ e :: es2 ∧ opens (foldl next s es1) e = true) as H; [|by apply H].
    induction es as [|e es IH]; intros s Hs Ho; [simpl in Ho; congruence|].
    destruct (open_state (next s e)) eqn:E.
    + exists [], e, es. split; [done|]. simpl. by destruct s, e.
    + destruct (IH (next s e) E Ho) as (es1 & e1 & es2 & -> & H1). by exists (e :: es1), e1, es2.
Qed.
