(* ===== verification/OrderProcessor.v ===== *)
(** * The order workflow of [state_machine/examples/03_order_processor.cpp]

    Log lines are those the module logger prints at level [Trace].  The retry
    counter is unbounded. *)
From Stdlib Require Import Floats.SpecFloat.
From S2P Require Import Prelude FloatText HfsmCore HfsmExt HfsmClient.
Local Open Scope prog_scope.

Inductive Event :=
  | PlaceOrder (order_id : Z) (amount : spec_float) (item_count : Z)
  | PaymentReceived (amount : spec_float) (transaction_id : string)
  | PaymentFailed (error_code : Z) (reason : string)
  | InventoryReserved | InventoryShort
  | ShipOrder (carrier tracking_id : string)
  | ConfirmDelivery | CancelOrder (reason_code : Z) | RefundComplete.
Inductive EventTag :=
  | TPlaceOrder | TPaymentReceived | TPaymentFailed | TInventoryReserved | TInventoryShort | TShipOrder
  | TConfirmDelivery | TCancelOrder | TRefundComplete.
#[export] Instance EventTag_eq_dec : EqDecision EventTag.
Proof. solve_decision. Defined.
#[export] Instance order_events : Events Event := {|
  EvType := EventTag;
  ev_typeid e := match e with
                 | PlaceOrder _ _ _ => TPlaceOrder | PaymentReceived _ _ => TPaymentReceived
                 | PaymentFailed _ _ => TPaymentFailed | InventoryReserved => TInventoryReserved
                 | InventoryShort => TInventoryShort | ShipOrder _ _ => TShipOrder
                 | ConfirmDelivery => TConfirmDelivery | CancelOrder _ => TCancelOrder | RefundComplete => TRefundComplete
                 end
|}.
Definition as_PlaceOrder (e : Event) : option (Z * spec_float * Z) :=
  match e with PlaceOrder i a n => Some (i, a, n) | _ => None end.
Definition as_PaymentReceived (e : Event) : option (spec_float * string) :=
  match e with PaymentReceived a t => Some (a, t) | _ => None end.
Definition as_PaymentFailed (e : Event) : option (Z * string) := match e with PaymentFailed c r => Some (c, r) | _ => None end.
Definition as_ShipOrder (e : Event) : option (string * string) := match e with ShipOrder c t => Some (c, t) | _ => None end.
Definition as_CancelOrder (e : Event) : option Z := match e with CancelOrder r => Some r | _ => None end.

Inductive OrderState :=
  | Pending | PaymentProcessing | PaymentConfirmed | Preparing | Shipped | Delivered | Completed | Cancelled | Refunding.
Definition sid (s : OrderState) : StateId :=
  match s with
  | Pending => 0 | PaymentProcessing => 1 | PaymentConfirmed => 2 | Preparing => 3 | Shipped => 4
  | Delivered => 5 | Completed => 6 | Cancelled => 7 | Refunding => 8
  end%N.
Definition order_states : list OrderState :=
  [Pending; PaymentProcessing; PaymentConfirmed; Preparing; Shipped; Delivered; Completed; Cancelled; Refunding].
Definition order_state_name (s : OrderState) : string :=
  match s with
  | Pending => "PENDING" | PaymentProcessing => "PAYMENT_PROCESSING" | PaymentConfirmed => "PAYMENT_CONFIRMED"
  | Preparing => "PREPARING" | Shipped => "SHIPPED" | Delivered => "DELIVERED" | Completed => "COMPLETED"
  | Cancelled => "CANCELLED" | Refunding => "REFUNDING"
  end.

Record OrderData := mkOrderData {
  order_id : Z; amount : spec_float; item_count : Z; paid_amount : spec_float; transaction_id : string;
  carrier : string; tracking_id : string; cancel_reason : Z; retry_count : Z
}.
Definition zero : spec_float := S754_zero false.
Definition new_order : OrderData := mkOrderData 0 zero 0 zero "" "" "" 0 0.
(** [strncpy] of at most [n] characters into a zeroed buffer. *)
Definition strncpy (n : nat) (s : string) : string := String.substring 0 n s.
Definition place (e : Z * spec_float * Z) (o : OrderData) : OrderData :=
  let '(i, a, n) := e in
  mkOrderData i a n (paid_amount o) (transaction_id o) (carrier o) (tracking_id o) (cancel_reason o) (retry_count o).
Definition pay (e : spec_float * string) (o : OrderData) : OrderData :=
  mkOrderData (order_id o) (amount o) (item_count o) e.1 (strncpy 63 e.2) (carrier o) (tracking_id o) (cancel_reason o) (retry_count o).
Definition retry (o : OrderData) : OrderData :=
  mkOrderData (order_id o) (amount o) (item_count o) (paid_amount o) (transaction_id o) (carrier o) (tracking_id o)
    (cancel_reason o) (retry_count o + 1).
Definition set_reason (r : Z) (o : OrderData) : OrderData :=
  mkOrderData (order_id o) (amount o) (item_count o) (paid_amount o) (transaction_id o) (carrier o) (tracking_id o) r (retry_count o).
Definition ship (e : string * string) (o : OrderData) : OrderData :=
  mkOrderData (order_id o) (amount o) (item_count o) (paid_amount o) (transaction_id o) (strncpy 31 e.1) (strncpy 63 e.2)
    (cancel_reason o) (retry_count o).

Definition World := Captured OrderData.
Definition info (line : OrderData → string) : World → World := logs Loggers.Trace Loggers.Info line.
Definition order_text (o : OrderData) (s : string) : string := "Order " +:+ pretty (order_id o) +:+ s.
Definition entries : list (OrderState * (OrderData → string)) := [
  (Pending, λ o, order_text o ": entered PENDING state");
  (PaymentProcessing, λ o, order_text o (": processing payment of $" +:+ format_fixed 2 (amount o)));
  (PaymentConfirmed, λ o, order_text o (": payment confirmed (tx: " +:+ transaction_id o +:+ ")"));
  (Preparing, λ o, order_text o (": preparing " +:+ pretty (item_count o) +:+ " items for shipment"));
  (Shipped, λ o, order_text o (": shipped via " +:+ carrier o +:+ " (tracking: " +:+ tracking_id o +:+ ")"));
  (Delivered, λ o, order_text o ": delivered!");
  (Completed, λ o, order_text o ": order completed successfully");
  (Cancelled, λ o, order_text o (": CANCELLED (reason: " +:+ pretty (cancel_reason o) +:+ ")"))].

Definition order_rule (src : OrderState) (evt : EventTag) (dst : OrderState) (g : option (Callback Event World bool))
    (a : option (Callback Event World unit)) : RuntimeTransition Event World := rule (sid src) evt (sid dst) g a.
Definition positive_amount (e : spec_float * string) : bool := SFltb zero e.1.
Definition fatal (e : Z * string) : bool := (100 <=? e.1)%Z.
Definition transient (e : Z * string) : bool := (e.1 <? 100)%Z.
Definition tracked (e : string * string) : bool := negb (bool_decide (e.2 = "")).
Definition on_fatal (e : Z * string) : World → World := logs Loggers.Trace Loggers.LError (λ _, "Payment failed (fatal): " +:+ e.2).
Definition on_transient (e : Z * string) (w : World) : World :=
  logs Loggers.Trace Loggers.Warn (λ o, "Payment failed (transient, attempt " +:+ pretty (retry_count o) +:+ "): " +:+ e.2) (updates retry w).
Definition on_short (w : World) : World :=
  updates (set_reason 2) (logs Loggers.Trace Loggers.LError (λ _, "Inventory short: cancelling order") w).
Definition on_cancel (r : Z) (w : World) : World :=
  info (λ o, order_text o (": cancel requested (reason: " +:+ pretty r +:+ ")")) (updates (set_reason r) w).
Definition cancel_rule (s : OrderState) : RuntimeTransition Event World :=
  order_rule s TCancelOrder Cancelled None (Some (with_event as_CancelOrder on_cancel)).
Definition order_rules : list (RuntimeTransition Event World) := [
  order_rule Pending TPlaceOrder PaymentProcessing None (Some (with_event as_PlaceOrder (λ e, updates (place e))));
  order_rule PaymentProcessing TPaymentReceived PaymentConfirmed (Some (guard_event as_PaymentReceived positive_amount))
    (Some (with_event as_PaymentReceived (λ e, updates (pay e))));
  order_rule PaymentProcessing TPaymentFailed Cancelled (Some (guard_event as_PaymentFailed fatal))
    (Some (with_event as_PaymentFailed on_fatal));
  order_rule PaymentProcessing TPaymentFailed Pending (Some (guard_event as_PaymentFailed transient))
    (Some (with_event as_PaymentFailed on_transient));
  order_rule PaymentConfirmed TInventoryReserved Preparing None None;
  order_rule PaymentConfirmed TInventoryShort Cancelled None (Some (plainly on_short));
  order_rule Preparing TShipOrder Shipped (Some (guard_event as_ShipOrder tracked))
    (Some (with_event as_ShipOrder (λ e, updates (ship e))));
  order_rule Shipped TConfirmDelivery Delivered None None;
  order_rule Delivered TConfirmDelivery Completed None (Some (plainly (info (λ o, order_text o ": marked as completed"))));
  cancel_rule Pending; cancel_rule PaymentProcessing; cancel_rule PaymentConfirmed; cancel_rule Preparing].
(** The constructor of [OrderProcessor]. *)
Definition OrderProcessor : StateMachineEngine Event World :=
  let e := new_engine default_MachineConfig (mkCaptured new_order []) in
  let e := foldl (λ e s, e |> register_state (sid s) |> set_state_name (sid s) (order_state_name s)) e order_states in
  let e := e |> set_initial (sid Pending) in
  let e := foldl (λ e '(s, line), e |> on_entry (sid s) (plainly (info line))) e entries in
  foldl (λ e r, e |> add_rule r) e order_rules.
Abbreviation odef := (engine_def OrderProcessor).
Abbreviation oinit := (engine_state OrderProcessor).

(** ** The three runs; 59.99, 129.99 and 9.99 by their bits *)
Definition usd (bits : Z) : spec_float := decode_float64 bits.
Definition final_state (s : EngineState Event World) : string :=
  newline +:+ "Final state: " +:+ get_state_name odef (current_state s).
Definition run_happy_path (s : EngineState Event World) : EngineState Event World :=
  let s := handle_all odef
    [PlaceOrder 1001 (usd 0x404dfeb851eb851f) 3; PaymentReceived (usd 0x404dfeb851eb851f) "TXN-ABC-12345"; InventoryReserved;
     ShipOrder "FedEx" "FDX-9876-5432"; ConfirmDelivery; ConfirmDelivery] (say (banner "E-Commerce: Happy Path") s) in
  say (final_state s) s.
Definition run_payment_failure_path (s : EngineState Event World) : EngineState Event World :=
  let s := (reset odef (say (banner "E-Commerce: Payment Failure with Retry") s)).2 in
  let s := handle_all odef
    [PlaceOrder 1002 (usd 0x40603fae147ae148) 1; PaymentFailed 50 "Network timeout";
     PlaceOrder 1002 (usd 0x40603fae147ae148) 1; PaymentReceived (usd 0x40603fae147ae148) "TXN-DEF-67890"; InventoryReserved;
     ShipOrder "UPS" "UPS-1234-5678"; ConfirmDelivery; ConfirmDelivery] s in
  say (final_state s +:+ " (retries: " +:+ pretty (retry_count (data (world s))) +:+ ")") s.
Definition run_cancellation_path (s : EngineState Event World) : EngineState Event World :=
  let s := (reset odef (say (banner "E-Commerce: Order Cancellation") s)).2 in
  let s := handle_all odef [PlaceOrder 1003 (usd 0x4023fae147ae147b) 1; CancelOrder 1] s in
  say (final_state s) s.
Example runs :
  let s1 := run_happy_path oinit in let s2 := run_payment_failure_path s1 in let s3 := run_cancellation_path s2 in
  current_state s1 = sid Completed ∧ current_state s2 = sid Completed ∧ current_state s3 = sid Cancelled ∧
  retry_count (data (world s2)) = 1%Z ∧
  out (world s1) =
    [banner "E-Commerce: Happy Path"; "[INFO] Order 1001: processing payment of $59.99"; "[INFO] Order 1001: payment confirmed (tx: TXN-ABC-12345)";
     "[INFO] Order 1001: preparing 3 items for shipment"; "[INFO] Order 1001: shipped via FedEx (tracking: FDX-9876-5432)";
     "[INFO] Order 1001: delivered!"; "[INFO] Order 1001: marked as completed"; "[INFO] Order 1001: order completed successfully";
     newline +:+ "Final state: COMPLETED"] ∧
  drop 21 (out (world s3)) =
    [newline +:+ "Final state: COMPLETED (retries: 1)"; banner "E-Commerce: Order Cancellation";
     "[INFO] Order 1002: entered PENDING state";
     "[INFO] Order 1003: processing payment of $9.99"; "[INFO] Order 1003: cancel requested (reason: 1)";
     "[INFO] Order 1003: CANCELLED (reason: 1)"; newline +:+ "Final state: CANCELLED"].
Proof. by_compute. Qed.

(** ** The workflow *)
Definition next (s : OrderState) (e : Event) : OrderState :=
  match s, e with
  | Pending, PlaceOrder _ _ _ => PaymentProcessing
  | PaymentProcessing, PaymentReceived a _ => if SFltb zero a then PaymentConfirmed else s
  | PaymentProcessing, PaymentFailed c _ => if (100 <=? c)%Z then Cancelled else Pending
  | PaymentConfirmed, InventoryReserved => Preparing
  | PaymentConfirmed, InventoryShort => Cancelled
  | Preparing, ShipOrder _ t => if bool_decide (t = "") then s else Shipped
  | Shipped, ConfirmDelivery => Delivered
  | Delivered, ConfirmDelivery => Completed
  | (Pending | PaymentProcessing | PaymentConfirmed | Preparing), CancelOrder _ => Cancelled
  | _, _ => s
  end.
Definition paid (s : OrderState) : bool :=
  match s with PaymentConfirmed | Preparing | Shipped | Delivered | Completed => true | _ => false end.

Lemma order_ok : engine_ok odef oinit.
Proof. apply engine_check_ok. by vm_compute. Qed.
Lemma order_def : rules_ odef = order_rules ∧ exit_actions_ odef = ∅ ∧ logger_ odef = None.
Proof. done. Qed.
Lemma order_passive : passive odef.
Proof.
  destruct order_def as (Hr & Hx & Hl). constructor; try done.
  - intros i cb H. cbn in H. passive_entries H.
  - intros r a e Hin Ha Hwf Ht. rewrite Hr in Hin. passive_actions Hin Ha.
Qed.
Lemma order_guards r : r ∈ rules_ odef → guard_is r (guard_value oinit r).
Proof. destruct order_def as (-> & _). intros Hin. event_guards Hin. Qed.

(** C8: The processor follows the workflow; an order past the payment has had a
    payment of a positive amount, and no order is ever being refunded. *)
Theorem order_processor_safe es :
  current_state (handle_all odef es oinit) = sid (foldl next Pending es) ∧
  foldl next Pending es ≠ Refunding ∧
  (paid (foldl next Pending es) = true → ∃ a t, PaymentReceived a t ∈ es ∧ SFltb zero a = true).
Proof.
  split_and!.
  - apply (handle_all_simulates odef order_passive _ order_guards sid next); [|apply order_ok|done].
    intros a e. destruct a, e as [| am tx | c re | | | ca tr | | |]; try reflexivity;
      unfold next_control, select; rewrite (proj1 order_def); simpl; unfold enabled, guard_value; simpl;
      [unfold positive_amount; simpl; by destruct (SFltb zero am)| |by unfold tracked; simpl; case_bool_decide].
    unfold fatal, transient. simpl. destruct (Z.leb_spec 100 c); simpl; [done|]. by rewrite (proj2 (Z.ltb_lt c 100)).
  - assert (∀ s, s ≠ Refunding → foldl next s es ≠ Refunding) as H; [|by apply H].
    induction es as [|e es IH]; intros s Hs; simpl; [done|]. apply IH.
    destruct s, e; simpl; try done; by case_match.
  - assert (∀ s, paid s = false → paid (foldl next s es) = true → ∃ a t, PaymentReceived a t ∈ es ∧ SFltb zero a = true) as H;
      [|by apply H].
    induction es as [|e es IH]; intros s Hs Hp; simpl in Hp; [congruence|].
    destruct (paid (next s e)) eqn:E.
    + destruct s, e as [| am tx | c re | | | ca tr | | |]; simpl in E; try done; [|by destruct (100 <=? c)%Z].
      destruct (SFltb zero am) eqn:Ea; [|done]. exists am, tx. split; [by left|done].
    + destruct (IH _ E Hp) as (a & t & Hin & Ha). exists a, t. split; [by right|done].
Qed.
