(* ===== verification/ProtocolStack.v ===== *)
(** * The protocol stack of [state_machine/examples/04_protocol_stack.cpp]

    Log lines are those the module logger prints at level [Info].  The counters
    are unbounded; of an event only the fields that are used are kept. *)
From S2P Require Import Prelude HfsmCore HfsmExt HfsmClient.
Local Open Scope prog_scope.

Inductive Event :=
  | ConnectRequest (host : string) (port : Z) | DisconnectRequest (reason : Z) | ConnectionTimeout
  | ConnectionEstablished | ConnectionLost (error : Z)
  | Authenticate (token : string) | AuthSuccess (session_id : string) | AuthFailure (code : Z)
  | DataReceived (len : Z) | DataSent (bytes : Z) | StreamStart | StreamStop.
Inductive EventTag :=
  | TConnectRequest | TDisconnectRequest | TConnectionTimeout | TConnectionEstablished | TConnectionLost
  | TAuthenticate | TAuthSuccess | TAuthFailure | TDataReceived | TDataSent | TStreamStart | TStreamStop.
#[export] Instance EventTag_eq_dec : EqDecision EventTag.
Proof. solve_decision. Defined.
#[export] Instance stack_events : Events Event := {|
  EvType := EventTag;
  ev_typeid e := match e with
                 | ConnectRequest _ _ => TConnectRequest | DisconnectRequest _ => TDisconnectRequest
                 | ConnectionTimeout => TConnectionTimeout | ConnectionEstablished => TConnectionEstablished
                 | ConnectionLost _ => TConnectionLost | Authenticate _ => TAuthenticate | AuthSuccess _ => TAuthSuccess
                 | AuthFailure _ => TAuthFailure | DataReceived _ => TDataReceived | DataSent _ => TDataSent
                 | StreamStart => TStreamStart | StreamStop => TStreamStop
                 end
|}.
Definition as_ConnectRequest (e : Event) : option (string * Z) := match e with ConnectRequest h p => Some (h, p) | _ => None end.
Definition as_DisconnectRequest (e : Event) : option Z := match e with DisconnectRequest r => Some r | _ => None end.
Definition as_AuthSuccess (e : Event) : option string := match e with AuthSuccess s => Some s | _ => None end.
Definition as_DataReceived (e : Event) : option Z := match e with DataReceived n => Some n | _ => None end.
Definition as_DataSent (e : Event) : option Z := match e with DataSent n => Some n | _ => None end.

Inductive ConnState := Disconnected | Connecting | Connected | Authenticating | Idle | Streaming.
Definition sid (s : ConnState) : StateId :=
  match s with Disconnected => 0 | Connecting => 1 | Connected => 2 | Authenticating => 3 | Idle => 4 | Streaming => 5 end%N.
Definition conn_states : list ConnState := [Disconnected; Connecting; Connected; Authenticating; Idle; Streaming].
Definition conn_state_name (s : ConnState) : string :=
  match s with
  | Disconnected => "Disconnected" | Connecting => "Connecting" | Connected => "Connected"
  | Authenticating => "Authenticating" | Idle => "Idle" | Streaming => "Streaming"
  end.
Record ProtocolStats := mkStats {
  bytes_sent : Z; bytes_received : Z; packets_sent : Z; packets_recv : Z; auth_failures : Z; reconnects : Z
}.
Record StackData := mkStackData { stats : ProtocolStats; regions : Regions.RegionManager }.
Definition on_stats (f : ProtocolStats → ProtocolStats) (d : StackData) : StackData := mkStackData (f (stats d)) (regions d).
Definition receive (n : Z) (s : ProtocolStats) : ProtocolStats :=
  mkStats (bytes_sent s) (bytes_received s + n) (packets_sent s) (packets_recv s + 1) (auth_failures s) (reconnects s).
Definition send (n : Z) (s : ProtocolStats) : ProtocolStats :=
  mkStats (bytes_sent s + n) (bytes_received s) (packets_sent s + 1) (packets_recv s) (auth_failures s) (reconnects s).
Definition fail_auth (s : ProtocolStats) : ProtocolStats :=
  mkStats (bytes_sent s) (bytes_received s) (packets_sent s) (packets_recv s) (auth_failures s + 1) (reconnects s).
Definition reconnect (s : ProtocolStats) : ProtocolStats :=
  mkStats (bytes_sent s) (bytes_received s) (packets_sent s) (packets_recv s) (auth_failures s) (reconnects s + 1).

Definition World := Captured StackData.
Definition log_at (l : Loggers.LogLevel) (line : StackData → string) : World → World := logs Loggers.Info l line.
Definition says (l : Loggers.LogLevel) (s : string) : World → World := log_at l (λ _, s).
Definition entries : list (ConnState * (World → World)) := [
  (Disconnected, says Loggers.Info "Socket closed");
  (Connecting, says Loggers.Info "Attempting connection...");
  (Connected, λ w, updates (λ d, mkStackData (stats d) (Regions.activate_region (sid Connected) (regions d)))
                     (says Loggers.Info "Connection established, entering sub-states" w));
  (Authenticating, says Loggers.Info "Authenticating...");
  (Idle, says Loggers.Info "Connection idle, waiting for data");
  (Streaming, says Loggers.Info "Streaming data")].
Definition stack_rule (src : ConnState) (evt : EventTag) (dst : ConnState) (a : option (Callback Event World unit)) :
  RuntimeTransition Event World := rule (sid src) evt (sid dst) None a.
Definition on_connect (e : string * Z) : World → World := says Loggers.Info ("Connecting to " +:+ e.1 +:+ ":" +:+ pretty e.2).
Definition on_reconnect (w : World) : World :=
  log_at Loggers.Warn (λ d, "Reconnecting (attempt " +:+ pretty (reconnects (stats d)) +:+ ")") (updates (on_stats reconnect) w).
Definition on_idle_data (n : Z) (w : World) : World :=
  log_at Loggers.Debug (λ d, "Received " +:+ pretty n +:+ " bytes (total: " +:+ pretty (bytes_received (stats d)) +:+ ")")
    (updates (on_stats (receive n)) w).
Definition on_stream_data (n : Z) (w : World) : World :=
  says Loggers.Debug ("Streaming: received " +:+ pretty n +:+ " bytes") (updates (on_stats (receive n)) w).
Definition on_sent (n : Z) (w : World) : World :=
  says Loggers.Debug ("Streaming: sent " +:+ pretty n +:+ " bytes") (updates (on_stats (send n)) w).
Definition stack_rules : list (RuntimeTransition Event World) := [
  stack_rule Disconnected TConnectRequest Connecting (Some (with_event as_ConnectRequest on_connect));
  stack_rule Disconnected TConnectionLost Connecting (Some (plainly on_reconnect));
  stack_rule Connecting TConnectionEstablished Connected None;
  stack_rule Connecting TConnectionTimeout Disconnected (Some (plainly (says Loggers.LError "Connection timed out")));
  stack_rule Connected TDisconnectRequest Disconnected
    (Some (with_event as_DisconnectRequest (λ r, says Loggers.Info ("Disconnected (reason: " +:+ pretty r +:+ ")"))));
  stack_rule Connected TConnectionLost Disconnected (Some (plainly (says Loggers.LError "Connection lost")));
  stack_rule Authenticating TAuthSuccess Idle
    (Some (with_event as_AuthSuccess (λ s, says Loggers.Info ("Authentication success (session: " +:+ s +:+ ")"))));
  stack_rule Authenticating TAuthFailure Disconnected
    (Some (plainly (λ w, says Loggers.LError "Authentication failure" (updates (on_stats fail_auth) w))));
  stack_rule Idle TStreamStart Streaming None;
  stack_rule Streaming TStreamStop Idle None;
  stack_rule Idle TDataReceived Idle (Some (with_event as_DataReceived on_idle_data));
  stack_rule Streaming TDataReceived Streaming (Some (with_event as_DataReceived on_stream_data));
  stack_rule Streaming TDataSent Streaming (Some (with_event as_DataSent on_sent))].
Definition new_stats : ProtocolStats := mkStats 0 0 0 0 0 0.
(** The constructor of [ProtocolStack]. *)
Definition ProtocolStack : StateMachineEngine Event World :=
  let e := new_engine default_MachineConfig (mkCaptured (mkStackData new_stats ∅) []) in
  let e := foldl (λ e s, e |> register_state (sid s) |> set_state_name (sid s) (conn_state_name s)) e conn_states in
  let e := e |> set_initial (sid Disconnected) in
  let e := foldl (λ e '(s, f), e |> on_entry (sid s) (plainly f)) e entries in
  foldl (λ e r, e |> add_rule r) e stack_rules.
Abbreviation pdef := (engine_def ProtocolStack).
Abbreviation pinit := (engine_state ProtocolStack).

(** [run]: the events of the simulation. *)
Definition run_events : list Event := [
  ConnectRequest "api.example.com" 443; ConnectionTimeout; ConnectRequest "api.example.com" 443; ConnectionEstablished;
  AuthSuccess "session-abc-123"; DataReceived 64; DataReceived 128; StreamStart; DataReceived 1024; DataSent 512;
  DataReceived 2048; StreamStop; DisconnectRequest 0].
Definition stats_lines (s : EngineState Event World) : list string :=
  let p := stats (data (world s)) in
  [newline +:+ "--- Protocol Stack Stats ---"; "Bytes sent:     " +:+ pretty (bytes_sent p);
   "Bytes received: " +:+ pretty (bytes_received p); "Packets sent:   " +:+ pretty (packets_sent p);
   "Packets recv:   " +:+ pretty (packets_recv p); "Reconnects:     " +:+ pretty (reconnects p);
   newline +:+ "Final state: " +:+ get_state_name pdef (current_state s)].
Definition run (s : EngineState Event World) : EngineState Event World :=
  let s := handle_all pdef run_events (say (banner "Protocol Stack Simulation") s) in
  foldl (λ s' line, say line s') s (stats_lines s).
Example run_output :
  current_state (run pinit) = sid Disconnected ∧ stats (data (world (run pinit))) = new_stats ∧
  out (world (run pinit)) =
    [banner "Protocol Stack Simulation"; "[INFO] Connecting to api.example.com:443"; "[INFO] Attempting connection..."; "[ERROR] Connection timed out";
     "[INFO] Socket closed"; "[INFO] Connecting to api.example.com:443"; "[INFO] Attempting connection...";
     "[INFO] Connection established, entering sub-states"; "[INFO] Disconnected (reason: 0)"; "[INFO] Socket closed";
     newline +:+ "--- Protocol Stack Stats ---"; "Bytes sent:     0"; "Bytes received: 0"; "Packets sent:   0";
     "Packets recv:   0"; "Reconnects:     0"; newline +:+ "Final state: Disconnected"].
Proof. by_compute. Qed.

(** ** What is reachable *)
Definition next (s : ConnState) (e : Event) : ConnState :=
  match s, e with
  | Disconnected, (ConnectRequest _ _ | ConnectionLost _) => Connecting
  | Connecting, ConnectionEstablished => Connected
  | Connecting, ConnectionTimeout => Disconnected
  | Connected, (DisconnectRequest _ | ConnectionLost _) => Disconnected
  | Authenticating, AuthSuccess _ => Idle
  | Authenticating, AuthFailure _ => Disconnected
  | Idle, StreamStart => Streaming
  | Streaming, StreamStop => Idle
  | _, _ => s
  end.
(** The data counters. *)
Definition traffic (s : ProtocolStats) : Z * Z * Z * Z * Z :=
  (bytes_sent s, bytes_received s, packets_sent s, packets_recv s, auth_failures s).
Definition untouched (w : World) : Prop := traffic (stats (data w)) = (0, 0, 0, 0, 0)%Z.
Definition live (i : StateId) : Prop := i = sid Disconnected ∨ i = sid Connecting ∨ i = sid Connected.

Lemma stack_ok : engine_ok pdef pinit.
Proof. apply engine_check_ok. by vm_compute. Qed.
Lemma stack_def : rules_ pdef = stack_rules ∧ exit_actions_ pdef = ∅ ∧ logger_ pdef = None.
Proof. done. Qed.
Lemma stack_passive : passive pdef.
Proof.
  destruct stack_def as (Hr & Hx & Hl). constructor; try done.
  - intros i cb H. cbn in H. passive_entries H.
  - intros r a e Hin Ha Hwf Ht. rewrite Hr in Hin. passive_actions Hin Ha.
Qed.
Lemma untouched_says l s w : untouched w → untouched (says l s w).
Proof. unfold untouched, says, log_at. by rewrite data_logs. Qed.
Lemma stack_kept r : r ∈ rules_ pdef → guard r = None ∧ is_any r = false ∧
  (live (src_id r) → live (dst_id r) ∧ ∀ a e, action r = Some a → wf_env e → event_type r = type_ e →
     preserves (λ s : EngineState Event World, untouched (world s)) (a e)).
Proof.
  destruct stack_def as (-> & _). unfold live. intros Hin. rule_cases Hin; (split; [done|split; [done|]]); cbn;
    intros Hs; try (by destruct Hs as [|[|]]); (split; [auto|]); intros a e Ha _ _; inversion Ha; subst; clear Ha.
  all: try (apply keeps_on_world; intros w Hw; unfold untouched, on_reconnect, says, log_at; by rewrite data_logs).
  all: apply pres_bind; [apply pres_lift|intros x; apply keeps_on_world; apply untouched_says].
Qed.

(** No event sequence takes the stack below [Connected]: it moves between the
    three top-level states only, never authenticates and never counts data. *)
Theorem stack_never_streams es :
  let s := handle_all pdef es pinit in
  current_state s = sid (foldl next Disconnected es) ∧ live (current_state s) ∧ untouched (world s).
Proof.
  split.
  - apply (handle_all_simulates pdef stack_passive (λ _ _, true)); [| |apply stack_ok|done].
    + intros r Hr e s _ _. by destruct (stack_kept r Hr) as (-> & _).
    + intros a e. by destruct a, e.
  - apply (handle_all_keeps pdef untouched live stack_passive); [..|apply stack_ok|by left|done].
    + intros i cb H _. cbn in H. repeat (rewrite lookup_insert_Some in H; destruct H as [[_ <-]|[_ H]]);
        [..|by rewrite lookup_empty in H]; apply keeps_on_world; intros w Hw; unfold untouched, says, log_at;
        rewrite ?data_updates, ?data_logs; exact Hw.
    + intros i cb H. by rewrite (proj1 (proj2 stack_def)) in H.
    + done.
    + apply stack_kept.
Qed.
