(* ===== verification/DeviceManager.v ===== *)
(** * The device manager of [state_machine/examples/05_device_manager.cpp]

    Log lines are those the module logger prints at level [Debug].  Counters are
    unbounded; of an event only the fields that are used are kept. *)
From Stdlib Require Import Floats.SpecFloat.
From S2P Require Import Prelude FloatText HfsmCore HfsmExt HfsmClient.
Local Open Scope prog_scope.

Inductive Event :=
  | PowerOn | PowerOff | StandbyEvent | WakeUp | Heartbeat (timestamp : Z)
  | TemperatureReading (temp_celsius : spec_float) | OverTemperature (temp : spec_float) | NormalTemperature
  | FaultDetected (fault_code : Z) (description : string) | FaultCleared | RecoveryInitiated | RecoveryComplete
  | StartFirmwareUpdate (version : string) (size_bytes : Z) | FWDownloadProgress (percent : Z) | FWDownloadComplete
  | FWVerifyFailure (detail : string) | FWUpdateComplete | FWUpdateFailed (error_code : Z).
Inductive EventTag :=
  | TPowerOn | TPowerOff | TStandby | TWakeUp | THeartbeat | TTemperatureReading | TOverTemperature | TNormalTemperature
  | TFaultDetected | TFaultCleared | TRecoveryInitiated | TRecoveryComplete | TStartFirmwareUpdate | TFWDownloadProgress
  | TFWDownloadComplete | TFWVerifyFailure | TFWUpdateComplete | TFWUpdateFailed.
#[export] Instance EventTag_eq_dec : EqDecision EventTag.
Proof. solve_decision. Defined.
#[export] Instance device_events : Events Event := {|
  EvType := EventTag;
  ev_typeid e := match e with
                 | PowerOn => TPowerOn | PowerOff => TPowerOff | StandbyEvent => TStandby | WakeUp => TWakeUp
                 | Heartbeat _ => THeartbeat | TemperatureReading _ => TTemperatureReading
                 | OverTemperature _ => TOverTemperature | NormalTemperature => TNormalTemperature
                 | FaultDetected _ _ => TFaultDetected | FaultCleared => TFaultCleared
                 | RecoveryInitiated => TRecoveryInitiated | RecoveryComplete => TRecoveryComplete
                 | StartFirmwareUpdate _ _ => TStartFirmwareUpdate | FWDownloadProgress _ => TFWDownloadProgress
                 | FWDownloadComplete => TFWDownloadComplete | FWVerifyFailure _ => TFWVerifyFailure
                 | FWUpdateComplete => TFWUpdateComplete | FWUpdateFailed _ => TFWUpdateFailed
                 end
|}.
Definition as_OverTemperature (e : Event) : option spec_float := match e with OverTemperature t => Some t | _ => None end.
Definition as_StartFirmwareUpdate (e : Event) : option (string * Z) :=
  match e with StartFirmwareUpdate v n => Some (v, n) | _ => None end.
Definition as_FWVerifyFailure (e : Event) : option string := match e with FWVerifyFailure s => Some s | _ => None end.

Inductive DeviceState :=
  | PoweredOff | PoweredOn | Active | Standby | Fault | FirmwareUpdate | ActiveIdle | Running | Busy
  | MinorFault | MajorFault | Recovering | FWDownloading | FWVerifying | FWInstalling.
Definition device_states : list DeviceState :=
  [PoweredOff; PoweredOn; Active; Standby; Fault; FirmwareUpdate; ActiveIdle; Running; Busy;
   MinorFault; MajorFault; Recovering; FWDownloading; FWVerifying; FWInstalling].
Definition sid (s : DeviceState) : StateId :=
  match s with
  | PoweredOff => 0 | PoweredOn => 1 | Active => 2 | Standby => 3 | Fault => 4 | FirmwareUpdate => 5 | ActiveIdle => 6
  | Running => 7 | Busy => 8 | MinorFault => 9 | MajorFault => 10 | Recovering => 11 | FWDownloading => 12
  | FWVerifying => 13 | FWInstalling => 14
  end%N.
Definition device_state_name (s : DeviceState) : string :=
  match s with
  | PoweredOff => "PoweredOff" | PoweredOn => "PoweredOn" | Active => "Active" | Standby => "Standby" | Fault => "Fault"
  | FirmwareUpdate => "FirmwareUpdate" | ActiveIdle => "Active/Idle" | Running => "Active/Running" | Busy => "Active/Busy"
  | MinorFault => "Fault/Minor" | MajorFault => "Fault/Major" | Recovering => "Fault/Recovering"
  | FWDownloading => "FW/Downloading" | FWVerifying => "FW/Verifying" | FWInstalling => "FW/Installing"
  end.
Record DeviceMetrics := mkMetrics {
  uptime_seconds : Z; fault_count : Z; recovery_count : Z; fw_update_count : Z;
  max_temperature : spec_float; current_temperature : spec_float; last_heartbeat : Z; total_transitions : Z
}.
(** Zero, and 25.0. *)
Definition new_metrics : DeviceMetrics := mkMetrics 0 0 0 0 (S754_zero false) (decode_float64 0x4039000000000000) 0 0.
Definition count_fault (m : DeviceMetrics) : DeviceMetrics :=
  mkMetrics (uptime_seconds m) (fault_count m + 1) (recovery_count m) (fw_update_count m) (max_temperature m)
    (current_temperature m) (last_heartbeat m) (total_transitions m).
Definition count_recovery (m : DeviceMetrics) : DeviceMetrics :=
  mkMetrics (uptime_seconds m) (fault_count m) (recovery_count m + 1) (fw_update_count m) (max_temperature m)
    (current_temperature m) (last_heartbeat m) (total_transitions m).
Definition count_update (m : DeviceMetrics) : DeviceMetrics :=
  mkMetrics (uptime_seconds m) (fault_count m) (recovery_count m) (fw_update_count m + 1) (max_temperature m)
    (current_temperature m) (last_heartbeat m) (total_transitions m).
Definition set_max (t : spec_float) (m : DeviceMetrics) : DeviceMetrics :=
  mkMetrics (uptime_seconds m) (fault_count m) (recovery_count m) (fw_update_count m) t
    (current_temperature m) (last_heartbeat m) (total_transitions m).
Definition count_transition (m : DeviceMetrics) : DeviceMetrics :=
  mkMetrics (uptime_seconds m) (fault_count m) (recovery_count m) (fw_update_count m) (max_temperature m)
    (current_temperature m) (last_heartbeat m) (total_transitions m + 1).

Record DeviceData := mkDevice { metrics : DeviceMetrics; history : Histories.HistoryManager }.
Definition on_metrics (f : DeviceMetrics → DeviceMetrics) (d : DeviceData) : DeviceData := mkDevice (f (metrics d)) (history d).
Definition remember (child : StateId) (d : DeviceData) : DeviceData :=
  mkDevice (metrics d) (Histories.record (sid Active) child (history d)).
Definition World := Captured DeviceData.
Definition log_at (l : Loggers.LogLevel) (line : DeviceData → string) : World → World := logs Loggers.Debug l line.
Definition says (l : Loggers.LogLevel) (s : string) : World → World := log_at l (λ _, s).
Definition info (s : string) : World → World := says Loggers.Info s.

(** ** [setup_callbacks] *)
Definition counted (s : string) (count : DeviceData → Z) (d : DeviceData) : string := s +:+ pretty (count d) +:+ ")".
(** Entering [Standby] records the engine's current state. *)
Definition enter_standby : Callback Event World unit := λ _,
  s ← get;
  on_world (λ w, updates (remember (current_state s)) (info "  [Standby] Low power mode" w)).
Definition entries : list (DeviceState * Callback Event World unit) := [
  (PoweredOff, plainly (info "Device powered OFF"));
  (PoweredOn, plainly (λ w, updates (remember (sid ActiveIdle)) (info "Device powered ON" w)));
  (ActiveIdle, plainly (info "  [Active] Idle - waiting for commands"));
  (Running, plainly (info "  [Active] Running - processing"));
  (Busy, plainly (info "  [Active] Busy - high load"));
  (Standby, enter_standby);
  (MinorFault, plainly (λ w, log_at Loggers.Warn (counted "  [Fault] Minor fault detected (#" (λ d, fault_count (metrics d)))
                               (updates (on_metrics count_fault) w)));
  (MajorFault, plainly (λ w, log_at Loggers.LError (counted "  [Fault] MAJOR fault detected (#" (λ d, fault_count (metrics d)))
                               (updates (on_metrics count_fault) w)));
  (Recovering, plainly (λ w, log_at Loggers.Info (counted "  [Fault] Recovery in progress (attempt #" (λ d, recovery_count (metrics d)))
                               (updates (on_metrics count_recovery) w)));
  (FWDownloading, plainly (info "  [FW] Downloading firmware..."));
  (FWVerifying, plainly (info "  [FW] Verifying firmware integrity..."));
  (FWInstalling, plainly (info "  [FW] Installing firmware..."))].
Definition exits : list (DeviceState * Callback Event World unit) := [(Busy, plainly (info "  [Active] Busy completed"))].

(** ** [setup_transitions] *)
Definition device_rule (src : DeviceState) (evt : EventTag) (dst : DeviceState) (a : option (Callback Event World unit)) :
  RuntimeTransition Event World := rule (sid src) evt (sid dst) None a.
Definition says_rule (src : DeviceState) (evt : EventTag) (dst : DeviceState) (l : Loggers.LogLevel) (s : string) :
  RuntimeTransition Event World := device_rule src evt dst (Some (plainly (says l s))).
Definition overheated (s : DeviceState) : RuntimeTransition Event World :=
  device_rule s TOverTemperature MinorFault (Some (with_event as_OverTemperature (λ t, updates (on_metrics (set_max t))))).
Definition on_update (e : string * Z) (w : World) : World :=
  updates (on_metrics count_update) (info ("  [FW] Starting update to version " +:+ e.1 +:+ " (" +:+ pretty e.2 +:+ " bytes)") w).
Definition device_rules : list (RuntimeTransition Event World) := [
  device_rule PoweredOff TPowerOn PoweredOn None;
  device_rule PoweredOn TPowerOff PoweredOff None;
  device_rule ActiveIdle TStandby Standby None;
  device_rule Standby TWakeUp ActiveIdle None;
  device_rule ActiveIdle THeartbeat Running (Some (plainly (updates (on_metrics count_transition))));
  device_rule Running THeartbeat Busy None;
  device_rule Busy THeartbeat ActiveIdle None;
  overheated ActiveIdle; overheated Running; overheated Busy;
  device_rule MinorFault TRecoveryInitiated Recovering None;
  device_rule MajorFault TRecoveryInitiated Recovering None;
  says_rule MinorFault TNormalTemperature ActiveIdle Loggers.Info "  [Fault] Temperature normalized, auto-recovered";
  says_rule Recovering TRecoveryComplete ActiveIdle Loggers.Info "  [Fault] Recovery complete, resuming operation";
  says_rule Recovering TFaultDetected MajorFault Loggers.LError "  [Fault] Recovery failed, escalated to MajorFault";
  says_rule MinorFault TFaultDetected MajorFault Loggers.LError "  [Fault] Escalated to MajorFault";
  says_rule MajorFault TPowerOff PoweredOff Loggers.Warn "  [Fault] Major fault: powering off";
  device_rule ActiveIdle TStartFirmwareUpdate FWDownloading (Some (with_event as_StartFirmwareUpdate on_update));
  says_rule FWDownloading TFWDownloadComplete FWVerifying Loggers.Info "  [FW] Download complete, verifying";
  says_rule FWVerifying TFWUpdateComplete FWInstalling Loggers.Info "  [FW] Verified OK, installing";
  device_rule FWVerifying TFWVerifyFailure ActiveIdle
    (Some (with_event as_FWVerifyFailure (λ s, says Loggers.LError ("  [FW] Verification failed: " +:+ s))));
  says_rule FWInstalling TFWUpdateComplete ActiveIdle Loggers.Info "  [FW] Update successful, restarting";
  says_rule FWInstalling TFWUpdateFailed MajorFault Loggers.LError "  [FW] Install failed, entering fault state"].

(** The constructor of [DeviceManager]. *)
Definition new_history : Histories.HistoryManager :=
  Histories.configure (sid Fault) Histories.Shallow (Histories.configure (sid Active) Histories.Deep ∅).
Definition DeviceManager : StateMachineEngine Event World :=
  let e := new_engine default_MachineConfig (mkCaptured (mkDevice new_metrics new_history) []) in
  let e := foldl (λ e s, e |> register_state (sid s) |> set_state_name (sid s) (device_state_name s)) e device_states in
  let e := e |> set_initial (sid PoweredOff) in
  let e := foldl (λ e '(s, cb), e |> on_entry (sid s) cb) e entries in
  let e := foldl (λ e '(s, cb), e |> on_exit (sid s) cb) e exits in
  let e := foldl (λ e r, e |> add_rule r) e device_rules in
  e |> set_logger (λ msg, on_world (says Loggers.Debug msg)).
Abbreviation ddef := (engine_def DeviceManager).
Abbreviation dinit := (engine_state DeviceManager).

(** ** [run] *)
Abbreviation Machine := (EngineState Event World).
Definition title (t : string) (s : Machine) : Machine := set_world (info t (world s)) s.
Definition normal_operation (s : Machine) : Machine :=
  handle_all ddef [PowerOn; Heartbeat 1000; Heartbeat 1001; Heartbeat 1002] s.
(** 85.5 by its bits; the pause between the two events is left out. *)
Definition fault_recovery (s : Machine) : Machine :=
  handle_all ddef [OverTemperature (decode_float64 0x4055600000000000); NormalTemperature] s.
Definition firmware_update (s : Machine) : Machine :=
  handle_all ddef [StartFirmwareUpdate "v2.1.0" 16777216; FWDownloadComplete; FWUpdateComplete; FWUpdateComplete] s.
Definition power_cycle_with_history (s : Machine) : Machine := handle_all ddef [PowerOff; PowerOn] s.
Definition metrics_lines (s : Machine) : list string :=
  let m := metrics (data (world s)) in
  [newline +:+ "--- Device Metrics ---"; "Faults:         " +:+ pretty (fault_count m);
   "Recoveries:     " +:+ pretty (recovery_count m); "FW Updates:     " +:+ pretty (fw_update_count m);
   "Max Temp:       " +:+ format_fixed 1 (max_temperature m) +:+ " C"; "Total Trans:    " +:+ pretty (total_transitions m);
   "Final State:    " +:+ get_state_name ddef (current_state s)].
Definition print_metrics (s : Machine) : Machine :=
  foldl (λ s' line, say line s') s (metrics_lines s).
Definition run (s : Machine) : Machine :=
  let s := say (banner "Device Lifecycle Simulation") s in
  let s := normal_operation (title "=== Scenario 1: Normal Operation ===" s) in
  let s := fault_recovery (title (newline +:+ "=== Scenario 2: Fault with Auto-Recovery ===") s) in
  let s := firmware_update (title (newline +:+ "=== Scenario 3: Firmware Update ===") s) in
  let s := power_cycle_with_history (title (newline +:+ "=== Scenario 4: Power Cycle with Deep History ===") s) in
  print_metrics s.
(** Scenarios 2 and 3 print their titles alone. *)
Example run_prints :
  current_state (run dinit) = sid PoweredOn ∧
  take 10 (drop 2 (out (world (run dinit)))) =
    ["[INFO] Device powered ON"; "[DEBUG] [hfsm] PoweredOff -> PoweredOn";
     "[INFO] " +:+ newline +:+ "=== Scenario 2: Fault with Auto-Recovery ===";
     "[INFO] " +:+ newline +:+ "=== Scenario 3: Firmware Update ===";
     "[INFO] " +:+ newline +:+ "=== Scenario 4: Power Cycle with Deep History ===";
     "[INFO] Device powered OFF"; "[DEBUG] [hfsm] PoweredOn -> PoweredOff";
     "[INFO] Device powered ON"; "[DEBUG] [hfsm] PoweredOff -> PoweredOn"; newline +:+ "--- Device Metrics ---"] ∧
  drop 12 (out (world (run dinit))) =
    ["Faults:         0"; "Recoveries:     0"; "FW Updates:     0"; "Max Temp:       0.0 C"; "Total Trans:    0";
     "Final State:    PoweredOn"].
Proof. by_compute. Qed.

(** ** What is reachable *)
Definition next (s : DeviceState) (e : Event) : DeviceState :=
  match s, e with
  | PoweredOff, PowerOn => PoweredOn
  | PoweredOn, PowerOff => PoweredOff
  | ActiveIdle, StandbyEvent => Standby
  | Standby, WakeUp => ActiveIdle
  | ActiveIdle, Heartbeat _ => Running
  | Running, Heartbeat _ => Busy
  | Busy, Heartbeat _ => ActiveIdle
  | (ActiveIdle | Running | Busy), OverTemperature _ => MinorFault
  | (MinorFault | MajorFault), RecoveryInitiated => Recovering
  | MinorFault, NormalTemperature => ActiveIdle
  | Recovering, RecoveryComplete => ActiveIdle
  | (Recovering | MinorFault), FaultDetected _ _ => MajorFault
  | MajorFault, PowerOff => PoweredOff
  | ActiveIdle, StartFirmwareUpdate _ _ => FWDownloading
  | FWDownloading, FWDownloadComplete => FWVerifying
  | FWVerifying, FWUpdateComplete => FWInstalling
  | FWVerifying, FWVerifyFailure _ => ActiveIdle
  | FWInstalling, FWUpdateComplete => ActiveIdle
  | FWInstalling, FWUpdateFailed _ => MajorFault
  | _, _ => s
  end.
Definition idle_metrics (w : World) : Prop := metrics (data w) = new_metrics.
Definition powered (i : StateId) : Prop := i = sid PoweredOff ∨ i = sid PoweredOn.

Lemma device_ok : engine_ok ddef dinit.
Proof. apply engine_check_ok. by vm_compute. Qed.
Lemma device_rules_are : rules_ ddef = device_rules.
Proof. done. Qed.
Lemma world_only_enter_standby e : world_only (enter_standby e).
Proof.
  intros s. exists (updates (remember (current_state s)) (info "  [Standby] Low power mode" (world s))). done.
Qed.
Lemma device_passive : passive ddef.
Proof.
  constructor.
  - intros i cb H. cbn in H.
    repeat (rewrite lookup_insert_Some in H; destruct H as [[_ <-]|[_ H]]);
      first [apply world_only_plainly | apply world_only_enter_standby | by rewrite lookup_empty in H].
  - intros i cb H. cbn in H. passive_entries H.
  - intros r a e Hin Ha Hwf Ht. rewrite device_rules_are in Hin. passive_actions Hin Ha.
  - intros f msg H. cbn in H. injection H as <-. apply world_only_on_world.
Qed.
Lemma idle_info l s w : idle_metrics w → idle_metrics (says l s w).
Proof. unfold idle_metrics, says, log_at. by rewrite data_logs. Qed.
Lemma device_kept r : r ∈ rules_ ddef → guard r = None ∧ is_any r = false ∧
  (powered (src_id r) → powered (dst_id r) ∧ ∀ a e, action r = Some a → wf_env e → event_type r = type_ e →
     preserves (λ s : Machine, idle_metrics (world s)) (a e)).
Proof.
  rewrite device_rules_are. unfold powered. intros Hin.
  rule_cases Hin; (split; [done|split; [done|]]); cbn; intros Hs; try (by destruct Hs); split; auto; done.
Qed.

(** The machine follows [next], which has no step from the power states to any
    other: on any events the device is off or on, and its metrics stay as built. *)
Theorem device_stays_powered es :
  let s := handle_all ddef es dinit in
  current_state s = sid (foldl next PoweredOff es) ∧ powered (current_state s) ∧ idle_metrics (world s).
Proof.
  split.
  - apply (handle_all_simulates ddef device_passive (λ _ _, true)); [| |apply device_ok|done].
    + intros r Hr e s _ _. by destruct (device_kept r Hr) as (-> & _).
    + intros a e. by destruct a, e.
  - apply (handle_all_keeps ddef idle_metrics powered device_passive); [..|apply device_ok|by left|done].
    + intros i cb H [-> | ->]; cbn in H; simplify_map_eq; apply keeps_on_world; intros w Hw;
        unfold idle_metrics; cbn; rewrite ?data_logs; exact Hw.
    + intros i cb H [-> | ->]; cbn in H; simplify_map_eq.
    + intros f msg H. cbn in H. injection H as <-. apply keeps_on_world, idle_info.
    + apply device_kept.
Qed.
