(* ===== verification/Threads.v ===== *)
(** * Threads that share locks and a counter

    The machine of [crash_cases/09_data_race.cpp] and [10_deadlock.cpp]: a
    thread is the list of the atomic actions it still has to do, a run is a
    schedule, the list of the threads that take a step.  A thread that waits for
    a lock has no step; a schedule leaves it alone. *)
From S2P Require Import Prelude.
Local Open Scope prog_scope.

(** [x++] is a load and a store unless [x] is atomic.  [LockAll] is
    [std::lock]: the algorithm, which the standard leaves open, locks the first,
    tries the others, and on a failure releases it and starts from another.
    [IfNonEmpty] does the next action if the shared vector has elements. *)
Inductive Instr :=
  | Lock (m : string) | Unlock (m : string)
  | LockAll (ms : list string) | TryRest (m : string) (ms : list string)
  | Load | Store | FetchAdd
  | PushBack (z : Z) | IfNonEmpty | PrintBack
  | Say (line : string).
#[export] Instance Instr_eq_dec : EqDecision Instr.
Proof. solve_decision. Defined.

Record Thread := mkThread { code : list Instr; reg : Z }.
(** [failed]: a step had no defined behaviour. *)
Record Sys := mkSys {
  owners : list (string * nat); threads : list Thread; counter : Z; vec : list Z; failed : bool; out : list string
}.
#[export] Instance Thread_eq_dec : EqDecision Thread.
Proof. solve_decision. Defined.
#[export] Instance Sys_eq_dec : EqDecision Sys.
Proof. solve_decision. Defined.

Fixpoint owner (m : string) (os : list (string * nat)) : option nat :=
  match os with [] => None | (m', i) :: os' => if decide (m = m') then Some i else owner m os' end.
Definition release (m : string) (os : list (string * nat)) : list (string * nat) := filter (λ p, p.1 ≠ m) os.
Definition free (os : list (string * nat)) (m : string) : bool := match owner m os with None => true | _ => false end.

Definition advance (i : nat) (t : Thread) (s : Sys) : Sys :=
  mkSys (owners s) (<[i := t]> (threads s)) (counter s) (vec s) (failed s) (out s).
Definition set_owners (os : list (string * nat)) (s : Sys) : Sys := mkSys os (threads s) (counter s) (vec s) (failed s) (out s).
Definition set_counter (z : Z) (s : Sys) : Sys := mkSys (owners s) (threads s) z (vec s) (failed s) (out s).
Definition set_vec (v : list Z) (s : Sys) : Sys := mkSys (owners s) (threads s) (counter s) v (failed s) (out s).
Definition fail (s : Sys) : Sys := mkSys (owners s) (threads s) (counter s) (vec s) true (out s).
Definition print (line : string) (s : Sys) : Sys := mkSys (owners s) (threads s) (counter s) (vec s) (failed s) (out s ++ [line]).
(** A store of an [int]; a signed overflow is undefined. *)
Definition store (z : Z) (s : Sys) : Sys := if in_signed 32 z then set_counter z s else fail s.

(** Thread [i] does [c] and goes on with [k]. *)
Definition exec (i : nat) (c : Instr) (k : list Instr) (r : Z) (s : Sys) : option Sys :=
  let next := advance i (mkThread k r) in
  match c with
  | Lock m =>
      match owner m (owners s) with
      | None => Some (next (set_owners ((m, i) :: owners s) s))
      | Some j => if decide (i = j) then Some (fail s) else None
      end
  | Unlock m =>
      if decide (owner m (owners s) = Some i) then Some (next (set_owners (release m (owners s)) s)) else Some (fail s)
  | LockAll [] => Some (next s)
  | LockAll (m :: ms) =>
      match owner m (owners s) with
      | None => Some (advance i (mkThread (TryRest m ms :: k) r) (set_owners ((m, i) :: owners s) s))
      | Some j => if decide (i = j) then Some (fail s) else None
      end
  | TryRest m ms =>
      if forallb (free (owners s)) ms then Some (next (set_owners (((λ m', (m', i)) <$> ms) ++ owners s) s))
      else Some (advance i (mkThread (LockAll (ms ++ [m]) :: k) r) (set_owners (release m (owners s)) s))
  | Load => Some (advance i (mkThread k (counter s)) s)
  | Store => Some (next (store (r + 1)%Z s))
  | FetchAdd => Some (next (set_counter (swrap 32 (counter s + 1)) s))
  | PushBack z => Some (next (set_vec (vec s ++ [z]) s))
  | IfNonEmpty => Some (advance i (mkThread (if bool_decide (vec s = []) then tail k else k) r) s)
  | PrintBack => Some (match last (vec s) with Some z => next (print (pretty z) s) | None => fail s end)
  | Say line => Some (next (print line s))
  end.
Definition step (s : Sys) (i : nat) : option Sys :=
  if failed s then None
  else match threads s !! i with
       | Some (mkThread (c :: k) r) => exec i c k r s
       | _ => None
       end.
Definition run1 (s : Sys) (i : nat) : Sys := default s (step s i).
Definition run (s : Sys) (sched : list nat) : Sys := foldl run1 s sched.

(** All threads can be joined. *)
Definition finished (s : Sys) : bool := forallb (λ t, bool_decide (code t = [])) (threads s).
(** Nobody can take a step, and not all are done. *)
Definition stuck (s : Sys) : bool :=
  negb (finished s) && forallb (λ i, match step s i with None => true | Some _ => false end) (seq 0 (length (threads s))).
(** The object an action reads or writes without synchronization. *)
Inductive Obj := TheCounter | TheVector.
#[export] Instance Obj_eq_dec : EqDecision Obj.
Proof. solve_decision. Defined.
Definition access (c : Instr) : option (Obj * bool) :=
  match c with
  | Load => Some (TheCounter, false) | Store => Some (TheCounter, true)
  | PushBack _ => Some (TheVector, true) | IfNonEmpty | PrintBack => Some (TheVector, false)
  | _ => None
  end.
Definition next_access (t : Thread) : option (Obj * bool) := head (code t) ≫= access.
(** Two threads are about to access one object, the first to write it. *)
Definition conflict (s : Sys) (i j : nat) : Prop :=
  i ≠ j ∧ ∃ t u o w, threads s !! i = Some t ∧ threads s !! j = Some u ∧
    next_access t = Some (o, true) ∧ next_access u = Some (o, w).
Definition racing (s : Sys) : Prop := ∃ i j, conflict s i j.
Definition start (codes : list (list Instr)) : Sys := mkSys [] ((λ c, mkThread c 0) <$> codes) 0 [] false [].

Lemma run_app s a b : run s (a ++ b) = run (run s a) b.
Proof. apply foldl_app. Qed.
Lemma run_invariant (P : Sys → Prop) s sched : (∀ s i s', P s → step s i = Some s' → P s') → P s → P (run s sched).
Proof.
  intros Hstep. revert s. induction sched as [|i sched IH]; intros s Hs; simpl; [done|]. apply IH. unfold run1.
  destruct (step s i) as [s'|] eqn:E; simpl; [by eapply Hstep|done].
Qed.
Lemma step_Some s i s' : step s i = Some s' →
  failed s = false ∧ ∃ c k r, threads s !! i = Some (mkThread (c :: k) r) ∧ exec i c k r s = Some s'.
Proof. unfold step. destruct (failed s); [done|]. repeat case_match; intros; simplify_eq. eauto 6. Qed.
Lemma step_None_code s i t : failed s = false → threads s !! i = Some t → code t = [] → step s i = None.
Proof. intros Hf Ht Hc. unfold step. rewrite Hf, Ht. by destruct t as [[] r]. Qed.

(** ** A finite machine, searched *)
Section search.
Definition successors (s : Sys) : list Sys := omap (step s) (seq 0 (length (threads s))).
(** [fuel] bounds the states taken from the worklist. *)
Fixpoint search (fuel : nat) (todo seen : list Sys) : list Sys :=
  match fuel, todo with
  | S fuel', s :: todo' =>
      if decide (s ∈ seen) then search fuel' todo' seen else search fuel' (successors s ++ todo') (s :: seen)
  | _, _ => seen
  end.
Definition closed (ss : list Sys) : bool := forallb (λ s, forallb (λ s', bool_decide (s' ∈ ss)) (successors s)) ss.
(** Runs the first thread that can step, [fuel] times. *)
Fixpoint schedule (fuel : nat) (s : Sys) : list nat :=
  match fuel with
  | 0 => []
  | S fuel' =>
      match List.find (λ i, match step s i with Some _ => true | None => false end) (seq 0 (length (threads s))) with
      | Some i => i :: schedule fuel' (run1 s i)
      | None => []
      end
  end.

Lemma step_successor s i s' : step s i = Some s' → s' ∈ successors s.
Proof.
  intros H. unfold successors. apply list_elem_of_omap. exists i. split; [|done].
  apply step_Some in H as (_ & c & k & r & Ht & _). apply elem_of_seq. apply lookup_lt_Some in Ht. lia.
Qed.
Lemma closed_run ss s sched : closed ss = true → s ∈ ss → run s sched ∈ ss.
Proof.
  intros Hc Hs. apply (run_invariant (λ s, s ∈ ss)); [|done]. clear s Hs. intros s i s' Hs Hi.
  unfold closed in Hc. rewrite forallb_forall in Hc. specialize (Hc s (proj1 (list_elem_of_In _ _) Hs)).
  rewrite forallb_forall in Hc. apply step_successor in Hi.
  specialize (Hc s' (proj1 (list_elem_of_In _ _) Hi)). by apply bool_decide_eq_true in Hc.
Qed.
(** What a closed set of states shows of every run from one of them. *)
Lemma closed_check (P : Sys → bool) ss s sched : closed ss = true → forallb P ss = true → s ∈ ss → P (run s sched) = true.
Proof.
  intros Hc HP Hs. rewrite forallb_forall in HP. apply HP, list_elem_of_In. by apply closed_run.
Qed.
End search.

(** ** Sums over the threads *)
Section totals.
Context (f : Thread → nat).
Definition total (s : Sys) : nat := sum_list (f <$> threads s).
Lemma sum_list_insert l i t t' : l !! i = Some t → sum_list (f <$> <[i := t']> l) + f t = sum_list (f <$> l) + f t'.
Proof.
  revert i. induction l as [|u l IH]; intros [|i] H; simplify_eq/=; [lia|]. specialize (IH i H). lia.
Qed.
Lemma total_advance s i t t' : threads s !! i = Some t → total (advance i t' s) + f t = total s + f t'.
Proof. apply sum_list_insert. Qed.
Lemma total_member s i t : threads s !! i = Some t → f t ≤ total s.
Proof.
  intros Ht. unfold total. revert i Ht. induction (threads s) as [|u l IH]; intros [|i] Ht; simplify_eq/=; [lia|].
  specialize (IH i Ht). lia.
Qed.
End totals.

Lemma finished_false s : finished s = false → ∃ i t, threads s !! i = Some t ∧ code t ≠ [].
Proof.
  unfold finished. induction (threads s) as [|t l IH]; simpl; [done|]. case_bool_decide as Hc; simpl; intros H.
  - destruct (IH H) as (i & u & Hu & Hn). by exists (S i), u.
  - by exists 0, t.
Qed.
Lemma finished_true s i t : finished s = true → threads s !! i = Some t → code t = [].
Proof.
  unfold finished. rewrite forallb_forall. intros H Ht. apply (bool_decide_eq_true (code t = [])), H, list_elem_of_In. by eapply list_elem_of_lookup_2.
Qed.
Lemma total_finished f s : (∀ t, code t = [] → f t = 0) → finished s = true → total f s = 0.
Proof.
  intros Hf. unfold finished, total. induction (threads s) as [|t l IH]; [done|]. rewrite fmap_cons.
  intros [Hc Hl]%andb_prop. apply bool_decide_eq_true in Hc. simpl. by rewrite (Hf t Hc), (IH Hl).
Qed.
(** A machine whose threads can always go on, and run out of actions, ends. *)
Lemma can_finish (I : Sys → Prop) (size : Sys → nat) s :
  (∀ s, I s → finished s = false → ∃ i s', step s i = Some s' ∧ I s' ∧ size s' < size s) →
  I s → ∃ sched, finished (run s sched) = true.
Proof.
  intros Hgo. remember (size s) as n eqn:Hn. revert s Hn. induction (lt_wf n) as [n _ IH]. intros s -> Hs.
  destruct (finished s) eqn:Hf; [by exists []|]. destruct (Hgo s Hs Hf) as (i & s' & Hi & Hs' & Hlt).
  destruct (IH _ Hlt s' eq_refl Hs') as [sched H]. exists (i :: sched). simpl. unfold run1. by rewrite Hi.
Qed.
