(* ===== verification/LockCases.v ===== *)
(** * Data races and deadlocks: [crash_cases/09_data_race.cpp], [10_deadlock.cpp] *)
From S2P Require Import Prelude Threads.
Local Open Scope prog_scope.

(** ** 09: the counters *)
Definition iterations : nat := Z.to_nat 10000.
Definition repeat_code (n : nat) (body : list Instr) : list Instr := concat (replicate n body).
Definition increment (n : nat) : list Instr := repeat_code n [Load; Store].
Definition critical : list Instr := [Lock "mtx"; Load; Store; Unlock "mtx"].
Definition safe_increment (n : nat) : list Instr := repeat_code n critical.
Definition atomic_increment (n : nat) : list Instr := repeat_code n [FetchAdd].
Definition crash_case_1 : Sys := start (replicate 10 (increment iterations)).
Definition writer : list Instr := (λ i, PushBack (Z.of_nat i)) <$> seq 0 1000.
Definition reader : list Instr := repeat_code 1000 [IfNonEmpty; PrintBack].
Definition crash_case_2 : Sys := start [writer; reader].
Definition fix_case : Sys := start (replicate 10 (safe_increment iterations)).
(** What [crash_case_1] and [fix_case] print once their threads are joined. *)
Definition report (name : string) (s : Sys) : string := name +:+ " = " +:+ pretty (counter s).

(** *** Without a lock *)
Example both_crash_cases_race :
  racing (run crash_case_1 [0]) ∧ racing crash_case_2.
Proof.
  split.
  - exists 0, 1. split; [done|]. do 2 eexists. exists TheCounter, false. by repeat split; vm_compute.
  - exists 0, 1. split; [done|]. do 2 eexists. exists TheVector, false. by repeat split; vm_compute.
Qed.


(** Two threads in lockstep lose half of what they add. *)
Lemma lockstep_run n : ∀ z r1 r2, (0 ≤ z)%Z → (z + Z.of_nat n < 2 ^ 31)%Z →
  let s := mkSys [] [mkThread (increment n) r1; mkThread (increment n) r2] z [] false [] in
  let s' := run s (concat (replicate n [0; 1; 0; 1])) in
  finished s' = true ∧ failed s' = false ∧ counter s' = (z + Z.of_nat n)%Z.
Proof.
  induction n as [|n IH]; intros z r1 r2 Hz Hb s s'; [subst s s'; simpl; split_and!; [done..|lia]|].
  assert (run s [0; 1; 0; 1] = mkSys [] [mkThread (increment n) z; mkThread (increment n) z] (z + 1) [] false []) as E.
  { assert (in_signed 32 (z + 1) = true) as Hs by (apply in_signed_spec; lia).
    subst s. by repeat (lazy -[Z.add in_signed]; rewrite ?Hs). }
  subst s'. cbn [replicate concat]. rewrite run_app, E.
  destruct (IH (z + 1)%Z z z) as (H1 & H2 & H3); [lia..|]. rewrite H3. split_and!; [done..|lia].
Qed.

(** *** With the lock *)
Section safe.
Context (iters : list nat) (small : (Z.of_nat (sum_list iters) < 2 ^ 31)%Z).
Definition safe_start : Sys := start (safe_increment <$> iters).

(** A thread [k] actions into an iteration, with [m] more to come. *)
Definition at_phase (k m : nat) : list Instr := drop k critical ++ safe_increment m.
Definition idle (c : list Instr) : Prop := ∃ m, c = safe_increment m.
Definition inside (k : nat) (c : list Instr) : Prop := 1 ≤ k ≤ 3 ∧ ∃ m, c = at_phase k m.
Definition is_store (c : Instr) : bool := match c with Store => true | _ => false end.
Definition todo (t : Thread) : nat := length (filter (λ c, is_store c = true) (code t)).

(** At most one thread is in its critical section, and it holds the lock. *)
Record safe_inv (holder : option nat) (s : Sys) : Prop := {
  inv_ok : failed s = false;
  inv_owner : owners s = (λ i, ("mtx", i)) <$> option_list holder;
  inv_idle i t : threads s !! i = Some t → holder ≠ Some i → idle (code t);
  inv_inside i : holder = Some i → ∃ t k, threads s !! i = Some t ∧ inside k (code t) ∧ (k = 2 → reg t = counter s);
  inv_counter : (counter s + Z.of_nat (total todo s) = Z.of_nat (sum_list iters))%Z;
  inv_nonneg : (0 ≤ counter s)%Z
}.

Lemma todo_safe n r : todo (mkThread (safe_increment n) r) = n.
Proof.
  unfold todo, safe_increment, repeat_code. induction n as [|n IH]; [done|]. cbn [code replicate concat].
  rewrite filter_app, length_app. simpl in IH |- *. by rewrite IH.
Qed.
Lemma todo_app a b r : todo (mkThread (a ++ b) r) = todo (mkThread a r) + todo (mkThread b r).
Proof. unfold todo. simpl. by rewrite filter_app, length_app. Qed.
Lemma todo_start l : total todo (start (safe_increment <$> l)) = sum_list l.
Proof.
  induction l as [|n l IH]; [done|].
  change (todo (mkThread (safe_increment n) 0) + total todo (start (safe_increment <$> l)) = n + sum_list l).
  by rewrite todo_safe, IH.
Qed.
Lemma safe_start_inv : safe_inv None safe_start.
Proof.
  constructor; [done|done| |done| |done].
  - intros i t Ht _. simpl in Ht. rewrite <- list_fmap_compose, list_lookup_fmap in Ht.
    destruct (iters !! i) as [n|]; [|done]. simplify_eq/=. by exists n.
  - unfold safe_start. by rewrite todo_start.
Qed.
Lemma safe_increment_inv m c k : safe_increment m = c :: k →
  ∃ m', m = S m' ∧ c = Lock "mtx" ∧ k = at_phase 1 m'.
Proof. destruct m as [|m']; [done|]. intros H. cbn in H. simplify_eq. by exists m'. Qed.

(** A step of thread [i], when no other thread is inside. *)
Definition size (s : Sys) : nat := total (λ t, length (code t)) s.
Lemma safe_move h h' s s' i t t' : safe_inv h s → threads s !! i = Some t → (h = None ∨ h = Some i) → (h' = None ∨ h' = Some i) →
  failed s' = false → owners s' = (λ i, ("mtx", i)) <$> option_list h' → threads s' = <[i := t']> (threads s) →
  (h' = None → idle (code t')) → (h' = Some i → ∃ k, inside k (code t') ∧ (k = 2 → reg t' = counter s')) →
  (counter s' + Z.of_nat (todo t') = counter s + Z.of_nat (todo t))%Z → (0 ≤ counter s')%Z →
  length (code t) = S (length (code t')) →
  safe_inv h' s' ∧ size s = S (size s').
Proof.
  intros [Hok Ho Hidle Hin Hc Hn] Ht Hh Hh' Hf' Ho' Ht' Hid Hins Hz Hz0 Hlen. pose proof (lookup_lt_Some _ _ _ Ht) as Hlt.
  split; [constructor; [done|done| | | |done]|].
  - rewrite Ht'. intros j u Hj Hne. destruct (decide (i = j)) as [<-|Hij].
    + rewrite list_lookup_insert_eq in Hj by done. simplify_eq. apply Hid. by destruct Hh'.
    + rewrite list_lookup_insert_ne in Hj by done. apply (Hidle j u Hj). destruct Hh; congruence.
  - intros j ->. destruct Hh' as [|[= ->]]; [done|]. destruct (Hins eq_refl) as (k & Hk & Hr). exists t', k.
    rewrite Ht'. by rewrite list_lookup_insert_eq.
  - pose proof (total_advance todo s i _ t' Ht) as Hs. pose proof (total_member todo s i _ Ht).
    unfold total in *. rewrite Ht'. cbn in *. lia.
  - pose proof (total_advance (λ t, length (code t)) s i _ t' Ht) as Hs. unfold size, total in *. rewrite Ht'. cbn in *. lia.
Qed.
(** While some thread is unfinished, one that may step does, and every step keeps
    the invariant. *)
Lemma phase_length k m : k ≤ 3 → length (at_phase k m) = 4 - k + length (safe_increment m).
Proof. intros Hk. unfold at_phase. rewrite length_app, length_drop. simpl. lia. Qed.
Lemma counter_range h s : safe_inv h s → (0 ≤ counter s ∧ counter s + Z.of_nat (total todo s) < 2 ^ 31)%Z.
Proof. intros H. split; [apply H|]. rewrite (inv_counter _ _ H). exact small. Qed.
Lemma idle_step s i m r : safe_inv None s → threads s !! i = Some (mkThread (safe_increment (S m)) r) →
  ∃ s', step s i = Some s' ∧ safe_inv (Some i) s' ∧ size s = S (size s').
Proof.
  intros Hs Ht. eexists. split.
  - unfold step. rewrite (inv_ok _ _ Hs), Ht. cbn. rewrite (inv_owner _ _ Hs). reflexivity.
  - eapply (safe_move None (Some i) s _ i _ (mkThread (at_phase 1 m) r) Hs Ht); auto; try done; try apply Hs.
    intros _. exists 1. split; [|done]. split; [lia|]. by exists m.
Qed.
Lemma inside_step s i t k : safe_inv (Some i) s → threads s !! i = Some t → inside k (code t) → (k = 2 → reg t = counter s) →
  ∃ s' h, step s i = Some s' ∧ safe_inv h s' ∧ size s = S (size s').
Proof.
  intros Hs Ht [Hk [m Hm]] Hr. destruct t as [c r]. simpl in Hm, Hr. subst c.
  destruct (counter_range _ _ Hs) as [Hz Hb]. pose proof (total_member todo s i _ Ht) as Hmem.
  assert (k = 1 ∨ k = 2 ∨ k = 3) as [->|[->| ->]] by lia; unfold step; rewrite (inv_ok _ _ Hs), Ht; cbn.
  - eexists _, (Some i). split; [reflexivity|].
    eapply (safe_move (Some i) (Some i) s _ i _ (mkThread (at_phase 2 m) (counter s)) Hs Ht); auto; try done; try apply Hs.
    intros _. exists 2. split; [|done]. split; [lia|]. by exists m.
  - rewrite (Hr eq_refl). unfold store.
    assert (todo (mkThread (at_phase 2 m) r) = S m) as Hone by (unfold at_phase; by rewrite todo_app, todo_safe).
    rewrite (proj2 (in_signed_spec 32 (counter s + 1))) by lia. eexists _, (Some i). split; [reflexivity|].
    eapply (safe_move (Some i) (Some i) s _ i _ (mkThread (at_phase 3 m) (counter s)) Hs Ht); auto; try done; try apply Hs.
    + intros _. exists 3. split; [|done]. split; [lia|]. by exists m.
    + rewrite Hone. unfold at_phase. rewrite todo_app, todo_safe. unfold todo. simpl. lia.
    + cbn. lia.
  - rewrite (inv_owner _ _ Hs). cbn. rewrite decide_True by done. eexists _, None. split; [reflexivity|].
    eapply (safe_move (Some i) None s _ i _ (mkThread (safe_increment m) r) Hs Ht); auto; try done; try apply Hs.
    intros _. by exists m.
Qed.
Lemma safe_progress h s i t : safe_inv h s → threads s !! i = Some t → code t ≠ [] → (h = None ∨ h = Some i) →
  ∃ s' h', step s i = Some s' ∧ safe_inv h' s' ∧ size s = S (size s').
Proof.
  intros Hs Ht Hc [-> | ->].
  - destruct (inv_idle _ _ Hs i t Ht) as [m Hm]; [done|]. destruct t as [c r]. simpl in Hm, Hc. subst c.
    destruct m as [|m]; [done|]. destruct (idle_step s i m r Hs Ht) as (s' & H). by exists s', (Some i).
  - destruct (inv_inside _ _ Hs i eq_refl) as (t' & k & Ht' & Hk & Hr). simplify_eq. by eapply inside_step.
Qed.
Lemma safe_step h s i s' : safe_inv h s → step s i = Some s' → ∃ h', safe_inv h' s'.
Proof.
  intros Hs Hstep. pose proof (step_Some _ _ _ Hstep) as (Hf & c & k & r & Ht & He).
  destruct h as [j|]; [destruct (decide (j = i)) as [->|Hji]|].
  - destruct (safe_progress _ s i _ Hs Ht) as (s1 & h' & H1 & H2 & _); [done|by right|]. simplify_eq. by exists h'.
  - destruct (inv_idle _ _ Hs i _ Ht) as [m Hm]; [congruence|]. simpl in Hm. symmetry in Hm.
    apply safe_increment_inv in Hm as (m' & _ & -> & _). cbn in He. rewrite (inv_owner _ _ Hs) in He. cbn in He.
    destruct (decide ("mtx" = "mtx")); [|done]. by destruct (decide (i = j)); [congruence|].
  - destruct (safe_progress _ s i _ Hs Ht) as (s1 & h' & H1 & H2 & _); [done|by left|]. simplify_eq. by exists h'.
Qed.
Lemma safe_not_racing h s : safe_inv h s → ¬ racing s.
Proof.
  intros Hs (i & j & Hij & t & u & o & w & Ht & Hu & Hw & Ha).
  assert (∀ l v b, threads s !! l = Some v → next_access v = Some (o, b) → h = Some l) as H.
  { intros l v b Hv Hn. destruct (decide (h = Some l)) as [|Hne]; [done|]. destruct (inv_idle _ _ Hs l v Hv Hne) as [m Hm].
    unfold next_access in Hn. rewrite Hm in Hn. by destruct m. }
  pose proof (H _ _ _ Ht Hw). pose proof (H _ _ _ Hu Ha). congruence.
Qed.
Lemma safe_run sched : ∃ h, safe_inv h (run safe_start sched).
Proof.
  apply (run_invariant (λ s, ∃ h, safe_inv h s)); [|by exists None; apply safe_start_inv].
  intros s i s' [h Hs] Hi. by eapply safe_step.
Qed.
Lemma safe_done h s : safe_inv h s → finished s = true → counter s = Z.of_nat (sum_list iters).
Proof.
  intros Hs Hf. rewrite <- (inv_counter _ _ Hs). cut (total todo s = 0); [lia|].
  apply total_finished; [|done]. intros t Hc. unfold todo. by rewrite Hc.
Qed.

(** C29: Whatever the schedule, no two threads race for the counter, nothing
    overflows, the threads can always be run to their end, and when they are
    joined the counter is the number of increments. *)
Theorem safe_counter_exact sched :
  let s := run safe_start sched in
  ¬ racing s ∧ failed s = false ∧ (finished s = true → counter s = Z.of_nat (sum_list iters)) ∧
  ∃ rest, finished (run s rest) = true.
Proof.
  destruct (safe_run sched) as [h Hs]. split_and!; [by eapply safe_not_racing|apply Hs|by eapply safe_done|].
  apply (can_finish (λ s, ∃ h, safe_inv h s) size); [|by exists h]. clear h Hs. intros s [h Hs] Hf.
  destruct h as [i|].
  - destruct (inv_inside _ _ Hs i eq_refl) as (t & k & Ht & Hk & Hr).
    destruct (inside_step s i t k Hs Ht Hk Hr) as (s' & h' & H1 & H2 & H3). exists i, s'. split_and!; [done|by exists h'|lia].
  - destruct (finished_false s Hf) as (i & t & Ht & Hc).
    destruct (safe_progress _ s i t Hs Ht Hc) as (s' & h' & H1 & H2 & H3); [by left|].
    exists i, s'. split_and!; [done|by exists h'|lia].
Qed.
End safe.

(** The ten threads of [fix_case] print 100000, whatever the schedule. *)
Lemma fix_case_report sched : finished (run fix_case sched) = true → report "safe_counter" (run fix_case sched) = "safe_counter = 100000".
Proof.
  assert (fix_case = safe_start (replicate 10 iterations)) as -> by (unfold fix_case, safe_start; by rewrite fmap_replicate).
  assert (Z.of_nat (sum_list (replicate 10 iterations)) = 100000)%Z as Hsum by by vm_compute.
  intros Hf. destruct (safe_run (replicate 10 iterations) ltac:(rewrite Hsum; lia) sched) as [h Hs].
  unfold report. by rewrite (safe_done _ h _ Hs Hf), Hsum.
Qed.
Example both_threads_lose_updates :
  let s := run (start [increment 3; increment 3]) (concat (replicate 3 [0; 1; 0; 1])) in
  finished s = true ∧ report "counter" s = "counter = 3".
Proof. by_compute. Qed.

Lemma safe_counter_exact_witness :
  let s := run (safe_start [1; 1]) [0; 0; 0; 1; 0; 1; 1; 1; 1] in finished s = true ∧ counter s = 2%Z.
Proof.
  split; [by vm_compute|].
  eapply (safe_counter_exact [1; 1]); by vm_compute.
Defined.

(** ** 10: the two locks *)
Module Deadlock.
Definition thread_1 : list Instr := [Lock "mtx_a"; Lock "mtx_b"; Say "thread_1 got both locks"; Unlock "mtx_b"; Unlock "mtx_a"].
Definition thread_2 : list Instr := [Lock "mtx_b"; Lock "mtx_a"; Say "thread_2 got both locks"; Unlock "mtx_a"; Unlock "mtx_b"].
Definition crash_case_1 : Sys := start [thread_1; thread_2].
Definition inner : list Instr := [Lock "non_recursive"; Say "inner"; Unlock "non_recursive"].
Definition outer : list Instr := [Lock "non_recursive"] ++ inner ++ [Unlock "non_recursive"].
Definition crash_case_2 : Sys := start [outer].
(** The guards adopt the locks and give them up in the reverse order. *)
Definition safe_thread_1 : list Instr := [LockAll ["mtx_a"; "mtx_b"]; Say "safe_thread_1 got both locks"; Unlock "mtx_b"; Unlock "mtx_a"].
Definition safe_thread_2 : list Instr := [LockAll ["mtx_b"; "mtx_a"]; Say "safe_thread_2 got both locks"; Unlock "mtx_a"; Unlock "mtx_b"].
Definition fix_case : Sys := start [safe_thread_1; safe_thread_2].
Definition worker (name : string) : list Instr :=
  [LockAll ["mtx_a"; "mtx_b"]; Say (name +:+ " got both locks"); Unlock "mtx_a"; Unlock "mtx_b"].
Definition fix_case_cpp17 : Sys := start [worker "t1"; worker "t2"].

(** The states a program can reach, found by search. *)
Definition reached (s : Sys) : list Sys := search 300 [s] [].
(** A state from which the threads can be run to their end, and that has printed
    both lines when it is an end itself. *)
Definition healthy (lines : list string) (s : Sys) : bool :=
  negb (failed s) && finished (run s (schedule 20 s)) &&
  (negb (finished s) || bool_decide (out s = lines) || bool_decide (out s = reverse lines)).
Lemma healthy_spec lines s : healthy lines s = true →
  failed s = false ∧ (∃ rest, finished (run s rest) = true) ∧ (finished s = true → out s = lines ∨ out s = reverse lines).
Proof.
  unfold healthy. rewrite !andb_true_iff, !orb_true_iff, !negb_true_iff, !bool_decide_eq_true.
  intros [[Hf Hr] Ho]. split; [exact Hf|]. split; [by exists (schedule 20 s)|].
  intros H. rewrite H in Ho. destruct Ho as [[|]|]; [done|by left|by right].
Qed.
Lemma reached_check (P : Sys → bool) s sched :
  bool_decide (s ∈ reached s) && closed (reached s) && forallb P (reached s) = true → P (run s sched) = true.
Proof.
  rewrite !andb_true_iff, bool_decide_eq_true. intros [[Hs Hc] HP]. exact (closed_check P (reached s) s sched Hc HP Hs).
Qed.

Definition hung (s : Sys) : bool := stuck s && match out s with [] => true | _ => false end.

(** Locked in opposite orders, the two threads can come to wait for each other;
    the recursive lock of [outer] is undefined on every schedule that gets to it
    and the thread never ends. *)
Theorem deadlock_cases :
  (let s := run crash_case_1 [0; 1] in ∀ sched, stuck (run s sched) = true ∧ out (run s sched) = []) ∧
  (∀ sched, finished (run crash_case_2 sched) = false) ∧ failed (run crash_case_2 [0; 0]) = true.
Proof.
  split_and!; [|intros sched|by vm_compute].
  - intros s sched. assert (hung (run s sched) = true) as [H1 H2]%andb_prop by (apply (reached_check hung); by vm_compute).
    split; [exact H1|]. by destruct (out (run s sched)).
  - apply negb_true_iff. apply (reached_check (λ s, negb (finished s))). by vm_compute.
Qed.

(** C30: With [std::lock] or a scoped lock no schedule leaves the threads stuck: they
    can always be run to their end, and have then both printed their line. *)
Theorem locked_together_never_stuck sched :
  (let s := run fix_case sched in failed s = false ∧ (∃ rest, finished (run s rest) = true) ∧
    (finished s = true → out s = ["safe_thread_1 got both locks"; "safe_thread_2 got both locks"] ∨
                         out s = reverse ["safe_thread_1 got both locks"; "safe_thread_2 got both locks"])) ∧
  (let s := run fix_case_cpp17 sched in failed s = false ∧ (∃ rest, finished (run s rest) = true) ∧
    (finished s = true → out s = ["t1 got both locks"; "t2 got both locks"] ∨
                         out s = reverse ["t1 got both locks"; "t2 got both locks"])).
Proof. split; apply healthy_spec, (reached_check (healthy _)); by vm_compute. Qed.
End Deadlock.
