(* ===== verification/CppMemory.v ===== *)
(** * Objects, pointers and lifetimes

    The part of the C++ memory model the programs of [crash_cases/] are about: a
    block is an object or an array with its cells, a cell has no value until it
    is written, a block ends with its scope or a [delete], and whatever the
    standard leaves undefined is [Undef]. *)
From S2P Require Import Prelude.
Local Open Scope prog_scope.

Inductive Storage := Local | New | NewArray.
#[export] Instance Storage_eq_dec : EqDecision Storage.
Proof. solve_decision. Defined.
Record Block := mkBlock { storage : Storage; cells : list (option Z); alive : bool }.
(** [Wild]: a pointer that was never given a value. *)
Inductive Ptr := Null | At (block : nat) (offset : Z) | Wild.
(** [stack_left]: the bytes the stack still has. *)
Record Mem := mkMem { blocks : list Block; stack_left : Z; printed : list string }.
Abbreviation P := (M Mem).

Definition set_blocks (bs : list Block) (m : Mem) : Mem := mkMem bs (stack_left m) (printed m).
Definition set_stack (n : Z) (m : Mem) : Mem := mkMem (blocks m) n (printed m).
Definition out (line : string) : P unit := modify (λ m, mkMem (blocks m) (stack_left m) (printed m ++ [line])).

Definition alloc (k : Storage) (cs : list (option Z)) : P Ptr :=
  m ← get; modify (set_blocks (blocks m ++ [mkBlock k cs true])) ;; mret (At (length (blocks m)) 0).
(** A local object lives while [body] runs. *)
Definition end_block (p : Ptr) : P unit :=
  match p with
  | At b _ => modify (λ m, set_blocks (alter (λ bl, mkBlock (storage bl) (cells bl) false) b (blocks m)) m)
  | _ => undef
  end.
Definition scope {A} (cs : list (option Z)) (body : Ptr → P A) : P A :=
  p ← alloc Local cs; r ← body p; end_block p ;; mret r.
(** [p + n] *)
Definition shift (p : Ptr) (n : Z) : Ptr := match p with At b o => At b (o + n) | p => p end.
Definition cell (m : Mem) (p : Ptr) : option (option Z) :=
  match p with
  | At b o =>
      match blocks m !! b with
      | Some bl => if alive bl && (0 <=? o)%Z then cells bl !! Z.to_nat o else None
      | None => None
      end
  | _ => None
  end.
Definition load (p : Ptr) : P Z :=
  m ← get; match cell m p with Some (Some z) => mret z | _ => undef end.
Definition store (p : Ptr) (z : Z) : P unit :=
  m ← get;
  match cell m p, p with
  | Some _, At b o => modify (set_blocks (alter (λ bl, mkBlock (storage bl) (<[Z.to_nat o := Some z]> (cells bl)) (alive bl)) b (blocks m)))
  | _, _ => undef
  end.
(** [delete] ([New]) and [delete[]] ([NewArray]). *)
Definition delete (k : Storage) (p : Ptr) : P unit :=
  match p with
  | Null => mret tt
  | At b 0 =>
      m ← get;
      match blocks m !! b with
      | Some bl => if alive bl && bool_decide (storage bl = k) then end_block p else undef
      | None => undef
      end
  | _ => undef
  end.
(** A call whose frame takes [bytes]. *)
Definition frame {A} (bytes : Z) (body : P A) : P A :=
  m ← get;
  if (stack_left m <? bytes)%Z then undef
  else modify (set_stack (stack_left m - bytes)) ;; r ← body; modify (set_stack (stack_left m)) ;; mret r.

(** C strings, ended by a zero. *)
Definition chars (s : string) : list Z := (λ c, Z.of_N (Ascii.N_of_ascii c)) <$> String.list_ascii_of_string s.
Definition text (cs : list Z) : string := String.string_of_list_ascii ((λ c, Ascii.ascii_of_N (Z.to_N c)) <$> cs).
Fixpoint store_all (p : Ptr) (zs : list Z) : P unit :=
  match zs with [] => mret tt | z :: zs' => store p z ;; store_all (shift p 1) zs' end.
Definition strcpy (dst : Ptr) (s : string) : P unit := store_all dst (chars s ++ [0%Z]).
Definition memcpy (dst : Ptr) (zs : list Z) : P unit := store_all dst zs.
Fixpoint load_all (n : nat) (p : Ptr) : P (list Z) :=
  match n with 0 => mret [] | S n' => z ← load p; zs ← load_all n' (shift p 1); mret (z :: zs) end.

(** [int] division: undefined by zero, and when the quotient overflows. *)
Definition int_div (a b : Z) : outcome Z := if (b =? 0)%Z then Undef else signed 32 (Z.quot a b).
Definition int_mod (a b : Z) : outcome Z := if (b =? 0)%Z then Undef else q ← int_div a b; Ret (Z.rem a b).

Definition fresh (stack : Z) : Mem := mkMem [] stack [].

(** ** What memory promises *)
Lemma load_store_eq p z m : cell m p ≠ None → ∃ m', store p z m = (Ret tt, m') ∧ cell m' p = Some (Some z) ∧ printed m' = printed m.
Proof.
  intros Hc. unfold store. rewrite M_bind_get. destruct (cell m p) as [c|] eqn:E; [|done].
  destruct p as [|b o|]; try done. eexists. split; [reflexivity|]. split; [|done].
  revert E. simpl. destruct (blocks m !! b) as [bl|] eqn:Hb; [|done]. rewrite list_lookup_alter_eq, Hb. simpl.
  destruct (alive bl && (0 <=? o)%Z); [|done]. intros H. apply list_lookup_insert_eq. by eapply lookup_lt_Some.
Qed.
(** A block that has ended is out of reach for good. *)
Lemma dead_cell m b o bl : blocks m !! b = Some bl → alive bl = false → cell m (At b o) = None.
Proof. intros Hb Ha. simpl. by rewrite Hb, Ha. Qed.
Lemma dead_undefined m b o bl z k : blocks m !! b = Some bl → alive bl = false →
  load (At b o) m = (Undef, m) ∧ store (At b o) z m = (Undef, m) ∧ delete k (At b o) m = (Undef, m).
Proof.
  intros Hb Ha. pose proof (dead_cell m b o bl Hb Ha) as Hc. unfold load, store. rewrite !M_bind_get, !Hc.
  split_and!; [done..|]. unfold delete. destruct o; [|done..]. rewrite M_bind_get, Hb. by rewrite Ha.
Qed.
