(* ===== verification/CppVector.v ===== *)
(** * [std::vector<int>] with its iterators

    An iterator is a position and the stamp the position had when the iterator
    was made; an operation that invalidates iterators gives the positions they
    refer to new stamps.  The use of an invalid iterator is undefined.  Position
    [length items] is [end()]. *)
From S2P Require Import Prelude.
Local Open Scope prog_scope.

Record Vec := mkVec { items : list Z; stamps : list nat; capacity : nat; epoch : nat }.
Record Iter := mkIter { pos : nat; stamp : nat }.
Abbreviation V := (M Vec).

(** [std::vector<int> v = l], with room for [cap] elements. *)
Definition new_vec (l : list Z) (cap : nat) : Vec := mkVec l (replicate (S (length l)) 0) (max cap (length l)) 0.
Definition valid (v : Vec) (it : Iter) : bool := bool_decide (stamps v !! pos it = Some (stamp it)).
Definition iter_at (v : Vec) (i : nat) : Iter := mkIter i (default 0 (stamps v !! i)).
Definition begin_ : V Iter := v ← get; mret (iter_at v 0).
Definition end_ : V Iter := v ← get; mret (iter_at v (length (items v))).
(** [it1 == it2] *)
Definition equal (a b : Iter) : V bool :=
  v ← get; if valid v a && valid v b then mret (pos a =? pos b) else undef.
Definition deref (it : Iter) : V Z :=
  v ← get; if valid v it then match items v !! pos it with Some z => mret z | None => undef end else undef.
(** [++it] *)
Definition next (it : Iter) : V Iter :=
  v ← get; if valid v it && (pos it <? length (items v)) then mret (iter_at v (S (pos it))) else undef.
(** Iterators at [i] and after it become invalid. *)
Definition restamp (i n : nat) (v : Vec) : list nat := take i (stamps v) ++ replicate (S n - i) (S (epoch v)).
(** [erase(first, last)] and [erase(it)]; the answer is the iterator after what is erased. *)
Definition erase_range (a b : Iter) : V Iter :=
  v ← get;
  if valid v a && valid v b && (pos a <=? pos b) then
    let l := take (pos a) (items v) ++ drop (pos b) (items v) in
    if pos a =? pos b then mret b
    else put (mkVec l (restamp (pos a) (length l) v) (capacity v) (S (epoch v))) ;; mret (mkIter (pos a) (S (epoch v)))
  else undef.
Definition erase (it : Iter) : V Iter := it' ← next it; erase_range it it'.
(** [insert(it, z)] and [push_back(z)]: everything moves when there is no room. *)
Definition insert (it : Iter) (z : Z) : V Iter :=
  v ← get;
  if valid v it then
    let l := take (pos it) (items v) ++ z :: drop (pos it) (items v) in
    let full := capacity v <=? length (items v) in
    put (mkVec l (restamp (if full then 0 else pos it) (length l) v) (if full then 2 * length l else capacity v) (S (epoch v))) ;;
    mret (mkIter (pos it) (S (epoch v)))
  else undef.
Definition push_back (z : Z) : V unit := e ← end_; _ ← insert e z; mret tt.
(** [v[i]], [v[i] = z] and [v.at(i)], with the text of the exception. *)
Definition index (i : Z) : V Z :=
  v ← get; match (if (0 <=? i)%Z then items v !! Z.to_nat i else None) with Some z => mret z | None => undef end.
Definition set_index (i z : Z) : V unit :=
  v ← get;
  if (0 <=? i)%Z && (i <? Z.of_nat (length (items v)))%Z then put (mkVec (<[Z.to_nat i := z]> (items v)) (stamps v) (capacity v) (epoch v))
  else undef.
Definition at_ (what : string) (i : Z) : V Z :=
  v ← get; match (if (0 <=? i)%Z then items v !! Z.to_nat i else None) with Some z => mret z | None => throw (OutOfRange what) end.

(** ** [std::remove_if] *)
Section remove_if.
Context (p : Z → bool).
(** [for (i = first; ++i != last;) if (!p( *i)) *first++ = *i], on the array. *)
Fixpoint compact (l : list Z) (first : nat) (js : list nat) : list Z * nat :=
  match js with
  | [] => (l, first)
  | i :: js' =>
      match l !! i with
      | Some z => if p z then compact l first js' else compact (<[first := z]> l) (S first) js'
      | None => (l, first)
      end
  end.
Fixpoint find_if (l : list Z) : nat := match l with [] => 0 | z :: l' => if p z then 0 else S (find_if l') end.
Definition remove_if (l : list Z) : list Z * nat :=
  let first := find_if l in
  if first =? length l then (l, first) else compact l first (seq (S first) (length l - S first)).
End remove_if.

(** ** The invariant of a vector *)
Definition vec_ok (v : Vec) : Prop := length (stamps v) = S (length (items v)).
Lemma new_vec_ok l cap : vec_ok (new_vec l cap).
Proof. unfold vec_ok. simpl. by rewrite length_replicate. Qed.
Lemma valid_iter_at v i : vec_ok v → i ≤ length (items v) → valid v (iter_at v i) = true.
Proof.
  intros Hv Hi. unfold valid, iter_at. simpl. apply bool_decide_eq_true.
  destruct (lookup_lt_is_Some_2 (stamps v) i) as [x ->]; [|done]. unfold vec_ok in Hv. lia.
Qed.
Lemma valid_pos v it : vec_ok v → valid v it = true → it = iter_at v (pos it) ∧ pos it ≤ length (items v).
Proof.
  unfold valid. intros Hv H%bool_decide_eq_true. split; [unfold iter_at; rewrite H; by destruct it|].
  apply lookup_lt_Some in H. unfold vec_ok in Hv. lia.
Qed.
Lemma length_restamp i n v : i ≤ length (stamps v) → i ≤ S n → length (restamp i n v) = S n.
Proof. intros H1 H2. unfold restamp. rewrite length_app, length_take, length_replicate. lia. Qed.
Lemma restamp_at i n v : i ≤ length (stamps v) → i ≤ n → restamp i n v !! i = Some (S (epoch v)).
Proof.
  intros H1 H2. unfold restamp. rewrite lookup_app_r by (rewrite length_take; lia).
  rewrite length_take, lookup_replicate. split; [done|lia].
Qed.
Lemma deref_at v i z : vec_ok v → items v !! i = Some z → deref (iter_at v i) v = (Ret z, v).
Proof.
  intros Hv Hz. unfold deref. rewrite M_bind_get, valid_iter_at; [by simpl; rewrite Hz|done|].
  apply lookup_lt_Some in Hz. lia.
Qed.
Lemma next_at v i : vec_ok v → i < length (items v) → next (iter_at v i) v = (Ret (iter_at v (S i)), v).
Proof.
  intros Hv Hi. unfold next. rewrite M_bind_get, valid_iter_at by (done || lia). simpl.
  by rewrite (proj2 (Nat.ltb_lt _ _)).
Qed.
Lemma equal_at v i j : vec_ok v → i ≤ length (items v) → j ≤ length (items v) →
  equal (iter_at v i) (iter_at v j) v = (Ret (i =? j), v).
Proof. intros Hv Hi Hj. unfold equal. by rewrite M_bind_get, !valid_iter_at. Qed.
Lemma erase_range_at v i j : vec_ok v → i ≤ j → j ≤ length (items v) →
  ∃ v', erase_range (iter_at v i) (iter_at v j) v = (Ret (iter_at v' i), v') ∧ vec_ok v' ∧
    items v' = take i (items v) ++ drop j (items v).
Proof.
  intros Hv Hij Hj. unfold erase_range. rewrite M_bind_get, !valid_iter_at by (done || lia). cbn [pos iter_at andb].
  rewrite (proj2 (Nat.leb_le i j)) by done. destruct (Nat.eqb_spec i j) as [->|Hne].
  { exists v. by rewrite take_drop. }
  set (l := take i (items v) ++ drop j (items v)).
  assert (length l = i + (length (items v) - j)) as Hl by (unfold l; rewrite length_app, length_take, length_drop; lia).
  exists (mkVec l (restamp i (length l) v) (capacity v) (S (epoch v))). unfold vec_ok in *.
  split; [|split; [cbn|done]].
  - unfold iter_at. cbn [stamps]. by rewrite restamp_at by lia.
  - rewrite length_restamp by lia. done.
Qed.
Lemma erase_at v i z : vec_ok v → items v !! i = Some z →
  ∃ v', erase (iter_at v i) v = (Ret (iter_at v' i), v') ∧ vec_ok v' ∧ items v' = take i (items v) ++ drop (S i) (items v).
Proof.
  intros Hv Hz%lookup_lt_Some. destruct (erase_range_at v i (S i) Hv) as (v' & H & Hok & Hi); [lia..|]. exists v'.
  split; [|done]. unfold erase. by rewrite (M_bind_ret _ _ _ _ _ (next_at v i Hv Hz)).
Qed.
