(* ===== verification/CrashCases.v ===== *)
(** * The programs of [crash_cases/] about memory, iterators and virtual calls

    Each [crash_case] is meant to have no defined behaviour, each [fix_case] to be
    its repair.  09 and 10, on threads, are in [LockCases]. *)
From S2P Require Import Prelude CppMemory CppVector.
Local Open Scope prog_scope.

(** ** 01: null pointers *)
Module NullPointer.
(** [value] is the one cell of a [Widget]. *)
Definition print (this : Ptr) : P unit := z ← load this; out (pretty z).
Definition crash_case_1 : P unit := print Null.
Definition crash_case_2 : P unit := store (shift Null 0) 97.
(** [w]: the static [Widget w{42}]. *)
Definition find_widget (w : Ptr) (id : Z) : Ptr := if (id <? 0)%Z then Null else w.
Definition crash_case_3 : P unit := w ← alloc Local [Some 42%Z]; z ← load (find_widget w (-1)); out (pretty z).
(** A virtual call reads the object's table first. *)
Definition crash_case_4 : P unit := _ ← load Null; out "Base".
End NullPointer.

(** ** 02: dangling pointers *)
Module DanglingPointer.
Definition crash_case_1 : P unit := p ← alloc New [Some 42%Z]; delete New p ;; z ← load p; out (pretty z).
Definition get_ptr : P Ptr := scope [Some 100%Z] mret.
Definition crash_case_2 : P unit := p ← get_ptr; z ← load p; out (pretty z).
(** A [Node]: [data], and [next] as the number of a block, 0 for none. *)
Definition new_Node (d : Z) : P Ptr := alloc New [Some d; Some 0%Z].
Definition address (p : Ptr) : Z := match p with At b _ => Z.of_nat (S b) | _ => 0 end.
Definition crash_case_3 : P unit :=
  head ← new_Node 1; n ← new_Node 2; store (shift head 1) (address n) ;; delete New head ;; store (shift head 1) 0.
Definition crash_case_4 : V Z := it ← begin_; push_back 4 ;; deref it.
Definition crash_case_4_vector (cap : nat) : Vec := new_vec [1; 2; 3]%Z cap.
End DanglingPointer.

(** ** 03: buffers *)
Module BufferOverflow.
Definition array (n : nat) : list (option Z) := replicate n None.
Definition crash_case_1 : P unit := scope (array 4) (λ buf, strcpy buf "this is a very long string").
Definition crash_case_2 : P unit := arr ← alloc NewArray (array 5); store (shift arr 10) 42 ;; delete NewArray arr.
Definition crash_case_3 : P unit :=
  scope (array 5) (λ buf, for_each (λ i, store (shift buf (Z.of_nat i)) 97) (seq 0 6) ;; store (shift buf 5) 0).
Definition crash_case_4 : P unit := scope (array 8) (λ dst, memcpy dst (chars "hello world overflow!")).
(** The loop as it should be. *)
Definition in_bounds (n : nat) : P unit := scope (array n) (λ buf, for_each (λ i, store (shift buf (Z.of_nat i)) 97) (seq 0 n)).
End BufferOverflow.

(** ** 04: the stack *)
Module StackOverflow.
(** [fuel] calls; each takes [bytes] of the stack. *)
Fixpoint crash_case_1 (bytes : Z) (fuel : nat) (n : Z) : P unit :=
  match fuel with
  | 0 => mret tt
  | S fuel' => frame bytes (out (pretty n) ;; n' ← lift_outcome (signed 32 (n + 1)); crash_case_1 bytes fuel' n')
  end.
Definition crash_case_2 : P unit := frame (10 * 1024 * 1024) (scope [None] (λ buf, store buf 97)).
(** With room for [frames] nested calls; none when that is not enough. *)
Fixpoint fibonacci (frames : nat) (n : Z) : option (outcome Z) :=
  match frames with
  | 0 => None
  | S frames' =>
      if (n <=? 1)%Z then Some (Ret n)
      else a ← fibonacci frames' (n - 1); b ← fibonacci frames' (n - 2);
           Some (x ← (a : outcome Z); y ← (b : outcome Z); signed 32 (x + y))
  end.
Definition crash_case_3 (frames : nat) : option (outcome string) :=
  r ← fibonacci frames 100; Some (z ← (r : outcome Z); Ret (pretty z)).

(** *** What happens on the stack *)
Lemma crash_case_1_undefined bytes fuel : (0 < bytes)%Z → ∀ n m, (0 ≤ stack_left m)%Z → (stack_left m < Z.of_nat fuel * bytes)%Z →
  (crash_case_1 bytes fuel n m).1 = Undef.
Proof.
  intros Hb. induction fuel as [|fuel IH]; intros n m H0 Hf; [lia|]. cbn [crash_case_1]. unfold frame. rewrite M_bind_get.
  destruct (Z.ltb_spec (stack_left m) bytes) as [|Hge]; [done|]. rewrite M_bind_modify. unfold out at 1.
  rewrite M_bind_assoc, M_bind_modify, M_bind_assoc.
  destruct (signed 32 (n + 1)) as [n'|e|] eqn:E; [| |done].
  - rewrite (M_bind_ret _ (lift_outcome (Ret n')) _ n' _ eq_refl). set (m1 := mkMem _ _ _).
    specialize (IH n' m1). destruct (crash_case_1 bytes fuel n' m1) as [o m2] eqn:E2. unfold mbind, M_bind. rewrite E2.
    simpl in IH. rewrite IH; [done|lia|lia].
  - unfold signed in E. by destruct (in_signed 32 (n + 1)).
Qed.
Fixpoint fib (n : nat) : Z := match n with 0 => 0%Z | S n' => match n' with 0 => 1%Z | S n'' => (fib n' + fib n'')%Z end end.
Lemma fib_SS n : fib (S (S n)) = (fib (S n) + fib n)%Z.
Proof. done. Qed.
#[local] Arguments fib : simpl never.
Lemma fib_bounds n : (0 ≤ fib n ∧ fib n ≤ fib (S n) ∧ 1 ≤ fib (S n))%Z.
Proof. induction n as [|n (H1 & H2 & H3)]; [done|]. rewrite fib_SS. lia. Qed.
Lemma fib_mono n m : n ≤ m → (fib n ≤ fib m)%Z.
Proof. induction 1 as [|m _ IH]; [done|]. pose proof (fib_bounds m). lia. Qed.
Definition fib_step (x : Z * Z) : Z * Z := (x.2, x.1 + x.2)%Z.
Lemma fib_iter n : Nat.iter n fib_step (0, 1)%Z = (fib n, fib (S n)).
Proof. induction n as [|n IH]; [done|]. simpl Nat.iter. rewrite IH. unfold fib_step. rewrite fib_SS. simpl. f_equal. lia. Qed.
Lemma fib_from_iter n a b : Nat.iter n fib_step (0, 1)%Z = (a, b) → fib n = a ∧ fib (S n) = b.
Proof. rewrite fib_iter. by intros [= -> ->]. Qed.
Lemma fib_46_47 : fib 46 = 1836311903%Z ∧ fib 47 = 2971215073%Z.
Proof. apply (fib_from_iter 46). by vm_compute. Qed.
Definition as_int (z : Z) : outcome Z := if (z <? 2 ^ 31)%Z then Ret z else Undef.
Lemma fibonacci_frames n : ∀ frames, max n 1 ≤ frames → fibonacci frames (Z.of_nat n) = Some (as_int (fib n)).
Proof.
  induction (lt_wf n) as [n _ IH]. intros [|frames] Hf; [lia|]. destruct n as [|[|n]]; [done..|].
  cbn [fibonacci]. rewrite (proj2 (Z.leb_gt _ _)) by lia.
  replace (Z.of_nat (S (S n)) - 1)%Z with (Z.of_nat (S n)) by lia. replace (Z.of_nat (S (S n)) - 2)%Z with (Z.of_nat n) by lia.
  rewrite !IH by lia. rewrite fib_SS. pose proof (fib_bounds n). simpl. f_equal. unfold as_int.
  destruct (Z.ltb_spec (fib (S n) + fib n) (2 ^ 31)) as [Hlt|Hge].
  - rewrite (proj2 (Z.ltb_lt (fib (S n)) _)), (proj2 (Z.ltb_lt (fib n) _)) by lia.
    simpl. apply signed_Ret. lia.
  - destruct (fib (S n) <? 2 ^ 31)%Z; [|done]. destruct (fib n <? 2 ^ 31)%Z; [|done]. simpl. unfold signed.
    destruct (in_signed 32 _) eqn:E; [|done]. apply in_signed_spec in E. lia.
Qed.
End StackOverflow.

(** ** 05: double frees *)
Module DoubleFree.
Definition crash_case_1 : P unit := p ← alloc New [Some 42%Z]; delete New p ;; delete New p.
(** A [Buffer] is its [data]; the copy the compiler makes shares it. *)
Definition new_Buffer (s : nat) : P Ptr := alloc NewArray (replicate s None).
Definition destroy_Buffer (data : Ptr) : P unit := delete NewArray data.
Definition crash_case_2 : P unit := a ← new_Buffer 100; let b := a in destroy_Buffer b ;; destroy_Buffer a.
(** The handler of the exception frees, and so does the end. *)
Definition catch_all {A} (body : P A) (handler : P A) : P A := λ m,
  match body m with (Throw _, m') => handler m' | r => r end.
Definition crash_case_3 : P unit :=
  p ← alloc New [Some 42%Z]; catch_all (throw (LogicError "error")) (delete New p) ;; delete New p.
End DoubleFree.

(** ** 06: pointers without a value *)
Module UninitializedPointer.
Definition crash_case_1 : P unit := store Wild 42.
Record Connection := mkConnection { socket : Ptr; port : Z }.
Definition new_Connection (p : Z) : Connection := mkConnection Wild p.
Definition send (c : Connection) : P unit := store (socket c) 1.
Definition crash_case_2 : P unit := send (new_Connection 8080).
Definition crash_case_3 (flag : Z) : P unit :=
  p ← (if (0 <? flag)%Z then scope [Some 10%Z] mret else mret Wild); z ← load p; out (pretty z).
End UninitializedPointer.

(** ** 07: divisions *)
Module DivisionByZero.
Definition crash_case_1 : P unit := q ← lift_outcome (int_div 10 0); out (pretty q).
Definition crash_case_2 : P unit := r ← lift_outcome (int_mod 10 0); out (pretty r).
Definition compute_ratio (total count : Z) : outcome Z := int_div total count.
Definition crash_case_3 : P unit := q ← lift_outcome (compute_ratio 100 0); out (pretty q).
End DivisionByZero.

(** ** 08: indices *)
Module OutOfBounds.
Definition crash_case_1 : P unit :=
  scope (Some <$> [1; 2; 3; 4; 5]%Z) (λ arr, z ← load (shift arr 10); out (pretty z) ;; store (shift arr 10) 99).
Definition crash_case_2 : V Z := set_index 5 10 ;; index 5.
Definition crash_case_3 : V Z := index 100.
(** What [crash_case_4] prints. *)
Definition crash_case_4 (what : string) (v : Vec) : outcome string :=
  match (at_ what 10 v).1 with Ret z => Ret (pretty z) | Throw (OutOfRange w) => Ret ("caught: " +:+ w) | Throw e => Throw e | Undef => Undef end.
Definition three (cap : nat) : Vec := new_vec [1; 2; 3]%Z cap.
(** The characters of ["hello"] and the zero after them. *)
Definition hello (cap : nat) : Vec := new_vec (chars "hello" ++ [0%Z]) cap.
End OutOfBounds.

(** ** 11: iterators *)
Module IteratorInvalidation.
Definition numbers : Vec := new_vec [1; 2; 3; 4; 5]%Z 5.
Definition even (z : Z) : bool := (Z.rem z 2 =? 0)%Z.
Definition crash_case_1 : V Z := it ← begin_; b ← begin_; _ ← insert b 0; deref it.
(** [for (auto it = v.begin(); it != v.end(); ++it)], [fuel] rounds. *)
Fixpoint erase_and_step (fuel : nat) (it : Iter) : V unit :=
  match fuel with
  | 0 => mret tt
  | S fuel' =>
      e ← end_; done ← equal it e;
      if (done : bool) then mret tt
      else z ← deref it; (if even z then _ ← erase it; mret tt else mret tt) ;; it' ← next it; erase_and_step fuel' it'
  end.
Definition crash_case_2 : V unit := it ← begin_; erase_and_step 10 it.
Section erase_loop.
Context (p : Z → bool).
Fixpoint erase_loop (fuel : nat) (it : Iter) : V unit :=
  match fuel with
  | 0 => undef
  | S fuel' =>
      e ← end_; done ← equal it e;
      if (done : bool) then mret tt
      else z ← deref it; it' ← (if p z then erase it else next it); erase_loop fuel' it'
  end.
Definition fix_case_1 (fuel : nat) : V unit := it ← begin_; erase_loop fuel it.
(** [v.erase(std::remove_if(v.begin(), v.end(), p), v.end())] *)
Definition fix_case_3 : V unit :=
  v ← get;
  let '(l, n) := remove_if p (items v) in
  put (mkVec l (stamps v) (capacity v) (epoch v)) ;;
  v ← get; e ← end_; _ ← erase_range (iter_at v n) e; mret tt.
End erase_loop.

(** [std::map<int, std::string>]: an iterator is the key it refers to, or the
    end; it is valid while the key is there. *)
Abbreviation Entries := (list (Z * string)).
Abbreviation MapP := (M Entries).
Definition map_iter (l : Entries) : option Z := fst <$> head l.
Definition map_next (k : Z) (l : Entries) : outcome (option Z) :=
  match list_find (λ e, e.1 = k) l with Some (i, _) => Ret (map_iter (drop (S i) l)) | None => Undef end.
Definition map_erase (k : Z) : MapP (option Z) :=
  l ← get; k' ← lift_outcome (map_next k l); put (filter (λ e, e.1 ≠ k) l) ;; mret k'.
Definition map_inc (k : Z) : MapP (option Z) := l ← get; lift_outcome (map_next k l).
Definition entries : Entries := [(1, "a"); (2, "b"); (3, "c")]%Z.
Fixpoint map_erase_and_step (fuel : nat) (it : option Z) : MapP unit :=
  match fuel, it with
  | S fuel', Some k =>
      (if (k =? 2)%Z then _ ← map_erase k; mret tt else mret tt) ;; it' ← map_inc k; map_erase_and_step fuel' it'
  | _, _ => mret tt
  end.
Definition crash_case_3 : MapP unit := l ← get; map_erase_and_step 10 (map_iter l).
Fixpoint map_erase_loop (fuel : nat) (it : option Z) : MapP unit :=
  match fuel, it with
  | S fuel', Some k => it' ← (if (k =? 2)%Z then map_erase k else map_inc k); map_erase_loop fuel' it'
  | _, _ => mret tt
  end.
Definition fix_case_2 : MapP unit := l ← get; map_erase_loop 10 (map_iter l).
(** What the fixes print. *)
Definition vector_line (v : Vec) : string := String.concat "" ((λ z, pretty z +:+ " ") <$> items v).
Definition map_line (l : Entries) : string := String.concat "" ((λ e, pretty e.1 +:+ ":" +:+ e.2 +:+ " ") <$> l).

(** *** The repairs are right *)
Section erase_correct.
Context (p : Z → bool).
Abbreviation kept := (filter (λ z, p z = false)).

(** The loop at position [i], with [k] elements to go. *)
Lemma erase_loop_from k : ∀ v i fuel, vec_ok v → length (items v) = i + k → k < fuel →
  ∃ v', erase_loop p fuel (iter_at v i) v = (Ret tt, v') ∧ vec_ok v' ∧ items v' = take i (items v) ++ kept (drop i (items v)).
Proof.
  induction k as [|k IH]; intros v i [|fuel] Hv Hl Hf; try lia; cbn [erase_loop]; unfold end_; rewrite M_bind_assoc, M_bind_get, M_ret_bind;
    rewrite (M_bind_ret _ _ _ _ _ (equal_at v i (length (items v)) Hv ltac:(lia) ltac:(lia))).
  - rewrite (proj2 (Nat.eqb_eq _ _)) by lia. exists v. split; [done|]. rewrite drop_ge, take_ge by lia. by rewrite app_nil_r.
  - rewrite (proj2 (Nat.eqb_neq _ _)) by lia. destruct (lookup_lt_is_Some_2 (items v) i) as [z Hz]; [lia|].
    rewrite (M_bind_ret _ _ _ _ _ (deref_at v i z Hv Hz)). rewrite (drop_S _ _ _ Hz). destruct (p z) eqn:Hp.
    + destruct (erase_at v i z Hv Hz) as (v1 & H1 & Hok & Hi). rewrite (M_bind_ret _ _ _ _ _ H1).
      destruct (IH v1 i fuel Hok) as (v2 & -> & Hok2 & Hi2); [rewrite Hi, length_app, length_take, length_drop; lia|lia|].
      exists v2. split; [done|]. split; [done|]. rewrite Hi2, Hi, filter_cons_False by congruence.
      rewrite take_app_le, take_take, drop_app_ge, length_take by (rewrite length_take; lia).
      by rewrite !Nat.min_l, Nat.sub_diag by lia.
    + rewrite (M_bind_ret _ _ _ _ _ (next_at v i Hv ltac:(lia))).
      destruct (IH v (S i) fuel Hv) as (v2 & -> & Hok2 & Hi2); [lia..|]. exists v2. split; [done|]. split; [done|].
      by rewrite Hi2, filter_cons_True, (take_S_r _ _ _ Hz), <- app_assoc.
Qed.
(** The loop of [remove_if]: [first] elements are done, then come [i - first]
    left-overs. *)
Lemma compact_from k : ∀ l first i, first ≤ i → length l = i + k →
  let r := compact p l first (seq i k) in
  length r.1 = length l ∧ r.2 ≤ length l ∧ take r.2 r.1 = take first l ++ kept (drop i l).
Proof.
  induction k as [|k IH]; intros l first i Hfi Hl r; subst r; cbn [seq compact fst snd].
  - rewrite (drop_ge l i), app_nil_r by lia. split_and!; [done|lia|done].
  - destruct (lookup_lt_is_Some_2 l i) as [z Hz]; [lia|]. rewrite Hz, (drop_S _ _ _ Hz). destruct (p z) eqn:Hp.
    + rewrite filter_cons_False by congruence. apply IH; lia.
    + rewrite filter_cons_True by done. destruct (IH (<[first:=z]> l) (S first) (S i)) as (H1 & H2 & H3);
        [lia|rewrite length_insert; lia|]. rewrite length_insert in *. split_and!; [done..|]. rewrite H3.
      rewrite (take_S_r _ _ z) by (apply list_lookup_insert_eq; lia).
      by rewrite take_insert_ge, drop_insert_lt, <- app_assoc by lia.
Qed.
Lemma kept_split l : find_if p l ≤ length l ∧
  kept l = take (find_if p l) l ++ kept (drop (S (find_if p l)) l).
Proof.
  induction l as [|z l [IH1 IH2]]; [done|]. simpl. destruct (p z) eqn:Hp; simpl.
  - split; [lia|]. by rewrite filter_cons_False by congruence.
  - split; [lia|]. rewrite filter_cons_True by done. by rewrite IH2 at 1.
Qed.
Lemma remove_if_kept l : let r := remove_if p l in length r.1 = length l ∧ r.2 ≤ length l ∧ take r.2 r.1 = kept l.
Proof.
  destruct (kept_split l) as [Hle Hk]. unfold remove_if. destruct (Nat.eqb_spec (find_if p l) (length l)) as [E|Hne]; simpl.
  - split_and!; [done|lia|]. by rewrite Hk, E, (drop_ge l (S _)), app_nil_r by lia.
  - destruct (compact_from (length l - S (find_if p l)) l (find_if p l) (S (find_if p l))) as (H1 & H2 & H3); [lia..|].
    split_and!; [done..|]. by rewrite H3, Hk.
Qed.

(** C32: The repaired loop ends, in as many rounds as there are elements and one, and
    leaves the elements it is to keep in their order; so does [remove_if]. *)
Theorem erase_loop_keeps l cap fuel : length l < fuel →
  (∃ v, fix_case_1 p fuel (new_vec l cap) = (Ret tt, v) ∧ vec_ok v ∧ items v = kept l) ∧
  (∃ v, fix_case_3 p (new_vec l cap) = (Ret tt, v) ∧ vec_ok v ∧ items v = kept l).
Proof.
  intros Hf. pose proof (new_vec_ok l cap) as Hok. split.
  - destruct (erase_loop_from (length l) (new_vec l cap) 0 fuel Hok) as (v & H & Hv & Hi); [done|done|].
    by exists v.
  - unfold fix_case_3. rewrite M_bind_get. cbn [items new_vec]. destruct (remove_if_kept l) as (H1 & H2 & H3).
    destruct (remove_if p l) as [l' n]. simpl in H1, H2, H3. set (v1 := mkVec l' _ _ _).
    assert (vec_ok v1) as Hok1 by (unfold vec_ok, v1; simpl; by rewrite length_replicate, H1).
    destruct (erase_range_at v1 n (length (items v1)) Hok1) as (v2 & E & Hv2 & Hi2); [simpl; lia|done|].
    exists v2. split; [|split; [done|]].
    + change (((e ← end_; erase_range (iter_at v1 n) e ≫= λ _, mret tt) : V unit) v1 = (Ret tt, v2)).
      unfold end_. rewrite M_bind_assoc, M_bind_get, M_ret_bind. by rewrite (M_bind_ret _ _ _ _ _ E).
    + rewrite Hi2. simpl. rewrite drop_ge, app_nil_r by done. exact H3.
Qed.
End erase_correct.
End IteratorInvalidation.

(** ** 12: virtual calls while an object is built *)
Module PureVirtual.
(** The one virtual function of a class, if it has a definition.  While the
    constructor or the destructor of a base class runs, the object is one of the
    base class. *)
Definition Slot := option (P unit).
Definition virtual_call (s : Slot) : P unit := match s with Some f => f | None => undef end.
(** A class: its function, and what its constructor and destructor do. *)
Record Class := mkClass { slot : Slot; ctor : Slot → P unit; dtor : Slot → P unit }.
Definition nothing (_ : Slot) : P unit := mret tt.
(** A local object of class [derived], whose base is [base]. *)
Definition object (base derived : Class) (body : Slot → P unit) : P unit :=
  ctor base (slot base) ;; ctor derived (slot derived) ;; body (slot derived) ;;
  dtor derived (slot derived) ;; dtor base (slot base).
Definition Base : Class := mkClass None virtual_call nothing.
Definition Derived : Class := mkClass (Some (out "Derived::init")) nothing nothing.
Definition crash_case_1 : P unit := object Base Derived nothing.
Definition Animal : Class := mkClass None nothing virtual_call.
Definition Dog : Class := mkClass (Some (out "Dog cleanup")) nothing nothing.
Definition crash_case_2 : P unit := object Animal Dog nothing.
Definition Shape : Class := mkClass None virtual_call nothing.
Definition Circle : Class := mkClass (Some (out "circle")) nothing nothing.
Definition crash_case_3 : P unit := object Shape Circle nothing.
Definition SafeBase : Class := mkClass None nothing nothing.
Definition SafeDerived : Class := mkClass (Some (out "SafeDerived::init")) nothing nothing.
Definition initialize : Slot → P unit := virtual_call.
Definition fix_case : P unit := object SafeBase SafeDerived initialize.
End PureVirtual.

(** ** 13: references to what has ended *)
Module ReturnLocalRef.
(** A [std::string] is its characters; [n] is its length. *)
Definition string_object (s : string) : list (option Z) := Some <$> chars s.
Definition show (n : nat) (r : Ptr) : P unit := zs ← load_all n r; out (text zs).
Definition get_name : P Ptr := scope (string_object "Alice") mret.
Definition crash_case_1 : P unit := r ← get_name; show 5 r.
Definition get_value : P Ptr := scope [Some 42%Z] mret.
Definition crash_case_2 : P unit := p ← get_value; z ← load p; out (pretty z).
(** [toupper] in the C locale. *)
Definition toupper (c : Z) : Z := if (97 <=? c)%Z && (c <=? 122)%Z then (c - 32)%Z else c.
Definition make_upper (n : nat) (s : Ptr) : P Ptr := zs ← load_all n s; scope (Some ∘ toupper <$> zs) mret.
Definition crash_case_3 : P unit := s ← alloc Local (string_object "hello"); upper ← make_upper 5 s; show 5 upper.
Definition get_name_fixed : P (list Z) := scope (string_object "Alice") (load_all 5).
Definition fix_case_1 : P unit := zs ← get_name_fixed; name ← alloc Local (Some <$> zs); show (length zs) name.
(** [msg]: the static string. *)
Definition get_constant : P Ptr := alloc Local (string_object "Hello, World!").
Definition fix_case_2 : P unit := r ← get_constant; show 13 r.
Definition get_value_out (o : Ptr) : P unit := store o 42.
Definition fix_case_3 : P unit := scope [None] (λ value, get_value_out value ;; z ← load value; out (pretty z)).
Definition main : P unit := fix_case_1 ;; fix_case_2 ;; fix_case_3.
End ReturnLocalRef.

(** ** 14: the order in which statics end *)
Module StaticDestruction.
(** An object of one cell; a member call on one that has ended is undefined. *)
Definition new_Logger : P Ptr := l ← alloc Local [Some 0%Z]; out "Logger constructed" ;; mret l.
Definition log (this : Ptr) (msg : string) : P unit := _ ← load this; out ("[LOG] " +:+ msg).
Definition end_Logger (this : Ptr) : P unit := out "Logger destroyed" ;; end_block this.
(** A [Database] refers to its logger. *)
Record Database := mkDatabase { db : Ptr; logger : Ptr }.
Definition new_Database (l : Ptr) : P Database := d ← alloc Local [Some 0%Z]; out "Database constructed" ;; mret (mkDatabase d l).
Definition query (d : Database) (sql : string) : P unit := _ ← load (db d); log (logger d) ("Executing: " +:+ sql).
Definition end_Database (d : Database) : P unit :=
  out "Database destroyed" ;; log (logger d) "DB connection closed" ;; end_block (db d).

(** The function-local statics, and what [exit] will run, the last first. *)
Record Statics := mkStatics { logger_instance : option Ptr; db_instance : option Database; at_exit : list (P unit) }.
Definition get_logger (s : Statics) : P (Ptr * Statics) :=
  match logger_instance s with
  | Some l => mret (l, s)
  | None => l ← new_Logger; mret (l, mkStatics (Some l) (db_instance s) (end_Logger l :: at_exit s))
  end.
Definition get_db (s : Statics) : P (Database * Statics) :=
  match db_instance s with
  | Some d => mret (d, s)
  | None =>
      ls ← get_logger s; d ← new_Database ls.1;
      mret (d, mkStatics (logger_instance ls.2) (Some d) (end_Database d :: at_exit ls.2))
  end.
Definition crash_case (g_db : Database) (s : Statics) : P Statics :=
  out "running..." ;; query g_db "SELECT * FROM users" ;; mret s.
Definition fix_case (s : Statics) : P Statics :=
  out "running with fix..." ;; ds ← get_db s; query ds.1 "SELECT * FROM users" ;; mret ds.2.
(** The program: [g_logger] and [g_db] are built, [main] runs, the statics end.
    [apart]: the globals are of two files and end the other way round. *)
Definition program (apart : bool) (main : Database → Statics → P Statics) : P unit :=
  g_logger ← new_Logger; g_db ← new_Database g_logger;
  let ends := if apart then [end_Logger g_logger; end_Database g_db] else [end_Database g_db; end_Logger g_logger] in
  s ← main g_db (mkStatics None None ends);
  for_each id (at_exit s).
Definition main (_ : Database) : Statics → P Statics := fix_case.
End StaticDestruction.

(** ** The verdicts *)
Definition undefined (c : P unit) (stack : Z) : Prop := (c (fresh stack)).1 = Undef.
Definition shows (c : P unit) (stack : Z) (lines : list string) : Prop :=
  (c (fresh stack)).1 = Ret tt ∧ printed (c (fresh stack)).2 = lines.

(** The crash cases 01 to 03, 05 to 07, 12 and 13, and the stack ones that a size decides. *)
Definition memory_cases : list (P unit) := [
  NullPointer.crash_case_1; NullPointer.crash_case_2; NullPointer.crash_case_3; NullPointer.crash_case_4;
  DanglingPointer.crash_case_1; DanglingPointer.crash_case_2; DanglingPointer.crash_case_3;
  BufferOverflow.crash_case_1; BufferOverflow.crash_case_2; BufferOverflow.crash_case_3; BufferOverflow.crash_case_4;
  DoubleFree.crash_case_1; DoubleFree.crash_case_2; DoubleFree.crash_case_3;
  UninitializedPointer.crash_case_1; UninitializedPointer.crash_case_2;
  DivisionByZero.crash_case_1; DivisionByZero.crash_case_2; DivisionByZero.crash_case_3;
  OutOfBounds.crash_case_1;
  PureVirtual.crash_case_1; PureVirtual.crash_case_2; PureVirtual.crash_case_3;
  ReturnLocalRef.crash_case_1; ReturnLocalRef.crash_case_2; ReturnLocalRef.crash_case_3].

(** Each of these programs is undefined, whatever the stack holds; the pointer of
    06 is bad for every flag, as the local it may point to has ended as well. *)
Lemma memory_cases_undefined stack : Forall (λ c, undefined c stack) memory_cases.
Proof. repeat constructor. Qed.
Lemma uninitialized_whatever_the_flag stack flag : undefined (UninitializedPointer.crash_case_3 flag) stack.
Proof. unfold undefined, UninitializedPointer.crash_case_3. by destruct (0 <? flag)%Z. Qed.
(** Neither recursion without an end nor a local of 10 MB fits a stack of 8 MB. *)
Lemma stack_cases_undefined bytes n : (0 < bytes)%Z →
  let stack := (8 * 1024 * 1024)%Z in
  undefined StackOverflow.crash_case_2 stack ∧ undefined (StackOverflow.crash_case_1 bytes (Z.to_nat (stack / bytes) + S n) 0) stack.
Proof.
  intros Hb. split; [done|]. apply StackOverflow.crash_case_1_undefined; [done|done|]. cbn [stack_left fresh].
  pose proof (Z.mul_succ_div_gt (8 * 1024 * 1024) bytes Hb). pose proof (Z.div_pos (8 * 1024 * 1024) bytes). nia.
Qed.

Lemma as_int_fib n : StackOverflow.as_int (StackOverflow.fib n) = if n <? 47 then Ret (StackOverflow.fib n) else Undef.
Proof.
  unfold StackOverflow.as_int. destruct (Nat.ltb_spec n 47) as [Hn|Hn].
  - rewrite (proj2 (Z.ltb_lt _ _)); [done|]. eapply Z.le_lt_trans; [apply (StackOverflow.fib_mono n 46); lia|].
    by rewrite (proj1 StackOverflow.fib_46_47).
  - rewrite (proj2 (Z.ltb_ge _ _)); [done|]. eapply Z.le_trans; [|apply (StackOverflow.fib_mono 47 n Hn)].
    by rewrite (proj2 StackOverflow.fib_46_47).
Qed.
(** [fibonacci] needs no more frames than its argument, so it does not exhaust
    the stack; it overflows an [int] from 47 on. *)
Theorem fibonacci_overflows n frames : max n 1 ≤ frames →
  StackOverflow.fibonacci frames (Z.of_nat n) = Some (if n <? 47 then Ret (StackOverflow.fib n) else Undef).
Proof. intros Hf. by rewrite StackOverflow.fibonacci_frames, as_int_fib. Qed.
Lemma crash_case_3_overflows : StackOverflow.crash_case_3 100 = Some Undef.
Proof.
  unfold StackOverflow.crash_case_3. change 100%Z with (Z.of_nat 100).
  by rewrite StackOverflow.fibonacci_frames, as_int_fib.
Qed.

(** The iterator cases; whether [push_back] invalidates depends on the capacity. *)
Example iterator_cases_undefined :
  (IteratorInvalidation.crash_case_1 IteratorInvalidation.numbers).1 = Undef ∧
  (IteratorInvalidation.crash_case_2 IteratorInvalidation.numbers).1 = Undef ∧
  (IteratorInvalidation.crash_case_3 IteratorInvalidation.entries).1 = Undef ∧
  (DanglingPointer.crash_case_4 (DanglingPointer.crash_case_4_vector 3)).1 = Undef ∧
  (DanglingPointer.crash_case_4 (DanglingPointer.crash_case_4_vector 4)).1 = Ret 1%Z.
Proof. by_compute. Qed.
(** The cases of 08; the last catches its exception. *)
Lemma index_cases what cap : (OutOfBounds.crash_case_2 (OutOfBounds.three cap)).1 = Undef ∧
  (OutOfBounds.crash_case_3 (OutOfBounds.hello cap)).1 = Undef ∧
  OutOfBounds.crash_case_4 what (OutOfBounds.three cap) = Ret ("caught: " +:+ what).
Proof. done. Qed.

(** What the repaired programs print. *)
Example fixes_print :
  shows PureVirtual.fix_case 0 ["SafeDerived::init"] ∧
  shows ReturnLocalRef.main 0 ["Alice"; "Hello, World!"; "42"] ∧
  IteratorInvalidation.vector_line (IteratorInvalidation.fix_case_1 IteratorInvalidation.even 6 IteratorInvalidation.numbers).2 = "1 3 5 " ∧
  IteratorInvalidation.vector_line (IteratorInvalidation.fix_case_3 IteratorInvalidation.even IteratorInvalidation.numbers).2 = "1 3 5 " ∧
  IteratorInvalidation.map_line (IteratorInvalidation.fix_case_2 IteratorInvalidation.entries).2 = "1:a 3:c ".
Proof. by_compute. Qed.
(** In one file the statics end in an order that is safe, with or without the
    repair; ending the other way round uses the logger after its end. *)
Example static_destruction :
  shows (StaticDestruction.program false StaticDestruction.main) 0
    ["Logger constructed"; "Database constructed"; "running with fix..."; "Logger constructed"; "Database constructed";
     "[LOG] Executing: SELECT * FROM users";
     "Database destroyed"; "[LOG] DB connection closed"; "Logger destroyed";
     "Database destroyed"; "[LOG] DB connection closed"; "Logger destroyed"] ∧
  shows (StaticDestruction.program false StaticDestruction.crash_case) 0
    ["Logger constructed"; "Database constructed"; "running..."; "[LOG] Executing: SELECT * FROM users";
     "Database destroyed"; "[LOG] DB connection closed"; "Logger destroyed"] ∧
  undefined (StaticDestruction.program true StaticDestruction.crash_case) 0.
Proof. by_compute. Qed.

Lemma erase_loop_keeps_witness :
  ∃ v, IteratorInvalidation.fix_case_1 IteratorInvalidation.even 6 IteratorInvalidation.numbers = (Ret tt, v) ∧
       vec_ok v ∧ items v = [1; 3; 5]%Z.
Proof. apply (IteratorInvalidation.erase_loop_keeps IteratorInvalidation.even [1; 2; 3; 4; 5]%Z 5 6). simpl. lia. Defined.
Lemma fibonacci_overflows_witness : StackOverflow.fibonacci 100 100 = Some Undef.
Proof. apply (fibonacci_overflows 100 100). lia. Defined.
