(* ===== verification/EventBus.v ===== *)
(** * The event bus of [infrastructure/messaging/event_bus.hpp]

    [publish] copies the subscribers under the lock and calls the copy without
    it, so a subscriber may subscribe or publish while it is called, and threads
    publish at the same time.  Each thread has the stack of the [publish] calls
    it is in; the lock is held for one atomic step. *)
From S2P Require Import Prelude StdMap HierNode Plant.
Local Open Scope prog_scope.

Section bus.
Context {E H : Type}.

(** A call of [publish]: its event, its copy of the subscribers, and how many it
    has called. *)
Record Publication := mkPublication { event : E; snapshot : list H; position : nat }.
(** [calls] is the history of the calls, by the number of their publication. *)
Record EventBus := mkBus {
  handlers_ : list H; stacks : gmap nat (list nat); published : list Publication; calls : list (nat * H)
}.
Definition new_EventBus : EventBus := mkBus [] ∅ [] [].
Definition stack (t : nat) (b : EventBus) : list nat := default [] (stacks b !! t).
Definition set_stack (t : nat) (ps : list nat) (b : EventBus) : EventBus :=
  mkBus (handlers_ b) (<[t := ps]> (stacks b)) (published b) (calls b).

Definition subscribe (h : H) (b : EventBus) : EventBus := mkBus (handlers_ b ++ [h]) (stacks b) (published b) (calls b).
(** [publish] up to its loop. *)
Definition publish (t : nat) (e : E) (b : EventBus) : EventBus :=
  set_stack t (length (published b) :: stack t b)
    (mkBus (handlers_ b) (stacks b) (published b ++ [mkPublication e (handlers_ b) 0]) (calls b)).
(** [for (auto& h : snapshot) h(e);]: the next call of thread [t], or its return. *)
Definition advance (p : Publication) : Publication := mkPublication (event p) (snapshot p) (S (position p)).
Definition go_on (t : nat) (b : EventBus) : EventBus :=
  match stack t b with
  | [] => b
  | p :: ps =>
      match published b !! p ≫= λ q, snapshot q !! position q with
      | Some h => mkBus (handlers_ b) (stacks b) (alter advance p (published b)) (calls b ++ [(p, h)])
      | None => set_stack t ps b
      end
  end.
Inductive Label := LSubscribe (h : H) | LPublish (t : nat) (e : E) | LGoOn (t : nat).
Definition bus_step (b : EventBus) (l : Label) : EventBus :=
  match l with LSubscribe h => subscribe h b | LPublish t e => publish t e b | LGoOn t => go_on t b end.
Definition bus_run (b : EventBus) (ls : list Label) : EventBus := foldl bus_step b ls.

(** The subscribers called for publication [p], in order. *)
Definition delivered (p : nat) (b : EventBus) : list H := snd <$> filter (λ c, c.1 = p) (calls b).

Record bus_inv (b : EventBus) : Prop := {
  inv_delivered p q : published b !! p = Some q → delivered p b = take (position q) (snapshot q);
  inv_pending p q : published b !! p = Some q → length (snapshot q) ≤ position q ∨ ∃ t, p ∈ stack t b;
  inv_calls c : c ∈ calls b → c.1 < length (published b);
  inv_snapshot p q : published b !! p = Some q → ∃ later, handlers_ b = snapshot q ++ later
}.

Lemma stack_set t u ps b : stack u (set_stack t ps b) = if decide (t = u) then ps else stack u b.
Proof.
  unfold stack, set_stack. simpl. case_decide as Htu; [subst; by rewrite lookup_insert_eq|by rewrite lookup_insert_ne].
Qed.
Lemma delivered_snoc p c l : snd <$> filter (λ c : nat * H, c.1 = p) (l ++ [c]) =
  (snd <$> filter (λ c, c.1 = p) l) ++ (if decide (c.1 = p) then [c.2] else []).
Proof.
  rewrite filter_app, fmap_app. f_equal. case_decide; [by rewrite filter_cons_True|by rewrite filter_cons_False].
Qed.
Lemma no_calls p b : bus_inv b → length (published b) ≤ p → delivered p b = [].
Proof.
  intros Hb Hp. unfold delivered. assert (Forall (λ c : nat * H, ¬ c.1 = p) (calls b)) as Hf.
  { apply Forall_forall. intros c Hc Hq. pose proof (inv_calls b Hb c Hc). lia. }
  induction Hf as [|c l Hc Hf IH]; [done|]. by rewrite filter_cons_False.
Qed.
Lemma new_bus_inv : bus_inv new_EventBus.
Proof. constructor; simpl; [done|done|by intros c ?%not_elem_of_nil|done]. Qed.
Lemma subscribe_inv h b : bus_inv b → bus_inv (subscribe h b).
Proof.
  intros [H1 H2 H3 H4]. constructor; try done. simpl. intros p q Hq. destruct (H4 p q Hq) as [l ->].
  exists (l ++ [h]). by rewrite app_assoc.
Qed.
Lemma publish_inv t e b : bus_inv b → bus_inv (publish t e b).
Proof.
  intros Hb. pose proof Hb as [H1 H2 H3 H4]. constructor.
  - simpl. intros p q Hq. apply lookup_app_Some in Hq as [Hq|[Hge Hq]]; [by apply H1|].
    apply list_lookup_singleton_Some in Hq as [_ <-]. exact (no_calls p b Hb Hge).
  - cbn [published publish set_stack]. intros p q Hq. apply lookup_app_Some in Hq as [Hq|[Hge Hq]].
    + destruct (H2 p q Hq) as [|[u Hu]]; [by left|right]. exists u. unfold publish. rewrite stack_set.
      case_decide; [subst; by right|done].
    + right. exists t. unfold publish. rewrite stack_set, decide_True by done.
      apply list_lookup_singleton_Some in Hq as [Hp _]. replace p with (length (published b)) by lia. by left.
  - simpl. intros c Hc. rewrite length_app. specialize (H3 c Hc). lia.
  - simpl. intros p q Hq. apply lookup_app_Some in Hq as [Hq|[Hge Hq]]; [by apply (H4 p q)|].
    apply list_lookup_singleton_Some in Hq as [_ <-]. exists []. by rewrite app_nil_r.
Qed.
Lemma go_on_inv t b : bus_inv b → bus_inv (go_on t b).
Proof.
  intros Hb. pose proof Hb as [H1 H2 H3 H4]. unfold go_on. destruct (stack t b) as [|p ps] eqn:Hs; [done|].
  destruct (published b !! p ≫= _) as [h|] eqn:Hh.
  - apply bind_Some in Hh as (q & Hq & Hh). constructor; simpl.
    + intros p' q' Hq'. unfold delivered. simpl. rewrite delivered_snoc. simpl.
      destruct (decide (p = p')) as [->|Hne].
      * rewrite list_lookup_alter_eq, Hq in Hq'. simplify_eq/=. rewrite (take_S_r _ _ _ Hh). f_equal. by apply H1.
      * rewrite list_lookup_alter_ne in Hq' by done. rewrite app_nil_r. by apply H1.
    + intros p' q' Hq'. destruct (decide (p = p')) as [->|Hne].
      * right. exists t. change (p' ∈ stack t b). rewrite Hs. by left.
      * rewrite list_lookup_alter_ne in Hq' by done. by apply (H2 p' q').
    + intros c [Hc|Hc]%elem_of_app; rewrite length_alter; [by apply H3|]. apply list_elem_of_singleton in Hc as ->.
      simpl. by eapply lookup_lt_Some.
    + intros p' q' Hq'. destruct (decide (p = p')) as [->|Hne].
      * rewrite list_lookup_alter_eq, Hq in Hq'. simplify_eq/=. by apply (H4 p' q).
      * rewrite list_lookup_alter_ne in Hq' by done. by apply (H4 p' q').
  - constructor; try done. intros p' q Hq. cbn [published set_stack] in Hq. destruct (decide (p' = p)) as [->|Hne].
    + left. rewrite Hq in Hh. simpl in Hh. by apply lookup_ge_None in Hh.
    + destruct (H2 p' q Hq) as [|[u Hu]]; [by left|right]. exists u. rewrite stack_set. case_decide; [subst|done].
      rewrite Hs in Hu. by apply elem_of_cons in Hu as [|].
Qed.

(** C22: However threads subscribe, publish and call, each publication calls the
    subscribers of the moment it started, each once and in order; when its
    [publish] has returned all have been called. *)
Theorem publications_delivered ls p q : let b := bus_run new_EventBus ls in
  published b !! p = Some q →
  (∃ missing, delivered p b ++ missing = snapshot q) ∧ (∃ later, handlers_ b = snapshot q ++ later) ∧
  ((∀ t, p ∉ stack t b) → delivered p b = snapshot q).
Proof.
  intros b Hq. assert (bus_inv b) as Hb.
  { unfold b. clear. assert (∀ c, bus_inv c → bus_inv (bus_run c ls)) as Hrun; [|by apply Hrun, new_bus_inv].
    induction ls as [|l ls IH]; intros c Hc; [done|]. apply IH.
    destruct l; [by apply subscribe_inv|by apply publish_inv|by apply go_on_inv]. }
  rewrite (inv_delivered b Hb p q Hq). split_and!.
  - exists (drop (position q) (snapshot q)). by rewrite take_drop.
  - by apply (inv_snapshot b Hb p q).
  - intros Hno. destruct (inv_pending b Hb p q Hq) as [Hle|[t Ht]]; [by apply take_ge|by destruct (Hno t)].
Qed.

(** Publishing alone: the loop calls the subscribers and returns. *)
Lemma publish_alone t e b : ∀ k, k ≤ length (handlers_ b) →
  let b1 := Nat.iter k (go_on t) (publish t e b) in
  stack t b1 = length (published b) :: stack t b ∧ handlers_ b1 = handlers_ b ∧
  published b1 = published b ++ [mkPublication e (handlers_ b) k] ∧
  calls b1 = calls b ++ ((λ h, (length (published b), h)) <$> take k (handlers_ b)).
Proof.
  induction k as [|k IH]; intros Hk.
  { simpl. unfold publish. rewrite stack_set, decide_True by done. by rewrite app_nil_r. }
  destruct IH as (Hs & Hh & Hp & Hc); [lia|]. cbn [Nat.iter nat_rect]. set (b1 := Nat.iter k (go_on t) (publish t e b)) in *.
  change (nat_rect _ _ _ k) with b1. destruct (lookup_lt_is_Some_2 (handlers_ b) k) as [h Hl]; [lia|].
  unfold go_on. rewrite Hs, Hp, lookup_app_r, Nat.sub_diag by lia. simpl. rewrite Hl. simpl.
  change (stack t (mkBus _ (stacks b1) _ _)) with (stack t b1).
  rewrite Hc, alter_app_r_alt, Nat.sub_diag, (take_S_r _ _ _ Hl), fmap_app, app_assoc by lia. done.
Qed.
Definition run_publish (t : nat) (e : E) (b : EventBus) : EventBus := Nat.iter (S (length (handlers_ b))) (go_on t) (publish t e b).
Lemma run_publish_returns t e b :
  stack t (run_publish t e b) = stack t b ∧
  calls (run_publish t e b) = calls b ++ ((λ h, (length (published b), h)) <$> handlers_ b).
Proof.
  destruct (publish_alone t e b (length (handlers_ b))) as (Hs & Hh & Hp & Hc); [done|].
  unfold run_publish. cbn [Nat.iter nat_rect]. set (b1 := Nat.iter (length (handlers_ b)) (go_on t) (publish t e b)) in *.
  change (nat_rect _ _ _ (length (handlers_ b))) with b1.
  unfold go_on. rewrite Hs, Hp, lookup_app_r, Nat.sub_diag by lia. simpl. rewrite lookup_ge_None_2 by lia.
  rewrite stack_set, decide_True by done. simpl. by rewrite Hc, take_ge.
Qed.
End bus.
Arguments EventBus : clear implicits.
Arguments Label : clear implicits.

(** ** The bus of the demonstration

    Its one subscriber prints the event, which is what [HierNode] keeps as the
    store's output. *)
Definition attachBus (b : EventBus DomainEvent (DomainEvent → string)) : EventBus DomainEvent (DomainEvent → string) :=
  subscribe event_text b.
Definition printed (e : DomainEvent) (b : EventBus DomainEvent (DomainEvent → string)) : list string :=
  (λ c, c.2 e) <$> drop (length (calls b)) (calls (run_publish 0 e b)).
Lemma bus_prints_event e : printed e (attachBus new_EventBus) = [event_text e].
Proof. done. Qed.

Definition demo_labels : list (Label nat string) := [
  LSubscribe "a"; LSubscribe "b"; LPublish 0 1; LGoOn 0; LSubscribe "c"; LPublish 0 2; LGoOn 0; LGoOn 0; LGoOn 0; LGoOn 0;
  LPublish 1 3; LGoOn 0; LGoOn 0].
Lemma publications_delivered_witness : delivered 0 (bus_run new_EventBus demo_labels) = ["a"; "b"].
Proof.
  refine (proj2 (proj2 (publications_delivered demo_labels 0 (mkPublication 1 ["a"; "b"] 2) _)) _); [by vm_compute|].
  intros t. assert (stacks (bus_run new_EventBus demo_labels) = {[0 := []; 1 := [2]]}) as E by (by vm_compute).
  unfold stack. rewrite E. destruct t as [|[|t]]; [by vm_compute; intros ?%not_elem_of_nil| |].
  - change (0 ∉ [2]). by intros ?%list_elem_of_singleton.
  - rewrite lookup_insert_ne, lookup_singleton_ne by done. by intros ?%not_elem_of_nil.
Defined.
