(* ===== verification/Menu.v ===== *)
(** * The menu of [state_machine_2/main.cpp]

    [std::cin] with its flags, the reading of a choice, and the loop; a round is
    one pass of [while (true)].  What is shown is a list of items, the scenarios
    of [DeviceControl], [EventDevice] and [OoDevice] by their numbers. *)
From Stdlib Require Import Ascii.
From S2P Require Import Prelude.
Local Open Scope prog_scope.

(** ** [std::cin] *)
Record Cin := mkCin { chars : list Ascii.ascii; eofbit : bool; failbit : bool }.
Definition good (c : Cin) : bool := negb (eofbit c) && negb (failbit c).
Definition is_space (a : Ascii.ascii) : bool := let n := Ascii.nat_of_ascii a in (n =? 32) || ((9 <=? n) && (n <=? 13)).
Definition digit (a : Ascii.ascii) : option Z :=
  let n := Ascii.nat_of_ascii a in if (48 <=? n) && (n <=? 57) then Some (Z.of_nat (n - 48)) else None.
Fixpoint skip_spaces (l : list Ascii.ascii) : list Ascii.ascii :=
  match l with a :: l' => if is_space a then skip_spaces l' else l | [] => [] end.
(** The digits at the front, with the value so far and whether there were any. *)
Fixpoint digits (l : list Ascii.ascii) (v : Z) (any : bool) : Z * bool * list Ascii.ascii :=
  match l with
  | a :: l' => match digit a with Some d => digits l' (10 * v + d) true | None => (v, any, l) end
  | [] => (v, any, [])
  end.
Definition sign (l : list Ascii.ascii) : Z * list Ascii.ascii :=
  match l with
  | a :: l' => if Ascii.eqb a "-"%char then (-1, l')%Z else if Ascii.eqb a "+"%char then (1, l')%Z else (1, l)%Z
  | [] => (1, [])%Z
  end.
(** [cin >> x] of an [int]: no digits and an overflow set the fail bit, the end
    of the input the other. *)
Definition read_int (c : Cin) : Z * Cin :=
  if good c then
    match skip_spaces (chars c) with
    | [] => (0%Z, mkCin [] true true)
    | l => let '(s, l1) := sign l in let '(v, any, l2) := digits l1 0 false in
           ((s * v)%Z, mkCin l2 (bool_decide (l2 = [])) (negb (any && in_signed 32 (s * v))))
    end
  else (0%Z, mkCin (chars c) (eofbit c) true).
Definition newline : Ascii.ascii := Ascii.ascii_of_nat 10.
Fixpoint drop_line (l : list Ascii.ascii) : option (list Ascii.ascii) :=
  match l with a :: l' => if Ascii.eqb a newline then Some l' else drop_line l' | [] => None end.
(** [cin.ignore(max, '\n')], [cin.get()], [cin.clear()] *)
Definition ignore_line (c : Cin) : Cin :=
  if good c then match drop_line (chars c) with Some l => mkCin l false false | None => mkCin [] true false end
  else mkCin (chars c) (eofbit c) true.
Definition get_char (c : Cin) : Cin :=
  if good c then match chars c with _ :: l => mkCin l false false | [] => mkCin [] true true end
  else mkCin (chars c) (eofbit c) true.
Definition clear (c : Cin) : Cin := mkCin (chars c) false false.

(** ** The menu *)
Inductive Item := Header | MenuText | Scenario (n : Z) | Exiting | Invalid | PressEnter.
Definition get_choice (c : Cin) : Z * Cin :=
  let '(choice, c1) := read_int c in
  if failbit c1 then ((-1)%Z, ignore_line (clear c1)) else (choice, c1).
(** The scenarios of a choice. *)
Definition scenarios (choice : Z) : list Item :=
  if ((1 <=? choice) && (choice <=? 5))%Z then [Scenario choice]
  else if (choice =? 6)%Z then Scenario <$> [1; 2; 3; 4; 5]%Z
  else if (choice =? 0)%Z then [Exiting] else [Invalid].
(** A round: whether the loop goes on, the input that is left, what is shown. *)
Definition round (c : Cin) : bool * Cin * list Item :=
  let '(choice, c1) := get_choice c in
  if (choice =? 0)%Z then (false, c1, MenuText :: scenarios choice)
  else if ((1 <=? choice) && (choice <=? 6))%Z then (true, get_char (ignore_line c1), MenuText :: scenarios choice ++ [PressEnter])
  else (true, c1, MenuText :: scenarios choice).
(** [n] rounds at most; [None] while the loop still runs. *)
Fixpoint rounds (n : nat) (c : Cin) (shown : list Item) : option (list Item) * Cin :=
  match n with
  | 0 => (None, c)
  | S n' => let '(go, c1, items) := round c in
            if go then rounds n' c1 (shown ++ items) else (Some (shown ++ items), c1)
  end.
Definition main (n : nat) (input : string) : option (list Item) :=
  (rounds n (mkCin (String.list_ascii_of_string input) false false) [Header]).1.

Example a_session : main 3 ("2" +:+ String newline (String newline ("x0" +:+ String newline "0"))) =
  Some [Header; MenuText; Scenario 2; PressEnter; MenuText; Invalid; MenuText; Exiting].
Proof. by_compute. Qed.

(** ** What a session does *)
(** A choice, Enter, and Enter once the scenario has run. *)
Definition typed (choice : Z) : list Ascii.ascii := [Ascii.ascii_of_nat (48 + Z.to_nat choice); newline; newline].
Definition shown_for (choice : Z) : list Item := MenuText :: scenarios choice ++ [PressEnter].

Lemma round_typed choice rest : (1 ≤ choice ≤ 6)%Z →
  round (mkCin (typed choice ++ rest) false false) = (true, mkCin rest false false, shown_for choice).
Proof.
  intros H. assert (choice = 1 ∨ choice = 2 ∨ choice = 3 ∨ choice = 4 ∨ choice = 5 ∨ choice = 6)%Z as Hc by lia.
  destruct Hc as [->|[->|[->|[->|[->| ->]]]]]; reflexivity.
Qed.
Lemma rounds_typed cs : ∀ shown, Forall (λ c, 1 ≤ c ≤ 6)%Z cs →
  (rounds (S (length cs)) (mkCin ((cs ≫= typed) ++ ["0"%char]) false false) shown).1 =
    Some (shown ++ (cs ≫= shown_for) ++ [MenuText; Exiting]).
Proof.
  induction cs as [|c cs IH]; intros shown Hcs; [by vm_compute|]. apply Forall_cons in Hcs as [Hc Hcs].
  rewrite !bind_cons, <- app_assoc. cbn [length]. remember (S (length cs)) as n eqn:Hn. cbn [rounds].
  rewrite round_typed by done. subst n. rewrite IH by done. by rewrite !app_assoc.
Qed.
(** Any sequence of choices runs its scenarios in order and then exits. *)
Theorem menu_runs_choices cs : Forall (λ c, 1 ≤ c ≤ 6)%Z cs →
  main (S (length cs)) (String.string_of_list_ascii ((cs ≫= typed) ++ ["0"%char])) =
    Some (Header :: (cs ≫= shown_for) ++ [MenuText; Exiting]).
Proof. intros Hcs. unfold main. rewrite String.list_ascii_of_string_of_list_ascii. by rewrite rounds_typed. Qed.

(** Once the input has ended no round exits: the loop shows the menu for ever. *)
Definition exhausted (c : Cin) : Prop := chars c = [].
Lemma round_exhausted c : exhausted c → ∃ c', round c = (true, c', [MenuText; Invalid]) ∧ exhausted c'.
Proof.
  intros Hc. destruct c as [l e f]. unfold exhausted in *. simpl in Hc. subst l. destruct e, f; eexists; by split.
Qed.
Theorem menu_never_exits_at_eof n c shown : exhausted c → (rounds n c shown).1 = None.
Proof.
  revert c shown. induction n as [|n IH]; intros c shown Hc; [done|]. cbn [rounds].
  destruct (round_exhausted c Hc) as (c' & -> & Hc'). by apply IH.
Qed.
Lemma menu_runs_choices_witness :
  main 3 ("3" +:+ String newline (String newline ("5" +:+ String newline (String newline "0")))) =
    Some [Header; MenuText; Scenario 3; PressEnter; MenuText; Scenario 5; PressEnter; MenuText; Exiting].
Proof. apply (menu_runs_choices [3; 5]%Z). by repeat constructor. Defined.
Lemma menu_never_exits_at_eof_witness : (rounds 7 (mkCin [] false false) [Header]).1 = None.
Proof. by apply (menu_never_exits_at_eof 7 (mkCin [] false false)). Defined.
