(* ===== verification/Scenarios.v ===== *)
(** * The use cases of [proto_opcua/scenarios.cpp]

    Scripts of calls on a client, with the lines they print; each line is
    without its end.  The services are those of [OpcuaClient]; protobuf's
    serialization, the clock, and what a subscription reports while the script
    sleeps are parameters.  What [connect] writes to the error stream is left out. *)
From Stdlib Require Import Ascii.
From S2P Require Import Prelude FloatText PlcClient OpcuaClient.
Local Open Scope prog_scope.

(** ** Text *)
Definition newline : string := String (Ascii.ascii_of_nat 10) "".
Definition bool_text (b : bool) : string := if b then "1" else "0".
Definition float_text (bits : Z) : string := format_double (decode_float32 bits).
Definition double_text (bits : Z) : string := format_double (decode_float64 bits).
Definition ok_text (ok : bool) : string := if ok then "OK" else "FAIL".
Definition good (status : Z) : bool := bool_decide (status = 0%Z).
(** [std::hex] *)
Definition hex_digit (d : Z) : string := String (Ascii.ascii_of_N (Z.to_N (if (d <? 10)%Z then 48 + d else 87 + d))) "".
Fixpoint hex_digits (fuel : nat) (z : Z) : string :=
  match fuel with
  | 0 => ""
  | S fuel' => if (z <? 16)%Z then hex_digit z else hex_digits fuel' (z / 16) +:+ hex_digit (z mod 16)
  end.
Definition hex (z : Z) : string := hex_digits 16 z.
(** A value of the enumeration prints as its number. *)
Definition type_value (t : DataTypeId) : Z :=
  match t with
  | DBOOL => 0 | DINT8 => 1 | DINT16 => 2 | DINT32 => 3 | DINT64 => 4 | DUINT8 => 5 | DUINT16 => 6 | DUINT32 => 7
  | DUINT64 => 8 | DFLOAT => 9 | DDOUBLE => 10 | DSTRING => 11 | DBYTESTRING => 12 | DDATETIME => 13 | DNODEID => 14
  | DVARIANT => 15 | DARRAY_BOOL => 16 | DARRAY_INT32 => 17 | DARRAY_FLOAT => 18 | DARRAY_DOUBLE => 19
  | DARRAY_STRING => 20 | DLOCALIZEDTEXT => 21 | DQUALIFIEDNAME => 22 | DSTRUCTURED => 23
  end.
Definition type_text (v : VariantValue) : string := pretty (type_value (vv_type v)).
Definition is_type (t : DataTypeId) (v : VariantValue) : bool := bool_decide (vv_type v = t).
Definition words (f : Z → string) (l : list Z) : string := String.concat "" ((λ z, " " +:+ f z) <$> l).

Section scenarios.
Context {W : Type} (svc : Services W).
Local Abbreviation Client := (OPCUAClient W).
Record Session := mkSession { client : Client; lines : list string }.
Abbreviation Script := (M Session).
Definition on_client {A} (m : M Client A) : Script A := λ s,
  let '(r, c) := m (client s) in (r, mkSession c (lines s)).
Definition say (line : string) : Script unit := modify (λ s, mkSession (client s) (lines s ++ [line])).
Definition say_all (ls : list string) : Script unit := modify (λ s, mkSession (client s) (lines s ++ ls)).

Definition PLC_ENDPOINT : string := "opc.tcp://192.168.1.100:4840".
Definition connect_ : Script bool := on_client (connect svc 10000).
(** The title, and [if (!client.connect()) return;]. *)
Definition scenario (title : string) (body : Script unit) : Script unit :=
  say (newline +:+ "=== 场景 " +:+ title +:+ " ===");;
  ok ← connect_; if (ok : bool) then body else mret tt.
Definition id0 (i : Z) : NodeId := numericNodeId 0 i.

Definition scenario_connect_disconnect : Script unit :=
  say (newline +:+ "=== 场景 1: 连接/断开 PLC ===");;
  ok ← on_client (connect svc 5000);
  if (ok : bool) then say "PLC 连接成功";; on_client (disconnect svc);; say "PLC 已断开" else say "PLC 连接失败".

Definition scenario_read_scalar_types : Script unit := scenario "2: 读取标量值" (
  b ← on_client (readBool svc (id0 1001));
  i32 ← on_client (readInt32 svc (id0 1002));
  i64 ← on_client (readInt64 svc (id0 1003));
  u32 ← on_client (readUInt32 svc (id0 1004));
  f ← on_client (readFloat svc (id0 1005));
  d ← on_client (readDouble svc (id0 1006));
  s ← on_client (readString svc (id0 1007));
  say_all ["Bool:   " +:+ bool_text b; "Int32:  " +:+ pretty (i32 : Z); "Int64:  " +:+ pretty (i64 : Z);
           "UInt32: " +:+ pretty (u32 : Z); "Float:  " +:+ float_text f; "Double: " +:+ double_text d; "String: " +:+ s];;
  resp ← on_client (read svc (mkReadRequest (id0 1002) 13 true));
  if good (rs_status resp)
  then say ("Value via proto: " +:+ pretty (int32_val (rs_value resp)) +:+ ", server_ts: " +:+ pretty (rs_server_timestamp resp))
  else mret tt).

Definition array_line (name : string) (f : Z → string) (l : list Z) : string :=
  name +:+ " Array (" +:+ pretty (length l) +:+ " elements):" +:+ words f l.
Definition scenario_read_array_types : Script unit := scenario "3: 读取数组值" (
  i32s ← on_client (readInt32Array svc (id0 2001)); say (array_line "Int32" pretty i32s);;
  f32s ← on_client (readFloatArray svc (id0 2002)); say (array_line "Float" float_text f32s);;
  f64s ← on_client (readDoubleArray svc (id0 2003)); say (array_line "Double" double_text f64s)).

Definition attribute_line (name : string) (attribute : Z) (f : VariantValue → string) : Script unit :=
  resp ← on_client (readAttribute svc (id0 1001) attribute); say (name +:+ ": " +:+ f (rs_value resp)).
Definition scenario_read_attributes : Script unit := scenario "4: 读取节点属性" (
  attribute_line "DisplayName" 14 string_val;;
  attribute_line "Description" 15 string_val;;
  attribute_line "NodeClass" 2 (λ v, pretty (int32_val v));;
  attribute_line "BrowseName" 5 string_val;;
  attribute_line "WriteMask" 21 (λ v, pretty (uint32_val v));;
  attribute_line "UserWriteMask" 22 (λ v, pretty (uint32_val v));;
  attribute_line "DataType NodeId" 6 (λ v, pretty (uint32_val v))).

(** 3.14f by its bits. *)
Definition scenario_write_scalar_types : Script unit := scenario "5: 写入标量值" (
  ok1 ← on_client (writeBool svc (id0 1001) true);
  ok2 ← on_client (writeInt32 svc (id0 1002) 42);
  ok3 ← on_client (writeFloat svc (id0 1005) 0x4048F5C3);
  ok4 ← on_client (writeString svc (id0 1007) "hello plc");
  say_all ["Write Bool:   " +:+ ok_text ok1; "Write Int32:  " +:+ ok_text ok2; "Write Float:  " +:+ ok_text ok3;
           "Write String: " +:+ ok_text ok4];;
  verify ← on_client (readInt32 svc (id0 1002));
  say ("Verify read after write: " +:+ pretty (verify : Z) +:+ " (expect 42)");;
  st ← on_client (write svc (mkWriteRequest (id0 1002) (scalar_value DINT32 (Int32Val 100)) 0));
  say ("Write via proto: " +:+ ok_text (good st))).

(** 1.1f, 2.2f and 3.3f. *)
Definition scenario_write_array_types : Script unit := scenario "6: 写入数组值" (
  ok ← on_client (writeInt32Array svc (id0 2001) [10; 20; 30; 40; 50]%Z);
  say ("Write Int32 Array: " +:+ ok_text ok);;
  ok ← on_client (writeFloatArray svc (id0 2002) [0x3F8CCCCD; 0x400CCCCD; 0x40533333]%Z);
  say ("Write Float Array: " +:+ ok_text ok)).

Definition value_request (i : Z) : ReadRequest := mkReadRequest (id0 i) 13 false.
Definition indexed {A} (f : nat → A → string) (l : list A) : list string := imap f l.
Definition scenario_batch_read : Script unit := scenario "7: 批量读取" (
  rs ← on_client (batchRead svc (value_request <$> [1001; 1002; 1005; 1007; 2001]%Z));
  say ("Batch read " +:+ pretty (length rs) +:+ " nodes:");;
  say_all (indexed (λ i r, "  Node[" +:+ pretty i +:+ "] status=" +:+ pretty (rs_status r) +:+ " type=" +:+ type_text (rs_value r)) rs)).

Definition int_write (p : Z * Z) : WriteRequest := mkWriteRequest (id0 p.1) (scalar_value DINT32 (Int32Val p.2)) 0.
Definition scenario_batch_write : Script unit := scenario "8: 批量写入" (
  sts ← on_client (batchWrite svc (int_write <$> [(1002, 10); (1003, 20); (1004, 30)]%Z));
  say "Batch write results:";;
  say_all (indexed (λ i st, "  Write[" +:+ pretty i +:+ "]: " +:+ ok_text (good st)) sts)).

Definition class_line (r : ReferenceDescription) : string :=
  "  " +:+ rf_display_name r +:+ " (class=" +:+ pretty (rf_node_class r) +:+ ")".
Definition scenario_browse : Script unit := scenario "9: 浏览 PLC 地址空间" (
  let root := id0 85 in
  say "--- 9a: 浏览所有子节点 ---";;
  all ← on_client (browseChildren svc root); say_all (class_line <$> all);;
  say "--- 9b: 只浏览变量节点 ---";;
  vars ← on_client (browseVariables svc root); say_all ((λ r, "  Variable: " +:+ rf_display_name r) <$> vars);;
  say "--- 9c: 只浏览对象节点 ---";;
  objs ← on_client (browseObjects svc root); say_all ((λ r, "  Object: " +:+ rf_display_name r) <$> objs);;
  say "--- 9d: 递归浏览 (depth=2) ---";;
  rec ← on_client (browseRecursive svc root 2); say_all (class_line <$> bs_references rec);;
  say "--- 9e: 用 proto 自定义 Browse ---";;
  resp ← on_client (browse svc (mkBrowseRequest root 20 2));
  say_all ((λ r, "  ProtoBrowse: " +:+ rf_display_name r) <$> bs_references resp)).

(** The callback, number 10, prints its notification, whose timestamp is never
    set.  [arrivals] is what the library reports during the ten seconds' sleep. *)
Definition notification_line (n : Notification) : string :=
  let v := nt_value n in
  "[Sub] mon_id=" +:+ pretty (nt_item n) +:+ " value=" +:+
    (if is_type DFLOAT v then float_text (float_val v) else if is_type DDOUBLE v then double_text (double_val v)
     else if is_type DINT32 v then pretty (int32_val v) else "") +:+ " ts=0".
Definition deliver (arrival : Z * UA_DataValue) : Script unit :=
  s ← get;
  on_client (dataChangeHandler arrival.1 arrival.2);;
  s' ← get;
  say_all ((λ e, notification_line e.2) <$> drop (length (notified (client s))) (notified (client s'))).
Definition scenario_subscription (arrivals : list (Z * UA_DataValue)) : Script unit := scenario "10: 订阅 PLC 数据变化" (
  resp ← on_client (subscribe svc (mkSubscribeRequest (id0 3001) 100 10 true) 10);
  (if good (ss_status resp)
   then say ("Subscribed: sub_id=" +:+ pretty (ss_subscription resp) +:+ " mon_id=" +:+ pretty (ss_item resp)) else mret tt);;
  for_each deliver arrivals;;
  on_client (unsubscribe svc (ss_subscription resp) (ss_item resp));;
  say "Unsubscribed").

(** 1500.5f by its bits. *)
Definition scenario_method_call : Script unit := scenario "11: 调用 PLC 方法" (
  r1 ← on_client (callMethod svc (mkCallMethodRequest (id0 5001) (id0 5002) []));
  say ("Method call (no args): " +:+ ok_text (good (cs_status r1)));;
  r2 ← on_client (callMethod svc (mkCallMethodRequest (id0 5001) (id0 5003) [scalar_value DFLOAT (FloatVal 0x44BB9000)]));
  match good (cs_status r2), cs_args r2 with
  | true, a :: _ => say ("SetSpeed(1500.5) returned: " +:+ bool_text (bool_val a))
  | _, _ => mret tt
  end).

(** [timestamps(i)] is defined for the indices of the values, which are as many
    at most. *)
Definition scenario_history_read (now : Z) : Script unit := scenario "12: 读取历史数据" (
  let one_hour_ago := uwrap 64 (now - 3600 * 1000 * 10000) in
  resp ← on_client (historyReadRaw svc (mkHistoryReadRequest (id0 4001) one_hour_ago now 100));
  if good (hs_status resp) then
    say ("History data points: " +:+ pretty (length (hs_values resp)));;
    say_all (indexed (λ i v,
      "  [" +:+ pretty i +:+ "] val=" +:+
        (if is_type DFLOAT v then float_text (float_val v) else if is_type DDOUBLE v then double_text (double_val v) else "") +:+
        " ts=" +:+ pretty (default 0 (hs_timestamps resp !! i))%Z) (hs_values resp))
  else mret tt).

(** 1200.0f by its bits. *)
Definition program_node (name : string) : NodeId := stringNodeId 3 ("::Program:MainProgram." +:+ name).
Definition scenario_string_nodeid : Script unit := scenario "13: 字符串 NodeId 访问" (
  temp ← on_client (readFloat svc (program_node "Temperature"));
  press ← on_client (readFloat svc (program_node "Pressure"));
  speed ← on_client (readFloat svc (program_node "MotorSpeed"));
  say_all ["Temperature: " +:+ float_text temp +:+ " C"; "Pressure: " +:+ float_text press +:+ " bar";
           "MotorSpeed: " +:+ float_text speed +:+ " rpm"];;
  _ ← on_client (writeFloat svc (program_node "MotorSpeed") 0x44960000);
  say "MotorSpeed set to 1200").

Definition scenario_write_attribute : Script unit := scenario "14: 写入属性" (
  st ← on_client (write svc (mkWriteRequest (id0 1002) (scalar_value DSTRING (StringVal "Engine RPM value")) 15));
  say ("Write Description: " +:+ ok_text (good st))).

Definition byte_values (s : string) : list Z := (λ c, Z.of_N (N_of_ascii c)) <$> String.list_ascii_of_string s.
Definition four_bytes : string := String.string_of_list_ascii (ascii_of_nat <$> [1; 2; 3; 4]).
Definition scenario_raw_bytes : Script unit := scenario "15: 原始字节读写" (
  resp ← on_client (readValue svc (id0 6001));
  (if is_type DBYTESTRING (rs_value resp) then
     let raw := byte_values (bytes_val (rs_value resp)) in
     say ("Raw bytes (" +:+ pretty (length raw) +:+ "): " +:+ String.concat "" ((λ c, hex c +:+ " ") <$> raw));;
     say ("Status flags (lower nibble): " +:+ pretty (Z.land (default 0%Z (head raw)) 0x0F))
   else mret tt);;
  _ ← on_client (write svc (mkWriteRequest (id0 6001) (scalar_value DBYTESTRING (BytesVal four_bytes)) 0));
  mret tt).

Definition scenario_structured_types : Script unit := scenario "16: 结构化类型" (
  resp ← on_client (read svc (mkReadRequest (id0 7001) 0 false));
  (if good (rs_status resp)
   then say ("Read type=" +:+ type_text (rs_value resp) +:+ " string_val=" +:+ string_val (rs_value resp)) else mret tt);;
  _ ← on_client (write svc (mkWriteRequest (id0 7001) (scalar_value DLOCALIZEDTEXT (StringVal "en_US:Temperature Sensor")) 0));
  mret tt).

(** Protobuf, outside the repository: an [OPCUARequest] and an [OPCUAResponse] that hold at most a read,
    and a [BatchReadResponse]; of the bytes only their number is looked at; an
    input that does not parse is [None]. *)
Context {Wire : Type} (size : Wire → nat).
Context (ser_request : Z * option ReadRequest → Wire) (parse_request : Wire → option (Z * option ReadRequest)).
Context (ser_response : Z * option ReadResponse → Wire).
Context (ser_batch : list ReadResponse → Wire) (parse_batch : Wire → option (list ReadResponse)).
Definition new_ReadResponse : ReadResponse := mkReadResponse 0 new_VariantValue 0 0.
Definition scenario_unified_message : Script unit := scenario "17: 统一消息封装" (
  let wire_bytes := ser_request (1%Z, Some (value_request 1002)) in
  say ("Serialized OPCUARequest: " +:+ pretty (size wire_bytes) +:+ " bytes");;
  let parsed := default (0%Z, None) (parse_request wire_bytes) in
  answer ← match parsed.2 with Some rq => r ← on_client (read svc rq); mret (Some r) | None => mret None end;
  let resp_bytes := ser_response (parsed.1, answer) in
  say ("Response serialized: " +:+ pretty (size resp_bytes) +:+ " bytes");;
  let r := default new_ReadResponse answer in
  if good (rs_status r) then say ("Read value: " +:+ pretty (int32_val (rs_value r))) else mret tt).

Definition scenario_secure_connection : Script unit :=
  say (newline +:+ "=== 场景 18: 安全连接 (示意) ===");;
  ok ← connect_; if (ok : bool) then say "Secure connection established" else mret tt.

Definition poll_list : list (string * Z * DataTypeId) :=
  [("Temperature", 1005%Z, DFLOAT); ("Pressure", 1006%Z, DFLOAT); ("MotorSpeed", 1002%Z, DINT32); ("IsRunning", 1001%Z, DBOOL);
   ("AlarmCode", 1003%Z, DINT64)].
Definition poll_text (t : DataTypeId) (v : VariantValue) : string :=
  match t with
  | DBOOL => bool_text (bool_val v) | DINT32 => pretty (int32_val v) | DINT64 => pretty (int64_val v)
  | DFLOAT => float_text (float_val v) | _ => "(type " +:+ type_text v +:+ ")"
  end.
Definition scenario_polling_from_config : Script unit := scenario "19: 配表驱动轮询" (
  rs ← on_client (batchRead svc ((λ cfg, mkReadRequest (id0 cfg.1.2) 0 false) <$> poll_list));
  say_all (zip_with (λ cfg r, cfg.1.1 +:+ " = " +:+ poll_text cfg.2 (rs_value r)) poll_list rs)).

(** A second client in the same function; it ends before the first. *)
Definition bad_connect : Script (bool * Handle) := λ s,
  let '(r, c) := connect svc 3000 (new_OPCUAClient "opc.tcp://192.168.1.200:4840" (net (client s))) in
  (ok ← r; Ret (ok, client_ c), mkSession (set_net (net c) (client s)) (lines s)).
Definition end_handle (h : Handle) (c : Client) : Client :=
  match h with Null => c | Created _ => set_net (svc_disconnect svc (net c)) c end.
Fixpoint reconnect (tries : nat) (retry : Z) : Script unit :=
  match tries with
  | 0 => mret tt
  | S tries' =>
      ok ← connect_;
      if (ok : bool) then say ("  第 " +:+ pretty (retry + 1)%Z +:+ " 次重连成功") else reconnect tries' (retry + 1)
  end.
Definition error_checks : Script unit :=
  resp ← on_client (readValue svc (id0 99999));
  (if good (rs_status resp) then mret tt else say ("场景 20b: 读不存在的节点, 错误码=" +:+ pretty (rs_status resp)));;
  wrote ← on_client (writeBool svc (id0 1001) false);
  (if (wrote : bool) then mret tt else say "场景 20c: 写入只读节点失败 (预期行为)");;
  resp ← on_client (readValue svc (id0 1005));
  (if is_type DFLOAT (rs_value resp)
   then say ("场景 20d: 读取 float 节点, 类型=" +:+ type_text (rs_value resp) +:+ " 值=" +:+ float_text (float_val (rs_value resp)))
   else mret tt).
Definition error_cases : Script unit :=
  error_checks;;
  s ← get;
  if isConnected (client s) then mret tt else say "场景 20e: 尝试重连...";; reconnect 3 0.
Definition scenario_error_handling : Script unit :=
  say (newline +:+ "=== 场景 20: 异常/故障处理 ===");;
  bad ← bad_connect;
  (if (bad.1 : bool) then mret tt else say "场景 20a: 连接失败已捕获 (预期行为)");;
  ok ← connect_;
  (if (ok : bool) then error_cases else mret tt);;
  modify (λ s, mkSession (end_handle bad.2 (client s)) (lines s)).

Definition scenario_proto_wire_transport : Script unit := scenario "21: protobuf 序列化转发" (
  rs ← on_client (batchRead svc ((λ i, value_request (1001 + Z.of_nat i)) <$> seq 0 10));
  let pb_data := ser_batch rs in
  say ("Serialized batch response: " +:+ pretty (size pb_data) +:+ " bytes");;
  match parse_batch pb_data with
  | Some received =>
      say ("Deserialized " +:+ pretty (length received) +:+ " values");;
      say_all (indexed (λ i r, "  val[" +:+ pretty i +:+ "] type=" +:+ type_text (rs_value r)) received)
  | None => mret tt
  end).

Definition scenario_large_integer : Script unit := scenario "22: 大整数读写" (
  flow ← on_client (readUInt32 svc (id0 8001));
  say ("Total flow: " +:+ pretty (flow : Z));;
  _ ← on_client (write svc (mkWriteRequest (id0 8002) (scalar_value DUINT64 (Uint64Val 9876543210)) 0));
  say "Serial number written";;
  counter ← on_client (readInt64 svc (id0 8003));
  say ("Signed counter: " +:+ pretty (counter : Z))).

(** The [has_] tests of the [oneof]. *)
Definition oneof_text (v : VariantValue) : string :=
  match vv_value v with
  | Int32Val z => pretty z | FloatVal z => float_text z | BoolVal b => bool_text b | StringVal s => s | _ => ""
  end.
Definition scenario_browse_and_read : Script unit := scenario "23: 浏览 + 读取组合" (
  vars ← on_client (browseVariables svc (id0 85));
  for_each (λ r,
    val ← on_client (readValue svc (rf_node r));
    if good (rs_status val) then say (rf_display_name r +:+ " = " +:+ oneof_text (rs_value val)) else mret tt) vars).

(** In [uint64_t]. *)
Definition unix_seconds (dt : Z) : Z := uwrap 64 (dt / 10000000 - 11644473600).
Definition scenario_datetime : Script unit := scenario "24: DateTime 读写" (
  resp ← on_client (readValue svc (id0 9001));
  if is_type DDATETIME (rs_value resp) then
    let dt_raw := datetime_val (rs_value resp) in
    say ("DateTime (raw): " +:+ pretty dt_raw +:+ " (unix): " +:+ pretty (unix_seconds dt_raw))
  else mret tt).

Definition status_text (code : Z) (v : VariantValue) : string :=
  if good code then "Good: " +:+ pretty (int32_val v)
  else if (code =? 0x80000000)%Z then "Bad Unexpected Error"
  else if (code =? 0x803C0000)%Z then "Bad NodeId Unknown"
  else if (code =? 0x80410000)%Z then "Bad AttributeId Invalid"
  else if (code =? 0x804B0000)%Z then "Bad User Access Denied"
  else if (code =? 0x805A0000)%Z then "Bad Not Readable"
  else if (code =? 0x805B0000)%Z then "Bad Not Writable"
  else if (code =? 0x80730000)%Z then "Bad Type Mismatch"
  else if (code =? 0x807A0000)%Z then "Bad Timeout"
  else "Error code: 0x" +:+ hex code.
Definition scenario_status_code_detail : Script unit := scenario "25: 状态码解析" (
  resp ← on_client (readValue svc (id0 1002));
  say (status_text (rs_status resp) (rs_value resp))).

(** ** [main]: each function makes its client, and its end disconnects it *)
Record Console := mkConsole { other_side : W; shown : list string }.
Definition with_client (body : Script unit) : M Console unit := λ c,
  let '(r, s) := body (mkSession (new_OPCUAClient PLC_ENDPOINT (other_side c)) (shown c)) in
  match r with
  | Ret _ => (Ret tt, mkConsole (net (end_handle (client_ (client s)) (client s))) (lines s))
  | _ => (r, mkConsole (net (client s)) (lines s))
  end.
Definition all_scenarios (now : Z) : list (Script unit) := [
  scenario_connect_disconnect; scenario_read_scalar_types; scenario_read_array_types; scenario_read_attributes;
  scenario_write_scalar_types; scenario_write_array_types; scenario_batch_read; scenario_batch_write; scenario_browse;
  scenario_method_call; scenario_history_read now; scenario_string_nodeid; scenario_write_attribute; scenario_raw_bytes;
  scenario_structured_types; scenario_unified_message; scenario_secure_connection; scenario_polling_from_config;
  scenario_error_handling; scenario_proto_wire_transport; scenario_large_integer; scenario_browse_and_read;
  scenario_datetime; scenario_status_code_detail].
Definition main (now : Z) : M Console unit :=
  for_each with_client (all_scenarios now);;
  modify (λ c, mkConsole (other_side c) (shown c ++ [newline +:+ "所有场景演示完毕."])).

(** ** What the scripts do *)
Lemma on_client_run {A} (m : M Client A) s : on_client m s = ((m (client s)).1, mkSession (m (client s)).2 (lines s)).
Proof. unfold on_client. by destruct (m (client s)). Qed.
Lemma say_run l s : say l s = (Ret tt, mkSession (client s) (lines s ++ [l])).
Proof. done. Qed.

(** *** Types a read answers with *)
Definition answered (t : DataTypeId) : bool :=
  match t with DBYTESTRING | DNODEID | DVARIANT | DLOCALIZEDTEXT | DQUALIFIEDNAME | DSTRUCTURED => false | _ => true end.
Lemma variantToProto_type v x : variantToProto v = Ret x → answered (vv_type x) = true.
Proof. destruct v as [t|b y|b [|y ys]|]; intros H; simplify_eq/=; try done; by destruct b. Qed.
Lemma read_type req c x c' : read svc req c = (Ret x, c') → answered (vv_type (rs_value x)) = true.
Proof.
  unfold read. intros H. apply M_bind_inv in H as ([st rs] & c1 & _ & H).
  destruct (bool_decide (st = 0%Z)), rs as [|r rs]; try (by injection H as <- _).
  apply M_bind_inv in H as (v & c2 & Hv & H).
  assert (vv_type v = vv_type (rs_value x)) as <- by (destruct (rq_include_timestamp req); by injection H as <- _).
  destruct (has_type (dv_value r)); [|by injection Hv as <- _].
  apply (variantToProto_type (dv_value r)). unfold lift_outcome in Hv. by injection Hv.
Qed.

(** *** The handle *)
Abbreviation holds h := (preserves (λ c : Client, client_ c = h)).
Lemma call_holds {A} (f : W → A * W) h : holds h (call f).
Proof.
  intros c Hc. unfold call. rewrite M_bind_get. destruct (client_ c) eqn:E; [simpl; congruence|].
  destruct (f (net c)). simpl. congruence.
Qed.
Lemma read_holds req h : holds h (read svc req).
Proof.
  unfold read. apply pres_bind; [apply call_holds|]. intros [st rs].
  destruct (bool_decide _), rs as [|r rs]; try apply pres_ret.
  apply pres_bind; [|intros; destruct (rq_include_timestamp req); apply pres_ret].
  destruct (has_type _); [apply pres_lift|apply pres_ret].
Qed.
Lemma write_holds n v h : holds h (write_value svc n v).
Proof.
  unfold write_value, writeAttribute. apply pres_bind; [|intros; apply pres_ret].
  apply pres_bind; [apply call_holds|]. intros []. apply pres_ret.
Qed.
Abbreviation keeps h := (preserves (λ s : Session, client_ (client s) = h)).
Lemma on_client_keeps {A} (m : M Client A) h : holds h m → keeps h (on_client m).
Proof. intros Hm s Hs. rewrite on_client_run. by apply Hm. Qed.
Lemma say_keeps l h : keeps h (say l).
Proof. by intros s Hs. Qed.
Lemma error_checks_keeps h : keeps h error_checks.
Proof.
  unfold error_checks, readValue, writeBool.
  repeat (apply pres_bind; [|intros ?]); try (apply on_client_keeps); auto using read_holds, write_holds.
  all: repeat case_match; first [apply pres_ret | apply say_keeps].
Qed.

(** *** What never happens *)
(** No read is answered with bytes, so the raw bytes are never shown, and those
    the script writes are sent as no value at all; a client that is connected
    stays so through the calls, so the script never reconnects. *)
Theorem scenario_dead_branches :
  (∀ s s', scenario_raw_bytes s = (Ret tt, s') → lines s' = lines s ++ [newline +:+ "=== 场景 15: 原始字节读写 ==="]) ∧
  protoToVariant (scalar_value DBYTESTRING (BytesVal four_bytes)) = None ∧
  (∀ s, isConnected (client s) = true → error_cases s = error_checks s).
Proof.
  split_and!; [|done|].
  - intros s s' H. unfold scenario_raw_bytes, scenario in H. rewrite (M_bind_ret _ _ _ _ _ (say_run _ s)) in H.
    apply M_bind_inv in H as (ok & s1 & H1 & H). unfold connect_ in H1. rewrite on_client_run in H1. injection H1 as _ <-.
    destruct ok; [|by injection H as <-].
    apply M_bind_inv in H as (resp & s2 & H2 & H). rewrite on_client_run in H2. cbn [client lines] in H2.
    destruct (readValue svc (id0 6001) _) as [o c2] eqn:E. simpl in H2. injection H2 as -> <-.
    apply read_type in E. unfold is_type in H.
    rewrite bool_decide_eq_false_2 in H by (intros Ht; by rewrite Ht in E).
    rewrite M_ret_bind in H. apply M_bind_inv in H as (st & s3 & H3 & H). rewrite on_client_run in H3. injection H3 as _ <-.
    by injection H as <-.
  - intros s Hs. unfold error_cases. pose proof (error_checks_keeps (client_ (client s)) s eq_refl) as Hk.
    destruct (error_checks s) as [[[]|e|] s1] eqn:E; [|unfold mbind, M_bind; by rewrite E..].
    assert (isConnected (client s1) = true) as H1 by (unfold isConnected in *; simpl in Hk; by rewrite Hk).
    rewrite (M_bind_ret _ _ _ _ _ E), M_bind_get. by rewrite H1.
Qed.

(** *** Serialization *)
Lemma collect_length {A B} (f : A → M Client B) xs : ∀ c ys c', collect f xs c = (Ret ys, c') → length ys = length xs.
Proof.
  induction xs as [|x xs IH]; intros c ys c' H; [by injection H as <- _|]. cbn [collect] in H.
  apply M_bind_inv in H as (y & c1 & _ & H). apply M_bind_inv in H as (ys' & c2 & H2 & H).
  injection H as <- _. simpl. by rewrite (IH _ _ _ H2).
Qed.
(** Ten values go over the wire and come back, when protobuf reads what it wrote. *)
Theorem wire_transport_roundtrip (Hser : ∀ rs, parse_batch (ser_batch rs) = Some rs) s s' :
  scenario_proto_wire_transport s = (Ret tt, s') →
  let title := newline +:+ "=== 场景 21: protobuf 序列化转发 ===" in
  lines s' = lines s ++ [title] ∨
  ∃ rs, length rs = 10 ∧
    lines s' = lines s ++ [title; "Serialized batch response: " +:+ pretty (size (ser_batch rs)) +:+ " bytes";
                           "Deserialized 10 values"] ++
               imap (λ i r, "  val[" +:+ pretty i +:+ "] type=" +:+ type_text (rs_value r)) rs.
Proof.
  intros H title. unfold scenario_proto_wire_transport, scenario in H. rewrite (M_bind_ret _ _ _ _ _ (say_run _ s)) in H.
  apply M_bind_inv in H as (ok & s1 & H1 & H). unfold connect_ in H1. rewrite on_client_run in H1. injection H1 as _ <-.
  destruct ok; [right|left; by injection H as <-].
  apply M_bind_inv in H as (rs & s2 & H2 & H). rewrite on_client_run in H2. cbn [client lines] in H2.
  destruct (batchRead svc _ _) as [o c2] eqn:E. simpl in H2. injection H2 as -> <-.
  apply collect_length in E. exists rs. split; [exact E|].
  rewrite (M_bind_ret _ _ _ _ _ (say_run _ _)), Hser, (M_bind_ret _ _ _ _ _ (say_run _ _)) in H. injection H as <-.
  cbn [lines client]. rewrite E, <- !app_assoc. done.
Qed.

(** *** Without a connection *)
Section offline.
Context (refused : ∀ url w, ∃ st w', svc_connect svc url w = (st, w') ∧ st ≠ 0%Z).
Lemma connect_refused t c : ∃ c', connect svc t c = (Ret false, c') ∧ client_ c' = Null.
Proof.
  unfold connect. rewrite M_bind_modify. destruct (svc_new svc); [|by eexists]. cbn [negb]. rewrite M_bind_get.
  cbn [endpoint_url_ net set_client]. destruct (refused (endpoint_url_ c) (net c)) as (st & w' & -> & Hst).
  rewrite M_bind_modify, bool_decide_eq_false_2 by done. by eexists.
Qed.
(** A script that shows [ls] when it cannot connect. *)
Definition shows_offline (ls : list string) (body : Script unit) : Prop :=
  ∀ s, ∃ c', body s = (Ret tt, mkSession c' (lines s ++ ls)) ∧ client_ c' = Null.
Lemma scenario_offline title body : shows_offline [newline +:+ "=== 场景 " +:+ title +:+ " ==="] (scenario title body).
Proof.
  intros s. unfold scenario. rewrite (M_bind_ret _ _ _ _ _ (say_run _ s)). unfold connect_.
  set (s1 := mkSession _ _). destruct (connect_refused 10000 (client s1)) as (c' & E & Hc).
  assert (on_client (connect svc 10000) s1 = (Ret false, mkSession c' (lines s1))) as E1 by (by rewrite on_client_run, E).
  rewrite (M_bind_ret _ _ _ _ _ E1). by exists c'.
Qed.
Lemma connect_refused_run t s : ∃ c', on_client (connect svc t) s = (Ret false, mkSession c' (lines s)) ∧ client_ c' = Null.
Proof. destruct (connect_refused t (client s)) as (c' & E & Hc). exists c'. by rewrite on_client_run, E. Qed.
Lemma connect_disconnect_offline :
  shows_offline [newline +:+ "=== 场景 1: 连接/断开 PLC ==="; "PLC 连接失败"] scenario_connect_disconnect.
Proof.
  intros s. unfold scenario_connect_disconnect. rewrite (M_bind_ret _ _ _ _ _ (say_run _ s)).
  destruct (connect_refused_run 5000 (mkSession (client s) (lines s ++ [newline +:+ "=== 场景 1: 连接/断开 PLC ==="]))) as (c' & E & Hc).
  rewrite (M_bind_ret _ _ _ _ _ E). exists c'. rewrite say_run. cbn [client lines]. by rewrite <- app_assoc.
Qed.
Lemma secure_connection_offline : shows_offline [newline +:+ "=== 场景 18: 安全连接 (示意) ==="] scenario_secure_connection.
Proof.
  intros s. unfold scenario_secure_connection. rewrite (M_bind_ret _ _ _ _ _ (say_run _ s)).
  destruct (connect_refused_run 10000 (mkSession (client s) (lines s ++ [newline +:+ "=== 场景 18: 安全连接 (示意) ==="]))) as (c' & E & Hc).
  rewrite (M_bind_ret _ _ _ _ _ E). by exists c'.
Qed.
Lemma error_handling_offline :
  shows_offline [newline +:+ "=== 场景 20: 异常/故障处理 ==="; "场景 20a: 连接失败已捕获 (预期行为)"] scenario_error_handling.
Proof.
  intros s. unfold scenario_error_handling. rewrite (M_bind_ret _ _ _ _ _ (say_run _ s)).
  set (s1 := mkSession _ _).
  destruct (connect_refused 3000 (new_OPCUAClient "opc.tcp://192.168.1.200:4840" (net (client s1)))) as (c1 & E1 & Hc1).
  assert (bad_connect s1 = (Ret (false, Null), mkSession (set_net (net c1) (client s1)) (lines s1))) as E by (unfold bad_connect; rewrite E1; by rewrite Hc1).
  rewrite (M_bind_ret _ _ _ _ _ E). cbn [fst]. rewrite (M_bind_ret _ _ _ _ _ (say_run _ _)). set (s2 := mkSession _ _).
  destruct (connect_refused_run 10000 s2) as (c2 & E2 & Hc2). unfold connect_. rewrite (M_bind_ret _ _ _ _ _ E2), M_ret_bind.
  exists c2. unfold modify. cbn [client lines snd end_handle]. unfold s2, s1. cbn [lines]. rewrite <- app_assoc. done.
Qed.
Lemma with_client_offline ls body c : shows_offline ls body → ∃ w', with_client body c = (Ret tt, mkConsole w' (shown c ++ ls)).
Proof.
  intros Hb. destruct (Hb (mkSession (new_OPCUAClient PLC_ENDPOINT (other_side c)) (shown c))) as (c' & E & Hc).
  unfold with_client. rewrite E. by eexists.
Qed.
Lemma for_each_offline lss bodies : Forall2 shows_offline lss bodies →
  ∀ c, ∃ w', for_each with_client bodies c = (Ret tt, mkConsole w' (shown c ++ concat lss)).
Proof.
  induction 1 as [|ls body lss bodies Hb _ IH]; intros c.
  - exists (other_side c). simpl. rewrite app_nil_r. by destruct c.
  - destruct (with_client_offline ls body c Hb) as [w E]. cbn [for_each]. rewrite (M_bind_ret _ _ _ _ _ E).
    destruct (IH (mkConsole w (shown c ++ ls))) as [w' ->]. exists w'. cbn [shown concat]. by rewrite app_assoc.
Qed.
Definition title_line (t : string) : list string := [newline +:+ "=== 场景 " +:+ t +:+ " ==="].
Definition offline_output : list (list string) :=
  [[newline +:+ "=== 场景 1: 连接/断开 PLC ==="; "PLC 连接失败"]] ++
  (title_line <$> ["2: 读取标量值"; "3: 读取数组值"; "4: 读取节点属性"; "5: 写入标量值"; "6: 写入数组值"; "7: 批量读取"; "8: 批量写入";
     "9: 浏览 PLC 地址空间"; "11: 调用 PLC 方法"; "12: 读取历史数据"; "13: 字符串 NodeId 访问"; "14: 写入属性"; "15: 原始字节读写";
     "16: 结构化类型"; "17: 统一消息封装"; "18: 安全连接 (示意)"; "19: 配表驱动轮询"]) ++
  [[newline +:+ "=== 场景 20: 异常/故障处理 ==="; "场景 20a: 连接失败已捕获 (预期行为)"]] ++
  (title_line <$> ["21: protobuf 序列化转发"; "22: 大整数读写"; "23: 浏览 + 读取组合"; "24: DateTime 读写"; "25: 状态码解析"]).

(** With no server the program runs to its end, whatever the other services
    would do: it shows the titles and the two failures. *)
Theorem offline_run now c :
  ∃ w', main now c = (Ret tt, mkConsole w' (shown c ++ concat offline_output ++ [newline +:+ "所有场景演示完毕."])).
Proof.
  assert (Forall2 shows_offline offline_output (all_scenarios now)) as H.
  { unfold offline_output, all_scenarios. cbn [fmap list_fmap app title_line].
    constructor; [apply connect_disconnect_offline|].
    repeat (constructor; [first [apply scenario_offline | apply secure_connection_offline | apply error_handling_offline]|]).
    constructor. }
  destruct (for_each_offline _ _ H c) as [w E]. unfold main. rewrite (M_bind_ret _ _ _ _ _ E). exists w. unfold modify.
  cbn [shown other_side]. by rewrite <- app_assoc.
Qed.
End offline.
End scenarios.

(** ** Runs *)
(** No server: the connection is refused. *)
Definition no_server : Services unit := {|
  svc_new := true; svc_connect _ w := (0x80AC0000%Z, w); svc_disconnect w := w;
  svc_read _ _ w := ((0%Z, []), w); svc_write _ _ _ w := ((0%Z, []), w); svc_browse _ w := ((0%Z, []), w);
  svc_subscribe w := ((0%Z, 1%Z), w); svc_monitor _ _ w := ((0%Z, 1%Z), w); svc_unmonitor _ _ w := w;
  svc_call _ _ _ w := ((0%Z, []), w); svc_history _ _ _ _ w := ((0%Z, []), w)
|}.
(** A server that keeps the value last written, whatever the node; its history
    has a value, a gap and a value. *)
Definition one_value (v : option UA_Variant) : UA_DataValue :=
  mkDataValue 0 (default (VNull false) v) true 7 8.
Definition one_cell : Services (option UA_Variant) := {|
  svc_new := true; svc_connect _ w := (0%Z, w); svc_disconnect w := w;
  svc_read _ _ w := ((0%Z, [one_value w]), w); svc_write _ _ v _ := ((0%Z, [0%Z]), v); svc_browse p w := ((0%Z, loop_refs p), w);
  svc_subscribe w := ((0%Z, 1%Z), w); svc_monitor _ _ w := ((0%Z, 5%Z), w); svc_unmonitor _ _ w := w;
  svc_call _ _ _ w := ((0%Z, [(0%Z, [VScalar BBoolean true])]), w);
  svc_history _ _ _ _ w := ((0%Z, [(0%Z, [one_value (Some (VScalar BFloat 0x3FC00000%Z)); mkDataValue 0 (VNull false) false 0 9;
                                          mkDataValue 0 (VScalar BFloat 0x40000000%Z) true 0 10])]), w)
|}.
Definition show {W} (svc : Services W) (w : W) (body : M (@Session W) unit) : list string :=
  shown (with_client svc body (mkConsole w [])).2.
Example write_then_read : show one_cell None (scenario_write_scalar_types one_cell) =
  [newline +:+ "=== 场景 5: 写入标量值 ==="; "Write Bool:   OK"; "Write Int32:  OK"; "Write Float:  OK"; "Write String: OK";
   "Verify read after write: 0 (expect 42)"; "Write via proto: OK"].
Proof. by_compute. Qed.
(** The timestamp of the gap goes to the second value. *)
Example history_shifted : show one_cell None (scenario_history_read one_cell 0) =
  [newline +:+ "=== 场景 12: 读取历史数据 ==="; "History data points: 2"; "  [0] val=1.5 ts=8"; "  [1] val=2 ts=9"].
Proof. by_compute. Qed.
Example subscription_prints :
  show one_cell None (scenario_subscription one_cell [(5%Z, one_value (Some (VScalar BInt32 3%Z))); (6%Z, one_value None)]) =
  [newline +:+ "=== 场景 10: 订阅 PLC 数据变化 ==="; "Subscribed: sub_id=1 mon_id=5"; "[Sub] mon_id=5 value=3 ts=0"; "Unsubscribed"].
Proof. by_compute. Qed.
(** A date before 1970 wraps around. *)
Example datetime_cases :
  show one_cell (Some (VScalar BDateTime 133485408000000000%Z)) (scenario_datetime one_cell) =
    [newline +:+ "=== 场景 24: DateTime 读写 ==="; "DateTime (raw): 133485408000000000 (unix): 1704067200"] ∧
  unix_seconds 0 = 18446744062065078016%Z.
Proof. by_compute. Qed.
Example status_texts : (λ c, status_text c new_VariantValue) <$> [0; 0x803C0000; 0x80350000]%Z =
  ["Good: 0"; "Bad NodeId Unknown"; "Error code: 0x80350000"].
Proof. by_compute. Qed.

Lemma offline_run_witness : ∃ w',
  main no_server (λ _ : unit, 0) (λ _, tt) (λ _, None) (λ _, tt) (λ _, tt) (λ _, None) 0 (mkConsole tt []) =
    (Ret tt, mkConsole w' ([] ++ concat offline_output ++ [newline +:+ "所有场景演示完毕."])).
Proof. apply offline_run. intros url w. by exists 0x80AC0000%Z, w. Defined.
Lemma scenario_dead_branches_witness :
  let s := mkSession (connect one_cell 10000 (new_OPCUAClient PLC_ENDPOINT None)).2 [] in
  isConnected (client s) = true ∧ error_cases one_cell s = error_checks one_cell s.
Proof.
  intros s. split; [by vm_compute|]. apply (proj2 (proj2 (scenario_dead_branches one_cell))). by vm_compute.
Defined.
Lemma wire_transport_roundtrip_witness :
  let size := length (A := ReadResponse) in
  let s := mkSession (new_OPCUAClient PLC_ENDPOINT (Some (VScalar BBoolean true))) [] in
  let s' := (scenario_proto_wire_transport one_cell size id Some s).2 in
  lines s' = [newline +:+ "=== 场景 21: protobuf 序列化转发 ==="] ∨ ∃ rs : list ReadResponse, length rs = 10 ∧ length (lines s') = 13.
Proof.
  intros size s s'.
  assert (scenario_proto_wire_transport one_cell size id Some s = (Ret tt, s')) as E by (by vm_compute).
  destruct (wire_transport_roundtrip one_cell size id Some (λ rs, eq_refl) s s' E) as [H|(rs & Hl & H)]; [by left|right].
  exists rs. split; [done|]. rewrite H. cbn [lines s]. rewrite !length_app, length_imap, Hl. done.
Defined.
