(* ===== verification/DataTypeDemo.v ===== *)
(** * The data type tour of [proto_opcua/ex/data_type_demo.cpp]

    The state is the lines printed, each without its end.  open62541 is outside
    the repository: the clock and its calendar, the names of its types, what
    clearing a text made of literals does, and what printing the characters of an
    allocated string shows are parameters; so is the size of protobuf's bytes. *)
From Stdlib Require Import Ascii Floats.SpecFloat.
From S2P Require Import Prelude FloatText OpcuaClient Scenarios.
Local Open Scope prog_scope.

Abbreviation Demo := (M (list string)).
Definition print (ls : list string) : Demo unit := modify (λ out, out ++ ls).
Definition section_title (t : string) : string := newline +:+ "========== " +:+ t +:+ " ==========".

Record DateTimeStruct := mkDateTime { year : Z; month : Z; day : Z; hour : Z; min : Z; sec : Z }.
(** What the program uses of open62541 and protobuf. *)
Record Library := mkLibrary {
  UA_DateTime_now : Z;
  UA_DateTime_toStruct : Z → DateTimeStruct;
  typeName : Builtin → string;
  UA_clear_literal : string → outcome unit;   (* [UA_..._clear] of a member made by [UA_STRING_STATIC] *)
  UA_alloc_text : string → outcome string;    (* [<<] of the data of a [UA_STRING_ALLOC] *)
  wire_size : list ReadResponse → nat;
  reparse : list ReadResponse → option (list ReadResponse)
}.

Section demos.
Context (lib : Library).

Definition demo_builtin_scalar_types : Demo unit := print [
  section_title "Built-in 标量类型";
  "标量类型: Bool, Int8/16/32/64, UInt8/16/32/64, Float, Double, String";
  "          每个类型有对应的 protobuf field 用于序列化"].
Definition demo_array_types : Demo unit := print [
  section_title "数组类型"; "数组类型: 通过 repeated field 在 protobuf 中传输";
  "          Float[] → float_array, Double[] → double_array,"; "          Int32[] → int32_array,  Bool[]  → bool_array"].
Definition demo_datetime_type : Demo unit :=
  let now := UA_DateTime_now lib in
  let dts := UA_DateTime_toStruct lib now in
  print [
    section_title "DateTime"; "当前 UA_DateTime: " +:+ pretty now;
    "分解时间: " +:+ pretty (year dts) +:+ "-" +:+ pretty (month dts) +:+ "-" +:+ pretty (day dts) +:+ " " +:+
      pretty (hour dts) +:+ ":" +:+ pretty (min dts) +:+ ":" +:+ pretty (sec dts);
    "Unix timestamp: " +:+ pretty (unix_seconds (uwrap 64 now)); "protobuf field: datetime_val (uint64)"].

(** [locale] and [text] are literals; clearing the object clears both. *)
Definition quote : string := String (Ascii.ascii_of_nat 34) "".
Definition quoted (s : string) : string := quote +:+ s +:+ quote.
Definition demo_localized_text : Demo unit :=
  let locale := "zh_CN" in let text := "电机转速" in
  print [section_title "LocalizedText"; "LocalizedText: locale=" +:+ quoted locale +:+ " text=" +:+ quoted text];;
  lift_outcome (UA_clear_literal lib locale);; lift_outcome (UA_clear_literal lib text);;
  print ["protobuf: LOCALIZEDTEXT=21, string_val=" +:+ quoted "locale:text"].
Definition demo_qualified_name : Demo unit :=
  let namespaceIndex := 2%Z in let name := "MotorCurrent" in
  print [section_title "QualifiedName"; "QualifiedName: ns=" +:+ pretty namespaceIndex +:+ " name=" +:+ quoted name];;
  lift_outcome (UA_clear_literal lib name);;
  print ["protobuf: QUALIFIEDNAME=22, 专用 message 或 string " +:+ quoted "ns:name"].

Definition string_id (n : NodeId) : string := match id_case n with StringIdCase s => s | _ => "" end.
Definition demo_node_id_types : Demo unit :=
  let numeric_nid := numericNodeId 0 85 in let string_nid := stringNodeId 3 "::Program:Main.Temperature" in
  print [
    section_title "NodeId 四种形式";
    "数字型 NodeId: ns=" +:+ pretty (namespace_index numeric_nid) +:+ " id=" +:+ pretty (numeric_id numeric_nid);
    "字符串型 NodeId: ns=" +:+ pretty (namespace_index string_nid) +:+ " id=" +:+ quoted (string_id string_nid)].
Definition demo_variant_type : Demo unit := print [
  section_title "Variant"; "Variant 是 OPC UA 序列化的核心, 本项目的 protoToVariant /";
  "variantToProto 负责 open62541 ↔ protobuf 的双向转换"].

(** The dispatch on the type of a value. *)
Definition dispatch_text (v : VariantValue) : string :=
  match vv_type v with
  | DBOOL => "处理 BOOL: " +:+ bool_text (bool_val v)
  | DINT32 => "处理 INT32: " +:+ pretty (int32_val v)
  | DFLOAT => "处理 FLOAT: " +:+ float_text (float_val v)
  | DSTRING => "处理 STRING: " +:+ string_val v
  | _ => "未知类型: " +:+ type_text v
  end.
(** 25.5f by its bits. *)
Definition demo_enum_types : Demo unit := print [
  section_title "枚举类型"; "protobuf 枚举示例:"; "  DataTypeId::INT32 = " +:+ pretty (type_value DINT32);
  "  DataTypeId::FLOAT = " +:+ pretty (type_value DFLOAT); "  DataTypeId::STRING = " +:+ pretty (type_value DSTRING);
  dispatch_text (scalar_value DFLOAT (FloatVal 0x41CC0000))].
Definition demo_extension_object : Demo unit :=
  print [section_title "ExtensionObject"; "ExtensionObject 通过 BYTESTRING 或自定义 proto message 传输"].

Record StatusCode := mkStatusCode { code : Z; symbolic_name : string }.
Definition outcome_text (sc : StatusCode) : string :=
  if (code sc =? 0)%Z then "操作成功" else "操作失败: " +:+ symbolic_name sc +:+ " (0x" +:+ hex (code sc) +:+ ")".
Definition demo_status_code : Demo unit := print [
  section_title "StatusCode"; "StatusCode 在 protobuf 中:";
  "  message StatusCode { uint32 code; string symbolic_name; string description; }";
  outcome_text (mkStatusCode 0x803C0000 "BadNodeIdUnknown")].
Definition demo_data_quality : Demo unit := print [
  section_title "数据品质"; "ReadResponse protobuf 包含 status + value + 双时间戳"; "品质判断: status.code() == 0 → Good"].

(** A scalar's [arrayLength] is 0. *)
Definition arrayLength (v : UA_Variant) : nat := match v with VArray _ xs => length xs | _ => 0 end.
Definition type_of (v : UA_Variant) : option Builtin := match v with VScalar b _ | VArray b _ => Some b | _ => None end.
Definition demo_type_conversion : Demo unit :=
  let int_var := VScalar BInt32 42%Z in
  let float_var := VArray BFloat [0x3F8CCCCD; 0x400CCCCD; 0x40533333; 0x408CCCCD]%Z in
  print [
    section_title "UA_Variant ↔ protobuf VariantValue";
    "UA_Variant type: " +:+ typeName lib BInt32 +:+ " isArray: " +:+ bool_text (bool_decide (0 < arrayLength int_var));
    "UA_Variant Float[4]: typeName=" +:+ default "" (typeName lib <$> type_of float_var) +:+ " length=" +:+ pretty (arrayLength float_var)];;
  shown ← lift_outcome (UA_alloc_text lib "Hello OPC UA");
  print [
    "UA_Variant String: " +:+ quoted shown; newline +:+ "双向转换流程:";
    "  1. UA_Variant → opcua::VariantValue:  variantToProto()"; "  2. opcua::VariantValue → UA_Variant:  protoToVariant()";
    "转换在 opcua_client.cpp 中完整实现."].

(** *** The temperature monitor *)
Record TempChannel := mkChannel { ns : Z; id : Z; dtype : DataTypeId; unit_ : string; description : string }.
Definition channels : list TempChannel := [
  mkChannel 2 100 DFLOAT "°C" "当前温度值 (Float)"; mkChannel 2 101 DFLOAT "°C" "温度设定值 (Float)";
  mkChannel 2 102 DBOOL "" "加热器启停 (Bool)"; mkChannel 2 103 DFLOAT "°C/s" "升温速率 (Float)";
  mkChannel 2 104 DINT32 "pcs" "超温报警计数 (Int32)"; mkChannel 2 105 DDOUBLE "bar" "腔体压力 (Double)";
  mkChannel 2 106 DINT64 "ms" "累计运行时长 (Int64)"; mkChannel 2 107 DSTRING "" "当前配方名 (String)";
  mkChannel 2 200 DARRAY_FLOAT "°C" "温度曲线数组 (Float[])"; mkChannel 2 201 DDATETIME "" "最后校准时间 (DateTime)"].
Definition channel_line (ch : TempChannel) : string :=
  "  ns=" +:+ pretty (ns ch) +:+ ";i=" +:+ pretty (id ch) +:+ " [" +:+ pretty (type_value (dtype ch)) +:+ "] " +:+ description ch +:+
  (if bool_decide (unit_ ch = "") then "" else " unit=" +:+ unit_ ch).
(** [val.float_val() > 100.0f] *)
Definition too_hot (bits : Z) : bool := SFltb (decode_float32 0x42C80000) (decode_float32 bits).
Definition process_value (type : DataTypeId) (v : VariantValue) : string :=
  match type with
  | DFLOAT => "  Float: " +:+ float_text (float_val v) +:+ (if too_hot (float_val v) then " [超温告警!]" else "")
  | DBOOL => "  Bool: " +:+ (if bool_val v then "ON" else "OFF")
  | DINT32 => "  Int32: " +:+ pretty (int32_val v)
  | DSTRING => "  String: " +:+ string_val v
  | DARRAY_FLOAT => "  Float[" +:+ pretty (length (float_array v)) +:+ "]:" +:+ words float_text (float_array v)
  | _ => "  type=" +:+ pretty (type_value type)
  end.
(** 85.5f, 95.0f, on, 3 and a name. *)
Definition batch_resp : list ReadResponse := (λ v, mkReadResponse 0 v 0 0) <$> [
  scalar_value DFLOAT (FloatVal 0x42AB0000); scalar_value DFLOAT (FloatVal 0x42BE0000); scalar_value DBOOL (BoolVal true);
  scalar_value DINT32 (Int32Val 3); scalar_value DSTRING (StringVal "Recipe_01")].
Definition response_lines (i : nat) (r : ReadResponse) : list string :=
  if (rs_status r =? 0)%Z then ["  Ch[" +:+ pretty i +:+ "]:" +:+ process_value (vv_type (rs_value r)) (rs_value r)] else [].
Definition demo_integrated_scenario : Demo unit := print (
  [section_title "综合应用场景: 温度监控系统"; newline +:+ "-- 13a. 温度监控系统的数据类型映射 --"] ++
  (channel_line <$> channels) ++
  [newline +:+ "-- 13b. 按类型分发处理 --"] ++
  concat (imap response_lines batch_resp) ++
  [newline +:+ "-- 13c. protobuf 序列化到日志/消息队列 --";
   "  Batch response serialized: " +:+ pretty (wire_size lib batch_resp) +:+ " bytes";
   "  Deserialized " +:+ pretty (length (default [] (reparse lib batch_resp))) +:+ " values"]).

Definition demo_custom_structured_type : Demo unit := print [
  section_title "自定义结构化类型"; "自定义类型扩展方案:"; "  1. BYTESTRING + 嵌套 proto message (轻量, 推荐)";
  "  2. VariantValue 增加结构化字段 (修改 proto)"; "  3. ExtensionObject + UA_DataType 注册 (完整 OPC UA 兼容)"].
Definition demo_type_safety_notes : Demo unit := print [
  section_title "类型安全与最佳实践"; "1. 读写时必须确保 DataTypeId 与服务器节点类型匹配";
  "2. 数组和标量使用同一个 VariantValue, 根据 type 字段区分"; "3. 收到请求先检查 status.code() == 0, 再使用 value";
  "4. Proto 序列化用于跨语言/跨进程传输 (C++/Python/Java/C#)"; "5. open62541 内置所有 25 种 Built-in 类型的序列化/反序列化";
  "6. Variant 的嵌套使用: Variant 可以包含另一个 Variant (嵌套)"; "7. 类型不匹配时服务器返回 BadTypeMismatch (0x80730000)"].

Definition rule_line : string := "=========================================".
Definition opening : list string := [
  rule_line; "OPC UA 数据类型应用详解"; rule_line; newline +:+ "OPC UA 数据类型分层结构:"; "  ┌─────────────────────────┐";
  "  │  Application Types      │  ← 自定义结构体"; "  │  (custom structs)       │"; "  ├─────────────────────────┤";
  "  │  Predefined Types       │  ← NodeId, QualifiedName, ..."; "  │  (built-in structured)  │";
  "  ├─────────────────────────┤"; "  │  Built-in Types (25)    │  ← Boolean, Int32, Float, ...";
  "  │  (primitive types)      │"; "  └─────────────────────────┘"].
Definition closing : list string := [
  newline +:+ rule_line; "总结:"; "  OPC UA 数据类型体系由 25 种 Built-in 类型为基础,";
  "  通过 Variant 实现动态类型, 通过 ExtensionObject 扩展自定义类型."; "  Protobuf 封装 (opcua.proto) 将所有类型映射为统一的";
  "  VariantValue message, 实现高效的跨语言序列化."; rule_line].
Definition demos : list (Demo unit) := [
  demo_builtin_scalar_types; demo_array_types; demo_datetime_type; demo_localized_text; demo_qualified_name;
  demo_node_id_types; demo_variant_type; demo_enum_types; demo_extension_object; demo_status_code; demo_data_quality;
  demo_type_conversion; demo_integrated_scenario; demo_custom_structured_type; demo_type_safety_notes].
Definition main : Demo unit := print opening;; for_each (λ d, d) demos;; print closing.

(** Clearing an object gives its characters back to the heap.  If that is
    undefined for a literal, the tour is undefined and ends in its fourth part. *)
Theorem literals_cleared out : (∀ s, UA_clear_literal lib s = Undef) → (main out).1 = Undef.
Proof.
  intros Hc. unfold main, print. rewrite M_bind_modify.
  cbv [for_each demos mbind M_bind demo_builtin_scalar_types demo_array_types demo_datetime_type demo_localized_text print modify lift_outcome].
  by rewrite Hc.
Qed.
End demos.

(** A library for the runs below: clearing a literal is undefined, as it is on a
    heap that did not allocate it; the messages are parsed back as they were. *)
Definition demo_library (clear : string → outcome unit) : Library := {|
  UA_DateTime_now := 133500000000000000%Z;
  UA_DateTime_toStruct := λ _, mkDateTime 2024 1 17 21 20 0;
  typeName := λ b, match b with BInt32 => "Int32" | BFloat => "Float" | _ => "other" end;
  UA_clear_literal := clear;
  UA_alloc_text := Ret;
  wire_size := λ rs, 16 * length rs;
  reparse := Some |}.

Theorem literals_cleared_witness : (main (demo_library (λ _, Undef)) []).1 = Undef.
Proof. apply (literals_cleared (demo_library (λ _, Undef)) []). reflexivity. Defined.

(** Where clearing a literal is harmless the tour returns. *)
Example demo_main_returns : (main (demo_library (λ _, Ret tt)) []).1 = Ret tt.
Proof. vm_compute. reflexivity. Qed.
Example responses_print : concat (imap response_lines batch_resp) =
  ["  Ch[0]:  Float: 85.5"; "  Ch[1]:  Float: 95"; "  Ch[2]:  Bool: ON"; "  Ch[3]:  Int32: 3"; "  Ch[4]:  String: Recipe_01"].
Proof. vm_compute. reflexivity. Qed.
(** A reading above 100 degrees is marked; one of exactly 100 is not. *)
Example overheat_marked :
  process_value DFLOAT (scalar_value DFLOAT (FloatVal 0x42CA0000)) = "  Float: 101 [超温告警!]" ∧
  process_value DFLOAT (scalar_value DFLOAT (FloatVal 0x42C80000)) = "  Float: 100".
Proof. vm_compute. split; reflexivity. Qed.
