(* ===== verification/PlcTour.v ===== *)
(** * The whole run of [proto_opcua/parse_project/main.cpp]

    All eleven demos with what they print, over the services of [PlcClient], a
    clock, and the two types of open62541 the first demos take from its type
    table.  The places an allocator gives the objects are parameters too. *)
From Stdlib Require Import Ascii.
From S2P Require Import Prelude FloatText UaTypes StructParser ParserMemory NodeCache PlcClient PlcDemo.
Local Open Scope prog_scope.

(** ** Texts *)
Definition title (t : string) : string := newline +:+ "=== Demo " +:+ t +:+ " ===" +:+ newline.
Definition bit_text (b : bool) : string := if b then "1" else "0".
Definition member_text (whole : bool) (m : MemberInfo) : string :=
  "  member: " +:+ m_name m +:+ "  type=" +:+ StructParser.type_name m +:+ "  ft=" +:+ pretty (FieldType_int (m_ft m)) +:+
  (if whole then "  offset=" +:+ pretty (offset m) +:+ "  array=" +:+ bit_text (m_is_array m) else "") +:+ newline.
Definition layout_text (whole : bool) (l : TypeLayout) : string :=
  "Type: " +:+ tl_name l +:+ "  memSize=" +:+ pretty (mem_size l) +:+ "  members=" +:+ pretty (Z.of_nat (length (tl_members l))) +:+
  newline +:+ String.concat "" (member_text whole <$> tl_members l).
(** [<< std::hex]: lower case, no leading zero. *)
Definition hex_digit (d : Z) : string := String (ascii_of_nat (Z.to_nat (if (d <? 10)%Z then 48 + d else 87 + d))) "".
Fixpoint hex_digits (fuel : nat) (z : Z) : string :=
  match fuel with
  | 0 => ""
  | S fuel' => (if (z <? 16)%Z then "" else hex_digits fuel' (z / 16)) +:+ hex_digit (z mod 16)
  end.
Definition hex32 (z : Z) : string := hex_digits 8 z.

(** ** Objects with strings: [UA_String] is a length and a pointer *)
Fixpoint word (n : nat) (z : Z) : list Z := match n with 0 => [] | S n' => (z mod 256 :: word n' (z / 256))%Z end.
Definition bytes_of (s : string) : list Z := (λ c, Z.of_N (N_of_ascii c)) <$> String.list_ascii_of_string s.
Definition ua_string (s : string) (ptr : Z) : list Z := word 8 (Z.of_nat (String.length s)) ++ word 8 ptr.
(** Two objects at [a] and [b]: the structure and its texts. *)
Definition localized_text_memory (lt a b : Z) : Memory :=
  store_bytes lt (ua_string "zh_CN" a ++ ua_string "TemperatureSensor" b)
    (store_bytes a (bytes_of "zh_CN") (store_bytes b (bytes_of "TemperatureSensor") no_memory)).
(** A 16-bit namespace, six bytes of padding, the name. *)
Definition qualified_name_memory (qn a : Z) : Memory :=
  store_bytes qn (word 2 2 ++ replicate 6 0%Z ++ ua_string "MotorSpeed" a) (store_bytes a (bytes_of "MotorSpeed") no_memory).

(** ** The demos *)
Record Machine (W : Type) := mkMachine { world : W; console : string }.
Arguments mkMachine {W}.
Arguments world {W}.
Arguments console {W}.

Section tour.
Context {W : Type}.
Context (service_read : list UA_NodeId → W → PlcClient.ReadResponse * W).
Context (service_browse : UA_NodeId → W → BrowseResponse * W).
Context (rehash : Entries → Entries) (steady_clock_now : W → Z * W).
(** [UA_Client_new] and [UA_Client_connect]. *)
Context (allocated : bool) (status : string → Z).
(** [UA_TYPES[UA_TYPES_LOCALIZEDTEXT]] and [UA_TYPES[UA_TYPES_QUALIFIEDNAME]]. *)
Context (LOCALIZEDTEXT QUALIFIEDNAME : UA_DataType).
Abbreviation Tour := (M (Machine W)).
Definition say (s : string) : Tour unit := modify (λ m, mkMachine (world m) (console m +:+ s)).
Definition say_outcome (o : outcome string) : Tour unit := s ← lift_outcome o; say s.
Definition on_world {A} (f : M W A) : Tour A := λ m, let '(r, w) := f (world m) in (r, mkMachine w (console m)).
Definition time : Tour Z := on_world (call steady_clock_now).

Definition demo_type_layout : Tour unit :=
  say (title "1: TypeLayout");;
  say (layout_text true (analyzeType (Some LOCALIZEDTEXT)));;
  say (layout_text false (analyzeType (Some QUALIFIEDNAME))).
Definition demo_parse_localized_text (lt a b : Z) : Tour unit :=
  say (title "2: parse UA_LocalizedText");;
  pv ← lift_outcome (parseValue (localized_text_memory lt a b) lt LOCALIZEDTEXT "DisplayName"); say_outcome (print pv 0).
Definition demo_parse_qualified_name (qn a : Z) : Tour unit :=
  say (title "3: parse UA_QualifiedName");;
  pv ← lift_outcome (parseValue (qualified_name_memory qn a) qn QUALIFIEDNAME "BrowseName"); say_outcome (print pv 0).
Definition show_custom_struct : Tour unit :=
  say (title "4: parse struct (simulated CustomAxis)");;
  say ("Layout: " +:+ tl_name CustomAxis_layout +:+ newline);;
  for_each (λ m, say ("  " +:+ m_name m +:+ " : " +:+ StructParser.type_name m +:+ newline)) (tl_members CustomAxis_layout);;
  pv ← lift_outcome demo_parse_custom_struct; say_outcome (print_both pv).
Definition show_struct_with_arrays : Tour unit :=
  say (title "5: struct with array members");; say_outcome (print demo_parse_struct_with_arrays 0).

(** A call on a cache of the demo. *)
Definition on_cache {A} (c : NodeCache) (m : M NodeCache A) : Tour NodeCache :=
  let '(r, c') := m c in lift_outcome (match r with Ret _ => Ret c' | Throw e => Throw e | Undef => Undef end).
Definition show_node_cache : Tour unit :=
  say (title "6: NodeCache");;
  t1 ← time; t2 ← time; t3 ← time;
  c ← on_cache (new_NodeCache 100) (demo_node_cache rehash t1 t2 t3);
  for_each (λ ch, say (change_line ch +:+ newline)) (changes c);;
  match get_value k1 c with
  | Some v =>
      d ← lift_outcome (read_d (num (parsed v)));
      say ("  k1: ft=" +:+ pretty (FieldType_int (ft (parsed v))) +:+ " d=" +:+ format_double d +:+ " ver=" +:+ pretty (version v) +:+ newline)
  | None => mret tt
  end;;
  t4 ← time;
  say ("  stale keys (0s): " +:+ pretty (Z.of_nat (length (getStaleKeys t4 0 c))) +:+ newline);;
  say (dump c).

(** The thread is stopped after [rounds] rounds. *)
Definition event_text (e : PollEvent) : string :=
  match e with
  | PollDone grp n => "  [poll] group=" +:+ grp +:+ " ok=" +:+ pretty (Z.of_nat n) +:+ newline
  | PollError k st => "  [error] ns=" +:+ pretty (ns k) +:+ " id=" +:+ id k +:+ " status=0x" +:+ hex32 st +:+ newline
  end.
Fixpoint poll_rounds (rounds : nat) : M PlcPoller unit :=
  match rounds with 0 => mret tt | S n => poll_round service_read rehash steady_clock_now;; poll_rounds n end.
Definition show_plc_poller_config (rounds : nat) : Tour unit :=
  say (title "7: PlcPoller configuration");;
  say ("  Poller: 2 groups, fast=100ms, slow=1000ms" +:+ newline);;
  m ← get;
  let '(r, p) := (start;; poll_rounds rounds;; stop) (demo_plc_poller_config (world m)) in
  lift_outcome r;;
  modify (λ m, mkMachine (net p) (console m));;
  for_each (λ e, say (event_text e)) (events p);;
  say ("  Poller started->stopped" +:+ newline).

Definition demo_browse_and_discover (c : PlcClient) : Tour unit :=
  say (title "8: Browse & Discover");;
  vars ← on_world (browseVariables service_browse c 0 85);
  say ("Discovered " +:+ pretty (Z.of_nat (length vars)) +:+ " variable nodes:" +:+ newline);;
  for_each (λ '(n, i),
    cv ← on_world (readNode service_read c n i "");
    say ("  ns=" +:+ pretty n +:+ " id=" +:+ pretty i +:+ " type=" +:+ pretty (FieldType_int (ft (parsed cv))) +:+ newline)) vars.
Definition demo_read_node (c : PlcClient) : Tour unit :=
  say (title "9: Read & Parse node");;
  cv ← on_world (readNode service_read c 0 1002 "MyVar");
  if valid cv then say_outcome (print (parsed cv) 0)
  else say ("  Read failed: status=0x" +:+ hex32 (status_code cv) +:+ newline).
Definition show_full_roundtrip : Tour unit :=
  say (title "10: Full round-trip");; t ← time; say_outcome (demo_full_roundtrip rehash t).
Definition show_deep_nested_struct : Tour unit :=
  say (title "11: Deep nested struct");; say_outcome (print_both demo_deep_nested_struct).

Definition rule : string := "============================================" +:+ newline.
Definition main (lt a b qn q : Z) (rounds : nat) : Tour unit :=
  say (rule +:+ "  PLC Node Parser - Comprehensive Demo" +:+ newline +:+ rule);;
  demo_type_layout;; demo_parse_localized_text lt a b;; demo_parse_qualified_name qn q;;
  show_custom_struct;; show_struct_with_arrays;; show_node_cache;; show_full_roundtrip;; show_deep_nested_struct;;
  let '(ok, c) := connect allocated status 5000 (new_PlcClient PLC_URL) in
  (if ok : bool then
     say (newline +:+ "PLC connected" +:+ newline);; demo_browse_and_discover c;; demo_read_node c
   else say (newline +:+ "PLC offline - skipping online demos" +:+ newline));;
  show_plc_poller_config rounds;;
  say (newline +:+ rule +:+ "  All demos complete." +:+ newline +:+ rule).
End tour.

(** ** The tour comes to its end
    The cache and the poller of the demos do not throw, and what is parsed can be
    printed; what is left is that the values a server sends can be parsed. *)
(** The kinds the parser has no case for: nothing is read. *)
Definition kept_by_number (k : Kind) : bool :=
  match k with KGuid | KByteString | KNodeId | KQualifiedName | KLocalizedText | KStatusCode => true | _ => false end.
Lemma kept_parse mem data t name : data ≠ 0%Z → kept_by_number (typeKind t) = true →
  parseValue mem data t name = Ret (scalar name (kind_ft (typeKind t)) (NumB false) "").
Proof. intros Hd Hk. destruct t as [tn sz k ms]. cbn [parseValue typeKind] in *. rewrite bool_decide_false by done. by destruct k. Qed.

Section returns.
Context {W : Type}.
Context (service_read : list UA_NodeId → W → PlcClient.ReadResponse * W).
Context (rehash : Entries → Entries) (rehash_perm : ∀ d, rehash d ≡ₚ d) (steady_clock_now : W → Z * W).

Lemma say_returns s : always_returns (say (W := W) s).
Proof. apply returns_modify. Qed.
Lemma say_outcome_returns o : (∃ s, o = Ret s) → always_returns (say_outcome (W := W) o).
Proof. intros [s ->]. apply returns_bind; [apply returns_lift|]. intros ?. apply say_returns. Qed.
Lemma on_world_returns {A} (f : M W A) : always_returns f → always_returns (on_world f).
Proof. intros Hf m. unfold on_world. destruct (Hf (world m)) as (a & w & ->). eauto. Qed.
Lemma call_returns {A} (f : W → A * W) : always_returns (call f).
Proof. intros w. unfold call. destruct (f w) as [a w']. eauto. Qed.
#[local] Hint Resolve say_returns say_outcome_returns on_world_returns call_returns : rets.
Lemma time_returns : always_returns (time steady_clock_now).
Proof. apply on_world_returns, call_returns. Qed.
Lemma browse_returns service_browse c n i : always_returns (browseVariables service_browse c n i : M W _).
Proof. unfold browseVariables. repeat returns_step. Qed.

(** What is read was parsed, so it can be printed. *)
Lemma read_prints c n i name w cv w' depth : readNode service_read c n i name w = (Ret cv, w') → ∃ s, print (parsed cv) depth = Ret s.
Proof.
  unfold readNode, read_one, call, mbind, M_bind, lift_outcome. intros H. apply printable_print. revert H.
  destruct (client_ c); cbn [negb]; [|by intros [= <- _]]. destruct (service_read _ w) as [resp w2]. case_bool_decide; cbn [negb]; [|by intros [= <- _]].
  destruct (results resp) as [|dv ?]; [by intros [= <- _]|]. intros [= Hv _]. revert Hv. unfold take_value.
  destruct (dv_type dv) as [t|]; [|by intros [= <-]]. case_bool_decide; [by intros [= <-]|].
  pose proof (printable_parse (resp_mem resp) t (dv_data dv) name) as Hp.
  destruct (parseValue _ _ _ _) as [v|e|]; [|done..]. by intros [= <-].
Qed.
(** The put of each demo, on a cache with room. *)
Lemma demo_cache_run t1 t2 t3 : ∃ c, demo_node_cache rehash t1 t2 t3 (new_NodeCache 100) = (Ret tt, c) ∧
  ∃ v d, get_value k1 c = Some v ∧ num (parsed v) = NumD d.
Proof.
  unfold demo_node_cache, setOnChange. rewrite M_bind_modify. set (c0 := mkNodeCache _ _ _ _ _).
  assert (cache_ok c0) as Hc0 by (split_and!; [constructor|simpl; lia|simpl; lia]).
  assert (calm c0) as Hq0 by (intros cb k o n [= <-]; done).
  destruct (put_calm rehash rehash_perm t1 k1 (number FLOAT 0x40394ccccccccccd) c0 Hc0 Hq0) as (c1 & H1 & Hc1 & Hq1 & _ & _).
  rewrite (M_bind_ret _ _ _ _ _ H1).
  destruct (put_calm rehash rehash_perm t2 k2 (number DOUBLE 0x3ff0353f7ced9168) c1 Hc1 Hq1) as (c2 & H2 & Hc2 & Hq2 & _ & _).
  rewrite (M_bind_ret _ _ _ _ _ H2).
  destruct (put_calm rehash rehash_perm t3 k1 (number FLOAT 0x403a19999999999a) c2 Hc2 Hq2) as (c3 & H3 & _ & _ & _ & Hg).
  exists c3. split; [done|]. eauto.
Qed.
Lemma roundtrip_returns t : ∃ s, demo_full_roundtrip rehash t = Ret s.
Proof.
  unfold demo_full_roundtrip.
  edestruct (put_quiet rehash rehash_perm t (mkNodeKey 2 "3001")) as (c & H1 & _ & _ & H2); [| |rewrite H1; cbn [snd]; rewrite H2].
  1, 2: by (split_and!; [constructor|simpl; lia|simpl; lia]) || done.
  eauto.
Qed.
Lemma rounds_return n : ∀ p, quiet service_read p → on_poll_done_ p = true →
  ∃ p', poll_rounds service_read rehash steady_clock_now n p = (Ret tt, p').
Proof.
  induction n as [|n IH]; intros p Hq Ho; [by exists p|]. simpl.
  destruct (poll_round_run service_read rehash rehash_perm steady_clock_now p Hq Ho) as (t & p' & es & H & Hq' & Ho' & _).
  rewrite (M_bind_ret _ _ _ _ _ H). by apply IH.
Qed.
Lemma node_cache_returns : always_returns (show_node_cache rehash steady_clock_now).
Proof.
  unfold show_node_cache. do 4 (returns_step; [solve [eauto using time_returns with rets]|]). intros m.
  unfold on_cache at 1. destruct (demo_cache_run a0 a1 a2) as (c & -> & v & d & Hv & Hd).
  rewrite (M_bind_ret _ (lift_outcome (Ret c)) m c m eq_refl), Hv, Hd.
  match goal with |- ∃ a s', ?k m = _ => cut (always_returns k); [intros H; exact (H m)|] end.
  repeat returns_step.
Qed.
Lemma poller_config_returns rounds : always_returns (show_plc_poller_config service_read rehash steady_clock_now rounds).
Proof.
  unfold show_plc_poller_config. do 2 (returns_step; [solve [eauto with rets]|]). intros m. rewrite M_bind_get.
  destruct (rounds_return rounds (set_running true (demo_plc_poller_config (world m)))) as [p Hp]; [split_and!; [split_and!; [constructor|simpl; lia..]|done|by apply offline_reads]|done|].
  assert ((start;; poll_rounds service_read rehash steady_clock_now rounds;; stop) (demo_plc_poller_config (world m)) =
    (Ret tt, set_running false p)) as ->.
  { rewrite (M_bind_ret _ start (demo_plc_poller_config (world m)) tt (set_running true (demo_plc_poller_config (world m))) eq_refl).
    by rewrite (M_bind_ret _ _ _ _ _ Hp). }
  match goal with |- ∃ a s', ?k m = _ => cut (always_returns k); [intros H; exact (H m)|] end.
  repeat returns_step.
Qed.
Lemma read_returns c n i name : reads_return service_read c → always_returns (readNode service_read c n i name).
Proof. intros H w. apply H. Qed.
Lemma browse_demo_returns service_browse c : reads_return service_read c → always_returns (demo_browse_and_discover service_read service_browse c).
Proof.
  intros Hc. unfold demo_browse_and_discover. returns_step; [apply say_returns|].
  returns_step; [apply on_world_returns, browse_returns|]. repeat returns_step.
  destruct x as [n i]. returns_step; [by apply on_world_returns, read_returns|]. apply say_returns.
Qed.
Lemma read_demo_returns c : reads_return service_read c → always_returns (demo_read_node service_read c).
Proof.
  intros Hc. unfold demo_read_node. returns_step; [eauto with rets|]. intros m.
  destruct (read_returns c 0 1002 "MyVar" Hc (world m)) as (cv & w & E).
  rewrite (M_bind_ret _ _ m cv (mkMachine w (console m))) by (unfold on_world; by rewrite E). destruct (valid cv).
  - eapply say_outcome_returns, read_prints, E.
  - apply say_returns.
Qed.
Lemma known_returns {A B} (v : A) (k : A → M (Machine W) B) : always_returns (k v) → always_returns (lift_outcome (Ret v) ≫= k).
Proof. intros H m. apply H. Qed.
Lemma kept_demo_returns mem data t name : data ≠ 0%Z → kept_by_number (typeKind t) = true →
  always_returns (pv ← lift_outcome (parseValue mem data t name); say_outcome (W := W) (print pv 0)).
Proof. intros Hd Hk. rewrite kept_parse by done. apply known_returns, say_outcome_returns, printable_print. by destruct (typeKind t). Qed.
Lemma custom_struct_returns : always_returns (show_custom_struct (W := W)).
Proof.
  unfold show_custom_struct. do 2 (returns_step; [solve [eauto with rets]|]). returns_step; [repeat returns_step|].
  destruct demo_parse_custom_struct as [pv|e|] eqn:E; [|by vm_compute in E..]. apply known_returns, say_outcome_returns.
  pose proof custom_struct_output as H. rewrite E in H. by eexists.
Qed.
End returns.
#[export] Hint Resolve say_returns say_outcome_returns on_world_returns time_returns node_cache_returns poller_config_returns
  custom_struct_returns roundtrip_returns browse_demo_returns read_demo_returns : rets.

(** C37: Let the two types of open62541's table be of the kinds they are named for.
    If the client does not connect, or every value the server sends can be
    parsed, the run prints its demos to the last line, wherever objects are placed
    (but at the null address) and in whatever order the cache keeps its entries:
    nothing throws and nothing is undefined.  A value that cannot be parsed ends it: [wild_tour]. *)
Theorem tour_returns {W} service_read service_browse rehash (steady_clock_now : W → Z * W) allocated status lt_type qn_type lt a b qn q rounds :
  (∀ d, rehash d ≡ₚ d) → typeKind lt_type = KLocalizedText → typeKind qn_type = KQualifiedName → lt ≠ 0%Z → qn ≠ 0%Z →
  ((connect allocated status 5000 (new_PlcClient PLC_URL)).1 = true → sends_readable service_read) →
  ∀ m, ∃ m', main service_read service_browse rehash steady_clock_now allocated status lt_type qn_type lt a b qn q rounds m =
    (Ret tt, m').
Proof.
  intros Hperm Hlt Hqn Hlt0 Hqn0 Hsends.
  enough (always_returns (main service_read service_browse rehash steady_clock_now allocated status lt_type qn_type lt a b qn q rounds)) as H
    by (intros m; destruct (H m) as ([] & m' & Hm); by exists m').
  unfold main, demo_type_layout, demo_parse_localized_text, demo_parse_qualified_name, show_struct_with_arrays,
    show_full_roundtrip, show_deep_nested_struct.
  destruct (connect allocated status 5000 (new_PlcClient PLC_URL)) as [ok c]. cbn [fst] in Hsends.
  assert (ok = true → reads_return service_read c) as Hc by (intros Hok; by apply parsed_reads, Hsends).
  repeat first [by apply kept_demo_returns; rewrite ?Hlt, ?Hqn | by apply browse_demo_returns, Hc | by apply read_demo_returns, Hc | returns_step];
    try (apply say_outcome_returns; eauto with rets).
Qed.

(** ** Runs
    The two types as open62541 documents them: two members, the text of a
    qualified name after six bytes of padding. *)
Definition no_browse {W} (_ : UA_NodeId) (w : W) : BrowseResponse * W := (mkBrowseResponse 0 [], w).
Definition string_type : UA_DataType := mkDataType (Some "String") 16 KString [].
Definition uint16_type : UA_DataType := mkDataType (Some "UInt16") 2 KUInt16 [].
Definition lt_type : UA_DataType := mkDataType (Some "LocalizedText") 32 KLocalizedText
  [mkMember (Some "Locale") (Some string_type) 0 false; mkMember (Some "Text") (Some string_type) 0 false].
Definition qn_type : UA_DataType := mkDataType (Some "QualifiedName") 24 KQualifiedName
  [mkMember (Some "NamespaceIndex") (Some uint16_type) 0 false; mkMember (Some "Name") (Some string_type) 6 false].
Definition run_tour {W} (service_read : list UA_NodeId → W → ReadResponse * W) (tick : W → Z * W) (w : W) (connects : Z) : outcome unit * Machine W :=
  main service_read no_browse (λ d, d) tick true (λ _, connects) lt_type qn_type 4096 8192 8448 16384 20480 2 (mkMachine w "").
Lemma tour_returns_witness : (run_tour sevens tick 0%Z 0).1 = Ret tt ∧ (run_tour no_service tick 0%Z 0x80AC0000).1 = Ret tt.
Proof.
  split.
  - destruct (tour_returns sevens no_browse (λ d, d) tick true (λ _, 0%Z) lt_type qn_type 4096 8192 8448 16384 20480 2
      (λ d, reflexivity d) eq_refl eq_refl ltac:(done) ltac:(done) (λ _, sevens_readable) (mkMachine 0%Z "")) as [m' H].
    unfold run_tour. by rewrite H.
  - destruct (tour_returns no_service no_browse (λ d, d) tick true (λ _, 0x80AC0000%Z) lt_type qn_type 4096 8192 8448 16384 20480 2
      (λ d, reflexivity d) eq_refl eq_refl ltac:(done) ltac:(done) ltac:(done) (mkMachine 0%Z "")) as [m' H].
    unfold run_tour. by rewrite H.
Defined.
(** A server whose nodes hold a structure of a number and a string, sent in the
    documented layout: the tour reads where nothing is. *)
Definition numbered_service (_ : list UA_NodeId) (t : Z) : ReadResponse * Z :=
  (mkReadResponse 0 [mkDataValue 0 100 200 (Some numbered_type) 4096] numbered_memory, t).
Example wild_tour : (run_tour numbered_service tick 0%Z 0).1 = Undef.
Proof. vm_compute. reflexivity. Qed.

(** The kinds the parser has no case for are printed as their number: a
    localized text and a qualified name lose both their members, whatever they
    hold. *)
Lemma members_lost mem data n sz k ms name : data ≠ 0%Z → kept_by_number k = true →
  (v ← parseValue mem data (mkDataType n sz k ms) name; print v 0) =
    Ret ((if bool_decide (name = "") then "" else name +:+ " = ") +:+
         ("(type=" +:+ pretty (FieldType_int (kind_ft k)) +:+ ")") +:+ newline).
Proof. intros Hd Hk. cbn [parseValue]. rewrite bool_decide_false by done. by destruct k. Qed.

(** What the demos of types, and of the poller after two rounds, print. *)
Definition run_alone (d : M (Machine Z) unit) : string := console (d (mkMachine 0%Z "")).2.
Example type_demos_print :
  run_alone (demo_type_layout lt_type qn_type;; demo_parse_localized_text lt_type 4096 8192 8448;;
             demo_parse_qualified_name qn_type 4096 8192) =
  String.concat newline
   [""; "=== Demo 1: TypeLayout ==="; "Type: LocalizedText  memSize=32  members=2";
    "  member: Locale  type=String  ft=11  offset=0  array=0"; "  member: Text  type=String  ft=11  offset=0  array=0";
    "Type: QualifiedName  memSize=24  members=2"; "  member: NamespaceIndex  type=UInt16  ft=4"; "  member: Name  type=String  ft=11";
    ""; "=== Demo 2: parse UA_LocalizedText ==="; "DisplayName = (type=17)";
    ""; "=== Demo 3: parse UA_QualifiedName ==="; "BrowseName = (type=16)"; ""].
Proof. vm_compute. reflexivity. Qed.
Example cache_demo_prints : run_alone (show_node_cache (λ d, d) tick) =
  String.concat newline
   [""; "=== Demo 6: NodeCache ==="; "  [CHANGE] ns=1 id=TempSensor old_ver=0 -> ver=1"; "  [CHANGE] ns=1 id=Pressure old_ver=0 -> ver=2";
    "  [CHANGE] ns=1 id=TempSensor old_ver=1 -> ver=3"; "  k1: ft=9 d=26.1 ver=3"; "  stale keys (0s): 2";
    "NodeCache: 2 entries"; "  ns=1 id=Pressure ver=2 status=0 type=10"; "  ns=1 id=TempSensor ver=3 status=0 type=9"; ""].
Proof. vm_compute. reflexivity. Qed.
Example poller_demo_prints : run_alone (show_plc_poller_config no_service (λ d, d) tick 2) =
  String.concat newline
   [""; "=== Demo 7: PlcPoller configuration ==="; "  Poller: 2 groups, fast=100ms, slow=1000ms";
    "  [poll] group=fast_100ms ok=3"; "  [poll] group=slow_1000ms ok=2"; "  [poll] group=fast_100ms ok=3"; "  [poll] group=slow_1000ms ok=2";
    "  Poller started->stopped"; ""].
Proof. vm_compute. reflexivity. Qed.
