(* ===== verification/LoggerText.v ===== *)
(** * The text of a log line, [state_machine/include/hfsm/ext/logger.hpp]

    [HfsmExt.Loggers] is the logger with its levels; here are the clock it
    writes and [ModuleLogger], which formats its messages with [snprintf].  Of
    the conversions of [snprintf] the library and its examples use [%d], [%u],
    [%zu], [%s], [%%] and [%.nf] with a digit [n] from 1; any other is [Undef], as is
    a conversion whose argument is missing or of another type. *)
From Stdlib Require Import Ascii Floats.SpecFloat.
From S2P Require Import Prelude FloatText HfsmCore HfsmExt.
Local Open Scope prog_scope.
Import Loggers.

(** ** The clock *)
(** [std::setfill('0') << std::setw(w)] *)
Definition fill0 (w : nat) (s : string) : string := (String.string_of_list_ascii (repeat "0"%char (w - String.length s))) +:+ s.
(** [std::put_time(std::gmtime(&tt), "%H:%M:%S")] of the seconds since the epoch. *)
Definition put_time (tt : Z) : string :=
  let s := (tt `mod` 86400)%Z in
  fill0 2 (pretty (s `div` 3600)%Z) +:+ ":" +:+ fill0 2 (pretty ((s `div` 60) `mod` 60)%Z) +:+ ":" +:+ fill0 2 (pretty (s `mod` 60)%Z).
(** [now] in milliseconds; the casts of a duration truncate. *)
Definition clock_text (now : Z) : string := put_time (now ÷ 1000)%Z +:+ "." +:+ fill0 3 (pretty (Z.rem now 1000)).
Definition log_now (now : Z) (level : LogLevel) (module msg : string) (lg : Logger) : Logger :=
  log (clock_text now) level module msg lg.
Example clock_texts : clock_text <$> [0; 86399999; 1700000000042]%Z = ["00:00:00.000"; "23:59:59.999"; "22:13:20.042"].
Proof. by_compute. Qed.

(** ** [snprintf] *)
Inductive Arg := AInt (z : Z) | AUnsigned (z : Z) | ASize (z : Z) | AStr (s : string) | ADouble (d : spec_float).
(** A string up to its first NUL. *)
Fixpoint c_str (s : string) : string :=
  match s with
  | "" => ""
  | String c s => if bool_decide (c = "000"%char) then "" else String c (c_str s)
  end.
Definition convert (spec : ascii) (a : Arg) : option string :=
  match spec, a with
  | "d"%char, AInt z => Some (pretty z) | "u"%char, AUnsigned z => Some (pretty z)
  | "z"%char, ASize z => Some (pretty z) | "s"%char, AStr s => Some (c_str s)
  | _, _ => None
  end.
Definition digit_value (c : ascii) : option nat :=
  let n := Ascii.nat_of_ascii c in if (49 <=? n) && (n <=? 57) then Some (n - 48) else None.
Definition take_arg (f : Arg → option string) (args : list Arg) (rest : list Arg → outcome string) : outcome string :=
  match args with
  | a :: args => match f a with Some t => s ← rest args; Ret (t +:+ s) | None => Undef end
  | [] => Undef
  end.
Fixpoint expand (fmt : string) (args : list Arg) : outcome string :=
  match fmt with
  | "" => Ret ""
  | String "000" _ => Ret ""
  | String "%" (String "%" r) => s ← expand r args; Ret (String "%" s)
  | String "%" (String "z" (String "u" r)) => take_arg (convert "z") args (expand r)
  | String "%" (String "." (String n (String "f" r))) =>
      take_arg (λ a, match a, digit_value n with ADouble d, Some k => Some (format_fixed k d) | _, _ => None end) args (expand r)
  | String "%" (String "z" _) => Undef
  | String "%" (String c r) => take_arg (convert c) args (expand r)
  | String "%" "" => Undef
  | String c r => s ← expand r args; Ret (String c s)
  end.
(** What is written and the returned size: -1 where an [int] cannot hold it. *)
Definition snprintf (fmt : string) (args : list Arg) : outcome (string * Z) :=
  s ← expand fmt args;
  Ret (s, if (Z.of_nat (String.length s) <? 2 ^ 31)%Z then Z.of_nat (String.length s) else (-1)%Z).

(** ** [ModuleLogger] *)
Module ModuleLoggers.
Definition format (fmt : string) (args : list Arg) : outcome string :=
  match args with
  | [] => Ret (c_str fmt)
  | _ => p ← snprintf fmt args; Ret (if (p.2 <=? 0)%Z then c_str fmt else p.1)
  end.
Record ModuleLogger := { module_ : string }.
Section module_logger.
Context (now : Z) (m : ModuleLogger).
(** The message is formatted whatever the level. *)
Definition m_log (level : LogLevel) (fmt : string) (args : list Arg) (lg : Logger) : outcome Logger :=
  msg ← format fmt args; Ret (log_now now level (module_ m) msg lg).
Definition m_trace := m_log Trace.
Definition m_debug := m_log Debug.
Definition m_info := m_log Info.
Definition m_warn := m_log Warn.
Definition m_error := m_log LError.
End module_logger.

(** The formats of the examples. *)
Example formats_of_the_examples :
  format "  [Fault] Minor fault detected (#%d)" [AInt 3] = Ret "  [Fault] Minor fault detected (#3)" ∧
  format "  [FW] Starting update to version %s (%zu bytes)" [AStr "v2.1.0"; ASize 16777216] =
    Ret "  [FW] Starting update to version v2.1.0 (16777216 bytes)" ∧
  format "Payment failed (transient, attempt %d): %s" [AInt 1; AStr "timeout"] = Ret "Payment failed (transient, attempt 1): timeout" ∧
  format "100%% %.2f" [ADouble (decode_float64 0x404DFEB851EB851F)] = Ret "100% 59.99" ∧
  format "%d" [AStr "1"] = Undef ∧ format "%s" [AStr ""] = Ret "%s" ∧ format "100%" [] = Ret "100%".
Proof. by_compute. Qed.

(** ** What a format writes

    A format is taken as the pieces it is made of. *)
Inductive Piece := Lit (s : string) | Percent | PInt (z : Z) | PUnsigned (z : Z) | PSize (z : Z) | PStr (s : string).
Definition source (p : Piece) : string :=
  match p with Lit s => s | Percent => "%%" | PInt _ => "%d" | PUnsigned _ => "%u" | PSize _ => "%zu" | PStr _ => "%s" end.
Definition argument (p : Piece) : list Arg :=
  match p with Lit _ | Percent => [] | PInt z => [AInt z] | PUnsigned z => [AUnsigned z] | PSize z => [ASize z] | PStr s => [AStr s] end.
Definition text (p : Piece) : string :=
  match p with Lit s => s | Percent => "%" | PInt z | PUnsigned z | PSize z => pretty z | PStr s => c_str s end.
Definition join {A} (f : A → string) (l : list A) : string := foldr (λ a s, f a +:+ s) "" l.
Fixpoint free_of (cs : list ascii) (s : string) : Prop :=
  match s with "" => True | String c s => (c ∉ cs) ∧ free_of cs s end.
Abbreviation plain := (free_of ["%"%char; "000"%char]).
Definition piece_ok (p : Piece) : Prop := match p with Lit s => plain s | _ => True end.

Lemma expand_char c r args : c ≠ "%"%char → c ≠ "000"%char → expand (String c r) args = (expand r args ≫= λ s, Ret (String c s)).
Proof. destruct c as [[] [] [] [] [] [] [] []]; done. Qed.
Lemma expand_lit l r args t : plain l → expand r args = Ret t → expand (l +:+ r) args = Ret (l +:+ t).
Proof.
  intros Hl Hr. induction l as [|c l IH]; [done|]. destruct Hl as [Hc Hl].
  change (String c l +:+ r) with (String c (l +:+ r)). rewrite expand_char by set_solver. by rewrite IH.
Qed.
Lemma expand_pieces ps : Forall piece_ok ps → expand (join source ps) (concat (argument <$> ps)) = Ret (join text ps).
Proof.
  induction 1 as [|p ps Hp _ IH]; [done|]. rewrite fmap_cons. destruct p; simpl; [by apply expand_lit|..].
  all: change ("" +:+ join source ps) with (join source ps); by rewrite IH.
Qed.
Lemma free_of_mono cs cs' s : cs' ⊆ cs → free_of cs s → free_of cs' s.
Proof. intros Hcs. induction s as [|c s IH]; [done|]. intros [Hc Hs]. split; [set_solver|by apply IH]. Qed.
Lemma source_free p : piece_ok p → free_of ["000"%char] (source p).
Proof.
  destruct p; simpl; [apply free_of_mono; by apply (bool_decide_unpack _)|..]; intros _; repeat split; by apply (bool_decide_unpack _).
Qed.
Lemma c_str_lit l r : free_of ["000"%char] l → c_str (l +:+ r) = l +:+ c_str r.
Proof.
  intros Hl. induction l as [|c l IH]; [done|]. destruct Hl as [Hc Hl]. change (String c l +:+ r) with (String c (l +:+ r)). simpl.
  rewrite bool_decide_false by set_solver. by rewrite IH.
Qed.
Lemma c_str_source ps : Forall piece_ok ps → c_str (join source ps) = join source ps.
Proof.
  induction 1 as [|p ps Hp _ IH]; [done|]. change (join source (p :: ps)) with (source p +:+ join source ps).
  rewrite c_str_lit by by apply source_free. by rewrite IH.
Qed.

(** A format with arguments is filled in, but where nothing is left to print the
    format itself is logged. *)
Lemma format_fills ps : Forall piece_ok ps → concat (argument <$> ps) ≠ [] → (Z.of_nat (String.length (join text ps)) < 2 ^ 31)%Z →
  format (join source ps) (concat (argument <$> ps)) = Ret (if decide (join text ps = "") then join source ps else join text ps).
Proof.
  intros Hps Ha Hl. unfold format, snprintf. rewrite expand_pieces, c_str_source by done. simpl.
  destruct (concat (argument <$> ps)) as [|a l]; [done|]. simpl. rewrite (proj2 (Z.ltb_lt _ _) Hl).
  destruct (join text ps) as [|c t]; [by rewrite decide_True|]. rewrite decide_False by done.
  destruct (Z.leb_spec (Z.of_nat (String.length (String c t))) 0) as [H|]; [simpl in H; lia|done].
Qed.

(** A call writes one line when its level is high enough and there is an output,
    and changes nothing otherwise. *)
Lemma m_log_writes now m level ps lg : Forall piece_ok ps → concat (argument <$> ps) ≠ [] → join text ps ≠ "" →
  (Z.of_nat (String.length (join text ps)) < 2 ^ 31)%Z →
  ∃ lg', m_log now m level (join source ps) (concat (argument <$> ps)) lg = Ret lg' ∧ emitted lg' = emitted lg ++
    if (level_value (min_level_ lg) <=? level_value level)%Z && output_set lg
    then ["[" +:+ level_label level +:+ "][" +:+ clock_text now +:+ "][" +:+ module_ m +:+ "] " +:+ join text ps] else [].
Proof.
  intros Hps Ha Hne Hl. unfold m_log. rewrite format_fills, decide_False by done. simpl. eexists. split; [done|].
  unfold log_now, log. destruct (Z.ltb_spec (level_value level) (level_value (min_level_ lg))), (Z.leb_spec (level_value (min_level_ lg)) (level_value level)); [lia|..|lia].
  - by rewrite app_nil_r.
  - by destruct (output_set lg); simpl; rewrite ?app_nil_r.
Qed.
End ModuleLoggers.
