(* ===== verification/TypedMachine.v ===== *)
(** * The typed machine of [state_machine/include/hfsm/core/machine.hpp]

    [Machine<MachineDef>] names states by types.  A type stands here for a tag
    of [Tag]; the identifiers come from the statics of [TypedStateId], which the
    program shares, and are given when they are first asked for. *)
From S2P Require Import Prelude HfsmCore HfsmClient.
Local Open Scope prog_scope.

Module Typed.
Section typed_machine.
Context {Ev : Type} `{!Events Ev} {W Tag : Type} `{Countable Tag}.
(** [typeid(StateTag).name()] *)
Context (type_name : Tag → string).

Record Machine := mkMachine { statics : Statics Tag; base : StateMachineEngine Ev W }.
Definition new_Machine (st : Statics Tag) (cfg : MachineConfig) (w : W) : Machine := mkMachine st (new_engine cfg w).
(** A call of the engine with the identifier of [StateTag]. *)
Definition with_id (t : Tag) (f : StateId → StateMachineEngine Ev W → StateMachineEngine Ev W) (m : Machine) : Machine :=
  let '(i, st) := typed_id t (statics m) in mkMachine st (f i (base m)).
Definition register_state (t : Tag) : Machine → Machine :=
  with_id t (λ i e, e |> HfsmCore.register_state i |> set_state_name i (type_name t)).
Definition set_initial (t : Tag) : Machine → Machine := with_id t HfsmCore.set_initial.
(** The callback does not see the event. *)
Definition on_entry (t : Tag) (cb : M (EngineState Ev W) unit) : Machine → Machine := with_id t (λ i, HfsmCore.on_entry i (λ _, cb)).
Definition on_exit (t : Tag) (cb : M (EngineState Ev W) unit) : Machine → Machine := with_id t (λ i, HfsmCore.on_exit i (λ _, cb)).
Definition is_in (t : Tag) (m : Machine) : bool * Machine :=
  let '(i, st) := typed_id t (statics m) in (HfsmCore.is_in i (engine_state (base m)), mkMachine st (base m)).
Definition add_rule (r : RuntimeTransition Ev W) (m : Machine) : Machine := mkMachine (statics m) (HfsmCore.add_rule r (base m)).
Definition handle (e : Ev) (m : Machine) : outcome EventResult * Machine :=
  let '(r, s) := HfsmCore.handle (engine_def (base m)) e (engine_state (base m)) in
  (r, mkMachine (statics m) (with_state (λ _, s) (base m))).

(** The calls that name states. *)
Inductive Call := CRegister (t : Tag) | CInitial (t : Tag) | CEntry (t : Tag) (cb : M (EngineState Ev W) unit)
  | CExit (t : Tag) (cb : M (EngineState Ev W) unit) | CIsIn (t : Tag).
Definition apply_call (m : Machine) (c : Call) : Machine :=
  match c with
  | CRegister t => register_state t m | CInitial t => set_initial t m
  | CEntry t cb => on_entry t cb m | CExit t cb => on_exit t cb m | CIsIn t => (is_in t m).2
  end.

(** ** Every tag is the same state *)
Definition only_one {A} (m : gmap StateId A) : Prop := ∀ i, is_Some (m !! i) → i = 1%N.
Record one_id (m : Machine) : Prop := {
  one_sids : all_one (sids (statics m));
  one_counters : ∀ t, sids (statics m) !! t = None → counters (statics m) !! t = None;
  one_states : only_one (states_ (engine_state (base m)));
  one_entries : only_one (entry_actions_ (engine_def (base m)));
  one_exits : only_one (exit_actions_ (engine_def (base m)))
}.
Lemma only_one_insert {A} (m : gmap StateId A) a : only_one m → only_one (<[1%N := a]> m).
Proof. intros Hm i. rewrite lookup_insert. case_decide; [done|apply Hm]. Qed.
Lemma register_one s : only_one (states_ s) → only_one (states_ (register_state_st (Ev := Ev) (W := W) 1%N s)).
Proof. intros Hs. unfold register_state_st. destruct (states_ s !! 1%N); [done|]. by apply only_one_insert. Qed.
Lemma initial_one s : only_one (states_ s) → only_one (states_ (set_initial_st (Ev := Ev) (W := W) 1%N s)).
Proof.
  intros Hs. apply register_one in Hs. unfold set_initial_st. destruct (_ =? _)%N; [|done]. unfold index_states. simpl.
  destruct (states_ (register_state_st _ s) !! 1%N) eqn:E; [done|]. simpl. by apply only_one_insert.
Qed.
Lemma with_id_one t f m : one_id m →
  (∀ e, only_one (states_ (engine_state e)) → only_one (entry_actions_ (engine_def e)) → only_one (exit_actions_ (engine_def e)) →
    only_one (states_ (engine_state (f 1%N e))) ∧ only_one (entry_actions_ (engine_def (f 1%N e))) ∧ only_one (exit_actions_ (engine_def (f 1%N e)))) →
  one_id (with_id t f m).
Proof.
  intros [H1 H2 H3 H4 H5] Hf. unfold with_id. destruct (typed_id_one t (statics m) H1 H2) as (E & G1 & G2).
  destruct (typed_id t (statics m)) as [i st]. simpl in *. subst i.
  destruct (Hf (base m) H3 H4 H5) as (F1 & F2 & F3). by split.
Qed.
Lemma apply_call_one c m : one_id m → one_id (apply_call m c).
Proof.
  intros Hm. destruct c as [t|t|t cb|t cb|t]; simpl; [apply with_id_one; [done|]..|].
  - intros e Hs He Hx. split_and!; [by apply register_one|done..].
  - intros e Hs He Hx. split_and!; [by apply initial_one|done..].
  - intros e Hs He Hx. split_and!; [done|by apply only_one_insert|done].
  - intros e Hs He Hx. split_and!; [done|done|by apply only_one_insert].
  - pose proof (with_id_one t (λ _ e, e) m Hm ltac:(done)) as Hone. revert Hone. unfold with_id, is_in. by destruct (typed_id t (statics m)).
Qed.
Lemma is_in_one t m : one_id m → (is_in t m).1 = HfsmCore.is_in 1%N (engine_state (base m)).
Proof.
  intros [H1 H2 _ _ _]. unfold is_in. destruct (typed_id_one t (statics m) H1 H2) as (E & _). destruct (typed_id t (statics m)) as [i st].
  simpl in *. by subst.
Qed.

(** C40: However a machine is set up, it has one state whatever the number of tags
    registered, one entry and one exit callback, the last one given for any of
    them, and it is in all the tags or in none. *)
Theorem tags_are_one_state cfg w cs :
  let m := foldl apply_call (new_Machine no_statics cfg w) cs in
  only_one (states_ (engine_state (base m))) ∧ only_one (entry_actions_ (engine_def (base m))) ∧
  only_one (exit_actions_ (engine_def (base m))) ∧ ∀ a b, (is_in a m).1 = (is_in b m).1.
Proof.
  intros m. assert (one_id m) as Hm.
  { unfold m. clear m. assert (one_id (new_Machine no_statics cfg w)) as H0.
    { split; try done; intros i [x Hi]; simpl in Hi; by rewrite lookup_empty in Hi. }
    revert H0. generalize (new_Machine no_statics cfg w). induction cs as [|c cs IH]; intros m Hm; [done|]. by apply IH, apply_call_one. }
  split_and!; [apply Hm..|]. intros a b. by rewrite !is_in_one.
Qed.
End typed_machine.
Arguments Machine Ev {_} W Tag {_ _}.
End Typed.
