(* ===== verification/HfsmTests.v ===== *)
(** * The tests of the state-machine library, [state_machine/tests/]

    A test is a call on the objects it makes: a failed [ASSERT] prints its
    message and leaves the test, as an exception would. *)
From S2P Require Import Prelude HfsmCore HfsmExt HfsmClient TypedMachine LoggerText.
Local Open Scope prog_scope.

(** ** The frame *)
Definition ASSERT {S} (cond : S → bool) (msg : string) : M S unit :=
  s ← get; if cond s then mret tt else throw (LogicError msg).
Definition Verdict := option string.                        (* the message of a failure *)
Definition verdict (r : outcome unit) : Verdict :=
  match r with Ret _ => None | Throw (LogicError msg) => Some msg | _ => Some "stopped" end.
Definition TEST {S} (s : S) (t : M S unit) : Verdict := verdict (t s).1.
Definition line (name : string) (v : Verdict) : string :=
  "  TEST: " +:+ name +:+ " ... " +:+ match v with None => "PASSED" | Some msg => "FAILED: " +:+ msg end.
Definition results (title : string) (ts : list (string * Verdict)) : list string * Z :=
  let failed := length (filter (λ t, is_Some t.2) ts) in
  ([("=== " +:+ title +:+ " ==="); ""] ++ ((λ t, line t.1 t.2) <$> ts) ++
   [""; "=== Results: " +:+ pretty (length ts - failed) +:+ " passed, " +:+ pretty failed +:+ " failed ==="],
   if 0 <? failed then 1%Z else 0%Z).

(** ** [test_core.cpp] *)
Module Core.
Inductive Event := EvStart | EvStop | EvReset | EvError (code : Z).
Inductive EventTag := TStart | TStop | TReset | TError.
#[export] Instance EventTag_eq_dec : EqDecision EventTag.
Proof. solve_decision. Defined.
#[export] Instance test_events : Events Event := {|
  EvType := EventTag;
  ev_typeid e := match e with EvStart => TStart | EvStop => TStop | EvReset => TReset | EvError _ => TError end
|}.
Definition as_EvStart (e : Event) : option unit := match e with EvStart => Some tt | _ => None end.
Definition as_EvError (e : Event) : option Z := match e with EvError c => Some c | _ => None end.
(** The two counters the callbacks capture. *)
Abbreviation Counts := (nat * nat)%type.
Abbreviation Engine := (StateMachineEngine Event Counts).
Abbreviation Script := (M (EngineState Event Counts)).
Definition named (l : list (StateId * string)) (e : Engine) : Engine :=
  foldl (λ e p, e |> register_state p.1) (foldl (λ e p, e |> set_state_name p.1 p.2) e l) l.
Definition plain_rule (src : StateId) (t : EventTag) (dst : StateId) : RuntimeTransition Event Counts := rule src t dst None None.
Definition new_sm : Engine := new_engine default_MachineConfig (0, 0).
(** [auto r = sm.handle(e); ASSERT(r == expected, msg);] *)
Definition expect (e : Engine) (ev : Event) (expected : EventResult) (msg : string) : Script unit :=
  r ← handle (engine_def e) ev; ASSERT (λ _, bool_decide (r = expected)) msg.
Definition at_state (id : StateId) (msg : string) : Script unit := ASSERT (is_in id) msg.
Definition run_test (e : Engine) (t : Script unit) : Verdict := TEST (engine_state e) t.

Definition test_basic_transitions : Verdict :=
  let sm := new_sm |> named [(1%N, "Idle"); (2%N, "Running"); (3%N, "Stopped")] |> set_initial 1 |>
    add_rule (plain_rule 1 TStart 2) |> add_rule (plain_rule 2 TStop 3) |> add_rule (plain_rule 3 TReset 1) in
  run_test sm (
    at_state 1 "should start in Idle";;
    ASSERT (λ s, (current_state s =? 1)%N) "current state should be Idle";;
    expect sm EvStart Handled "EvStart should be handled";; at_state 2 "should transition to Running";;
    expect sm EvStop Handled "EvStop should be handled";; at_state 3 "should transition to Stopped";;
    expect sm EvReset Handled "EvReset should be handled";; at_state 1 "should transition back to Idle";;
    expect sm EvReset Unhandled "EvReset in Idle should be unhandled").
Definition test_guards : Verdict :=
  let sm := new_sm |> named [(1%N, "Open"); (2%N, "Closed")] |> set_initial 1 |>
    add_rule (rule 1 TError 2 (Some (guard_event as_EvError (λ code, 100 <=? code)%Z)) None) in
  run_test sm (
    expect sm (EvError 50) Unhandled "low code should be rejected by guard";; at_state 1 "should stay in Open";;
    expect sm (EvError 200) Handled "high code should pass guard";; at_state 2 "should transition to Closed").
Definition count_first : Counts → Counts := λ c, (S c.1, c.2).
Definition count_second : Counts → Counts := λ c, (c.1, S c.2).
Definition counts (p : Counts → bool) (s : EngineState Event Counts) : bool := p (world s).
Definition test_entry_exit_actions : Verdict :=
  let sm := new_sm |> named [(1%N, "Idle"); (2%N, "Active")] |> set_initial 1 |>
    on_entry 2 (plainly count_first) |> on_exit 1 (plainly count_second) |> add_rule (plain_rule 1 TStart 2) in
  run_test sm (
    ASSERT (counts (λ c, c.1 =? 0)) "entry should not have been called yet";;
    ASSERT (counts (λ c, c.2 =? 0)) "exit should not have been called yet";;
    handle (engine_def sm) EvStart;;
    ASSERT (counts (λ c, c.1 =? 1)) "entry should be called once";; ASSERT (counts (λ c, c.2 =? 1)) "exit should be called once";;
    at_state 2 "should be in Active").
Definition test_transition_actions : Verdict :=
  let sm := new_sm |> named [(1%N, "A"); (2%N, "B")] |> set_initial 1 |>
    add_rule (rule 1 TStart 2 None (Some (λ evt, on_world count_first;; _ ← lift_outcome (envelope_get as_EvStart evt); mret tt))) in
  run_test sm (handle (engine_def sm) EvStart;; ASSERT (counts (λ c, c.1 =? 1)) "action should be called once").
Definition test_unhandled_events : Verdict :=
  let sm := new_sm |> named [(1%N, "Idle")] |> set_initial 1 in
  run_test sm (expect sm EvStart Unhandled "should be unhandled").
Definition test_deferred_events : Verdict :=
  let cfg := {| enable_logging := false; throw_on_invalid_event := false; defer_unhandled_events := true |} in
  let sm := new_engine cfg (0, 0) |> named [(1%N, "Idle"); (2%N, "Ready")] |> set_initial 1 |>
    add_rule (plain_rule 1 TStart 2) |> add_rule (plain_rule 2 TStop 1) in
  run_test sm (
    expect sm EvStop Deferred "EvStop should be deferred in Idle";;
    expect sm EvStart Handled "EvStart should be handled";; at_state 2 "should be in Ready";;
    r3 ← process_deferred (engine_def sm);
    ASSERT (λ _, bool_decide (r3 = Handled)) "deferred EvStop should be handled now";;
    at_state 1 "should be back in Idle after deferred event").
Definition test_reset : Verdict :=
  let sm := new_sm |> named [(1%N, "Idle"); (2%N, "Running")] |> set_initial 1 |> add_rule (plain_rule 1 TStart 2) in
  run_test sm (
    handle (engine_def sm) EvStart;; at_state 2 "should be in Running";;
    reset (engine_def sm);; at_state 1 "should be back in Idle after reset").
Definition test_any_source : Verdict :=
  let sm := new_sm |> named [(1%N, "A"); (2%N, "B"); (3%N, "Error")] |> set_initial 1 |> add_rule (plain_rule 1 TStart 2) |>
    add_rule {| src_id := INVALID_STATE; event_type := type_ev TError; dst_id := 3%N; is_any := true; is_internal := false;
                guard := None; action := None |} in
  run_test sm (
    expect sm (EvError 0) Handled "EvError should be handled via any-source";; at_state 3 "should be in Error";;
    reset (engine_def sm);; handle (engine_def sm) EvStart;; at_state 2 "should be in B";;
    expect sm (EvError 0) Handled "EvError from B should be handled via any-source").
Definition test_state_names : Verdict :=
  let sm := new_sm |> set_state_name 42 "MyCustomState" |> register_state 42 |> set_initial 42 in
  run_test sm (
    ASSERT (λ _, bool_decide (get_state_name (engine_def sm) 42 = "MyCustomState")) "should return registered name";;
    ASSERT (λ _, bool_decide (get_state_name (engine_def sm) 99 = "unknown")) "unregistered state should return 'unknown'").
Definition test_event_envelope : Verdict :=
  let env := envelope (any_ev (EvError 42)) in
  TEST tt (
    ASSERT (λ _, envelope_is (type_ev TError) env) "should identify EvError type";;
    ASSERT (λ _, negb (envelope_is (type_ev TStart) env)) "should not identify as EvStart";;
    extracted ← lift_outcome (envelope_get as_EvError env);
    ASSERT (λ _, (extracted =? 42)%Z) "should extract correct event data").

(** The two tags of the typed machine. *)
Inductive Tag := StateA | StateB.
#[export] Instance Tag_eq_dec : EqDecision Tag.
Proof. solve_decision. Defined.
#[export] Instance Tag_countable : Countable Tag.
Proof.
  refine (inj_countable' (λ t, match t with StateA => true | StateB => false end) (λ b : bool, if b then StateA else StateB) _).
  by intros [].
Defined.
Definition tag_name (t : Tag) : string := match t with StateA => "StateA" | StateB => "StateB" end.
Abbreviation TypedSm := (Typed.Machine Event Counts Tag).
Definition typed_sm : TypedSm :=
  let sm := Typed.new_Machine no_statics default_MachineConfig (0, 0) |> Typed.register_state tag_name StateA |>
    Typed.register_state tag_name StateB |> Typed.set_initial StateA in
  let '(a, st) := typed_id StateA (Typed.statics sm) in let '(b, st) := typed_id StateB st in
  Typed.mkMachine st (Typed.base sm) |> Typed.add_rule (plain_rule a TStart b).
Definition in_tag (t : Tag) (msg : string) : M TypedSm unit :=
  sm ← get; let '(b, sm) := Typed.is_in t sm in put sm;; ASSERT (λ _, b) msg.
Definition test_typed_machine : Verdict := TEST typed_sm (
  in_tag StateA "should start in StateA";;
  (λ sm, Typed.handle EvStart sm);;
  in_tag StateB "should transition to StateB").
(** The last check holds before the event too. *)
Example typed_test_is_vacuous : TEST typed_sm (in_tag StateB "should transition to StateB";; in_tag StateA "still in StateA") = None.
Proof. by_compute. Qed.

(** [s.find(t) != npos] *)
Definition contains (t s : string) : bool := match String.index 0 t s with Some _ => true | None => false end.
Definition test_logging (now : Z) : Verdict :=
  let l := log_now now Loggers.Info "TestModule" "test message" (Loggers.set_level Loggers.Info (Loggers.set_output true Loggers.instance)) in
  TEST tt (ASSERT (λ _, contains "test message" (default "" (last (Loggers.emitted l)))) "log should contain message").
Abbreviation Queue := (Defers.DeferredEventQueue Event nat).
Definition counting (_ : EventEnvelope Event) : M Queue EventResult :=
  modify (λ q, {| Defers.queue_ := Defers.queue_ q; Defers.dq_world := S (Defers.dq_world q) |});; mret Handled.
Definition test_deferred_queue : Verdict := TEST {| Defers.queue_ := []; Defers.dq_world := 0 |} (
  ASSERT Defers.empty "queue should be empty initially";;
  Defers.defer (envelope (any_ev EvStart));; Defers.defer (envelope (any_ev EvStop));;
  ASSERT (λ q, Defers.size q =? 2) "queue should have 2 items";;
  Defers.process_all counting;;
  ASSERT (λ q, Defers.dq_world q =? 2) "should process 2 events";; ASSERT Defers.empty "queue should be empty after processing").

Definition main (now : Z) : list string * Z := results "HFSM Core Tests" [
  ("basic state transitions", test_basic_transitions); ("guards", test_guards); ("entry/exit actions", test_entry_exit_actions);
  ("actions on transition", test_transition_actions); ("unhandled events", test_unhandled_events);
  ("deferred events", test_deferred_events); ("reset", test_reset); ("any-source rules", test_any_source);
  ("state names", test_state_names); ("event envelope", test_event_envelope); ("typed machine", test_typed_machine);
  ("logging", test_logging now); ("deferred event queue", test_deferred_queue)].
Example core_tests_pass : (main 1700000000042).2 = 0%Z ∧ last (main 1700000000042).1 = Some "=== Results: 13 passed, 0 failed ===".
Proof. by_compute. Qed.
End Core.

(** ** [test_hfsm.cpp] *)
Module Extensions.
Import Histories Regions.
Abbreviation HM := (M HistoryManager).
Abbreviation RM := (M RegionManager).
Definition has (i : StateId) (h : HistoryManager) : bool := has_history i h.
Definition not_has (i : StateId) (h : HistoryManager) : bool := negb (has_history i h).
Definition recalls (i : StateId) (expected : StateId) (h : HistoryManager) : bool := (recall i h =? expected)%N.

Definition test_shallow_history : Verdict := TEST (∅ : HistoryManager) (
  modify (configure 100 Shallow);; ASSERT (not_has 100) "should not have history initially";;
  modify (record 100 1);; ASSERT (has 100) "should have history after recording";;
  ASSERT (recalls 100 1) "should restore last active state";;
  modify (record 100 2);; ASSERT (recalls 100 2) "should restore updated state";;
  modify (clear 100);; ASSERT (not_has 100) "should not have history after clear").
Definition test_deep_history : Verdict := TEST (∅ : HistoryManager) (
  modify (configure 200 Deep);; modify (record 200 1);; modify (record 200 2);; modify (record 200 3);;
  ASSERT (recalls 200 1) "deep history should restore first entry").
Definition test_history_no_config : Verdict := TEST (∅ : HistoryManager) (
  ASSERT (not_has 999) "unconfigured state should not have history";;
  modify (record 999 1);; ASSERT (not_has 999) "unconfigured state should still not have history";;
  ASSERT (recalls 999 INVALID_STATE) "unconfigured recall should return INVALID").
Definition test_clear_all : Verdict := TEST (∅ : HistoryManager) (
  modify (configure 1 Shallow);; modify (configure 2 Shallow);; modify (record 1 10);; modify (record 2 20);;
  modify clear_all;;
  ASSERT (not_has 1) "state 1 should be cleared";; ASSERT (not_has 2) "state 2 should be cleared").

Definition inactive (i : StateId) (r : RegionManager) : bool := negb (is_region_active i r).
Definition child_is (i expected : StateId) (r : RegionManager) : bool := (get_active_child i r =? expected)%N.
Definition test_region_basic : Verdict := TEST (∅ : RegionManager) (
  modify (add_region 100 1);; ASSERT (inactive 100) "region should not be active initially";;
  modify (activate_region 100);; ASSERT (is_region_active 100) "region should be active";;
  ASSERT (child_is 100 1) "active child should be initial child";;
  modify (set_active_child 100 2);; ASSERT (child_is 100 2) "active child should be updated";;
  modify (deactivate_region 100);; ASSERT (inactive 100) "region should be inactive";;
  modify (activate_region 100);; ASSERT (child_is 100 2) "history should restore last active child").
Definition test_region_no_history : Verdict := TEST (∅ : RegionManager) (
  modify (add_region 200 5);; ASSERT (child_is 200 5) "initial child should be set").
Definition test_region_unknown : Verdict := TEST (∅ : RegionManager) (
  ASSERT (inactive 999) "unknown region should be inactive";;
  ASSERT (child_is 999 INVALID_STATE) "unknown region should return INVALID").
Definition main : list string * Z := results "HFSM Extension Tests" [
  ("shallow history", test_shallow_history); ("deep history", test_deep_history); ("history without config", test_history_no_config);
  ("history clear all", test_clear_all); ("region basic", test_region_basic);
  ("region without initial activation", test_region_no_history); ("region unknown state", test_region_unknown)].
Example extension_tests_pass : main.2 = 0%Z ∧ last main.1 = Some "=== Results: 7 passed, 0 failed ===".
Proof. by_compute. Qed.
End Extensions.
