(* ===== verification/OrderTests.v ===== *)
(** * The tests of the order domain, [ddd/tests/order_domain_test.cpp]

    A [CHECK] counts and, when it fails, records its line and goes on.  The
    state of a block is the object it tests and the lines that failed. *)
From S2P Require Import Prelude StdMap Order OrderRepo.
Import Money Status Item Pricing.
Local Open Scope prog_scope.

Record Run (S : Type) := mkRun { subject : S; checks : nat; failed_lines : list Z }.
Arguments mkRun {S}.
Arguments subject {S}.
Arguments checks {S}.
Arguments failed_lines {S}.
Abbreviation Block S := (M (Run S) unit).
Definition CHECK {S} (n : Z) (cond : bool) : Block S :=
  modify (λ r, mkRun (subject r) (Datatypes.S (checks r)) (if cond then failed_lines r else failed_lines r ++ [n])).
(** A condition that may throw; one on the subject; a call on the subject. *)
Definition CHECK_of {S A} (n : Z) (o : outcome A) (p : A → bool) : Block S := a ← lift_outcome o; CHECK n (p a).
Definition CHECK_on {S} (n : Z) (p : S → bool) : Block S := r ← get; CHECK n (p (subject r)).
Definition on {S A} (m : M S A) : M (Run S) A := λ r,
  let '(o, s) := m (subject r) in (o, mkRun s (checks r) (failed_lines r)).

Definition status_is (s : OrderStatus) (o : Order) : bool := bool_decide (status_ o = s).
(** [!r && r.err().code() == c]; [r.err()] of a success throws. *)
Definition failed {A} (r : Result A) : bool := negb (is_ok r).
Definition err_code {A} (r : Result A) : outcome ErrorCode := e ← err_of r; Ret (code e).
Definition is_code (c c' : ErrorCode) : bool := bool_decide (c = c').
Definition failed_with {A} (c : ErrorCode) (r : Result A) : outcome bool := if is_ok r then Ret false else c' ← err_code r; Ret (is_code c c').
Definition new_order (i : string) : Order :=
  new_Order (mkOrderId i) (mkCustomerId "C1") (mkAddress "City" "Street" "Detail").

Definition money_block : Block unit :=
  CHECK_of 29 (Money.add (cents 150) (cents 350)) (eqb (cents 500));;
  CHECK_of 30 (Money.mul (cents 1000) 3) (eqb (cents 3000));;
  CHECK_of 31 (format (cents 123456)) (λ s, bool_decide (s = "1234.56"));;
  CHECK_of 32 (format (cents (-50))) (λ s, bool_decide (s = "-0.50"));;
  CHECK 33 (ltb (cents 100) (cents 200));; CHECK 34 (is_zero zero).
Definition item_block : Block unit :=
  CHECK_of 40 (failed_with InvalidQuantity (create "X" 0 (cents 100))) id;;
  CHECK_of 42 (failed_with InvalidUnitPrice (create "X" 1 (cents (-5)))) id;;
  it ← lift_outcome (value (create "X" 2 (cents 150)));
  CHECK_of 44 (lineTotal it) (eqb (cents 300)).
Definition total_block : Block Order :=
  on (addItem "P1" 2 (cents 100));; on (addItem "P2" 3 (cents 200));;
  r ← get; CHECK_of 52 (total (subject r)) (eqb (cents 800));;
  CHECK_on 53 (λ o, itemCount o =? 2).
Definition empty_block : Block Order :=
  r ← on submit; CHECK 60 (failed r);; CHECK_of 61 (err_code r) (is_code EmptyOrder).
Definition locked_block : Block Order :=
  on (addItem "P1" 1 (cents 100));;
  r ← on submit; CHECK 69 (is_ok r);; CHECK_on 70 (status_is Confirmed);;
  locked ← on (addItem "P2" 1 (cents 100)); CHECK 72 (failed locked);; CHECK_of 73 (err_code locked) (is_code OrderLocked).
Definition transition_block : Block Order :=
  on (addItem "P1" 1 (cents 100));;
  r ← on ship; CHECK 80 (failed r);; r ← on complete; CHECK 81 (failed r);;
  r ← on submit; CHECK 82 (is_ok r);; CHECK_on 83 (status_is Confirmed);;
  r ← on ship; CHECK 84 (is_ok r);; CHECK_on 85 (status_is Shipped);;
  cancelled ← on (cancel ""); CHECK 87 (failed cancelled);; CHECK_of 88 (err_code cancelled) (is_code AlreadyShipped);;
  r ← on complete; CHECK 89 (is_ok r);; CHECK_on 90 (status_is Completed);;
  r ← on complete; CHECK 91 (failed r);; r ← on ship; CHECK 92 (failed r).
Definition cancel_block : Block Order :=
  on (addItem "P1" 1 (cents 100));;
  r ← on (cancel ""); CHECK 99 (is_ok r);; CHECK_on 100 (status_is Cancelled);;
  r ← on submit; CHECK 101 (failed r);;
  again ← on (cancel ""); CHECK 103 (failed again);; CHECK_of 104 (err_code again) (is_code AlreadyCancelled).
Definition repository_block : Block InMemoryOrderRepository :=
  let o := (addItem "P1" 2 (cents 100) (new_order "B1")).2 in
  on (modify (mem_save o));;
  CHECK_on 113 (λ r, mem_count r =? 1);;
  CHECK_on 114 (λ r, bool_decide (is_Some (mem_findById r (mkOrderId "B1"))));;
  CHECK_on 115 (λ r, negb (bool_decide (is_Some (mem_findById r (mkOrderId "NOPE")))));;
  CHECK_on 116 (λ r, length (mem_findPage r 0 10) =? 1);;
  b ← on (λ r, let '(b, r) := mem_remove (mkOrderId "B1") r in (Ret b, r)); CHECK 117 b;;
  CHECK_on 118 (λ r, mem_count r =? 0).
Definition pricing_block : Block unit :=
  full ← lift_outcome (discount (cents 60000) 10);
  CHECK 125 (discount_percent full =? 10)%Z;; CHECK 126 (ltb (quote_total full) (subtotal full));;
  small ← lift_outcome (discount (cents 10000) 10);
  CHECK 128 (discount_percent small =? 0)%Z;; CHECK 129 (eqb (quote_total small) (subtotal small)).
Definition result_block : Block unit :=
  CHECK_of 135 (value (ok 42%Z)) (λ v, is_ok (ok 42%Z) && (v =? 42)%Z);;
  CHECK_of 137 (failed_with NotFound (fails NotFound : Result Z)) id;;
  CHECK 139 (is_ok (ok tt));; CHECK 141 (failed (fails EmptyOrder : Result unit)).

(** [main] gives each block its object; the counters go through all of them. *)
Definition block {S} (s : S) (b : Block S) : M (Run unit) unit := λ r,
  let '(o, r') := b (mkRun s (checks r) (failed_lines r)) in (o, mkRun tt (checks r') (failed_lines r')).
Definition main : M (Run unit) (list string * Z) :=
  block tt money_block;; block tt item_block;; block (new_order "A1") total_block;; block (new_order "A2") empty_block;;
  block (new_order "A3") locked_block;; block (new_order "A5") transition_block;; block (new_order "A7") cancel_block;;
  block empty_repo repository_block;; block tt pricing_block;; block tt result_block;;
  r ← get;
  mret ([""; pretty (checks r - length (failed_lines r)) +:+ "/" +:+ pretty (checks r) +:+ " checks passed."],
        if length (failed_lines r) =? 0 then 0%Z else 1%Z).
Example order_tests_pass : main (mkRun tt 0 []) = (Ret ([""; "48/48 checks passed."], 0%Z), mkRun tt 48 []).
Proof. vm_compute. reflexivity. Qed.
