(* ===== verification/CacheDemo.v ===== *)
(** * The program of the compiler cache example, [ccache/]

    [factorial] of [math_util.h] on an [int], with the argument as the bound of
    its recursion, and [main] of [main.cpp]. *)
From S2P Require Import Prelude.
Local Open Scope prog_scope.

Fixpoint factorial_in (fuel : nat) (n : Z) : outcome Z :=
  if (n <=? 1)%Z then Ret 1%Z
  else match fuel with 0 => Undef | S k => f ← factorial_in k (n - 1); signed 32 (n * f) end.
Definition factorial (n : Z) : outcome Z := factorial_in (Z.to_nat n) n.
Definition main : outcome string := f ← factorial 10; Ret ("fact(" +:+ pretty 10%Z +:+ ") = " +:+ pretty f).
Example main_prints : main = Ret "fact(10) = 3628800".
Proof. by_compute. Qed.

(** The product of 1 to [k]. *)
Definition product (k : nat) : Z := foldr Z.mul 1%Z (Z.of_nat <$> seq 1 k).
(** An argument up to 1 gives 1, and up to 12 the factorial; from 13 on the
    product overflows in the call on 13. *)
Lemma factorial_nat (k : nat) : k ≤ 12 → factorial (Z.of_nat k) = Ret (product k).
Proof. intros Hk. do 13 (destruct k as [|k]; [by vm_compute|]). lia. Qed.
Lemma factorial_in_step k n : (1 < n)%Z → factorial_in (S k) n = (factorial_in k (n - 1) ≫= λ f, signed 32 (n * f)).
Proof. intros Hn. simpl. by destruct (Z.leb_spec n 1); [lia|]. Qed.
Lemma factorial_overflows (k : nat) : factorial (Z.of_nat k + 13) = Undef.
Proof.
  unfold factorial. replace (Z.to_nat (Z.of_nat k + 13)) with (k + 13) by lia.
  induction k as [|k IH]; [by vm_compute|]. change (S k + 13) with (S (k + 13)). rewrite factorial_in_step by lia.
  replace (Z.of_nat (S k) + 13 - 1)%Z with (Z.of_nat k + 13)%Z by lia. by rewrite IH.
Qed.
Lemma factorial_exact n :
  factorial n = if (n <=? 1)%Z then Ret 1%Z else if (n <=? 12)%Z then Ret (product (Z.to_nat n)) else Undef.
Proof.
  destruct (Z.leb_spec n 1) as [H1|H1].
  { unfold factorial. destruct (Z.to_nat n); simpl; by rewrite (proj2 (Z.leb_le n 1) H1). }
  destruct (Z.leb_spec n 12) as [H12|H12].
  { rewrite <- factorial_nat by lia. by rewrite Z2Nat.id by lia. }
  replace n with (Z.of_nat (Z.to_nat n - 13) + 13)%Z by lia. apply factorial_overflows.
Qed.
